(* ===== verification/_CoqProject ===== *)
-Q . S2P
Prelude.v
Memory.v
CString.v
LinkedList.v
Sort.v
Segments.v
Frames.v
Machine.v
Irq.v
Paging.v
Mmu.v
Kmalloc.v
Objects.v
Sched.v
Blocking.v
Procs.v
Exit.v
Vga.v
Serial.v
Printk.v
Boot.v
Keyboard.v
Fs.v
HwInit.v
Pci.v
Ata.v
Fat.v
Mount.v
Kernel.v
Report.v
Disk.v
Echo.v
Stress.v
Dump.v
Probe.v
Open.v
Platform.v
