(* ===== verification/Prelude.v ===== *)
(** * Marimba: a verification development for the kernel under src/src

    Marimba is a small x86-64 kernel in C.  It is started by a multiboot2
    loader, sorts out which physical memory is free, sets up page tables with
    demand paging, runs cooperative kernel processes, and drives a text screen,
    a serial port, a keyboard and a disk.  This library models that code
    definition by definition and proves what makes each part correct, or, where
    the code is wrong, exactly what it does instead.

    ** How C is modelled

    Every C integer is a [Z], cut to its width where the code stores or computes
    in that width ([u8] .. [u64], [i8] .. [i64] below).  Memory is a finite map
    from addresses to bytes with little-endian accessors (Memory.v); structures
    that the code links by pointers live in that memory at their C offsets.
    Fallible code returns an [outcome]: [Ok], [Fault] for what C leaves
    undefined, or [Hang] when a loop used up its fuel.  Fuel appears only in
    loops that end on data (a NUL byte, an end tag, an empty list); the theorems
    give the fuel that is enough in terms of that data, so that they show
    termination; and in loops that poll a device, which end when it answers, and
    the theorems about any device say that only a status that never changes uses
    the fuel up ([stuck] in Probe.v).  Hardware is a class: [PortIO] (Machine.v) is an arbitrary
    device behind the port instructions, and [Ps2Controller], [PciHost],
    [AtaDrive], [AtaInterrupt], [PicPair] and [ComPort] say what the drivers rely
    on of one; each has an instance, a small simulated device, on which the theorems are run.

    ** Files

    - Prelude.v: integers, outcomes, tactics and hints.
    - Memory.v: bytes, words, frames ([only_in], [apart], [mem_eq]).
    - CString.v: string.c, each function a loop over memory.
    - LinkedList.v: list.c and list.h, intrusive circular lists; [list_rep]
      relates the pointers to a list of elements.
    - Sort.v: utils.c, the selection sort over raw bytes against the class
      [ElemCallbacks] of its callbacks.
    - Segments.v: the segment arithmetic of mmu.c ([mmu_compute_excluded],
      [mmu_compute_free_segments]) on arrays of linked nodes.
    - Frames.v: [MMU_alloc_frame], [MMU_free_frame]; the class [FrameAllocator]
      is what page tables need of them.
    - Machine.v, Irq.v: ports, log, atomics; arch/x86_64/interrupts.c: nesting
      of disabled interrupts, the handler table, the two 8259 controllers.
    - Paging.v: arch/x86_64/paging.c against [FrameAllocator]; [translate] is the
      processor's walk of the tables, [vm_rep] relates tables to a set of mapped
      and demanded pages.
    - Mmu.v: the rest of mmu.c: [MMU_init], heap pages and stacks.
    - Kmalloc.v: kmalloc.c against the class [PageSource], which Mmu.v implements.
    - Sched.v: proc.c, syscall.c, arch/x86_64/proc.c and the interrupt dispatcher
      [IRQ_generic_isr]: queues, context switch, system calls.
    - Vga.v, Serial.v: vga.c; drivers/serial.
    - Printk.v: printk.c against the class [ConsoleOps] and its laws [Console],
      which the display and the serial port together implement.
    - Boot.v: boot.c and elf.c, from multiboot tags to the memory map that
      [MMU_init] takes.
    - Objects.v: what a client of the heap may rely on: objects it owns, static
      objects, and how writes to them keep the heap's representation.
    - Procs.v: [PROC_create_process] on top of heap, stacks and queues.
    - Exit.v: [process_exit], from the list of processes to the next switch.
    - Keyboard.v: drivers/keyboard, against the class [Ps2Controller].
    - Fs.v: fs.c and fs.h: device lists, the boot record, open/read/close.
    - HwInit.v: arch/x86_64/hw_init.c: descriptor tables on the byte memory.
    - Pci.v: drivers/pci.c against the class [PciHost] of a host bridge.
    - Ata.v: drivers/disk/ata.c against the class [AtaDrive]; [ata_read_block]
      is in two halves, before and after it blocks.
    - Fat.v: fs/fat.c, with C's int arithmetic ([as_int] faults on overflow).
    - Blocking.v: sleeping and waking over whole executions, against an abstract
      scheduler of a running process, a ready queue and a waiting queue.
    - Mount.v: procs/fs.c, from the disk's boot record to a mounted volume.
    - Kernel.v: kmain.c and panic.c, the order in which the components come up.
    - Report.v: the text of [klog] and the listings of processes and files.
    - Disk.v: [ata_read_block] called by several processes, with the drive's
      interrupts and the scheduler.
    - Echo.v: procs/keyboard_io.c on a machine that has scheduler, keyboard,
      file layer and console.
    - Stress.v, Dump.v: procs/stress_test.c; [dump_block] of procs/fs.c.
    - Probe.v: [ata_probe] against whatever device answers the ports.
    - Open.v: opening and closing the keyboard, against any controller.
    - Platform.v: [HW_init], with the interrupt controllers and the serial port
      as state machines (classes [PicPair] and [ComPort]).

    ** What the theorems show

    - Boot to memory: [BOOT_parse_multiboot_reads] (the map holds the RAM and the
      sorted sections of the tags), [mmu_compute_excluded_exact],
      [mmu_compute_free_segments_exact] (the free segments are exactly the
      usable pages) and [MMU_init_ready] (from there to a running MMU).
    - Memory management: [frame_allocator_refines_fifo], [PT_demand_fault_maps],
      [PT_free_unmaps], [PT_init_identity] and [MMU_pages_roundtrip] relate the
      bit-level tables to the processor's translation; [kmalloc_small_fresh] and
      [kfree_kmalloc_reuse] give the heap's contract.
    - Data structures: [LL_queue_refines], [LL_del_unlinks], the sorting and the
      string theorems.
    - Interrupts and processes: [IRQ_nesting], [IRQ_masks_exact],
      [yield_round_robin] (a liveness theorem over executions as a step
      relation), [context_roundtrip], [unblock_moves].
    - Output: [VGA_display_str_refines], [serial_refines_queue],
      [printk_formats], [disp_unsigned_roundtrip].
    - Processes, devices and files: [PROC_create_process_starts],
      [keyboard_delivers] (what is typed is what is read),
      [ata_serves_in_order] (the disk as a queue in front of the drive),
      [PCI_enum_lists], [pci_enum_device_exact], [PCI_register_probes],
      [BLK_register_open], [FS_register_fat32_loads],
      [keyboard_type_safe] (no controller can break the keyboard's types), [init_gdt_tables],
      [gdt_sys_init_roundtrip].
    - Composition: [blocking_refines] and [woken_runs] (the scheduler with
      sleeping processes and the idle loop), [FS_process_mbr_registers] and
      [filesystem_init_mounts] (disk, partitions, open by name and FAT in one
      run), [kmain_memory_ready] (boot tags to virtual memory).
      [process_exit_removes] ends a process; [no_lost_wakeup] covers a wake-up
      that comes while the process is about to sleep.
    - End to end: [disk_reads] (every reader gets the block it asked for,
      whatever the interleaving), [keyboard_echo] (from the scan codes to screen
      and serial line), [test_processes_alternate] (printing and yielding).
    - Messages: [klog_prints], [process_listings], [dump_loop_prints].
    - Start-up of the devices: [HW_init_ready] (tables, interrupt controllers and
      serial port), [ata_probe_outcomes] (a disk is attached or everything is given
      back), [keyboard_opens] (what [keyboard_io] begins with; its last case is the
      state [keyboard_echo] starts from), [ps2_close_leaks].
    - Defects, as theorems about what the code does: [carve_hangs_on_swallowed],
      [sort_mmap_entry_array_corrupts], [strcpy_drops_terminator],
      [PT_addr_virt_to_phys_scaled], [MMU_alloc_page_exhausted],
      [MMU_alloc_stack_never_exhausted], [MMU_free_stack_wrong_direction],
      [IRQ_set_handler_cases], [kmalloc_large_overflows], [kmalloc_size_wraps],
      [VGA_carriage_return_escapes], [parse_mmap_no_ram],
      [FS_register_cdev_corrupts_blocks], [fat32_next_cluster_searches],
      [fat32_read_clust_reads_nothing].

    ** What is not modelled

    Assembly (boot code, interrupt entry, the generated IDT) and the calls that
    [kmain] makes under STRESS_TEST, one of them to a function the repository
    does not have.  Endless loops ([kmain]'s last one, the processes under procs/)
    are modelled a turn at a time.  The components log into a list of levels and
    formats; that [klog] prints them as text is Report.v's theorem and is not
    repeated at every call.  Interrupts that arrive in the middle of a C function
    are not interleaved: a handler runs between operations, and
    [no_lost_wakeup] treats the one window that the code opens itself, in
    [PROC_block_on] before the yield.  The kernel's virtual memory
    in Kmalloc.v and Sched.v is a byte memory of its own; that its pages are
    backed by frames is Mmu.v's theorem. *)

From stdpp Require Export base numbers list gmap strings.

Open Scope Z_scope.

(** ** Machine integers *)

(** Every C integer is a [Z]; the width of a C type is applied explicitly, at
    the points where the C code stores or computes in that type. *)
Definition u8 (x : Z) : Z := x mod 256.
Definition u16 (x : Z) : Z := x mod 65536.
Definition u32 (x : Z) : Z := x mod 4294967296.
Definition u64 (x : Z) : Z := x mod 18446744073709551616.

(** Conversion to a signed [w]-bit type (two's complement). *)
Definition signed (w x : Z) : Z :=
  let y := x mod 2 ^ w in if y <? 2 ^ (w - 1) then y else y - 2 ^ w.
Definition i8 (x : Z) : Z := signed 8 x.
Definition i16 (x : Z) : Z := signed 16 x.
Definition i32 (x : Z) : Z := signed 32 x.
Definition i64 (x : Z) : Z := signed 64 x.

(** The C truth value of an integer. *)
Definition truth (x : Z) : bool := negb (x =? 0).
Definition b2z (b : bool) : Z := if b then 1 else 0.

Definition NULL : Z := 0.

(** ** Outcomes of C code *)

(** [Ok] carries a result; [Fault] is an access the C abstract machine does
    not define (an index past the end of an array, a dereference of NULL);
    [Hang] is a loop that did not finish within the fuel it was given. *)
Inductive outcome (A : Type) : Type :=
  | Ok (a : A)
  | Fault
  | Hang.
Arguments Ok {A} a.
Arguments Fault {A}.
Arguments Hang {A}.

#[export] Instance outcome_ret : MRet outcome := fun A a => Ok a.
#[export] Instance outcome_bind : MBind outcome := fun A B f m =>
  match m with Ok a => f a | Fault => Fault | Hang => Hang end.

(** An array access: out of range is a fault. *)
Definition idx {A} (l : list A) (i : nat) : outcome A :=
  match l !! i with Some x => Ok x | None => Fault end.

(** An array store: out of range is a fault. *)
Definition upd {A} (l : list A) (i : nat) (x : A) : outcome (list A) :=
  if decide (i < length l)%nat then Ok (<[i := x]> l) else Fault.

Lemma bind_Ok {A B} (f : A → outcome B) (a : A) : mbind f (Ok a) = f a.
Proof. reflexivity. Qed.

Lemma Ok_pair_inj {A B} (a a' : A) (b b' : B) : Ok (a, b) = Ok (a', b') → a = a' ∧ b = b'.
Proof. by intros [= -> ->]. Qed.

Lemma idx_Ok {A} (l : list A) i x : idx l i = Ok x ↔ l !! i = Some x.
Proof. unfold idx. destruct (l !! i); naive_solver. Qed.

Lemma upd_Ok {A} (l : list A) i x :
  (i < length l)%nat → upd l i x = Ok (<[i := x]> l).
Proof. intros. unfold upd. by rewrite decide_True. Qed.

(** ** Automation *)

Create HintDb marimba.
Create Rewrite HintDb marimba_rw.

(** [lia] extended with the width conversions and with division. *)
Ltac word_lia :=
  unfold u8, u16, u32, u64, truth, b2z, NULL in *;
  Z.to_euclidean_division_equations; lia.

(** Case analysis on the boolean comparisons of the code. *)
Ltac bool_cases :=
  repeat match goal with
  | H : (_ && _)%bool = true |- _ => apply andb_true_iff in H; destruct H
  | H : (_ || _)%bool = false |- _ => apply orb_false_iff in H; destruct H
  | H : negb _ = true |- _ => apply negb_true_iff in H
  | H : negb _ = false |- _ => apply negb_false_iff in H
  | H : (_ =? _) = true |- _ => apply Z.eqb_eq in H
  | H : (_ =? _) = false |- _ => apply Z.eqb_neq in H
  | H : (_ <? _) = true |- _ => apply Z.ltb_lt in H
  | H : (_ <? _) = false |- _ => apply Z.ltb_ge in H
  | H : (_ <=? _) = true |- _ => apply Z.leb_le in H
  | H : (_ <=? _) = false |- _ => apply Z.leb_gt in H
  end.

(** ** Arithmetic shared by the components *)

Lemma u8_small x : 0 ≤ x < 256 → u8 x = x.
Proof. intros. unfold u8. by apply Z.mod_small. Qed.
Lemma u32_small x : 0 ≤ x < 4294967296 → u32 x = x.
Proof. intros. unfold u32. by apply Z.mod_small. Qed.
Lemma u64_small x : 0 ≤ x < 18446744073709551616 → u64 x = x.
Proof. intros. unfold u64. by apply Z.mod_small. Qed.

Lemma u8_range x : 0 ≤ u8 x < 256.
Proof. unfold u8. by apply Z.mod_pos_bound. Qed.
Lemma u32_range x : 0 ≤ u32 x < 4294967296.
Proof. unfold u32. by apply Z.mod_pos_bound. Qed.
Lemma u64_range x : 0 ≤ u64 x < 18446744073709551616.
Proof. unfold u64. by apply Z.mod_pos_bound. Qed.

Lemma u8_idem x : u8 (u8 x) = u8 x.
Proof. apply u8_small, u8_range. Qed.
Lemma u64_idem x : u64 (u64 x) = u64 x.
Proof. apply u64_small, u64_range. Qed.

#[export] Hint Rewrite u8_idem u64_idem : marimba_rw.
#[export] Hint Resolve u8_range u32_range u64_range : marimba.

Lemma Forall2_elem_impl {A B} (P Q : A → B → Prop) l k :
  Forall2 P l k → (∀ x y, x ∈ l → P x y → Q x y) → Forall2 Q l k.
Proof.
  induction 1 as [|x y l k Hxy _ IH]; intros HPQ; constructor; [apply HPQ; [left|done]|].
  apply IH. intros x' y' Hx'. apply HPQ. by right.
Qed.
