(* ===== verification/Memory.v ===== *)
(** * Byte-addressed memory

    The store every pointer of the kernel reads and writes: a finite map from
    addresses to bytes, with the 16-, 32- and 64-bit little-endian accesses
    the compiler emits on x86_64 built from it.  An address that was never
    written reads as zero; no theorem depends on that default, because all of
    them quantify over the initial memory. *)

From S2P Require Import Prelude.

Abbreviation mem := (gmap Z Z).

Definition rd8 (m : mem) (a : Z) : Z := u8 (default 0 (m !! a)).
Definition wr8 (m : mem) (a v : Z) : mem := <[a := u8 v]> m.

Fixpoint rd_le (n : nat) (m : mem) (a : Z) : Z :=
  match n with
  | O => 0
  | S n => rd8 m a + 256 * rd_le n m (a + 1)
  end.

Fixpoint wr_le (n : nat) (m : mem) (a v : Z) : mem :=
  match n with
  | O => m
  | S n => wr_le n (wr8 m a v) (a + 1) (v / 256)
  end.

Definition rd16 := rd_le 2.
Definition rd32 := rd_le 4.
Definition rd64 := rd_le 8.
Definition wr16 := wr_le 2.
Definition wr32 := wr_le 4.
Definition wr64 := wr_le 8.

#[global] Arguments rd8 : simpl never.
#[global] Arguments wr8 : simpl never.
#[global] Arguments rd16 : simpl never.
#[global] Arguments wr16 : simpl never.
#[global] Arguments rd32 : simpl never.
#[global] Arguments wr32 : simpl never.
#[global] Arguments rd64 : simpl never.
#[global] Arguments wr64 : simpl never.

(** Two byte ranges do not overlap. *)
Definition apart (a la b lb : Z) : Prop := a + la ≤ b ∨ b + lb ≤ a.

(** Two memories with the same bytes. *)
Definition mem_eq (m1 m2 : mem) : Prop := ∀ a, rd8 m1 a = rd8 m2 a.

(** [m2] differs from [m1] only inside the [n] bytes from [a]. *)
Definition only_in (a n : Z) (m1 m2 : mem) : Prop :=
  ∀ b, ¬ (a ≤ b < a + n) → rd8 m2 b = rd8 m1 b.

#[export] Instance mem_eq_equiv : Equivalence mem_eq.
Proof.
  split; [done | by intros m1 m2 H a | intros m1 m2 m3 H1 H2 a].
  by rewrite (H1 a), (H2 a).
Qed.

Lemma rd8_range m a : 0 ≤ rd8 m a < 256.
Proof. apply u8_range. Qed.

Lemma rd8_wr8 m a b v : rd8 (wr8 m a v) b = if decide (a = b) then u8 v else rd8 m b.
Proof.
  unfold rd8, wr8. rewrite lookup_insert. case_decide; [|done].
  apply u8_small, u8_range.
Qed.

Lemma rd8_wr8_eq m a v : rd8 (wr8 m a v) a = u8 v.
Proof. by rewrite rd8_wr8, decide_True. Qed.

Lemma rd8_wr8_ne m a b v : a ≠ b → rd8 (wr8 m a v) b = rd8 m b.
Proof. intros. by rewrite rd8_wr8, decide_False. Qed.

#[export] Instance rd8_proper : Proper (mem_eq ==> eq ==> eq) rd8.
Proof. intros m1 m2 H a ? <-. apply H. Qed.

#[export] Instance wr8_proper : Proper (mem_eq ==> eq ==> eq ==> mem_eq) wr8.
Proof. intros m1 m2 H a ? <- v ? <- b. rewrite !rd8_wr8. by case_decide. Qed.

#[export] Instance rd_le_proper n : Proper (mem_eq ==> eq ==> eq) (rd_le n).
Proof.
  intros m1 m2 H a ? <-. revert a. induction n as [|n IH]; intros a; cbn; [done|].
  by rewrite H, IH.
Qed.

#[export] Instance wr_le_proper n : Proper (mem_eq ==> eq ==> eq ==> mem_eq) (wr_le n).
Proof.
  intros m1 m2 H a ? <- v ? <-. revert m1 m2 H a v.
  induction n as [|n IH]; intros m1 m2 H a v; cbn; [done|].
  apply IH. by rewrite H.
Qed.

Lemma rd8_wr_le_out n m a v b :
  ¬ (a ≤ b < a + Z.of_nat n) → rd8 (wr_le n m a v) b = rd8 m b.
Proof.
  revert m a v. induction n as [|n IH]; intros m a v Hb; cbn [wr_le]; [done|].
  rewrite IH by lia. apply rd8_wr8_ne. lia.
Qed.

Lemma wr_le_only_in n m a v : only_in a (Z.of_nat n) m (wr_le n m a v).
Proof. intros b Hb. by apply rd8_wr_le_out. Qed.

Lemma rd_le_ext n m1 m2 a :
  (∀ b, a ≤ b < a + Z.of_nat n → rd8 m1 b = rd8 m2 b) →
  rd_le n m1 a = rd_le n m2 a.
Proof.
  revert a. induction n as [|n IH]; intros a H; cbn [rd_le]; [done|].
  rewrite H by lia. rewrite IH; [done|]. intros. apply H. lia.
Qed.

Lemma rd_le_range n m a : 0 ≤ rd_le n m a < 256 ^ Z.of_nat n.
Proof.
  revert a. induction n as [|n IH]; intros a; cbn [rd_le]; [done|].
  rewrite Nat2Z.inj_succ, Z.pow_succ_r by lia.
  pose proof (rd8_range m a). specialize (IH (a + 1)). lia.
Qed.

Lemma rd_le_wr_le n m a v : rd_le n (wr_le n m a v) a = v mod 256 ^ Z.of_nat n.
Proof.
  revert m a v. induction n as [|n IH]; intros m a v; cbn [rd_le wr_le].
  { by rewrite Z.mod_1_r. }
  rewrite IH, rd8_wr_le_out, rd8_wr8_eq by lia.
  rewrite Nat2Z.inj_succ, Z.pow_succ_r by lia.
  rewrite Z.rem_mul_r by lia. unfold u8. lia.
Qed.

Lemma rd_le_wr_le_apart n k m a b v :
  apart a (Z.of_nat n) b (Z.of_nat k) → rd_le n (wr_le k m b v) a = rd_le n m a.
Proof.
  intros Hap. apply rd_le_ext. intros c Hc. apply rd8_wr_le_out.
  unfold apart in Hap. lia.
Qed.

Lemma rd_le_only_in n a la m1 m2 b :
  only_in a la m1 m2 → apart b (Z.of_nat n) a la → rd_le n m2 b = rd_le n m1 b.
Proof.
  intros Hon Hap. apply rd_le_ext. intros c Hc. apply Hon. unfold apart in Hap. lia.
Qed.

Lemma only_in_trans a n m1 m2 m3 :
  only_in a n m1 m2 → only_in a n m2 m3 → only_in a n m1 m3.
Proof. intros H1 H2 b Hb. by rewrite H2, H1. Qed.

Lemma only_in_weaken a n a' n' m1 m2 :
  only_in a n m1 m2 → a' ≤ a → a + n ≤ a' + n' → only_in a' n' m1 m2.
Proof. intros H ?? b Hb. apply H. lia. Qed.

(** A long word is a short one and the word after it. *)
Lemma rd_le_app n k m a : rd_le (n + k) m a = rd_le n m a + 256 ^ Z.of_nat n * rd_le k m (a + Z.of_nat n).
Proof.
  revert a. induction n as [|n IH]; intros a.
  - cbn [Nat.add rd_le]. rewrite Z.add_0_r. change (256 ^ Z.of_nat 0) with 1. lia.
  - cbn [Nat.add rd_le]. rewrite IH. replace (a + 1 + Z.of_nat n) with (a + Z.of_nat (S n)) by lia.
    rewrite Nat2Z.inj_succ, Z.pow_succ_r by lia. lia.
Qed.

(** The 64-bit accesses, which carry every pointer of the kernel. *)
Lemma rd64_range m a : 0 ≤ rd64 m a < 18446744073709551616.
Proof. exact (rd_le_range 8 m a). Qed.

Lemma rd64_wr64_eq m a v : rd64 (wr64 m a v) a = u64 v.
Proof. exact (rd_le_wr_le 8 m a v). Qed.

Lemma rd64_wr64_apart m a b v : apart a 8 b 8 → rd64 (wr64 m b v) a = rd64 m a.
Proof. exact (rd_le_wr_le_apart 8 8 m a b v). Qed.

Lemma u64_rd64 m a : u64 (rd64 m a) = rd64 m a.
Proof. apply u64_small, rd64_range. Qed.

#[export] Hint Rewrite rd64_wr64_eq u64_rd64 : marimba_rw.
#[export] Hint Resolve rd64_range rd8_range : marimba.
