(* ===== verification/CString.v ===== *)
(** * The C string routines (src/src/string.c)

    [memset], [memcpy], [memcmp], [strlen], [strcpy] and [strcmp] on the byte
    memory.  A loop bounded by a length recurses on it; a loop that runs until
    it meets a NUL byte takes fuel and is [Hang] when the fuel ends first. *)

From S2P Require Import Prelude Memory.

(** ** The code *)

Fixpoint memset_loop (n : nat) (m : mem) (cur c : Z) : mem :=
  match n with
  | O => m
  | S n => memset_loop n (wr8 m cur c) (cur + 1) c
  end.

(** [memset(dest, c, n)]: the new memory and the returned pointer. *)
Definition memset (m : mem) (dest c n : Z) : mem * Z :=
  (memset_loop (Z.to_nat n) m dest c, dest).

Fixpoint memcpy_loop (n : nat) (m : mem) (dcur scur : Z) : mem :=
  match n with
  | O => m
  | S n => memcpy_loop n (wr8 m dcur (rd8 m scur)) (dcur + 1) (scur + 1)
  end.

Definition memcpy (m : mem) (dest src n : Z) : mem * Z :=
  (memcpy_loop (Z.to_nat n) m dest src, dest).

Fixpoint memcmp_loop (n : nat) (m : mem) (m1 m2 : Z) : Z :=
  match n with
  | O => 0
  | S n =>
      if i8 (rd8 m m1) =? i8 (rd8 m m2) then memcmp_loop n m (m1 + 1) (m2 + 1)
      else i8 (rd8 m m1) - i8 (rd8 m m2)
  end.

Definition memcmp (m : mem) (m1 m2 n : Z) : Z := memcmp_loop (Z.to_nat n) m m1 m2.

Fixpoint strlen_loop (fuel : nat) (m : mem) (cur count : Z) : outcome Z :=
  match fuel with
  | O => Hang
  | S fuel =>
      if truth (rd8 m cur) then strlen_loop fuel m (cur + 1) (u64 (count + 1))
      else Ok count
  end.

Definition strlen (fuel : nat) (m : mem) (s : Z) : outcome Z := strlen_loop fuel m s 0.

(** The copy loop tests the byte after the one it has just copied. *)
Fixpoint strcpy_loop (fuel : nat) (m : mem) (dcur scur : Z) : outcome mem :=
  match fuel with
  | O => Hang
  | S fuel =>
      let m := wr8 m dcur (rd8 m scur) in
      if truth (rd8 m (scur + 1)) then strcpy_loop fuel m (dcur + 1) (scur + 1)
      else Ok m
  end.

Definition strcpy (fuel : nat) (m : mem) (dest src : Z) : outcome (mem * Z) :=
  m ← strcpy_loop fuel m dest src; Ok (m, dest).

Fixpoint strcmp (fuel : nat) (m : mem) (s1 s2 : Z) : outcome Z :=
  match fuel with
  | O => Hang
  | S fuel =>
      let c1 := i8 (rd8 m s1) in
      let c2 := i8 (rd8 m s2) in
      if truth c1 && truth c2 then
        if negb (c1 =? c2) then Ok (c1 - c2)
        else strcmp fuel m (s1 + 1) (s2 + 1)
      else if truth c1 || truth c2 then Ok (c1 - c2)
      else Ok 0
  end.

(** ** What the routines promise *)

(** The NUL-terminated string at [a] has the characters [s]. *)
Fixpoint cstr (m : mem) (a : Z) (s : list Z) : Prop :=
  match s with
  | [] => rd8 m a = 0
  | c :: s => rd8 m a = c ∧ c ≠ 0 ∧ cstr m (a + 1) s
  end.

(** ** Lemmas *)

Lemma memset_loop_rd8 n m a c b :
  rd8 (memset_loop n m a c) b =
    if decide (a ≤ b < a + Z.of_nat n) then u8 c else rd8 m b.
Proof.
  revert m a. induction n as [|n IH]; intros m a; cbn [memset_loop].
  { rewrite decide_False by lia. done. }
  rewrite IH, rd8_wr8. repeat case_decide; try done; lia.
Qed.

Lemma memset_rd8 m a c n b :
  0 ≤ n → rd8 (memset m a c n).1 b = if decide (a ≤ b < a + n) then u8 c else rd8 m b.
Proof.
  intros. unfold memset. cbn [fst]. rewrite memset_loop_rd8, Z2Nat.id by done. done.
Qed.

Lemma memset_only_in m a c n : 0 ≤ n → only_in a n m (memset m a c n).1.
Proof. intros Hn b Hb. rewrite memset_rd8 by done. by rewrite decide_False. Qed.

(** A word inside a zeroed range reads as zero. *)
Lemma rd_le_zero k m a : (∀ b, a ≤ b < a + Z.of_nat k → rd8 m b = 0) → rd_le k m a = 0.
Proof.
  revert a. induction k as [|k IH]; intros a H; cbn [rd_le]; [done|].
  rewrite H by lia. rewrite IH; [done|]. intros. apply H. lia.
Qed.

Lemma rd64_memset_zero m a n b :
  a ≤ b → b + 8 ≤ a + n → rd64 (memset m a 0 n).1 b = 0.
Proof.
  intros. apply rd_le_zero. intros c Hc. rewrite memset_rd8 by lia.
  by rewrite decide_True by lia.
Qed.

Lemma rd64_memset_apart m a c n b :
  0 ≤ n → apart b 8 a n → rd64 (memset m a c n).1 b = rd64 m b.
Proof.
  intros Hn Hap. eapply (rd_le_only_in 8); [by apply memset_only_in | done].
Qed.

(** Copying upwards is right whenever the destination does not start inside
    the source range. *)
Lemma memcpy_loop_rd8 n m d s b :
  d ≤ s ∨ s + Z.of_nat n ≤ d →
  rd8 (memcpy_loop n m d s) b =
    if decide (d ≤ b < d + Z.of_nat n) then rd8 m (s + (b - d)) else rd8 m b.
Proof.
  revert m d s. induction n as [|n IH]; intros m d s Hds; cbn [memcpy_loop].
  { rewrite decide_False by lia. done. }
  rewrite IH by lia. pose proof (rd8_range m s).
  destruct (decide (b = d)) as [->|].
  - rewrite decide_False, rd8_wr8_eq, decide_True by lia.
    rewrite u8_small by lia. f_equal. lia.
  - destruct (decide (d + 1 ≤ b < d + 1 + Z.of_nat n)).
    + rewrite decide_True by lia. rewrite rd8_wr8_ne by lia. f_equal. lia.
    + rewrite decide_False by lia. apply rd8_wr8_ne. lia.
Qed.

Lemma cstr_rd8 m a s i c : cstr m a s → s !! i = Some c → rd8 m (a + Z.of_nat i) = c ∧ c ≠ 0.
Proof.
  revert a i. induction s as [|c' s IH]; intros a i Hs Hi; [done|].
  destruct Hs as (H1 & H2 & H3). destruct i as [|i]; simplify_eq/=.
  - by rewrite Z.add_0_r.
  - destruct (IH (a + 1) i H3 Hi) as [? ?]. split; [|done].
    replace (a + Z.of_nat (S i)) with (a + 1 + Z.of_nat i) by lia. done.
Qed.

Lemma cstr_ext m1 m2 a s :
  (∀ b, a ≤ b ≤ a + Z.of_nat (length s) → rd8 m1 b = rd8 m2 b) →
  cstr m1 a s → cstr m2 a s.
Proof.
  revert a. induction s as [|c s IH]; intros a H; cbn [cstr].
  - intros E. rewrite <- H by (cbn; lia). done.
  - intros (H1 & H2 & H3). rewrite <- H by (cbn; lia).
    repeat split; [done..|]. apply IH; [|done]. intros. apply H. cbn. lia.
Qed.

Lemma i8_zero c : 0 ≤ c < 256 → truth (i8 c) = truth c.
Proof.
  intros. unfold i8, signed, truth. change (2 ^ 8) with 256. change (2 ^ (8 - 1)) with 128.
  rewrite Z.mod_small by lia. f_equal.
  destruct (Z.ltb_spec c 128); [done|].
  destruct (Z.eqb_spec (c - 256) 0), (Z.eqb_spec c 0); (lia || done).
Qed.

Lemma i8_inj c d : 0 ≤ c < 256 → 0 ≤ d < 256 → i8 c = i8 d → c = d.
Proof.
  intros ? ?. unfold i8, signed. change (2 ^ 8) with 256. change (2 ^ (8 - 1)) with 128.
  rewrite !Z.mod_small by lia.
  destruct (Z.ltb_spec c 128), (Z.ltb_spec d 128); lia.
Qed.

Lemma strlen_loop_ok fuel m a s k :
  cstr m a s → (length s < fuel)%nat →
  0 ≤ k → k + Z.of_nat (length s) < 18446744073709551616 →
  strlen_loop fuel m a k = Ok (k + Z.of_nat (length s)).
Proof.
  revert fuel a k. induction s as [|c s IH]; intros [|fuel] a k Hs Hf Hk Hb;
    cbn [length] in *; try lia; cbn [strlen_loop cstr] in *.
  - rewrite Hs. cbn. f_equal. lia.
  - destruct Hs as (-> & Hc & Hs). unfold truth.
    rewrite (proj2 (Z.eqb_neq c 0)) by done. cbn [negb].
    rewrite u64_small by lia. rewrite IH by (done || lia). f_equal. lia.
Qed.

Lemma strlen_cstr (fuel : nat) (m : mem) (a : Z) (s : list Z) :
  cstr m a s → (length s < fuel)%nat → Z.of_nat (length s) < 18446744073709551616 →
  strlen fuel m a = Ok (Z.of_nat (length s)).
Proof. intros. unfold strlen. by rewrite (strlen_loop_ok fuel m a s). Qed.

(** ** Theorems *)

(** [memcpy] copies its [n] bytes, and nothing else, whenever the
    destination does not start inside the source, which includes the
    overlapping upward copy the screen scroll makes. *)
Theorem memcpy_copies (m : mem) (dest src n : Z) :
  0 ≤ n → dest ≤ src ∨ src + n ≤ dest →
  let m' := (memcpy m dest src n).1 in
  (∀ i, 0 ≤ i < n → rd8 m' (dest + i) = rd8 m (src + i)) ∧ only_in dest n m m'.
Proof.
  intros Hn Hds m'. subst m'. unfold memcpy. cbn [fst]. split.
  - intros i Hi. rewrite memcpy_loop_rd8 by lia. rewrite decide_True by lia. f_equal. lia.
  - intros b Hb. rewrite memcpy_loop_rd8 by lia. rewrite decide_False by lia. done.
Qed.

Lemma memcpy_copies_witness :
  rd8 (memcpy (wr8 (wr8 ∅ 101 7) 102 9) 100 101 2).1 (100 + 1) = 9.
Proof.
  rewrite (proj1 (memcpy_copies (wr8 (wr8 ∅ 101 7) 102 9) 100 101 2 ltac:(lia) ltac:(lia)));
    [reflexivity|lia].
Defined.

Lemma strcpy_ok (fuel : nat) (m : mem) (dest src : Z) (s : list Z) :
  cstr m src s → s ≠ [] → (length s ≤ fuel)%nat →
  apart dest (Z.of_nat (length s)) src (Z.of_nat (length s) + 1) →
  ∃ m', strcpy fuel m dest src = Ok (m', dest) ∧
    (∀ i c, s !! i = Some c → rd8 m' (dest + Z.of_nat i) = c) ∧
    only_in dest (Z.of_nat (length s)) m m'.
Proof.
  revert fuel m dest src. induction s as [|c s IH]; intros fuel m dest src Hs Hne Hf Hap; [done|].
  destruct fuel as [|fuel]; [cbn in Hf; lia|].
  destruct Hs as (Hc & Hc0 & Hs). unfold apart in Hap. cbn [length] in Hap, Hf.
  unfold strcpy. cbn [strcpy_loop]. rewrite Hc.
  assert (Hcr : 0 ≤ c < 256) by (rewrite <- Hc; apply rd8_range).
  assert (Hs' : cstr (wr8 m dest c) (src + 1) s).
  { eapply cstr_ext; [|exact Hs]. intros b Hb. rewrite rd8_wr8_ne by lia. done. }
  destruct s as [|c2 s].
  - cbn in Hs'. rewrite Hs'. cbn. eexists; split; [done|]. split.
    + intros [|i] c' Hi; simplify_eq/=. rewrite Z.add_0_r, rd8_wr8_eq. by apply u8_small.
    + intros b Hb. apply rd8_wr8_ne. cbn in Hb. lia.
  - destruct (IH fuel (wr8 m dest c) (dest + 1) (src + 1) Hs') as (m' & E & Hcp & Hon);
      [done | cbn in *; lia | unfold apart; cbn [length] in *; lia |].
    destruct Hs' as (Hc2 & Hc20 & _). rewrite Hc2. unfold truth at 1.
    rewrite (proj2 (Z.eqb_neq c2 0)) by done. cbn [negb].
    unfold strcpy in E. destruct (strcpy_loop fuel _ _ _) as [m1| |]; cbn in E; simplify_eq.
    exists m'. split; [done|]. split.
    + intros [|i] c' Hi; simplify_eq/=.
      * rewrite Z.add_0_r, Hon by lia. rewrite rd8_wr8_eq. by apply u8_small.
      * rewrite <- (Hcp i c' Hi). f_equal. lia.
    + intros b Hb. cbn [length] in Hb. rewrite Hon by (cbn [length]; lia).
      apply rd8_wr8_ne. lia.
Qed.

(** [strcpy] of a non-empty string copies its characters but not the
    terminating NUL: the byte after the copy keeps its old value. *)
Theorem strcpy_drops_terminator (fuel : nat) (m : mem) (dest src : Z) (s : list Z) :
  cstr m src s → s ≠ [] → (length s ≤ fuel)%nat →
  apart dest (Z.of_nat (length s)) src (Z.of_nat (length s) + 1) →
  ∃ m', strcpy fuel m dest src = Ok (m', dest) ∧
    (∀ i c, s !! i = Some c → rd8 m' (dest + Z.of_nat i) = c) ∧
    only_in dest (Z.of_nat (length s)) m m'.
Proof. apply strcpy_ok. Qed.

Lemma strcpy_drops_terminator_witness :
  ∃ m', strcpy 2 (wr8 (wr8 (wr8 ∅ 50 97) 51 98) 102 255) 100 50 = Ok (m', 100) ∧
    rd8 m' 102 = 255.
Proof.
  destruct (strcpy_drops_terminator 2 (wr8 (wr8 (wr8 ∅ 50 97) 51 98) 102 255) 100 50 [97; 98])
    as (m' & H1 & _ & H3).
  - vm_compute. repeat split; discriminate.
  - discriminate.
  - cbn. lia.
  - unfold apart. cbn. lia.
  - exists m'. split; [exact H1|]. rewrite H3 by (cbn; lia). reflexivity.
Defined.

Lemma strcmp_ok (fuel : nat) (m : mem) (a b : Z) (s t : list Z) :
  cstr m a s → cstr m b t → (length s < fuel)%nat →
  ∃ r, strcmp fuel m a b = Ok r ∧ (r = 0 ↔ s = t).
Proof.
  revert fuel a b t. induction s as [|c s IH]; intros [|fuel] a b t Hs Ht Hf;
    cbn [length] in Hf; try lia; cbn [strcmp];
    pose proof (rd8_range m a); pose proof (rd8_range m b);
    rewrite !i8_zero by done.
  - cbn in Hs. rewrite Hs in *. cbn [truth Z.eqb negb andb orb].
    destruct t as [|d t]; [cbn in Ht; rewrite Ht; exists 0; done|].
    destruct Ht as (Hd & Hd0 & _). rewrite Hd in *. unfold truth.
    rewrite (proj2 (Z.eqb_neq d 0)) by done. cbn. eexists; split; [done|].
    split; [|done]. intros E. contradiction Hd0. apply i8_inj; [lia..|].
    change (i8 0) with 0 in E. change (i8 0) with 0. lia.
  - destruct Hs as (Hc & Hc0 & Hs). rewrite Hc in *. unfold truth at 1 3.
    rewrite (proj2 (Z.eqb_neq c 0)) by done. cbn [negb andb orb].
    destruct t as [|d t]; cbn in Ht.
    + rewrite Ht in *. change (truth 0) with false. change (i8 0) with 0. cbv iota.
      eexists; split; [done|]. split; [|done].
      intros E. contradiction Hc0. apply i8_inj; [lia..|]. change (i8 0) with 0. lia.
    + destruct Ht as (Hd & Hd0 & Ht). rewrite Hd in *. unfold truth.
      rewrite (proj2 (Z.eqb_neq d 0)) by done. cbn [negb].
      destruct (Z.eqb_spec (i8 c) (i8 d)) as [E|E]; cbn [negb].
      * apply i8_inj in E; [|lia..]. subst d.
        destruct (IH fuel (a + 1) (b + 1) t Hs Ht) as (r & -> & Hr); [lia|].
        exists r. split; [done|]. rewrite Hr. split; congruence.
      * eexists; split; [done|]. split; [lia|congruence].
Qed.

(** [strcmp] on two NUL-terminated strings terminates (fuel: one more than
    the length of the first) and returns zero exactly when they are equal. *)
Theorem strcmp_zero_iff_equal (fuel : nat) (m : mem) (a b : Z) (s t : list Z) :
  cstr m a s → cstr m b t → (length s < fuel)%nat →
  ∃ r, strcmp fuel m a b = Ok r ∧ (r = 0 ↔ s = t).
Proof. apply strcmp_ok. Qed.

Lemma strcmp_zero_iff_equal_witness :
  ∃ r, strcmp 2 (wr8 (wr8 ∅ 50 97) 60 97) 50 60 = Ok r ∧ (r = 0 ↔ [97] = [97]).
Proof.
  apply (strcmp_zero_iff_equal 2 (wr8 (wr8 ∅ 50 97) 60 97) 50 60 [97] [97]);
    [vm_compute; repeat split; discriminate..|cbn; lia].
Defined.
