(* ===== verification/LinkedList.v ===== *)
(** * Intrusive doubly-linked lists (src/src/list.h, src/src/list.c)

    A [struct ListHeader] at address [a] is the two pointers [next] at [a] and
    [prev] at [a + 8]; a [struct LinkedList] at [L] is its [head] header at [L]
    followed by [head_offset] at [L + 16].  The operations below are the C
    functions on the byte memory, pointer writes in program order. *)

From S2P Require Import Prelude Memory.

(** ** The code *)

Definition nxt (m : mem) (h : Z) : Z := rd64 m h.
Definition prv (m : mem) (h : Z) : Z := rd64 m (h + 8).
Definition set_nxt (m : mem) (h v : Z) : mem := wr64 m h v.
Definition set_prv (m : mem) (h v : Z) : mem := wr64 m (h + 8) v.

#[global] Arguments nxt : simpl never.
#[global] Arguments prv : simpl never.
#[global] Arguments set_nxt : simpl never.
#[global] Arguments set_prv : simpl never.

Definition head_offset (m : mem) (L : Z) : Z := rd64 m (L + 16).

(** [-1 * head_offset] is computed in [unsigned long]. *)
Definition LL_nhead (m : mem) (L data : Z) : Z := u64 (data + head_offset m L).
Definition LL_ndata (m : mem) (L data : Z) : Z := u64 (data + u64 (-1 * head_offset m L)).

Definition ll_add (m : mem) (new prev next : Z) : mem :=
  let m := set_nxt m new next in
  let m := set_prv m new prev in
  let m := set_nxt m prev new in
  set_prv m next new.

Definition ll_del (m : mem) (del prev next : Z) : mem :=
  let m := set_nxt m prev (nxt m del) in
  let m := set_prv m next (prv m del) in
  let m := set_nxt m del NULL in
  set_prv m del NULL.

Definition LL_empty (m : mem) (L : Z) : bool := nxt m L =? L.

Definition LL_next (m : mem) (L curr : Z) : Z :=
  if LL_empty m L then NULL
  else if nxt m (LL_nhead m L curr) =? L then LL_ndata m L (nxt m L)
  else LL_ndata m L (nxt m (LL_nhead m L curr)).

Definition LL_head (m : mem) (L : Z) : Z :=
  if LL_empty m L then NULL else LL_ndata m L (nxt m L).

Definition LL_add (m : mem) (new cur : Z) : mem := ll_add m new cur (nxt m cur).
Definition LL_del (m : mem) (del : Z) : mem := ll_del m del (prv m del) (nxt m del).
Definition LL_add_prev (m : mem) (new cur : Z) : mem := ll_add m new (prv m cur) cur.

Definition LL_append (m : mem) (L data : Z) : mem := LL_add_prev m (LL_nhead m L data) L.
Definition LL_enqueue (m : mem) (L data : Z) : mem := LL_append m L data.

Definition LL_dequeue (m : mem) (L : Z) : mem * Z :=
  if LL_empty m L then (m, NULL)
  else
    let ret := nxt m L in
    let m := LL_del m ret in
    (m, LL_ndata m L ret).

Definition LL_init (m : mem) (L off : Z) : mem :=
  let m := set_nxt m L L in
  let m := set_prv m L L in
  wr64 m (L + 16) off.

(** The [LL_for_each] loop with a body that does not change the list: the
    data pointers it visits, from the value [curr] of the loop variable on. *)
Fixpoint LL_for_each_from (fuel : nat) (m : mem) (L curr : Z) : outcome (list Z) :=
  match fuel with
  | O => Hang
  | S fuel =>
      if LL_nhead m L curr =? L then Ok []
      else
        rest ← LL_for_each_from fuel m L (LL_ndata m L (nxt m (LL_nhead m L curr)));
        Ok (curr :: rest)
  end.

Definition LL_for_each (fuel : nat) (m : mem) (L : Z) : outcome (list Z) :=
  LL_for_each_from fuel m L (LL_ndata m L (nxt m L)).

(** ** Representation *)

(** Consecutive headers of [l] point at each other. *)
Fixpoint linked (m : mem) (l : list Z) : Prop :=
  match l with
  | a :: ((b :: _) as t) => nxt m a = b ∧ prv m b = a ∧ linked m t
  | _ => True
  end.

Definition sep16 (a b : Z) : Prop := apart a 16 b 16.

(** Distinct headers that do not overlap. *)
Definition separated (l : list Z) : Prop :=
  NoDup l ∧ ∀ x y, x ∈ l → y ∈ l → x ≠ y → sep16 x y.

Definition valid_hdr (a : Z) : Prop := 0 < a ∧ a + 24 ≤ 18446744073709551616.

(** [ns] are the headers of the circular list through the head [h]. *)
Record dll (m : mem) (h : Z) (ns : list Z) : Prop := {
  dll_linked : linked m (h :: ns ++ [h]);
  dll_sep : separated (h :: ns);
  dll_valid : Forall valid_hdr (h :: ns)
}.

(** [m2] differs from [m1] only inside the headers [l]. *)
Definition only_hdrs (l : list Z) (m1 m2 : mem) : Prop :=
  ∀ b, (∀ x, x ∈ l → ¬ (x ≤ b < x + 16)) → rd8 m2 b = rd8 m1 b.

(** The headers of the elements [ds], each [off] bytes into its element. *)
Abbreviation hdrs off ds := (fmap (fun d => d + off) ds).

(** The [struct LinkedList] at [L] holds the elements [ds], each of whose
    headers is [off] bytes into the element. *)
Record list_rep (m : mem) (L off : Z) (ds : list Z) : Prop := {
  lr_off : head_offset m L = off;
  lr_off_range : 0 ≤ off;
  lr_data : Forall (fun d => 0 < d) ds;
  lr_apart : Forall (fun d => apart (d + off) 16 L 24) ds;
  lr_dll : dll m L (hdrs off ds)
}.

(** ** Field reads after field writes *)

Definition okp (a b : Z) : Prop := a = b ∨ sep16 a b.

Lemma nxt_set_nxt m a b v :
  okp a b → nxt (set_nxt m a v) b = if decide (a = b) then u64 v else nxt m b.
Proof.
  intros H. unfold nxt, set_nxt. case_decide as E.
  - subst. apply rd64_wr64_eq.
  - apply rd64_wr64_apart. destruct H as [?|H]; [done|]. unfold sep16, apart in *. lia.
Qed.

Lemma prv_set_prv m a b v :
  okp a b → prv (set_prv m a v) b = if decide (a = b) then u64 v else prv m b.
Proof.
  intros H. unfold prv, set_prv. case_decide as E.
  - subst. apply rd64_wr64_eq.
  - apply rd64_wr64_apart. destruct H as [?|H]; [done|]. unfold sep16, apart in *. lia.
Qed.

Lemma nxt_set_prv m a b v : okp a b → nxt (set_prv m a v) b = nxt m b.
Proof.
  intros H. apply rd64_wr64_apart.
  destruct H as [->|H]; unfold sep16, apart in *; lia.
Qed.

Lemma prv_set_nxt m a b v : okp a b → prv (set_nxt m a v) b = prv m b.
Proof.
  intros H. apply rd64_wr64_apart.
  destruct H as [->|H]; unfold sep16, apart in *; lia.
Qed.

Lemma u64_valid a : valid_hdr a → u64 a = a.
Proof. intros [? ?]. apply u64_small. lia. Qed.

Lemma separated_okp l x y : separated l → x ∈ l → y ∈ l → okp x y.
Proof.
  intros [_ H] Hx Hy. destruct (decide (x = y)) as [->|]; [by left|]. right. by apply H.
Qed.

Lemma separated_perm l l' : Permutation l l' → separated l → separated l'.
Proof.
  intros HP [HN H]. split; [by rewrite <- HP|].
  intros x y Hx Hy. apply H; by rewrite HP.
Qed.

Lemma separated_sublist l l' : sublist l l' → separated l' → separated l.
Proof.
  intros HS [HN H]. split; [by eapply sublist_NoDup|].
  intros x y Hx Hy. apply H; by eapply elem_of_sublist.
Qed.

(** ** Chains *)

Lemma linked_app m xs a ys :
  linked m (xs ++ a :: ys) ↔ linked m (xs ++ [a]) ∧ linked m (a :: ys).
Proof.
  induction xs as [|x xs IH]; cbn; [tauto|].
  destruct xs as [|x' xs]; cbn in *; tauto.
Qed.

Lemma linked_frame m m' l :
  (∀ x, x ∈ removelast l → nxt m' x = nxt m x) →
  (∀ x, x ∈ tail l → prv m' x = prv m x) →
  linked m l → linked m' l.
Proof.
  induction l as [|a [|b l] IH]; intros Hn Hp; cbn; [done..|].
  intros (H1 & H2 & H3). rewrite Hn, Hp by (cbn; set_solver).
  repeat split; [done..|]. apply IH; [| |done].
  - intros x Hx. apply Hn. cbn. set_solver.
  - intros x Hx. apply Hp. cbn in *. set_solver.
Qed.

Lemma removelast_snoc {A} (l : list A) x : removelast (l ++ [x]) = l.
Proof. apply removelast_last. Qed.

Lemma elem_of_removelast {A} (l : list A) x : x ∈ removelast l → x ∈ l.
Proof.
  destruct l as [|y l]; [done|].
  destruct (exists_last (l := y :: l)) as (l' & z & ->); [done|].
  rewrite removelast_snoc. set_solver.
Qed.

(** The two fields of every header after the four writes of [ll_add]. *)
Lemma ll_add_fields m new a b x :
  okp new x → okp a x → okp b x → a ≠ new → b ≠ new →
  valid_hdr new → valid_hdr a → valid_hdr b →
  nxt (ll_add m new a b) x =
    (if decide (a = x) then new else if decide (new = x) then b else nxt m x) ∧
  prv (ll_add m new a b) x =
    (if decide (b = x) then new else if decide (new = x) then a else prv m x).
Proof.
  intros On Oa Ob Na Nb Vn Va Vb. unfold ll_add. cbv zeta. split.
  - rewrite nxt_set_prv, nxt_set_nxt, nxt_set_prv, nxt_set_nxt by done.
    rewrite !u64_valid by done. done.
  - rewrite prv_set_prv, prv_set_nxt, prv_set_prv, prv_set_nxt by done.
    rewrite !u64_valid by done. done.
Qed.

Lemma ll_del_fields m d a b x :
  okp d x → okp a x → okp b x → okp a d → okp b d → a ≠ d → b ≠ d →
  nxt m d = b → prv m d = a →
  nxt (ll_del m d a b) x =
    (if decide (d = x) then 0 else if decide (a = x) then b else nxt m x) ∧
  prv (ll_del m d a b) x =
    (if decide (d = x) then 0 else if decide (b = x) then a else prv m x).
Proof.
  intros Od Oa Ob Oad Obd Na Nb En Ep. unfold ll_del. cbv zeta.
  rewrite prv_set_nxt by done. rewrite En, Ep.
  assert (u64 b = b) as Eb by (rewrite <- En; apply u64_rd64).
  assert (u64 a = a) as Ea by (rewrite <- Ep; apply u64_rd64).
  split.
  - rewrite nxt_set_prv, nxt_set_nxt, nxt_set_prv, nxt_set_nxt by done.
    rewrite Eb. done.
  - rewrite prv_set_prv, prv_set_nxt, prv_set_prv, prv_set_nxt by done.
    rewrite Ea. done.
Qed.

Section Chains.
Context (m : mem) (X Y : list Z) (a b : Z).

(** Inserting a header between two neighbours of a chain. *)
Lemma linked_insert new :
  linked m (X ++ a :: b :: Y) →
  NoDup (removelast (X ++ a :: b :: Y)) → NoDup (tail (X ++ a :: b :: Y)) →
  (∀ x y, x ∈ new :: X ++ a :: b :: Y → y ∈ new :: X ++ a :: b :: Y → okp x y) →
  Forall valid_hdr (new :: X ++ a :: b :: Y) → new ∉ X ++ a :: b :: Y →
  linked (ll_add m new a b) (X ++ a :: new :: b :: Y).
Proof.
  intros Hl Hnr Hnt Hok Hv Hnew.
  assert (Hf : ∀ x, x ∈ new :: X ++ a :: b :: Y → _) by
    (intros x Hx; apply (ll_add_fields m new a b x); [apply Hok; set_solver..| | | | |];
     first [set_solver | eapply Forall_forall; [exact Hv|set_solver]]).
  assert (Ia : a ∈ new :: X ++ a :: b :: Y) by (clear; set_solver).
  assert (Ib : b ∈ new :: X ++ a :: b :: Y) by (clear; set_solver).
  assert (In : new ∈ new :: X ++ a :: b :: Y) by (clear; set_solver).
  assert (Na : a ≠ new) by (clear -Hnew; set_solver).
  assert (Nb : b ≠ new) by (clear -Hnew; set_solver).
  replace (X ++ a :: b :: Y) with ((X ++ [a]) ++ b :: Y) in Hl, Hnr, Hnt
    by (by rewrite <- app_assoc).
  rewrite removelast_app in Hnr by done. apply NoDup_app in Hnr as (HnX & Hd1 & _).
  apply linked_app in Hl as [Hl Hr]. rewrite <- app_assoc in Hl. cbn [app] in Hl.
  apply linked_app in Hl as [Hl Hab].
  apply linked_app. split; [|cbn [linked]; repeat split].
  - eapply linked_frame; [| |exact Hl].
    + rewrite removelast_snoc. intros x Hx. rewrite (proj1 (Hf x ltac:(set_solver))).
      rewrite decide_False, decide_False; [done|set_solver|].
      intros <-. apply NoDup_app in HnX as (_ & Hd & _). clear -Hd Hx. set_solver.
    + intros x Hx. assert (Hx' : x ∈ X ++ [a]) by (destruct X; set_solver).
      rewrite (proj2 (Hf x ltac:(set_solver))).
      rewrite decide_False, decide_False; [done|set_solver|].
      intros <-. destruct X as [|x0 X']; cbn [tail app] in Hx, Hnt; [by apply elem_of_nil in Hx|].
      apply NoDup_app in Hnt as (_ & Hd & _). clear -Hd Hx. set_solver.
  - rewrite (proj1 (Hf a Ia)). repeat case_decide; congruence.
  - rewrite (proj2 (Hf new In)). repeat case_decide; congruence.
  - rewrite (proj1 (Hf new In)). repeat case_decide; congruence.
  - rewrite (proj2 (Hf b Ib)). repeat case_decide; congruence.
  - change (linked (ll_add m new a b) (b :: Y)). eapply linked_frame; [| |exact Hr].
    + intros x Hx. pose proof (elem_of_removelast _ _ Hx) as Hx'.
      rewrite (proj1 (Hf x ltac:(set_solver))).
      rewrite decide_False, decide_False; [done|set_solver|].
      intros <-. eapply Hd1; [|exact Hx]. clear. set_solver.
    + intros x Hx. cbn [tail] in Hx.
      rewrite (proj2 (Hf x ltac:(set_solver))).
      rewrite decide_False, decide_False; [done|set_solver|].
      intros <-. assert (NoDup (b :: Y)) as [? _]%NoDup_cons; [|done].
      destruct X as [|x0 X']; cbn [tail app] in Hnt; [done|].
      by apply NoDup_app in Hnt as (_ & _ & ?).
Qed.

(** Unlinking a header from between its neighbours. *)
Lemma linked_remove d :
  linked m (X ++ a :: d :: b :: Y) →
  NoDup (removelast (X ++ a :: d :: b :: Y)) → NoDup (tail (X ++ a :: d :: b :: Y)) →
  (∀ x y, x ∈ X ++ a :: d :: b :: Y → y ∈ X ++ a :: d :: b :: Y → okp x y) →
  a ≠ d → b ≠ d →
  linked (ll_del m d a b) (X ++ a :: b :: Y).
Proof.
  intros Hl Hnr Hnt Hok Na Nb.
  assert (Ia : a ∈ X ++ a :: d :: b :: Y) by (clear; set_solver).
  assert (Ib : b ∈ X ++ a :: d :: b :: Y) by (clear; set_solver).
  assert (Id : d ∈ X ++ a :: d :: b :: Y) by (clear; set_solver).
  replace (X ++ a :: d :: b :: Y) with ((X ++ [a; d]) ++ b :: Y) in Hl, Hnr, Hnt
    by (by rewrite <- app_assoc).
  apply linked_app in Hl as [Hl Hr]. rewrite <- app_assoc in Hl. cbn [app] in Hl.
  apply linked_app in Hl as [Hl (_ & Ep & En & _)].
  assert (Hf : ∀ x, x ∈ X ++ a :: d :: b :: Y → _) by
    (intros x Hx; apply (ll_del_fields m d a b x); (done || by apply Hok)).
  rewrite removelast_app in Hnr by done. apply NoDup_app in Hnr as (HnX & Hd1 & _).
  apply linked_app. split; [|cbn [linked]; split; [|split]].
  - eapply linked_frame; [| |exact Hl].
    + rewrite removelast_snoc. intros x Hx.
      rewrite (proj1 (Hf x ltac:(clear -Hx; set_solver))).
      apply NoDup_app in HnX as (_ & Hd & _).
      rewrite !decide_False; [done|..]; intros <-; clear -Hd Hx; set_solver.
    + intros x Hx. assert (Hx' : x ∈ X ++ [a]) by (clear -Hx; destruct X; set_solver).
      rewrite (proj2 (Hf x ltac:(clear -Hx'; set_solver))).
      destruct X as [|x0 X']; cbn [tail app] in Hx, Hnt; [by apply elem_of_nil in Hx|].
      apply NoDup_app in Hnt as (HN & Hd & _).
      rewrite !decide_False; [done|..]; intros <-.
      * clear -Hd Hx. set_solver.
      * replace (X' ++ [a; d]) with ((X' ++ [a]) ++ [d]) in HN by (by rewrite <- app_assoc).
        apply NoDup_app in HN as (_ & HN & _). clear -HN Hx. set_solver.
  - rewrite (proj1 (Hf a Ia)). repeat case_decide; congruence.
  - rewrite (proj2 (Hf b Ib)). repeat case_decide; congruence.
  - change (linked (ll_del m d a b) (b :: Y)). eapply linked_frame; [| |exact Hr].
    + intros x Hx. pose proof (elem_of_removelast _ _ Hx) as Hx'.
      rewrite (proj1 (Hf x ltac:(clear -Hx'; set_solver))).
      rewrite !decide_False; [done|..]; intros <-; (eapply Hd1; [|exact Hx]; clear; set_solver).
    + intros x Hx. cbn [tail] in Hx.
      rewrite (proj2 (Hf x ltac:(clear -Hx; set_solver))).
      assert (NoDup (d :: b :: Y)) as HN.
      { destruct X as [|x0 X']; cbn [tail app] in Hnt; [done|].
        rewrite <- app_assoc in Hnt. by apply NoDup_app in Hnt as (_ & _ & [_ ?]%NoDup_cons). }
      apply NoDup_cons in HN as [Hd [Hb _]%NoDup_cons].
      rewrite !decide_False; [done|..]; intros <-; clear -Hd Hb Hx; set_solver.
Qed.
End Chains.

(** ** Circular lists *)

Lemma ll_add_only_hdrs m new a b : only_hdrs [new; a; b] m (ll_add m new a b).
Proof.
  intros c Hc. unfold ll_add, set_nxt, set_prv, wr64.
  pose proof (Hc new ltac:(set_solver)). pose proof (Hc a ltac:(set_solver)).
  pose proof (Hc b ltac:(set_solver)).
  rewrite !rd8_wr_le_out by (cbn; lia). done.
Qed.

Lemma ll_del_only_hdrs m d a b : only_hdrs [d; a; b] m (ll_del m d a b).
Proof.
  intros c Hc. unfold ll_del, set_nxt, set_prv, wr64.
  pose proof (Hc d ltac:(set_solver)). pose proof (Hc a ltac:(set_solver)).
  pose proof (Hc b ltac:(set_solver)).
  rewrite !rd8_wr_le_out by (cbn; lia). done.
Qed.

Lemma only_hdrs_mono l l' m1 m2 :
  (∀ x, x ∈ l → x ∈ l') → only_hdrs l m1 m2 → only_hdrs l' m1 m2.
Proof. intros Hl H b Hb. apply H. auto. Qed.

Lemma only_hdrs_rd64 l m1 m2 a :
  only_hdrs l m1 m2 → (∀ x, x ∈ l → apart x 16 a 8) → rd64 m2 a = rd64 m1 a.
Proof.
  intros H Hl. apply rd_le_ext. intros b Hb. apply H. intros x Hx.
  specialize (Hl x Hx). unfold apart in Hl. lia.
Qed.

(** A list none of whose headers is touched is still that list. *)
Lemma dll_frame m m' h ns l :
  only_hdrs l m m' → (∀ x y, x ∈ l → y ∈ h :: ns → sep16 x y) →
  dll m h ns → dll m' h ns.
Proof.
  intros Hon Hsep [Hl Hs Hv]. split; [|done..].
  assert (Hin : ∀ y, y ∈ h :: ns ++ [h] → y ∈ h :: ns) by set_solver.
  eapply linked_frame; [| |exact Hl]; intros x Hx.
  - eapply only_hdrs_rd64; [done|]. intros y Hy.
    specialize (Hsep y x Hy (Hin _ (elem_of_removelast _ _ Hx))).
    unfold sep16, apart in *. lia.
  - eapply only_hdrs_rd64; [done|]. intros y Hy.
    specialize (Hsep y x Hy (Hin _ ltac:(right; exact Hx))).
    unfold sep16, apart in *. lia.
Qed.

Lemma circle_tail_NoDup (h : Z) (ns : list Z) : NoDup (h :: ns) → NoDup (ns ++ [h]).
Proof. intros H. by rewrite <- Permutation_cons_append. Qed.

Lemma dll_add_prev m h ns new :
  dll m h ns → separated (new :: h :: ns) → valid_hdr new →
  dll (LL_add_prev m new h) h (ns ++ [new]).
Proof.
  intros [Hl [HN Hs] Hv] Hsep Hvn. unfold LL_add_prev.
  destruct (exists_last (l := h :: ns)) as (X & a & E); [done|].
  assert (E' : h :: ns ++ [h] = X ++ a :: h :: []).
  { change (h :: ns ++ [h]) with ((h :: ns) ++ [h]). rewrite E. by rewrite <- app_assoc. }
  rewrite E' in Hl. pose proof Hl as Hl'. apply linked_app in Hl' as [_ (_ & -> & _)].
  split.
  - change (h :: (ns ++ [new]) ++ [h]) with ((h :: ns ++ [new]) ++ [h]).
    change (h :: ns ++ [new]) with ((h :: ns) ++ [new]). rewrite E, <- !app_assoc. cbn [app].
    assert (Hin : ∀ x, x ∈ new :: h :: ns ++ [h] → x ∈ new :: h :: ns) by (clear; set_solver).
    apply linked_insert; rewrite <- ?E'.
    + rewrite E'. exact Hl.
    + change (h :: ns ++ [h]) with ((h :: ns) ++ [h]). by rewrite removelast_snoc.
    + cbn [tail]. by apply circle_tail_NoDup.
    + intros x y Hx Hy. eapply separated_okp; eauto.
    + apply Forall_forall. intros x Hx%Hin. rewrite Forall_forall in Hv.
      apply elem_of_cons in Hx as [->|Hx]; auto.
    + destruct Hsep as [[Hn _]%NoDup_cons _]. clear -Hn. set_solver.
  - eapply separated_perm; [|exact Hsep]. rewrite Permutation_cons_append. done.
  - apply Forall_cons in Hv as [? ?]. constructor; [done|]. apply Forall_app; auto.
Qed.

Lemma dll_del m h xs d ys :
  dll m h (xs ++ d :: ys) → dll (LL_del m d) h (xs ++ ys).
Proof.
  intros [Hl [HN Hs] Hv].
  destruct (exists_last (l := h :: xs)) as (X & a & E); [done|].
  destruct (ys ++ [h]) as [|b Y] eqn:E2; [by destruct ys|].
  assert (E' : h :: (xs ++ d :: ys) ++ [h] = X ++ a :: d :: b :: Y).
  { rewrite <- app_assoc. cbn [app]. rewrite E2.
    change (h :: xs ++ d :: b :: Y) with ((h :: xs) ++ d :: b :: Y). rewrite E.
    by rewrite <- app_assoc. }
  assert (Hd : d ∉ (h :: xs) ∧ d ∉ ys).
  { change (h :: xs ++ d :: ys) with ((h :: xs) ++ d :: ys) in HN.
    apply NoDup_app in HN as (_ & H1 & [H2 _]%NoDup_cons). split; [|done].
    intros Hi. apply (H1 d Hi). left. }
  assert (a ≠ d) as Na.
  { intros ->. apply (proj1 Hd). rewrite E. clear. set_solver. }
  assert (b ≠ d) as Nb.
  { intros ->. assert (Hdb : d ∈ ys ++ [h]) by (rewrite E2; left).
    apply elem_of_app in Hdb as [?|?]; [by apply (proj2 Hd)|].
    apply (proj1 Hd). clear -H. set_solver. }
  rewrite E' in Hl. pose proof Hl as Hl'. apply linked_app in Hl' as [_ (_ & Ep & En & _)].
  unfold LL_del. rewrite Ep, En.
  split.
  - replace (h :: (xs ++ ys) ++ [h]) with (X ++ a :: b :: Y).
    2:{ rewrite <- app_assoc. rewrite E2. change (h :: xs ++ b :: Y) with ((h :: xs) ++ b :: Y).
        rewrite E. by rewrite <- app_assoc. }
    apply linked_remove; rewrite <- ?E'; [by rewrite E'| | | |done..].
    + change (h :: (xs ++ d :: ys) ++ [h]) with ((h :: xs ++ d :: ys) ++ [h]).
      by rewrite removelast_snoc.
    + cbn [tail]. by apply circle_tail_NoDup.
    + intros x y Hx Hy. apply (separated_okp (h :: xs ++ d :: ys)); [by split|..].
      * clear -Hx. set_solver.
      * clear -Hy. set_solver.
  - eapply separated_sublist; [|split; [exact HN|exact Hs]].
    apply sublist_skip, sublist_app; [done|]. by apply sublist_cons.
  - apply Forall_cons in Hv as [? [? [_ ?]%Forall_cons]%Forall_app].
    constructor; [done|]. by apply Forall_app.
Qed.

Lemma dll_init m h : valid_hdr h → dll (set_prv (set_nxt m h h) h h) h [].
Proof.
  intros Hv. split.
  - cbn. rewrite nxt_set_prv, nxt_set_nxt, prv_set_prv by (by left).
    rewrite !decide_True, u64_valid by done. done.
  - split; [by apply NoDup_singleton|]. intros x y Hx%list_elem_of_singleton Hy%list_elem_of_singleton. congruence.
  - by constructor.
Qed.

(** ** The list operations *)

Section ListOps.
Context (m : mem) (L off : Z).
Implicit Types (ds xs ys : list Z) (d : Z).

Lemma list_rep_valid ds d : list_rep m L off ds → d ∈ ds → valid_hdr (d + off) ∧ 0 < d.
Proof.
  intros HR Hd. split.
  - pose proof (dll_valid _ _ _ (lr_dll _ _ _ _ HR)) as Hv. rewrite Forall_forall in Hv.
    apply Hv. right. apply list_elem_of_fmap. eauto.
  - pose proof (lr_data _ _ _ _ HR) as Hp. rewrite Forall_forall in Hp. auto.
Qed.

Lemma LL_nhead_rep ds d :
  list_rep m L off ds → valid_hdr (d + off) → LL_nhead m L d = d + off.
Proof. intros HR Hv. unfold LL_nhead. rewrite (lr_off _ _ _ _ HR). by apply u64_valid. Qed.

Lemma LL_ndata_rep ds d :
  list_rep m L off ds → 0 < d → valid_hdr (d + off) → LL_ndata m L (d + off) = d.
Proof.
  intros HR Hd [_ Hv]. unfold LL_ndata. rewrite (lr_off _ _ _ _ HR).
  pose proof (lr_off_range _ _ _ _ HR). word_lia.
Qed.

Lemma list_rep_hd ds : list_rep m L off ds →
  nxt m L = match ds with [] => L | d :: _ => d + off end.
Proof.
  intros HR. pose proof (dll_linked _ _ _ (lr_dll _ _ _ _ HR)) as Hl.
  destruct ds as [|d ds]; cbn in Hl; tauto.
Qed.

Lemma list_rep_ne ds d : list_rep m L off ds → d ∈ ds → d + off ≠ L.
Proof.
  intros HR Hd E. pose proof (lr_apart _ _ _ _ HR) as Ha. rewrite Forall_forall in Ha.
  specialize (Ha d Hd). unfold apart in Ha. lia.
Qed.

Lemma LL_empty_rep ds : list_rep m L off ds → LL_empty m L = bool_decide (ds = []).
Proof.
  intros HR. unfold LL_empty. rewrite (list_rep_hd ds) by done.
  destruct ds as [|d ds]; [by rewrite Z.eqb_refl, bool_decide_true|].
  rewrite bool_decide_false by done. apply Z.eqb_neq.
  apply (list_rep_ne (d :: ds)); [done|left].
Qed.

Lemma LL_head_rep ds : list_rep m L off ds → LL_head m L = hd NULL ds.
Proof.
  intros HR. unfold LL_head. rewrite (LL_empty_rep ds HR). destruct ds as [|d ds]; [done|].
  rewrite bool_decide_false by done. rewrite (list_rep_hd (d :: ds) HR).
  destruct (list_rep_valid (d :: ds) d HR ltac:(left)). by apply (LL_ndata_rep (d :: ds)).
Qed.

Lemma list_rep_of_dll m' ds ds' :
  list_rep m L off ds → only_hdrs (L :: (hdrs off ds')) m m' →
  Forall (fun d => 0 < d) ds' → Forall (fun d => apart (d + off) 16 L 24) ds' →
  ∀ ds'', (∀ d, d ∈ ds'' → d ∈ ds') → dll m' L (hdrs off ds'') →
  list_rep m' L off ds''.
Proof.
  intros HR Hon Hp Ha ds'' Hin Hd. split; [| | | |done].
  - rewrite <- (lr_off _ _ _ _ HR). eapply only_hdrs_rd64; [exact Hon|].
    intros x [->|(d & -> & Hd')%list_elem_of_fmap]%elem_of_cons; [unfold apart; lia|].
    rewrite Forall_forall in Ha. specialize (Ha d Hd'). unfold apart in *. lia.
  - exact (lr_off_range _ _ _ _ HR).
  - rewrite Forall_forall in *. auto.
  - rewrite Forall_forall in *. auto.
Qed.

(** What an element must satisfy to be linked into the list. *)
Definition linkable ds d : Prop :=
  0 < d ∧ valid_hdr (d + off) ∧ apart (d + off) 16 L 24 ∧
  Forall (fun d' => sep16 (d + off) (d' + off)) ds.

Lemma LL_append_rep ds d :
  list_rep m L off ds → linkable ds d →
  list_rep (LL_append m L d) L off (ds ++ [d]) ∧
  only_hdrs (L :: (hdrs off (ds ++ [d]))) m (LL_append m L d).
Proof.
  intros HR (Hd & Hv & Ha & Hs).
  assert (Hon : only_hdrs (L :: (hdrs off (ds ++ [d]))) m (LL_append m L d)).
  { unfold LL_append, LL_add_prev. rewrite (LL_nhead_rep ds) by done.
    eapply only_hdrs_mono; [|apply ll_add_only_hdrs]. intros x Hx.
    destruct (exists_last (l := L :: (hdrs off ds))) as (X & a & E); [done|].
    pose proof (dll_linked _ _ _ (lr_dll _ _ _ _ HR)) as Hl.
    change (linked m ((L :: (hdrs off ds)) ++ [L])) in Hl.
    rewrite E, <- app_assoc in Hl. apply linked_app in Hl as [_ (_ & Hp & _)].
    rewrite Hp, fmap_app in *.
    change (x ∈ (L :: (hdrs off ds)) ++ [d + off]). rewrite E.
    assert (L ∈ X ++ [a]) by (rewrite <- E; left). clear -Hx H. set_solver. }
  split; [|done].
  eapply (list_rep_of_dll _ ds (ds ++ [d])); [done|exact Hon| | |auto|].
  - apply Forall_app; split; [apply HR|by constructor].
  - apply Forall_app; split; [apply HR|by constructor].
  - rewrite fmap_app. unfold LL_append. rewrite (LL_nhead_rep ds) by done.
    apply dll_add_prev; [apply HR| |done].
    destruct (dll_sep _ _ _ (lr_dll _ _ _ _ HR)) as [HN HS].
    assert (Hx : ∀ x, x ∈ L :: (hdrs off ds) → sep16 (d + off) x).
    { intros x [->|(d' & -> & Hd')%list_elem_of_fmap]%elem_of_cons.
      - unfold sep16, apart in *. lia.
      - rewrite Forall_forall in Hs. auto. }
    split.
    + constructor; [|done]. intros Hi%Hx. unfold sep16, apart in Hi. lia.
    + intros x y [->|Hi]%elem_of_cons [->|Hj]%elem_of_cons Hne; auto; [done|].
      apply Hx in Hi. unfold sep16, apart in *. lia.
Qed.

Lemma LL_del_rep xs d ys :
  list_rep m L off (xs ++ d :: ys) →
  list_rep (LL_del m (d + off)) L off (xs ++ ys) ∧
  only_hdrs (L :: (hdrs off (xs ++ d :: ys))) m (LL_del m (d + off)).
Proof.
  intros HR. pose proof (lr_dll _ _ _ _ HR) as Hd. rewrite fmap_app, fmap_cons in Hd.
  assert (Hon : only_hdrs (L :: (hdrs off (xs ++ d :: ys))) m (LL_del m (d + off))).
  { unfold LL_del. eapply only_hdrs_mono; [|apply ll_del_only_hdrs].
    pose proof (dll_linked _ _ _ Hd) as Hl.
    set (nx := (hdrs off xs)) in *. set (ny := (hdrs off ys)) in *.
    destruct (exists_last (l := L :: nx)) as (X & a & E); [done|].
    destruct (ny ++ [L]) as [|b Y] eqn:E2; [by destruct ny|].
    assert (Hl' : linked m (X ++ a :: (d + off) :: b :: Y)).
    { rewrite <- app_assoc in Hl. cbn [app] in Hl. rewrite E2 in Hl.
      change (linked m ((L :: nx) ++ (d + off) :: b :: Y)) in Hl. rewrite E in Hl.
      by rewrite <- app_assoc in Hl. }
    apply linked_app in Hl' as [_ (_ & -> & -> & _)].
    rewrite fmap_app, fmap_cons. fold nx ny.
    assert (Ha : a ∈ L :: nx) by (rewrite E; clear; set_solver).
    assert (Hb : b ∈ ny ++ [L]) by (rewrite E2; left).
    clear -Ha Hb. set_solver. }
  split; [|done].
  eapply (list_rep_of_dll _ (xs ++ d :: ys)); [done|exact Hon|apply HR|apply HR| |].
  - clear. set_solver.
  - rewrite fmap_app. by apply dll_del.
Qed.

Lemma LL_dequeue_rep d ds :
  list_rep m L off (d :: ds) →
  LL_dequeue m L = (LL_del m (d + off), d) ∧
  list_rep (LL_del m (d + off)) L off ds ∧
  only_hdrs (L :: (hdrs off (d :: ds))) m (LL_del m (d + off)).
Proof.
  intros HR. destruct (LL_del_rep [] d ds HR) as [HR' Hon]. split; [|by split].
  destruct (list_rep_valid (d :: ds) d HR) as [Hv Hd]; [left|].
  unfold LL_dequeue. rewrite (LL_empty_rep (d :: ds)), bool_decide_false by done.
  rewrite (list_rep_hd (d :: ds)) by done. cbn [snd fst]. f_equal.
  pose proof (LL_ndata_rep (d :: ds) d HR Hd Hv) as E. unfold LL_ndata in *.
  rewrite (lr_off _ _ _ _ HR) in E. by rewrite (lr_off _ _ _ _ HR').
Qed.

Lemma LL_dequeue_nil : list_rep m L off [] → LL_dequeue m L = (m, NULL).
Proof. intros HR. unfold LL_dequeue. by rewrite (LL_empty_rep []), bool_decide_true. Qed.

(** The cursor of [LL_for_each]: past the last element it is at the head, and
    from an element it moves to the next. *)
Lemma LL_cursor_end ds : list_rep m L off ds → LL_nhead m L (LL_ndata m L L) = L.
Proof.
  intros HR. unfold LL_nhead, LL_ndata. rewrite (lr_off _ _ _ _ HR).
  pose proof (dll_valid _ _ _ (lr_dll _ _ _ _ HR)) as [[V1 V2] _]%Forall_cons. word_lia.
Qed.

Lemma LL_cursor_next xs d ys : list_rep m L off (xs ++ d :: ys) → nxt m (d + off) = hd L (hdrs off ys).
Proof.
  intros HR. pose proof (dll_linked _ _ _ (lr_dll _ _ _ _ HR)) as Hl. rewrite fmap_app, fmap_cons in Hl.
  replace (L :: (hdrs off xs ++ d + off :: hdrs off ys) ++ [L])
    with ((L :: hdrs off xs) ++ d + off :: hdrs off ys ++ [L]) in Hl
    by (cbn; by rewrite <- app_assoc).
  apply linked_app in Hl as [_ Hl]. destruct ys; cbn in Hl |- *; tauto.
Qed.

Lemma LL_for_each_from_rep xs ys fuel :
  list_rep m L off (xs ++ ys) → (length ys < fuel)%nat →
  LL_for_each_from fuel m L (LL_ndata m L (hd L (hdrs off ys))) = Ok ys.
Proof.
  revert xs fuel. induction ys as [|d ys IH]; intros xs [|fuel] HR Hf; cbn [length] in Hf; try lia.
  - cbn [hd fmap list_fmap LL_for_each_from]. by rewrite (LL_cursor_end _ HR), Z.eqb_refl.
  - cbn [hd fmap list_fmap LL_for_each_from].
    destruct (list_rep_valid (xs ++ d :: ys) d HR) as [Hv Hd]; [clear; set_solver|].
    rewrite (LL_ndata_rep (xs ++ d :: ys)), (LL_nhead_rep (xs ++ d :: ys)) by done.
    rewrite (proj2 (Z.eqb_neq _ _)).
    2:{ apply (list_rep_ne (xs ++ d :: ys)); [done|]. clear. set_solver. }
    rewrite (LL_cursor_next _ _ _ HR).
    rewrite (IH (xs ++ [d])); [done| |lia]. by rewrite <- app_assoc.
Qed.
End ListOps.

(** ** A queue of operations *)

Inductive qop := Enq (d : Z) | Deq.

(** The C calls, in order, with the pointers the dequeues return. *)
Fixpoint run_list (m : mem) (L : Z) (ops : list qop) : mem * list Z :=
  match ops with
  | [] => (m, [])
  | Enq d :: ops => run_list (LL_enqueue m L d) L ops
  | Deq :: ops =>
      let '(m, d) := LL_dequeue m L in
      let '(m, rs) := run_list m L ops in
      (m, d :: rs)
  end.

(** The abstract queue: enqueue at the back, dequeue at the front, NULL when
    empty; [None] when an element is enqueued that is already queued. *)
Fixpoint run_queue (q : list Z) (ops : list qop) : option (list Z * list Z) :=
  match ops with
  | [] => Some (q, [])
  | Enq d :: ops => if decide (d ∈ q) then None else run_queue (q ++ [d]) ops
  | Deq :: ops =>
      let '(q, d) := match q with [] => ([], NULL) | d :: q => (q, d) end in
      '(q, rs) ← run_queue q ops; Some (q, d :: rs)
  end.

Lemma run_list_refines (off : Z) (U : list Z) (L : Z) (ops : list qop) :
  (∀ d q, d ∈ U → (∀ d', d' ∈ q → d' ∈ U ∧ d' ≠ d) → linkable L off q d) →
  (∀ d, Enq d ∈ ops → d ∈ U) →
  ∀ m q q' rs, list_rep m L off q → (∀ d, d ∈ q → d ∈ U) →
  run_queue q ops = Some (q', rs) →
  (run_list m L ops).2 = rs ∧ list_rep (run_list m L ops).1 L off q'.
Proof.
  intros HU. induction ops as [|[d|] ops IH]; intros Hops m q q' rs HR Hq Hrun; cbn in Hrun.
  - by simplify_eq.
  - case_decide as Hin; [done|]. cbn [run_list].
    assert (d ∈ U) by (apply Hops; left).
    apply (IH ltac:(intros; apply Hops; by right) _ (q ++ [d])); [| |done].
    + apply LL_append_rep; [done|]. apply HU; [done|]. intros d' Hd'. split; [auto|congruence].
    + intros d' [?| ->%list_elem_of_singleton]%elem_of_app; auto.
  - cbn [run_list]. destruct q as [|d q].
    + rewrite (LL_dequeue_nil m L off) by done.
      destruct (run_queue [] ops) as [[q1 rs1]|] eqn:E; simplify_eq/=.
      destruct (IH ltac:(intros; apply Hops; by right) m [] q' rs1 HR Hq E) as [Hrs HR'].
      destruct (run_list m L ops) as [m1 rs2]. cbn in *. by subst.
    + destruct (LL_dequeue_rep m L off d q HR) as (-> & HR1 & _).
      destruct (run_queue q ops) as [[q1 rs1]|] eqn:E; simplify_eq/=.
      destruct (IH ltac:(intros; apply Hops; by right) _ q q' rs1 HR1
                  ltac:(intros; apply Hq; by right) E) as [Hrs HR'].
      destruct (run_list (LL_del m (d + off)) L ops) as [m1 rs2]. cbn in *. by subst.
Qed.

(** ** Successors *)

(** The element after [d] in the list, wrapping to the first one. *)
Lemma LL_next_rep (m : mem) (L off : Z) xs d ys :
  list_rep m L off (xs ++ d :: ys) → LL_next m L d = hd d (ys ++ xs ++ [d]).
Proof.
  intros HR. set (ds := xs ++ d :: ys) in *.
  assert (Hin : d ∈ ds) by (subst ds; set_solver).
  destruct (list_rep_valid m L off ds d HR Hin) as [Hv Hd].
  unfold LL_next. rewrite (LL_empty_rep m L off ds), bool_decide_false by (by destruct xs).
  rewrite (LL_nhead_rep m L off ds), (list_rep_hd m L off ds) by done.
  pose proof (dll_linked _ _ _ (lr_dll _ _ _ _ HR)) as Hl. subst ds.
  rewrite fmap_app, fmap_cons in Hl.
  replace (L :: (hdrs off xs ++ d + off :: hdrs off ys) ++ [L])
    with ((L :: hdrs off xs) ++ d + off :: hdrs off ys ++ [L]) in Hl
    by (cbn; by rewrite <- app_assoc).
  apply linked_app in Hl as [_ Hl].
  assert (∀ d', d' ∈ xs ++ d :: ys → LL_ndata m L (d' + off) = d') as Hnd.
  { intros d' Hd'. destruct (list_rep_valid m L off _ d' HR Hd').
    by apply (LL_ndata_rep m L off (xs ++ d :: ys)). }
  destruct ys as [|y ys]; cbn in Hl; destruct Hl as [-> _].
  - rewrite Z.eqb_refl. destruct xs as [|x xs]; cbn [app hd]; apply Hnd; set_solver.
  - rewrite (proj2 (Z.eqb_neq _ _)); [apply Hnd; set_solver|].
    apply (list_rep_ne m L off _ y HR). set_solver.
Qed.

(** ** Theorems *)

(** A list keeps its meaning when the memory of its headers is unchanged. *)
Lemma list_rep_ext m m' L off ds :
  (∀ x, L ≤ x < L + 24 → rd8 m' x = rd8 m x) →
  (∀ d x, d ∈ ds → d + off ≤ x < d + off + 16 → rd8 m' x = rd8 m x) →
  list_rep m L off ds → list_rep m' L off ds.
Proof.
  intros H1 H2 [R1 R2 R3 R4 [R5 R6 R7]].
  assert (Hc : ∀ h, h ∈ L :: (hdrs off ds) → nxt m' h = nxt m h ∧ prv m' h = prv m h).
  { intros h [->|(d & -> & Hd)%list_elem_of_fmap]%elem_of_cons; unfold nxt, prv, rd64; split;
      apply rd_le_ext; intros b Hb; cbn in Hb; [apply H1; lia|apply H1; lia|apply (H2 d); [done|lia]|apply (H2 d); [done|lia]]. }
  assert (Hin : ∀ y, y ∈ L :: (hdrs off ds) ++ [L] → y ∈ L :: (hdrs off ds)).
  { intros y [->|[?| ->%list_elem_of_singleton]%elem_of_app]%elem_of_cons; [left|by right|left]. }
  split; [|done|done|done|split; [|done|done]].
  - rewrite <- R1. apply rd_le_ext. intros b Hb. cbn in Hb. apply H1. lia.
  - eapply linked_frame; [| |exact R5]; intros x Hx.
    + apply Hc, Hin. by apply elem_of_removelast.
    + apply Hc, Hin. by right.
Qed.

(** [LL_init] makes an empty list and writes nothing but its head. *)
Lemma LL_init_rep (m : mem) (L off : Z) :
  valid_hdr L → 0 ≤ off < 18446744073709551616 →
  list_rep (LL_init m L off) L off [] ∧
  (∀ x, ¬ (L ≤ x < L + 24) → rd8 (LL_init m L off) x = rd8 m x).
Proof.
  intros HL Hoff. split.
  - unfold LL_init. split; [|lia|constructor..|].
    + unfold head_offset. by rewrite rd64_wr64_eq, u64_small.
    + eapply (dll_frame _ _ _ _ [L + 16]); [| |by apply dll_init].
      * intros b Hb. specialize (Hb (L + 16) ltac:(left)). apply rd8_wr_le_out. cbn. lia.
      * intros x y ->%list_elem_of_singleton ->%list_elem_of_singleton. right. lia.
  - intros x Hx. unfold LL_init, set_nxt, set_prv, wr64. by rewrite !rd8_wr_le_out by (cbn; lia).
Qed.

(** C29: a queue built with [LL_init], [LL_enqueue] and [LL_dequeue] is first in
    first out.  For any sequence of enqueues and dequeues over elements whose
    headers do not overlap, in which no element is enqueued while it is still
    queued, the pointers the dequeues return are those of the abstract queue
    (NULL when it is empty), and [LL_for_each] afterwards terminates and visits
    exactly the remaining elements, oldest first. *)
Theorem LL_queue_refines (m : mem) (L off : Z) (U : list Z) (ops : list qop)
    (q rs : list Z) :
  valid_hdr L → 0 ≤ off < 18446744073709551616 →
  Forall (fun d => 0 < d ∧ valid_hdr (d + off) ∧ apart (d + off) 16 L 24) U →
  (∀ d d', d ∈ U → d' ∈ U → d ≠ d' → sep16 (d + off) (d' + off)) →
  (∀ d, Enq d ∈ ops → d ∈ U) →
  run_queue [] ops = Some (q, rs) →
  let r := run_list (LL_init m L off) L ops in
  r.2 = rs ∧ LL_for_each (S (length q)) r.1 L = Ok q ∧ LL_empty r.1 L = bool_decide (q = []).
Proof.
  intros HL Hoff HU Hsep Hops Hrun r. subst r.
  destruct (LL_init_rep m L off HL Hoff) as [HR _].
  destruct (run_list_refines off U L ops) with (m := LL_init m L off) (q := []:list Z)
    (q' := q) (rs := rs) as [Hrs HR']; [| done | done | by intros ? ?%elem_of_nil | done |].
  { intros d ds Hd Hds. rewrite Forall_forall in HU. destruct (HU d Hd) as (? & ? & ?).
    repeat split; try done; [apply H0..|]. apply Forall_forall. intros d' Hd'.
    destruct (Hds d' Hd'). apply Hsep; auto. }
  split; [done|]. split; [|by apply (LL_empty_rep _ L off)].
  unfold LL_for_each. rewrite (list_rep_hd _ L off q) by done.
  rewrite <- (LL_for_each_from_rep _ L off [] q (S (length q))) by (done || lia).
  f_equal. by destruct q.
Qed.

Lemma LL_queue_refines_witness :
  (run_list (LL_init ∅ 4096 16) 4096 [Enq 8192; Enq 8256; Deq; Enq 8192; Deq; Deq; Deq]).2
    = [8192; 8256; 8192; 0].
Proof.
  refine (proj1 (LL_queue_refines ∅ 4096 16 [8192; 8256]
    [Enq 8192; Enq 8256; Deq; Enq 8192; Deq; Deq; Deq] [] _ _ _ _ _ _ _)).
  - unfold valid_hdr. lia.
  - lia.
  - repeat constructor; unfold apart; lia.
  - intros d d' Hd Hd' Hne. repeat (apply elem_of_cons in Hd as [->|Hd]; [|]);
      repeat (apply elem_of_cons in Hd' as [->|Hd']; [|]);
      try (by apply elem_of_nil in Hd); try (by apply elem_of_nil in Hd');
      unfold sep16, apart; lia.
  - intros d Hd. set_solver.
  - reflexivity.
Defined.

(** [LL_del] of an element anywhere in a list unlinks exactly that element:
    the others stay in order, the deleted header holds two NULL pointers, no
    byte outside the headers of the list changes, and [LL_next] of every other
    element is its cyclic successor in the remaining list. *)
Theorem LL_del_unlinks (m : mem) (L off : Z) (xs ys : list Z) (d : Z) :
  list_rep m L off (xs ++ d :: ys) →
  let m' := LL_del m (d + off) in
  list_rep m' L off (xs ++ ys) ∧
  nxt m' (d + off) = NULL ∧ prv m' (d + off) = NULL ∧
  only_hdrs (L :: hdrs off (xs ++ d :: ys)) m m' ∧
  (∀ us x vs, xs ++ ys = us ++ x :: vs → LL_next m' L x = hd x (vs ++ us ++ [x])).
Proof.
  intros HR m'. destruct (LL_del_rep m L off xs d ys HR) as [HR' Hon].
  split; [done|]. split; [|split; [|split; [done|]]].
  - subst m'. unfold LL_del, ll_del. cbv zeta. rewrite nxt_set_prv, nxt_set_nxt by (by left).
    by rewrite decide_True.
  - subst m'. unfold LL_del, ll_del. cbv zeta. rewrite prv_set_prv by (by left).
    by rewrite decide_True.
  - intros us x vs E. apply (LL_next_rep m' L off). by rewrite <- E.
Qed.

Lemma demo_list : list_rep (LL_append (LL_append (LL_init ∅ 4096 16) 4096 8192) 4096 8256)
  4096 16 [8192; 8256].
Proof.
  apply (LL_append_rep _ 4096 16 [8192]).
  - apply (LL_append_rep _ 4096 16 []).
    + split; [reflexivity|lia|constructor..|]. split.
      * vm_compute. done.
      * split; [apply NoDup_singleton|]. intros x y Hx%list_elem_of_singleton
          Hy%list_elem_of_singleton. congruence.
      * constructor; [unfold valid_hdr; lia|constructor].
    + repeat split; try lia; [unfold apart; lia|constructor].
  - repeat split; try lia; [unfold apart; lia|]. constructor; [unfold sep16, apart; lia|constructor].
Qed.

Lemma LL_del_unlinks_witness :
  let m' := LL_del (LL_append (LL_append (LL_init ∅ 4096 16) 4096 8192) 4096 8256) (8192 + 16) in
  list_rep m' 4096 16 [8256] ∧ nxt m' (8192 + 16) = NULL.
Proof.
  destruct (LL_del_unlinks _ 4096 16 [] [8256] 8192 demo_list) as (H1 & H2 & _). by split.
Defined.
