(* ===== verification/Sort.v ===== *)
(** * Sorting (src/src/utils.h, src/src/utils.c)

    The selection sort of the kernel works on raw bytes: it knows the element
    size and two callbacks, a comparison and a swap.  [ElemCallbacks] states
    what the sort needs from those callbacks; the sort is proved against that
    interface, and [kernel_mmap_cmp]/[kernel_mmap_swp] implement it.
    [mmap_entry_swp] does not: it swaps 24 bytes of 16-byte elements. *)

From S2P Require Import Prelude Memory.
From Stdlib Require Import Sorted.

(** ** The code *)

(** The inner loop: [min] runs over the elements from [temp] to [stop]. *)
Fixpoint sort_inner (fuel : nat) (m : mem) (cmp : mem → Z → Z → Z)
    (el_len stop min temp : Z) : outcome Z :=
  match fuel with
  | O => Hang
  | S fuel =>
      if temp =? stop then Ok min
      else
        let min := if cmp m min temp <? 0 then temp else min in
        sort_inner fuel m cmp el_len stop min (temp + el_len)
  end.

Fixpoint sort_outer (fuel : nat) (m : mem) (cmp : mem → Z → Z → Z)
    (swp : mem → Z → Z → mem) (arr num_els el_len curr : Z) : outcome mem :=
  match fuel with
  | O => Hang
  | S fuel' =>
      if curr =? arr + el_len * (num_els - 1) then Ok m
      else
        min ← sort_inner fuel m cmp el_len (arr + el_len * num_els) curr (curr + el_len);
        let m := if negb (min =? curr) then swp m curr min else m in
        sort_outer fuel' m cmp swp arr num_els el_len (curr + el_len)
  end.

Definition sort (fuel : nat) (m : mem) (arr num_els el_len : Z)
    (cmp : mem → Z → Z → Z) (swp : mem → Z → Z → mem) : outcome mem :=
  if (num_els =? 0) || (num_els =? 1) then Ok m
  else sort_outer fuel m cmp swp arr num_els el_len arr.

Record KernelSection := { ks_base : Z; ks_length : Z; ks_name : Z }.
Record MMapEntry := { me_base : Z; me_length : Z }.

Definition sizeof_KernelSection : Z := 24.
Definition sizeof_MMapEntry : Z := 16.

Definition rd_ks (m : mem) (a : Z) : KernelSection :=
  {| ks_base := rd64 m a; ks_length := rd64 m (a + 8); ks_name := rd64 m (a + 16) |}.
Definition wr_ks (m : mem) (a : Z) (s : KernelSection) : mem :=
  let m := wr64 m a (ks_base s) in
  let m := wr64 m (a + 8) (ks_length s) in
  wr64 m (a + 16) (ks_name s).
Definition rd_me (m : mem) (a : Z) : MMapEntry :=
  {| me_base := rd64 m a; me_length := rd64 m (a + 8) |}.

Definition kernel_mmap_cmp (m : mem) (arg1 arg2 : Z) : Z :=
  if ks_base (rd_ks m arg2) <? ks_base (rd_ks m arg1) then -1
  else if ks_base (rd_ks m arg1) <? ks_base (rd_ks m arg2) then 1
  else 0.

Definition kernel_mmap_swp (m : mem) (arg1 arg2 : Z) : mem :=
  let temp := rd_ks m arg2 in
  let m := wr_ks m arg2 (rd_ks m arg1) in
  wr_ks m arg1 temp.

Definition sort_kernel_section_array (fuel : nat) (m : mem) (arr len : Z) : outcome mem :=
  sort fuel m arr len sizeof_KernelSection kernel_mmap_cmp kernel_mmap_swp.

(** Both callbacks cast their arguments to [struct KernelSection *]. *)
Definition mmap_entry_cmp (m : mem) (arg1 arg2 : Z) : Z :=
  if ks_base (rd_ks m arg2) <? ks_base (rd_ks m arg1) then -1
  else if ks_base (rd_ks m arg1) <? ks_base (rd_ks m arg2) then 1
  else 0.

Definition mmap_entry_swp (m : mem) (arg1 arg2 : Z) : mem :=
  let temp := rd_ks m arg2 in
  let m := wr_ks m arg2 (rd_ks m arg1) in
  wr_ks m arg1 temp.

Definition sort_mmap_entry_array (fuel : nat) (m : mem) (arr len : Z) : outcome mem :=
  sort fuel m arr len sizeof_MMapEntry mmap_entry_cmp mmap_entry_swp.

(** ** What the sort needs from its callbacks *)

(** [dec] reads an element of [el] bytes, [key] is what it is ordered by. *)
Class ElemOrder {A : Type} (el : Z) (dec : mem → Z → A) (key : A → Z)
    (cmp : mem → Z → Z → Z) : Prop := {
  el_pos : 0 < el;
  cmp_key m a b : (cmp m a b <? 0) = (key (dec m b) <? key (dec m a))
}.

Class ElemCallbacks {A : Type} (el : Z) (dec : mem → Z → A) (key : A → Z)
    (cmp : mem → Z → Z → Z) (swp : mem → Z → Z → mem) : Prop := {
  cb_order :: ElemOrder el dec key cmp;
  dec_local m1 m2 a :
    (∀ b, a ≤ b < a + el → rd8 m1 b = rd8 m2 b) → dec m1 a = dec m2 a;
  swp_fst m a b : apart a el b el → dec (swp m a b) a = dec m b;
  swp_snd m a b : apart a el b el → dec (swp m a b) b = dec m a;
  swp_out m a b c :
    ¬ (a ≤ c < a + el) → ¬ (b ≤ c < b + el) → rd8 (swp m a b) c = rd8 m c
}.

(** The [n] elements of the array at [arr]. *)
Definition elems {A} (dec : mem → Z → A) (m : mem) (arr el : Z) (n : nat) : list A :=
  (fun i => dec m (arr + el * Z.of_nat i)) <$> seq 0 n.

Definition key_le {A} (key : A → Z) (x y : A) : Prop := key x ≤ key y.

(** ** Correctness of the selection sort *)

Section Selection.
Context {A : Type} (el : Z) (dec : mem → Z → A) (key : A → Z).
Context (cmp : mem → Z → Z → Z) (swp : mem → Z → Z → mem).
Context (arr : Z) (n : nat).

Abbreviation at_ i := (arr + el * Z.of_nat i).
Abbreviation arr_of m := (elems dec m arr el n).
Implicit Types (m : mem) (i j k : nat).

Lemma elems_lookup m i : (i < n)%nat → arr_of m !! i = Some (dec m (at_ i)).
Proof.
  intros Hi. unfold elems. rewrite list_lookup_fmap, lookup_seq_lt by done.
  done.
Qed.

Lemma elems_length m : length (arr_of m) = n.
Proof. unfold elems. by rewrite length_fmap, length_seq. Qed.

Section Order.
Context `{HO : !ElemOrder el dec key cmp}.

Lemma sort_inner_ok fuel m i k :
  (i ≤ k)%nat → (k < n)%nat → (n ≤ k + fuel)%nat → ∀ lo,
  (lo ≤ i)%nat → (∀ t, (lo ≤ t ≤ k)%nat → key (dec m (at_ i)) ≤ key (dec m (at_ t))) →
  ∃ r, sort_inner fuel m cmp el (at_ n) (at_ i) (at_ k + el) = Ok (at_ r) ∧
    (lo ≤ r < n)%nat ∧
    (∀ t, (lo ≤ t < n)%nat → key (dec m (at_ r)) ≤ key (dec m (at_ t))) ∧
    ((∀ t, (i < t < n)%nat → key (dec m (at_ i)) ≤ key (dec m (at_ t))) → r = i).
Proof.
  pose proof el_pos as Hel.
  revert i k. induction fuel as [|fuel IH]; intros i k Hik Hk Hf lo Hlo Hmin; [lia|].
  cbn [sort_inner]. replace (at_ k + el) with (at_ (S k)) by lia.
  destruct (Z.eqb_spec (at_ (S k)) (at_ n)) as [E|E].
  { assert (S k = n) by nia. exists i. split; [done|]. split; [lia|]. split; [|done].
    intros t Ht. apply Hmin. lia. }
  assert (S k < n)%nat by (destruct (decide (S k = n)); [subst; lia|lia]).
  rewrite cmp_key. destruct (Z.ltb_spec (key (dec m (at_ (S k)))) (key (dec m (at_ i)))) as [Hlt|Hge].
  - destruct (IH (S k) (S k)) with (lo := lo) as (r & Er & Hr & Hrm & _); [lia..| |].
    { intros t Ht. destruct (decide (t = S k)) as [->|]; [lia|].
      specialize (Hmin t ltac:(lia)). lia. }
    exists r. rewrite Er. split; [done|]. split; [lia|]. split; [done|].
    intros Hall. specialize (Hall (S k) ltac:(lia)). lia.
  - destruct (IH i (S k)) with (lo := lo) as (r & Er & Hr & Hrm & Hid); [lia..| |].
    { intros t Ht. destruct (decide (t = S k)) as [->|]; [lia|]. apply Hmin. lia. }
    exists r. rewrite Er. auto.
Qed.

(** An array that is already in order is left as it is, whatever the swap. *)
Lemma sort_outer_sorted fuel m i :
  (i < n)%nat → (n ≤ i + fuel)%nat →
  (∀ a b, (a < b < n)%nat → key (dec m (at_ a)) ≤ key (dec m (at_ b))) →
  sort_outer fuel m cmp swp arr (Z.of_nat n) el (at_ i) = Ok m.
Proof.
  pose proof el_pos as Hel.
  revert i. induction fuel as [|fuel IH]; intros i Hi Hf Hall; [lia|].
  cbn [sort_outer]. destruct (Z.eqb_spec (at_ i) (arr + el * (Z.of_nat n - 1))) as [E|E]; [done|].
  assert (S i < n)%nat by (destruct (decide (S i = n)); [nia|lia]).
  destruct (sort_inner_ok (S fuel) m i i) with (lo := i) as (r & Er & _ & _ & Hid); [lia..| |].
  { intros t Ht. assert (t = i) as -> by lia. done. }
  change (arr + el * Z.of_nat n) with (at_ n). rewrite Er. cbn [mbind outcome_bind].
  rewrite Hid by (intros; apply Hall; lia). rewrite Z.eqb_refl. cbn [negb].
  replace (at_ i + el) with (at_ (S i)) by lia. by apply IH; [lia..|].
Qed.

Lemma sort_sorted fuel m :
  (n ≤ fuel)%nat →
  (∀ a b, (a < b < n)%nat → key (dec m (at_ a)) ≤ key (dec m (at_ b))) →
  sort fuel m arr (Z.of_nat n) el cmp swp = Ok m.
Proof.
  intros Hf Hall. unfold sort.
  destruct (Z.of_nat n =? 0) eqn:E0; [done|]. destruct (Z.of_nat n =? 1); [done|].
  bool_cases. cbn [orb]. pose proof (sort_outer_sorted fuel m 0 ltac:(lia) ltac:(lia) Hall) as E.
  by replace (at_ 0) with arr in E by lia.
Qed.
End Order.

Context `{HE : !ElemCallbacks el dec key cmp swp}.

Lemma at_apart i j : i ≠ j → apart (at_ i) el (at_ j) el.
Proof.
  intros Hij. pose proof el_pos. unfold apart.
  destruct (decide (i < j)%nat); [left|right]; nia.
Qed.

Lemma elems_swp m i j : (i < n)%nat → (j < n)%nat → i ≠ j →
  arr_of (swp m (at_ i) (at_ j)) =
    <[i := dec m (at_ j)]> (<[j := dec m (at_ i)]> (arr_of m)).
Proof.
  intros Hi Hj Hij. apply list_eq. intros k.
  destruct (decide (k < n)%nat) as [Hk|].
  2:{ rewrite !lookup_ge_None_2; [done|..]; rewrite ?length_insert, elems_length; lia. }
  rewrite elems_lookup by done.
  destruct (decide (k = i)) as [->|Hki].
  { rewrite list_lookup_insert_eq by (rewrite length_insert, elems_length; lia).
    f_equal. apply swp_fst. by apply at_apart. }
  rewrite list_lookup_insert_ne by done.
  destruct (decide (k = j)) as [->|Hkj].
  { rewrite list_lookup_insert_eq by (rewrite elems_length; lia).
    f_equal. apply swp_snd. by apply at_apart. }
  rewrite list_lookup_insert_ne, elems_lookup by done. f_equal.
  apply dec_local. intros b Hb.
  pose proof (at_apart k i Hki). pose proof (at_apart k j Hkj). unfold apart in *.
  apply swp_out; lia.
Qed.

(** The first [i] elements are in order and below all the others. *)
Definition sorted_upto m i : Prop :=
  ∀ a b, (a < b < n)%nat → (a < i)%nat → key (dec m (at_ a)) ≤ key (dec m (at_ b)).

Lemma sorted_upto_step m i r :
  (i ≤ r < n)%nat → sorted_upto m i →
  (∀ t, (i ≤ t < n)%nat → key (dec m (at_ r)) ≤ key (dec m (at_ t))) →
  sorted_upto (if negb (at_ r =? at_ i) then swp m (at_ i) (at_ r) else m) (S i).
Proof.
  intros Hr Hs Hmin. pose proof el_pos as Hel.
  destruct (Z.eqb_spec (at_ r) (at_ i)) as [E|E]; cbn [negb].
  { assert (r = i) by nia. subst r. intros a b Hab Ha.
    destruct (decide (a = i)) as [->|]; [apply Hmin|apply Hs]; lia. }
  assert (Hri : r ≠ i) by (intros ->; lia).
  set (m' := swp m (at_ i) (at_ r)).
  assert (Hsw : ∀ k, (k < n)%nat → dec m' (at_ k) =
    if decide (k = i) then dec m (at_ r) else if decide (k = r) then dec m (at_ i)
    else dec m (at_ k)).
  { intros k Hk. pose proof (elems_lookup m' k Hk) as Hl. subst m'.
    rewrite elems_swp in Hl by lia. rewrite !list_lookup_insert in Hl.
    repeat case_decide; rewrite ?length_insert, ?elems_length in *; try lia; subst;
      rewrite ?elems_lookup in Hl by lia; congruence. }
  intros a b Hab Ha. rewrite !Hsw by lia.
  repeat case_decide; subst; try lia; try (apply Hs; lia); apply Hmin; lia.
Qed.

Lemma sort_outer_ok fuel m i :
  (i < n)%nat → (n ≤ i + fuel)%nat → sorted_upto m i →
  ∃ m', sort_outer fuel m cmp swp arr (Z.of_nat n) el (at_ i) = Ok m' ∧
    sorted_upto m' n ∧ Permutation (arr_of m') (arr_of m) ∧
    only_in arr (el * Z.of_nat n) m m'.
Proof.
  pose proof el_pos as Hel.
  revert m i. induction fuel as [|fuel IH]; intros m i Hi Hf Hs; [lia|].
  cbn [sort_outer]. destruct (Z.eqb_spec (at_ i) (arr + el * (Z.of_nat n - 1))) as [E|E].
  { assert (S i = n) by nia. exists m. split; [done|]. split; [|by split].
    intros a b Hab Ha. apply Hs; lia. }
  assert (S i < n)%nat by (destruct (decide (S i = n)); [nia|lia]).
  destruct (sort_inner_ok (S fuel) m i i) with (lo := i) as (r & Er & Hr & Hmin & _); [lia..| |].
  { intros t Ht. assert (t = i) as -> by lia. done. }
  change (arr + el * Z.of_nat n) with (at_ n). rewrite Er. cbn [mbind outcome_bind].
  pose proof (sorted_upto_step m i r ltac:(lia) Hs Hmin) as Hs'.
  replace (at_ i + el) with (at_ (S i)) by lia.
  set (m1 := if negb (at_ r =? at_ i) then swp m (at_ i) (at_ r) else m) in *.
  destruct (IH m1 (S i)) as (m' & Em & Hso & Hp & Hon); [lia..|done|].
  exists m'. split; [done|]. split; [done|].
  assert (Hm1 : m1 = m ∨ r ≠ i ∧ m1 = swp m (at_ i) (at_ r)).
  { subst m1. destruct (Z.eqb_spec (at_ r) (at_ i)); cbn [negb]; [by left|right].
    split; [by intros ->|done]. }
  split.
  - rewrite Hp. destruct Hm1 as [->|[Hri ->]]; [done|].
    rewrite elems_swp by lia. apply Permutation_insert_swap;
      apply elems_lookup; lia.
  - eapply only_in_trans; [|exact Hon].
    destruct Hm1 as [->|[Hri ->]]; [done|]. intros b Hb. apply swp_out; nia.
Qed.

Lemma sorted_upto_StronglySorted m :
  sorted_upto m n → StronglySorted (key_le key) (arr_of m).
Proof.
  intros Hs. unfold elems.
  assert (Hgen : ∀ len k, (k + len = n)%nat →
    StronglySorted (key_le key) ((fun i => dec m (at_ i)) <$> seq k len)).
  { induction len as [|len IH]; intros k Hk; cbn; constructor; [apply IH; lia|].
    apply Forall_forall. intros x (j & -> & Hj%elem_of_seq)%list_elem_of_fmap.
    apply Hs; lia. }
  apply Hgen. lia.
Qed.

Lemma sort_ok fuel m :
  (n ≤ fuel)%nat →
  ∃ m', sort fuel m arr (Z.of_nat n) el cmp swp = Ok m' ∧
    StronglySorted (key_le key) (arr_of m') ∧ Permutation (arr_of m') (arr_of m) ∧
    only_in arr (el * Z.of_nat n) m m'.
Proof.
  intros Hf. unfold sort.
  destruct (decide (n ≤ 1)%nat) as [Hn|Hn].
  - exists m. split.
    { destruct n as [|[|?]]; [done..|lia]. }
    split; [|by split]. apply sorted_upto_StronglySorted. intros a b ?. lia.
  - rewrite (proj2 (Z.eqb_neq _ _)), (proj2 (Z.eqb_neq _ _)) by lia. cbn [orb].
    destruct (sort_outer_ok fuel m 0) as (m' & E & Hs & Hr); [lia..| |].
    { intros a b _ ?. lia. }
    replace (at_ 0) with arr in E by lia. exists m'. split; [done|].
    split; [by apply sorted_upto_StronglySorted|done].
Qed.
End Selection.

(** ** The kernel section callbacks keep the contract *)

Lemma wr_ks_out m a s c : ¬ (a ≤ c < a + 24) → rd8 (wr_ks m a s) c = rd8 m c.
Proof. intros. unfold wr_ks, wr64. rewrite !rd8_wr_le_out by (cbn; lia). done. Qed.

Lemma rd_ks_local m1 m2 a :
  (∀ b, a ≤ b < a + 24 → rd8 m1 b = rd8 m2 b) → rd_ks m1 a = rd_ks m2 a.
Proof.
  intros H. unfold rd_ks, rd64. f_equal; apply rd_le_ext; intros; apply H; lia.
Qed.

Definition ks_wf (s : KernelSection) : Prop :=
  u64 (ks_base s) = ks_base s ∧ u64 (ks_length s) = ks_length s ∧ u64 (ks_name s) = ks_name s.

Lemma rd_ks_wf m a : ks_wf (rd_ks m a).
Proof. unfold ks_wf, rd_ks. cbn. by rewrite !u64_rd64. Qed.

Lemma rd_wr_ks m a s : ks_wf s → rd_ks (wr_ks m a s) a = s.
Proof.
  intros (H1 & H2 & H3). unfold rd_ks, wr_ks. cbv zeta.
  rewrite !(rd64_wr64_apart _ a), (rd64_wr64_apart _ (a + 8) (a + 16)) by (unfold apart; lia).
  rewrite !rd64_wr64_eq, H1, H2, H3. by destruct s.
Qed.

#[export] Instance kernel_section_callbacks :
  ElemCallbacks sizeof_KernelSection rd_ks ks_base kernel_mmap_cmp kernel_mmap_swp.
Proof.
  split; unfold sizeof_KernelSection; [split; [lia|]|apply rd_ks_local| | |].
  - intros m a b. unfold kernel_mmap_cmp.
    destruct (Z.ltb_spec (ks_base (rd_ks m b)) (ks_base (rd_ks m a))); [done|].
    by destruct (ks_base (rd_ks m a) <? ks_base (rd_ks m b)).
  - intros m a b _. unfold kernel_mmap_swp. apply rd_wr_ks, rd_ks_wf.
  - intros m a b Hab. unfold kernel_mmap_swp. cbv zeta. unfold apart in Hab.
    rewrite (rd_ks_local _ (wr_ks m b (rd_ks m a)) b).
    + apply rd_wr_ks, rd_ks_wf.
    + intros c Hc. apply wr_ks_out. lia.
  - intros m a b c Ha Hb. unfold kernel_mmap_swp. by rewrite !wr_ks_out.
Qed.

(** The memory map callbacks compare and read as the sort expects, on
    elements of the size the sort is given; only the swap is off. *)
#[export] Instance mmap_entry_order :
  ElemOrder sizeof_MMapEntry rd_me me_base mmap_entry_cmp.
Proof.
  split; unfold sizeof_MMapEntry; [lia|]. intros m a b. unfold mmap_entry_cmp, rd_ks, rd_me. cbn.
  destruct (Z.ltb_spec (rd64 m b) (rd64 m a)); [done|].
  by destruct (rd64 m a <? rd64 m b).
Qed.

(** What one exchange of neighbours does to the words of the array. *)
Lemma mmap_words_after_swp m a :
  0 ≤ a → let m' := mmap_entry_swp m a (a + 16) in
  rd64 m' a = rd64 m (a + 16) ∧ rd64 m' (a + 8) = rd64 m (a + 24) ∧
  rd64 m' (a + 16) = rd64 m (a + 32) ∧ rd64 m' (a + 24) = rd64 m (a + 8) ∧
  rd64 m' (a + 32) = rd64 m (a + 16).
Proof.
  intros Ha m'. subst m'. unfold mmap_entry_swp, wr_ks, rd_ks. cbn [ks_base ks_length ks_name].
  replace (a + 16 + 8) with (a + 24) by lia. replace (a + 16 + 16) with (a + 32) by lia.
  repeat split;
    repeat first [rewrite rd64_wr64_eq, u64_rd64; reflexivity
                 | rewrite rd64_wr64_apart by (unfold apart; lia)].
Qed.

(** ** Theorems *)

(** C30: [sort_kernel_section_array] terminates (fuel: the number of sections)
    and leaves the same sections, in order of increasing base address; it
    writes nothing outside the array. *)
Theorem sort_kernel_section_array_sorts (fuel n : nat) (m : mem) (arr : Z) :
  (n ≤ fuel)%nat →
  ∃ m', sort_kernel_section_array fuel m arr (Z.of_nat n) = Ok m' ∧
    StronglySorted (key_le ks_base) (elems rd_ks m' arr sizeof_KernelSection n) ∧
    Permutation (elems rd_ks m' arr sizeof_KernelSection n)
                (elems rd_ks m arr sizeof_KernelSection n) ∧
    only_in arr (sizeof_KernelSection * Z.of_nat n) m m'.
Proof.
  exact (sort_ok sizeof_KernelSection rd_ks ks_base kernel_mmap_cmp kernel_mmap_swp arr n fuel m).
Qed.

Lemma sort_kernel_section_array_sorts_witness :
  ∃ m', sort_kernel_section_array 3 (wr64 (wr64 ∅ 4096 9) 4120 5) 4096 3 = Ok m' ∧
    StronglySorted (key_le ks_base) (elems rd_ks m' 4096 sizeof_KernelSection 3).
Proof.
  destruct (sort_kernel_section_array_sorts 3 3 (wr64 (wr64 ∅ 4096 9) 4120 5) 4096)
    as (m' & H1 & H2 & _); [lia|]. exists m'. by split.
Defined.

(** [sort_mmap_entry_array] leaves a memory map that is already in order of
    base address exactly as it is (the case firmware normally produces). *)
Theorem sort_mmap_entry_array_sorted (fuel n : nat) (m : mem) (arr : Z) :
  (n ≤ fuel)%nat →
  (∀ a b, (a < b < n)%nat →
    me_base (rd_me m (arr + sizeof_MMapEntry * Z.of_nat a)) ≤
    me_base (rd_me m (arr + sizeof_MMapEntry * Z.of_nat b))) →
  sort_mmap_entry_array fuel m arr (Z.of_nat n) = Ok m.
Proof.
  exact (sort_sorted sizeof_MMapEntry rd_me me_base mmap_entry_cmp mmap_entry_swp arr n fuel m).
Qed.

Lemma sort_mmap_entry_array_sorted_witness :
  sort_mmap_entry_array 2 (wr64 (wr64 ∅ 4096 5) 4112 9) 4096 2
    = Ok (wr64 (wr64 ∅ 4096 5) 4112 9).
Proof.
  apply (sort_mmap_entry_array_sorted 2 2); [lia|]. intros a b Hab.
  assert (a = 0%nat) as -> by lia. assert (b = 1%nat) as -> by lia. vm_compute. discriminate.
Defined.

(** On a memory map of two entries out of order, [sort_mmap_entry_array]
    destroys the map: [mmap_entry_swp] exchanges 24 bytes of the 16-byte
    entries, so the second entry gets as base the word after the array, keeps
    the length of the first, and the word after the array is overwritten by the
    base of the second entry. *)
Theorem sort_mmap_entry_array_corrupts (fuel : nat) (m : mem) (arr : Z) :
  (2 ≤ fuel)%nat → 0 ≤ arr →
  me_base (rd_me m (arr + 16)) < me_base (rd_me m arr) →
  ∃ m', sort_mmap_entry_array fuel m arr 2 = Ok m' ∧
    rd_me m' arr = rd_me m (arr + 16) ∧
    rd_me m' (arr + 16) =
      {| me_base := rd64 m (arr + 32); me_length := me_length (rd_me m arr) |} ∧
    rd64 m' (arr + 32) = me_base (rd_me m (arr + 16)).
Proof.
  intros Hf Harr Hlt. destruct fuel as [|[|fuel]]; [lia..|].
  exists (mmap_entry_swp m arr (arr + 16)).
  destruct (mmap_words_after_swp m arr Harr) as (H1 & H2 & H3 & H4 & H5). split.
  - unfold sort_mmap_entry_array, sort, sizeof_MMapEntry. cbn [Z.eqb orb Pos.eqb].
    cbn [sort_outer]. rewrite (proj2 (Z.eqb_neq arr (arr + 16 * (2 - 1)))) by lia.
    assert (∀ f, sort_inner (S (S f)) m mmap_entry_cmp 16 (arr + 16 * 2) arr (arr + 16)
              = Ok (arr + 16)) as ->.
    { intros f. cbn [sort_inner]. rewrite (proj2 (Z.eqb_neq (arr + 16) (arr + 16 * 2))) by lia.
      rewrite cmp_key. rewrite (proj2 (Z.ltb_lt _ _)) by done.
      by rewrite (proj2 (Z.eqb_eq (arr + 16 + 16) (arr + 16 * 2))) by lia. }
    cbn [mbind outcome_bind]. rewrite (proj2 (Z.eqb_neq (arr + 16) arr)) by lia. cbn [negb].
    by rewrite (proj2 (Z.eqb_eq (arr + 16) (arr + 16 * (2 - 1)))) by lia.
  - unfold rd_me. cbn. replace (arr + 16 + 8) with (arr + 24) by lia.
    by rewrite H1, H2, H3, H4, H5.
Qed.

Lemma sort_mmap_entry_array_corrupts_witness :
  ∃ m', sort_mmap_entry_array 2 (wr64 (wr64 ∅ 4096 9) 4112 5) 4096 2 = Ok m' ∧
    me_base (rd_me m' 4112) = 0.
Proof.
  destruct (sort_mmap_entry_array_corrupts 2 (wr64 (wr64 ∅ 4096 9) 4112 5) 4096)
    as (m' & H1 & _ & H3 & _); [lia|lia|vm_compute; reflexivity|].
  exists m'. split; [exact H1|]. change 4112 with (4096 + 16). rewrite H3. reflexivity.
Defined.
