(* ===== verification/Segments.v ===== *)
(** * From the boot memory map to free segments (src/src/mmu.c, lines 11-181)

    [mmu_compute_excluded] turns the kernel's ELF sections into a sorted list of
    page-aligned segments that must not be handed out;
    [mmu_compute_free_segments] turns the RAM map minus those into the free
    segment list.  Both build their lists inside fixed arrays, linked by [next]
    pointers; a pointer into such an array is modelled by its index, and an
    index outside the array is a [Fault]. *)

From S2P Require Import Prelude Memory Sort.
From Stdlib Require Import Sorted.

Definition PAGE_SIZE : Z := 4096.
Definition MAX_FREE_SEGMENTS : nat := 32.
Definition MAX_EXCLUDE_SEGMENTS : nat := 128.

(** ** Data *)

Record Segment := mkSeg { s_base : Z; s_end : Z; s_len : Z }.
Record SegmentList := mkNode { next : option nat; seg : Segment }.

Record PhysicalMMap := {
  total_ram : Z;
  num_mmap : nat;
  ram_sects : list MMapEntry;
  num_kernel_sects : nat;
  kernel_sects : list KernelSection
}.

(** The zeroed entry that [memset] leaves in the static array. *)
Definition zero_node : SegmentList := mkNode None (mkSeg 0 0 0).

(** ** The code of [mmu_compute_excluded] *)

Definition set_next (arr : list SegmentList) (i : nat) (n : option nat) : outcome (list SegmentList) :=
  nd ← idx arr i; upd arr i (mkNode n (seg nd)).

(** Lines 52-60: copy the kernel sections and link them in order. *)
Fixpoint ex_copy (k : nat) (ks : list KernelSection) (i : nat) (prev : option nat)
    (ex : list SegmentList) : outcome (list SegmentList) :=
  match k with
  | O => Ok ex
  | S k =>
      sct ← idx ks i;
      let base := ks_base sct in
      let len := ks_length sct in
      ex ← upd ex i (mkNode None (mkSeg base (u64 (base + len)) len));
      ex ← (match prev with Some p => set_next ex p (Some i) | None => Ok ex end);
      ex_copy k ks (S i) (Some i) ex
  end.

(** Lines 64-73: base down and length up to a page boundary. *)
Definition round_excluded (s : Segment) : Segment :=
  let new_base := s_base s - s_base s mod PAGE_SIZE in
  let len := u64 (s_len s + (s_base s - new_base)) in
  let len :=
    if truth (len mod PAGE_SIZE)
    then let len := u64 (len + PAGE_SIZE) in len - len mod PAGE_SIZE
    else len in
  mkSeg new_base (u64 (new_base + len)) len.

Fixpoint ex_round (fuel : nat) (ex : list SegmentList) (curr : option nat) :
    outcome (list SegmentList) :=
  match fuel, curr with
  | _, None => Ok ex
  | O, _ => Hang
  | S fuel, Some c =>
      nd ← idx ex c;
      ex ← upd ex c (mkNode (next nd) (round_excluded (seg nd)));
      ex_round fuel ex (next nd)
  end.

(** Lines 77-85: merge a segment into its predecessor when they touch. *)
Fixpoint ex_merge (fuel : nat) (ex : list SegmentList) (prev : nat) (curr : option nat) :
    outcome (list SegmentList) :=
  match fuel, curr with
  | _, None => Ok ex
  | O, _ => Hang
  | S fuel, Some c =>
      p ← idx ex prev;
      n ← idx ex c;
      let ps := seg p in
      let ns := seg n in
      if u64 (s_base ps + s_len ps) <? s_base ns then ex_merge fuel ex c (next n)
      else
        let len := Z.max (s_len ps) (u64 (u64 (s_base ns + s_len ns) - s_base ps)) in
        ex ← upd ex prev (mkNode (next n) (mkSeg (s_base ps) (u64 (s_base ps + len)) len));
        ex_merge fuel ex prev (next n)
  end.

(** The head of the list is always [&excluded[0]]. *)
Definition mmu_compute_excluded (fuel : nat) (map : PhysicalMMap) (excluded : list SegmentList) :
    outcome (list SegmentList) :=
  ex ← ex_copy (num_kernel_sects map) (kernel_sects map) 0 None excluded;
  ex ← ex_round fuel ex (Some 0%nat);
  h ← idx ex 0;
  ex_merge fuel ex 0 (next h).

(** ** The code of [mmu_compute_free_segments] *)

(** Lines 104-113. *)
Fixpoint free_copy (k : nat) (ram : list MMapEntry) (i : nat) (prev : option nat)
    (fs : list SegmentList) : outcome (list SegmentList) :=
  match k with
  | O => Ok fs
  | S k =>
      e ← idx ram i;
      let base := me_base e in
      let len := me_length e in
      fs ← upd fs i (mkNode None (mkSeg base (u64 (base + len)) len));
      fs ← (match prev with Some p => set_next fs p (Some i) | None => Ok fs end);
      free_copy k ram (S i) (Some i) fs
  end.

(** Lines 117-127: base up and length down to a page boundary. *)
Definition round_free (s : Segment) : Segment :=
  let new_base := s_base s in
  let new_base :=
    if truth (new_base mod PAGE_SIZE)
    then let new_base := u64 (new_base + PAGE_SIZE) in new_base - new_base mod PAGE_SIZE
    else new_base in
  let len := u64 (s_end s - new_base) in
  let len := len - len mod PAGE_SIZE in
  mkSeg new_base (u64 (new_base + len)) len.

(** Lines 116-136; a segment whose length became zero is unlinked. *)
Fixpoint free_round (fuel : nat) (fs : list SegmentList) (head prev curr : option nat) :
    outcome (list SegmentList * option nat) :=
  match fuel, curr with
  | _, None => Ok (fs, head)
  | O, _ => Hang
  | S fuel, Some c =>
      nd ← idx fs c;
      let s := round_free (seg nd) in
      fs ← upd fs c (mkNode (next nd) s);
      r ← (if s_len s <=? 0 then
             match prev with
             | Some p => fs ← set_next fs p (next nd); Ok (fs, head)
             | None => Ok (fs, next nd)
             end
           else Ok (fs, head));
      free_round fuel r.1 r.2 (Some c) (next nd)
  end.

(** Lines 139-170: subtract the excluded list [ex] from the free list; [i] is
    the next unused entry of the array. *)
Fixpoint carve (fuel : nat) (fs : list SegmentList) (head prev fcurr : option nat)
    (ex : list SegmentList) (ecurr : option nat) (i : nat) :
    outcome (list SegmentList * option nat) :=
  match fuel, fcurr, ecurr with
  | _, None, _ => Ok (fs, head)
  | _, _, None => Ok (fs, head)
  | O, _, _ => Hang
  | S fuel, Some f, Some e =>
      fn ← idx fs f;
      en ← idx ex e;
      let F := seg fn in
      let E := seg en in
      if (s_base F <? s_base E) && (s_base E <? s_end F) then
        fs ← upd fs f (mkNode (next fn) (mkSeg (s_base F) (s_end F) (u64 (s_base E - s_base F))));
        if s_end E <? s_end F then
          ni ← idx fs i;
          fs ← upd fs i (mkNode (next fn)
                 (mkSeg (s_end E) (s_end (seg ni)) (u64 (s_end F - s_end E))));
          fs ← set_next fs f (Some i);
          carve fuel fs head (Some f) (Some i) ex (next en) (S i)
        else carve fuel fs head (Some f) (next fn) ex ecurr i
      else if (s_base E <=? s_base F) && (s_base F <? s_end E) then
        if s_end F <? s_end E then
          match prev with
          | Some p =>
              fs ← set_next fs p (next fn);
              carve fuel fs head prev fcurr ex ecurr i
          | None => carve fuel fs (next fn) prev fcurr ex ecurr i
          end
        else
          fs ← upd fs f (mkNode (next fn) (mkSeg (s_end E) (s_end F) (u64 (s_end F - s_end E))));
          carve fuel fs head prev fcurr ex (next en) i
      else carve fuel fs head (Some f) (next fn) ex ecurr i
  end.

(** Lines 173-180: the page at address 0 is never free. *)
Definition drop_null_page (fs : list SegmentList) (head : option nat) :
    outcome (list SegmentList * option nat) :=
  match head with
  | None => Fault
  | Some h =>
      nd ← idx fs h;
      let s := seg nd in
      if s_base s =? NULL then
        if s_len s =? PAGE_SIZE then Ok (fs, next nd)
        else
          fs ← upd fs h (mkNode (next nd)
                 (mkSeg (u64 (s_base s + PAGE_SIZE)) (s_end s) (u64 (s_len s - PAGE_SIZE))));
          Ok (fs, head)
      else Ok (fs, head)
  end.

Definition mmu_compute_free_segments (fuel : nat) (fs : list SegmentList) (map : PhysicalMMap)
    (ex : list SegmentList) : outcome (list SegmentList * option nat) :=
  fs ← free_copy (num_mmap map) (ram_sects map) 0 None fs;
  r ← free_round fuel fs (Some 0%nat) None (Some 0%nat);
  r ← carve fuel r.1 r.2 None r.2 ex (Some 0%nat) (num_mmap map);
  drop_null_page r.1 r.2.

(** The segment part of [MMU_init], lines 188-196: the static state is zeroed
    and the excluded array is on the stack. *)
Definition mmu_init_segments (fuel : nat) (map : PhysicalMMap) (stack : list SegmentList) :
    outcome (option (list SegmentList * option nat)) :=
  if (MAX_EXCLUDE_SEGMENTS <? num_kernel_sects map)%nat then Ok None
  else
    ex ← mmu_compute_excluded fuel map stack;
    r ← mmu_compute_free_segments fuel (replicate MAX_FREE_SEGMENTS zero_node) map ex;
    Ok (Some r).

(** The segments of a list, in order, with the fuel to follow its pointers. *)
Fixpoint seg_list (fuel : nat) (arr : list SegmentList) (h : option nat) : outcome (list Segment) :=
  match fuel, h with
  | _, None => Ok []
  | O, _ => Hang
  | S fuel, Some i => nd ← idx arr i; rest ← seg_list fuel arr (next nd); Ok (seg nd :: rest)
  end.

(** ** Lists inside an array *)

(** The list from [h] goes through the entries [l.*1] and holds [l.*2]. *)
Fixpoint slist (arr : list SegmentList) (h : option nat) (l : list (nat * Segment)) : Prop :=
  match l with
  | [] => h = None
  | (i, s) :: l => h = Some i ∧ ∃ n, arr !! i = Some (mkNode n s) ∧ slist arr n l
  end.

Lemma slist_ext arr arr' h l :
  (∀ i, i ∈ l.*1 → arr' !! i = arr !! i) → slist arr h l → slist arr' h l.
Proof.
  revert h. induction l as [|[i s] l IH]; intros h Heq; cbn [slist]; [done|].
  intros [-> (n & Hn & Hl)]. split; [done|]. exists n. rewrite Heq by (cbn; set_solver).
  split; [done|]. apply IH; [|done]. intros. apply Heq. cbn. set_solver.
Qed.

Lemma slist_seg_list arr h l fuel :
  slist arr h l → (length l ≤ fuel)%nat → seg_list fuel arr h = Ok l.*2.
Proof.
  revert h fuel. induction l as [|[i s] l IH]; intros h fuel Hl Hf; cbn [slist length] in *.
  - subst. by destruct fuel.
  - destruct Hl as [-> (n & Hn & Hl)]. destruct fuel as [|fuel]; [lia|].
    cbn [seg_list]. rewrite (proj2 (idx_Ok _ _ _) Hn), bind_Ok. cbn [next seg].
    rewrite (IH n fuel) by (done || lia). done.
Qed.

Lemma slist_lt arr h l i : slist arr h l → i ∈ l.*1 → (i < length arr)%nat.
Proof.
  revert h. induction l as [|[j s] l IH]; intros h Hl Hi; cbn in *; [by apply elem_of_nil in Hi|].
  destruct Hl as [-> (n & Hn & Hl)]. apply elem_of_cons in Hi as [->|Hi]; [|by eapply IH].
  by eapply lookup_lt_Some.
Qed.

(** Following pointers is deterministic, so a list that ends has no cycle. *)
Lemma slist_det arr h l l' : slist arr h l → slist arr h l' → l = l'.
Proof.
  revert h l'. induction l as [|[i s] l IH]; intros h [|[j t] l']; cbn [slist].
  - done.
  - intros -> [? _]. done.
  - intros [-> _] ?. done.
  - intros [-> (n & Hn & Hl)] [[= <-] (n' & Hn' & Hl')]. rewrite Hn in Hn'. injection Hn' as <- <-.
    f_equal. by eapply IH.
Qed.

Lemma slist_suffix arr h l1 i s l2 :
  slist arr h (l1 ++ (i, s) :: l2) → slist arr (Some i) ((i, s) :: l2).
Proof.
  revert h. induction l1 as [|[j t] l1 IH]; intros h; cbn [app].
  - intros [-> H]. by split.
  - intros [-> (n & _ & Hl)]. by eapply IH.
Qed.

Lemma slist_NoDup arr h l : slist arr h l → NoDup l.*1.
Proof.
  revert h. induction l as [|[i s] l IH]; intros h; cbn [slist fmap list_fmap]; [by constructor|].
  intros [-> (n & Hn & Hl)]. constructor; [|by eapply IH].
  intros ([j t] & Hj & Hin)%list_elem_of_fmap. cbn in Hj. subst j.
  apply list_elem_of_split in Hin as (l1 & l2 & ->). pose proof (slist_suffix _ _ _ _ _ _ Hl) as H2.
  assert (slist arr (Some i) ((i, s) :: l1 ++ (i, t) :: l2)) as H1 by (split; eauto).
  pose proof (slist_det _ _ _ _ H1 H2) as E. apply (f_equal length) in E.
  cbn in E. rewrite length_app in E. cbn in E. lia.
Qed.

Lemma set_next_Ok arr i n nd :
  arr !! i = Some nd → set_next arr i n = Ok (<[i := mkNode n (seg nd)]> arr).
Proof.
  intros H. unfold set_next. rewrite (proj2 (idx_Ok _ _ _) H), bind_Ok.
  apply upd_Ok. by eapply lookup_lt_Some.
Qed.

(** The copy loops of both functions, over any source array. *)
Fixpoint copy_gen {A} (mk : A → Segment) (k : nat) (src : list A) (i : nat) (prev : option nat)
    (arr : list SegmentList) : outcome (list SegmentList) :=
  match k with
  | O => Ok arr
  | S k =>
      e ← idx src i;
      arr ← upd arr i (mkNode None (mk e));
      arr ← (match prev with Some p => set_next arr p (Some i) | None => Ok arr end);
      copy_gen mk k src (S i) (Some i) arr
  end.

Definition seg_of_ks (k : KernelSection) : Segment :=
  mkSeg (ks_base k) (u64 (ks_base k + ks_length k)) (ks_length k).
Definition seg_of_me (e : MMapEntry) : Segment :=
  mkSeg (me_base e) (u64 (me_base e + me_length e)) (me_length e).

Lemma ex_copy_gen k ks i prev arr : ex_copy k ks i prev arr = copy_gen seg_of_ks k ks i prev arr.
Proof.
  revert i prev arr. induction k as [|k IH]; intros i prev arr; [done|].
  cbn [ex_copy copy_gen]. unfold idx. destruct (ks !! i) as [x|]; [|done]. rewrite !bind_Ok.
  unfold seg_of_ks at 1. destruct (upd arr i _) as [a| |]; [|done..]. rewrite !bind_Ok.
  destruct prev as [p|]; [|apply IH]. destruct (set_next a p (Some i)); [apply IH|done..].
Qed.

Lemma free_copy_gen k ram i prev arr : free_copy k ram i prev arr = copy_gen seg_of_me k ram i prev arr.
Proof.
  revert i prev arr. induction k as [|k IH]; intros i prev arr; [done|].
  cbn [free_copy copy_gen]. unfold idx. destruct (ram !! i) as [x|]; [|done]. rewrite !bind_Ok.
  unfold seg_of_me at 1. destruct (upd arr i _) as [a| |]; [|done..]. rewrite !bind_Ok.
  destruct prev as [p|]; [|apply IH]. destruct (set_next a p (Some i)); [apply IH|done..].
Qed.

Lemma copy_gen_ok {A} (mk : A → Segment) (src : list A) i prev arr :
  (i + length src ≤ length arr)%nat →
  (∀ p, prev = Some p → (p < i)%nat ∧ is_Some (arr !! p)) →
  ∀ full t, drop i full = src ++ t →
  ∃ arr', copy_gen mk (length src) full i prev arr = Ok arr' ∧ length arr' = length arr ∧
    slist arr' (match src with [] => None | _ => Some i end)
      (zip (seq i (length src)) (mk <$> src)) ∧
    (∀ j, (j < i)%nat → prev ≠ Some j → arr' !! j = arr !! j) ∧
    (∀ p nd, prev = Some p → arr !! p = Some nd →
       arr' !! p = Some (match src with [] => nd | _ => mkNode (Some i) (seg nd) end)).
Proof.
  revert i prev arr. induction src as [|x src IH]; intros i prev arr Hlen Hprev full t Hfull.
  { exists arr. do 4 (split; [done|]). by intros p nd _ ->. }
  cbn [length copy_gen] in *.
  assert (full !! i = Some x) as Hx.
  { rewrite <- (Nat.add_0_r i), <- lookup_drop, Hfull. done. }
  rewrite (proj2 (idx_Ok _ _ _) Hx), bind_Ok, upd_Ok, bind_Ok by lia.
  set (a1 := <[i := mkNode None (mk x)]> arr).
  assert (∃ a2, (match prev with Some p => set_next a1 p (Some i) | None => Ok a1 end) = Ok a2 ∧
    length a2 = length arr ∧ a2 !! i = Some (mkNode None (mk x)) ∧
    (∀ j, (j < i)%nat → prev ≠ Some j → a2 !! j = arr !! j) ∧
    (∀ p nd, prev = Some p → arr !! p = Some nd → a2 !! p = Some (mkNode (Some i) (seg nd))))
    as (a2 & -> & Hl2 & Hi2 & Hj2 & Hp2).
  { destruct prev as [p|].
    - destruct (Hprev p eq_refl) as [Hpi [nd Hnd]].
      assert (a1 !! p = Some nd) as E by (subst a1; rewrite list_lookup_insert_ne by lia; done).
      rewrite (set_next_Ok _ _ _ _ E). eexists; split; [done|].
      assert (length a1 = length arr) by apply length_insert.
      rewrite length_insert. split; [done|]. split; [|split].
      + rewrite list_lookup_insert_ne by lia. apply list_lookup_insert_eq. lia.
      + intros j Hj Hne. rewrite list_lookup_insert_ne by congruence.
        apply list_lookup_insert_ne. lia.
      + intros p' nd' [= <-] Hnd'. rewrite list_lookup_insert_eq; [congruence|].
        apply lookup_lt_Some in E. done.
    - eexists; split; [done|]. split; [apply length_insert|]. split; [|split; [|done]].
      + apply list_lookup_insert_eq. lia.
      + intros j Hj _. apply list_lookup_insert_ne. lia. }
  rewrite bind_Ok.
  destruct (IH (S i) (Some i) a2) with (full := full) (t := t) as (arr' & E & Hl & Hs & Hj & Hp).
  - lia.
  - intros p [= <-]. split; [lia|eauto].
  - rewrite <- Nat.add_1_r, <- drop_drop. by rewrite Hfull.
  - exists arr'. rewrite E. split; [done|]. split; [lia|]. split; [|split].
    + cbn [seq zip zip_with fmap list_fmap slist]. split; [done|].
      rewrite (Hp i _ eq_refl Hi2). destruct src; eexists; (split; [done|]); exact Hs.
    + intros j Hji Hne. rewrite Hj by (try lia; intros [=]; lia). auto.
    + intros p nd Hpe Hnd. destruct (Hprev p Hpe) as [Hpi _].
      rewrite Hj by (try lia; intros [=]; lia). auto.
Qed.

Lemma zip_seq_fst {A} i (l : list A) : (zip (seq i (length l)) l).*1 = seq i (length l).
Proof. apply fst_zip. by rewrite length_seq. Qed.
Lemma zip_seq_snd {A} i (l : list A) : (zip (seq i (length l)) l).*2 = l.
Proof. apply snd_zip. by rewrite length_seq. Qed.

Lemma copy_list_ok {A} (mk : A → Segment) (k : nat) (full : list A) arr :
  (0 < k ≤ length full)%nat → (k ≤ length arr)%nat →
  ∃ arr' l, copy_gen mk k full 0 None arr = Ok arr' ∧ length arr' = length arr ∧
    slist arr' (Some 0%nat) l ∧ l.*1 = seq 0 k ∧ l.*2 = mk <$> take k full.
Proof.
  intros Hk Harr. set (src := take k full).
  assert (Hlen : length src = k) by (subst src; rewrite length_take; lia).
  destruct (copy_gen_ok mk src 0 None arr) with (full := full) (t := drop k full)
    as (arr' & E1 & Hl1 & Hs1 & _).
  { lia. } { done. } { subst src. by rewrite drop_0, take_drop. }
  exists arr', (zip (seq 0 (length src)) (mk <$> src)). rewrite <- Hlen at 1 2.
  split; [done|]. split; [done|]. split; [|split].
  - destruct src; [cbn in Hlen; lia|done].
  - rewrite <- (length_fmap mk src). apply zip_seq_fst.
  - rewrite <- (length_fmap mk src). apply zip_seq_snd.
Qed.

(** ** The rounding loops *)

Definition on_segs (g : Segment → Segment) (l : list (nat * Segment)) : list (nat * Segment) :=
  prod_map id g <$> l.

Lemma on_segs_fst g l : (on_segs g l).*1 = l.*1.
Proof. unfold on_segs. rewrite <- list_fmap_compose. by apply list_fmap_ext. Qed.
Lemma on_segs_snd g l : (on_segs g l).*2 = g <$> l.*2.
Proof. unfold on_segs. rewrite <- !list_fmap_compose. by apply list_fmap_ext. Qed.

Lemma ex_round_ok fuel ex h l :
  slist ex h l → NoDup l.*1 → (length l ≤ fuel)%nat →
  ∃ ex', ex_round fuel ex h = Ok ex' ∧ length ex' = length ex ∧
    slist ex' h (on_segs round_excluded l) ∧ (∀ j, j ∉ l.*1 → ex' !! j = ex !! j).
Proof.
  revert fuel ex h. induction l as [|[i s] l IH]; intros fuel ex h Hl Hnd Hf; cbn [slist length] in *.
  { subst h. exists ex. by destruct fuel. }
  destruct Hl as [-> (n & Hn & Hl)]. destruct fuel as [|fuel]; [lia|].
  cbn [fmap list_fmap] in Hnd. apply NoDup_cons in Hnd as [Hi Hnd].
  assert (Hlt : (i < length ex)%nat) by (by eapply lookup_lt_Some).
  cbn [ex_round]. rewrite (proj2 (idx_Ok _ _ _) Hn), bind_Ok, upd_Ok, bind_Ok by done.
  cbn [next seg]. set (ex1 := <[i := _]> ex).
  destruct (IH fuel ex1 n) as (ex' & -> & Hlen & Hs & Hj); [|done|lia|].
  { eapply slist_ext; [|exact Hl]. intros j Hjl. apply list_lookup_insert_ne.
    intros ->. done. }
  exists ex'. split; [done|]. subst ex1. rewrite length_insert in Hlen. split; [done|]. split.
  - cbn. split; [done|]. exists n. rewrite Hj by done. rewrite list_lookup_insert_eq by done.
    done.
  - intros j Hnj. cbn in Hnj. apply not_elem_of_cons in Hnj as [??].
    rewrite Hj by done. by apply list_lookup_insert_ne.
Qed.

Lemma free_round_ok fuel fs h head prev l :
  slist fs h l → NoDup l.*1 → (length l ≤ fuel)%nat →
  Forall (fun s => 0 < s_len (round_free s)) l.*2 →
  ∃ fs', free_round fuel fs head prev h = Ok (fs', head) ∧ length fs' = length fs ∧
    slist fs' h (on_segs round_free l) ∧ (∀ j, j ∉ l.*1 → fs' !! j = fs !! j).
Proof.
  revert fuel fs h prev. induction l as [|[i s] l IH]; intros fuel fs h prev Hl Hnd Hf Hpos;
    cbn [slist length] in *.
  { subst h. exists fs. by destruct fuel. }
  destruct Hl as [-> (n & Hn & Hl)]. destruct fuel as [|fuel]; [lia|].
  cbn [fmap list_fmap] in Hnd, Hpos. apply NoDup_cons in Hnd as [Hi Hnd].
  apply Forall_cons in Hpos as [Hp Hpos]. cbn in Hp.
  assert (Hlt : (i < length fs)%nat) by (by eapply lookup_lt_Some).
  cbn [free_round]. rewrite (proj2 (idx_Ok _ _ _) Hn), bind_Ok, upd_Ok, bind_Ok by done.
  cbn [next seg]. rewrite (proj2 (Z.leb_gt _ _)) by done. rewrite bind_Ok. cbn [fst snd].
  set (fs1 := <[i := _]> fs).
  destruct (IH fuel fs1 n (Some i)) as (fs' & -> & Hlen & Hs & Hj); [|done|lia|done|].
  { eapply slist_ext; [|exact Hl]. intros j Hjl. apply list_lookup_insert_ne.
    intros ->. done. }
  exists fs'. split; [done|]. subst fs1. rewrite length_insert in Hlen. split; [done|]. split.
  - cbn. split; [done|]. exists n. rewrite Hj by done. rewrite list_lookup_insert_eq by done.
    done.
  - intros j Hnj. cbn in Hnj. apply not_elem_of_cons in Hnj as [??].
    rewrite Hj by done. by apply list_lookup_insert_ne.
Qed.

(** ** The merge loop *)

(** The merge as a function on the list of segments. *)
Fixpoint merge_segs (p : Segment) (l : list Segment) : list Segment :=
  match l with
  | [] => [p]
  | n :: l =>
      if s_base p + s_len p <? s_base n then p :: merge_segs n l
      else
        let len := Z.max (s_len p) (s_base n + s_len n - s_base p) in
        merge_segs (mkSeg (s_base p) (s_base p + len) len) l
  end.

(** No arithmetic on the segment leaves the address space. *)
Definition seg_fits (s : Segment) : Prop :=
  0 ≤ s_base s ∧ 0 ≤ s_len s ∧ s_base s + s_len s < 18446744073709551616.

Definition base_le (s t : Segment) : Prop := s_base s ≤ s_base t.

Lemma ex_merge_ok fuel ex p sp h l :
  ex !! p = Some (mkNode h sp) → slist ex h l → NoDup (p :: l.*1) →
  (length l ≤ fuel)%nat → Forall seg_fits (sp :: l.*2) → StronglySorted base_le (sp :: l.*2) →
  ∃ ex' l', ex_merge fuel ex p h = Ok ex' ∧ length ex' = length ex ∧
    slist ex' (Some p) l' ∧ l'.*2 = merge_segs sp l.*2 ∧
    (∀ j, j ∉ p :: l.*1 → ex' !! j = ex !! j).
Proof.
  revert fuel ex p sp h. induction l as [|[i s] l IH];
    intros fuel ex p sp h Hp Hl Hnd Hf Hfit Hso; cbn [slist length] in *.
  { subst h. exists ex, [(p, sp)]. split; [by destruct fuel|]. split; [done|]. split; [|done].
    cbn. eauto. }
  destruct Hl as [-> (n & Hn & Hl)]. destruct fuel as [|fuel]; [lia|].
  cbn [fmap list_fmap] in Hnd, Hfit, Hso |- *.
  apply NoDup_cons in Hnd as [Hpi Hnd]. apply NoDup_cons in Hnd as Hnd'. destruct Hnd' as [Hil Hnl].
  apply Forall_cons in Hfit as [Hfp Hfit]. apply Forall_cons in Hfit as Hfit'.
  destruct Hfit' as [Hfs Hfl]. apply StronglySorted_inv in Hso as [Hso Hple].
  apply Forall_cons in Hple as [Hps Hpl]. unfold seg_fits, base_le in Hfp, Hfs, Hps. cbn in Hfs, Hps.
  cbn [ex_merge]. rewrite (proj2 (idx_Ok _ _ _) Hp), (proj2 (idx_Ok _ _ _) Hn), !bind_Ok.
  cbn [next seg merge_segs snd]. rewrite u64_small by lia.
  destruct (Z.ltb_spec (s_base sp + s_len sp) (s_base s)) as [Hlt|Hge].
  - destruct (IH fuel ex i s n) as (ex' & l' & -> & Hlen & Hs & Hm & Hj); try done; [lia|].
    exists ex', ((p, sp) :: l'). split; [done|]. split; [done|]. split; [|split].
    + cbn. split; [done|]. exists (Some i). by rewrite Hj.
    + cbn. by rewrite Hm.
    + intros j Hjn. apply Hj. set_solver.
  - rewrite upd_Ok, bind_Ok by (by eapply lookup_lt_Some).
    rewrite (u64_small (s_base s + s_len s)), (u64_small (s_base s + s_len s - s_base sp)) by lia.
    set (len := Z.max _ _). rewrite (u64_small (s_base sp + len)) by lia.
    set (sp' := mkSeg _ _ len). set (ex1 := <[p := _]> ex).
    destruct (IH fuel ex1 p sp' n) as (ex' & l' & -> & Hlen & Hs & Hm & Hj).
    + apply list_lookup_insert_eq. by eapply lookup_lt_Some.
    + eapply slist_ext; [|exact Hl]. intros j Hjl. apply list_lookup_insert_ne. set_solver.
    + constructor; [set_solver|done].
    + lia.
    + constructor; [|done]. unfold seg_fits. cbn. lia.
    + constructor; [by apply StronglySorted_inv in Hso as [? _]|done].
    + exists ex', l'. subst ex1. rewrite length_insert in Hlen. do 4 (split; [done|]).
      intros j Hjn. rewrite Hj by set_solver. apply list_lookup_insert_ne. set_solver.
Qed.

(** ** What the pure functions compute *)

Definition covers (l : list Segment) (a : Z) : Prop :=
  Exists (fun s => s_base s ≤ a < s_base s + s_len s) l.

Definition page_aligned (s : Segment) : Prop :=
  s_base s mod PAGE_SIZE = 0 ∧ s_len s mod PAGE_SIZE = 0 ∧ s_end s = s_base s + s_len s.

(** Segments in increasing order with a gap between neighbours. *)
Definition gap_before (s t : Segment) : Prop := s_base s + s_len s < s_base t.

Lemma merge_segs_covers p l a :
  Forall (fun s => 0 ≤ s_len s) (p :: l) → StronglySorted base_le (p :: l) →
  covers (merge_segs p l) a ↔ covers (p :: l) a.
Proof.
  revert p. induction l as [|n l IH]; intros p Hpos Hso; cbn [merge_segs]; [done|].
  apply Forall_cons in Hpos as [Hp [Hn Hl]%Forall_cons].
  apply StronglySorted_inv in Hso as [Hso [Hpn Hpl]%Forall_cons].
  unfold base_le in Hpn. unfold covers in *.
  destruct (Z.ltb_spec (s_base p + s_len p) (s_base n)).
  - rewrite !Exists_cons, IH by (done || by constructor). by rewrite Exists_cons.
  - rewrite IH; [|constructor; [cbn; lia|done]|constructor; [by apply StronglySorted_inv in Hso as [? _]|done]].
    rewrite !Exists_cons. cbn [s_base s_len].
    assert (s_base p ≤ a < s_base p + Z.max (s_len p) (s_base n + s_len n - s_base p) ↔
      (s_base p ≤ a < s_base p + s_len p) ∨ (s_base n ≤ a < s_base n + s_len n)) as ->
      by lia.
    tauto.
Qed.

Lemma merge_segs_base_ge b p l :
  b ≤ s_base p → Forall (fun t => b ≤ s_base t) l →
  Forall (fun t => b ≤ s_base t) (merge_segs p l).
Proof.
  revert p. induction l as [|n l IH]; intros p Hp Hl; cbn [merge_segs]; [by constructor|].
  apply Forall_cons in Hl as [Hn Hl]. destruct (_ <? _); [constructor; [done|]|]; by apply IH.
Qed.

Lemma merge_segs_gaps p l :
  StronglySorted base_le (p :: l) → StronglySorted gap_before (merge_segs p l).
Proof.
  revert p. induction l as [|n l IH]; intros p Hso; cbn [merge_segs]; [repeat constructor|].
  apply StronglySorted_inv in Hso as [Hso [Hpn Hpl]%Forall_cons].
  destruct (Z.ltb_spec (s_base p + s_len p) (s_base n)) as [Hlt|Hge].
  - constructor; [by apply IH|]. apply StronglySorted_inv in Hso as [_ Hnl].
    eapply Forall_impl; [apply (merge_segs_base_ge (s_base n)); [done|exact Hnl]|].
    intros t Ht. unfold gap_before. cbn in Ht. lia.
  - apply IH. constructor; [by apply StronglySorted_inv in Hso as [? _]|done].
Qed.

Lemma merge_segs_aligned p l :
  Forall page_aligned (p :: l) → Forall page_aligned (merge_segs p l).
Proof.
  revert p. induction l as [|n l IH]; intros p Hal; cbn [merge_segs]; [done|].
  apply Forall_cons in Hal as [Hp [Hn Hl]%Forall_cons].
  destruct (_ <? _); [constructor; [done|]; apply IH; by constructor|].
  apply IH. constructor; [|done]. unfold page_aligned, PAGE_SIZE in *. cbn.
  split; [tauto|]. split; [|done].
  destruct (Z.max_spec (s_len p) (s_base n + s_len n - s_base p)) as [[_ ->]|[_ ->]]; [|tauto].
  destruct Hp as (Hp1 & Hp2 & _), Hn as (Hn1 & Hn2 & _). word_lia.
Qed.

Lemma merge_segs_length p l : (length (merge_segs p l) ≤ S (length l))%nat.
Proof.
  revert p. induction l as [|n l IH]; intros p; cbn [merge_segs length]; [lia|].
  destruct (_ <? _); cbn [length]; [|etrans; [apply IH|lia]]. specialize (IH n). lia.
Qed.

(** The pages a section touches. *)
Lemma round_excluded_spec s :
  seg_fits s → s_base s + s_len s + 2 * PAGE_SIZE ≤ 18446744073709551616 →
  page_aligned (round_excluded s) ∧ seg_fits (round_excluded s) ∧
  s_base (round_excluded s) = PAGE_SIZE * (s_base s / PAGE_SIZE) ∧
  s_base (round_excluded s) + s_len (round_excluded s) =
    PAGE_SIZE * ((s_base s + s_len s + (PAGE_SIZE - 1)) / PAGE_SIZE).
Proof.
  unfold seg_fits, page_aligned, round_excluded, PAGE_SIZE. intros (Hb & Hl & Hf) Hmax.
  set (b := s_base s) in *. set (n := s_len s) in *. cbn [s_base s_len s_end]. clearbody b n. clear s.
  rewrite (u64_small (n + _)) by word_lia.
  set (len := n + (b - (b - b mod 4096))).
  assert (E : len = n + b mod 4096) by lia. clearbody len.
  unfold truth. destruct (Z.eqb_spec (len mod 4096) 0) as [E0|E0]; cbn [negb].
  - rewrite u64_small by word_lia. word_lia.
  - rewrite (u64_small (len + 4096)) by word_lia. rewrite u64_small by word_lia. word_lia.
Qed.

Definition ks_fits (k : KernelSection) : Prop :=
  0 ≤ ks_base k ∧ 0 ≤ ks_length k ∧ ks_base k + ks_length k + 2 * PAGE_SIZE ≤ 18446744073709551616.

(** [a] lies on a page that the section [k] reaches into. *)
Definition on_section_page (k : KernelSection) (a : Z) : Prop :=
  PAGE_SIZE * (ks_base k / PAGE_SIZE) ≤ a <
  PAGE_SIZE * ((ks_base k + ks_length k + (PAGE_SIZE - 1)) / PAGE_SIZE).

Lemma seg_of_ks_round k : ks_fits k →
  page_aligned (round_excluded (seg_of_ks k)) ∧ seg_fits (round_excluded (seg_of_ks k)) ∧
  s_base (round_excluded (seg_of_ks k)) = PAGE_SIZE * (ks_base k / PAGE_SIZE) ∧
  s_base (round_excluded (seg_of_ks k)) + s_len (round_excluded (seg_of_ks k)) =
    PAGE_SIZE * ((ks_base k + ks_length k + (PAGE_SIZE - 1)) / PAGE_SIZE).
Proof.
  intros (H1 & H2 & H3). apply (round_excluded_spec (seg_of_ks k)); cbn; [|done].
  unfold seg_fits, PAGE_SIZE in *. cbn. lia.
Qed.

Lemma StronglySorted_fmap {A B} (R : A → A → Prop) (S : B → B → Prop) (f : A → B) (P : A → Prop) l :
  (∀ x y, P x → P y → R x y → S (f x) (f y)) → Forall P l →
  StronglySorted R l → StronglySorted S (f <$> l).
Proof.
  intros HRS HP. induction 1 as [|x l Hl IH Hx]; cbn; constructor.
  - apply IH. by apply Forall_cons in HP as [_ ?].
  - apply Forall_cons in HP as [Hpx Hpl]. apply Forall_fmap.
    rewrite Forall_forall in *. intros y Hy. apply HRS; auto.
Qed.

Definition ks_base_le (a b : KernelSection) : Prop := ks_base a ≤ ks_base b.

(** The whole of [mmu_compute_excluded] as a function on lists. *)
Definition excluded_of (ks : list KernelSection) : list Segment :=
  match (round_excluded ∘ seg_of_ks) <$> ks with
  | [] => []
  | p :: l => merge_segs p l
  end.

Section Excluded.
Context (fuel : nat) (map : PhysicalMMap) (stack : list SegmentList).
Let ks := take (num_kernel_sects map) (kernel_sects map).
Hypothesis Hnum : (0 < num_kernel_sects map ≤ length (kernel_sects map))%nat.
Hypothesis Hstack : (num_kernel_sects map ≤ length stack)%nat.
Hypothesis Hfuel : (num_kernel_sects map ≤ fuel)%nat.
Hypothesis Hfits : Forall ks_fits ks.
Hypothesis Hsorted : StronglySorted ks_base_le ks.

Lemma excluded_rounded :
  Forall page_aligned ((round_excluded ∘ seg_of_ks) <$> ks) ∧
  Forall seg_fits ((round_excluded ∘ seg_of_ks) <$> ks) ∧
  StronglySorted base_le ((round_excluded ∘ seg_of_ks) <$> ks).
Proof using Hfits Hsorted.
  clear Hnum Hstack Hfuel.
  split; [|split].
  - apply Forall_fmap. eapply Forall_impl; [exact Hfits|]. intros k Hk. by apply seg_of_ks_round.
  - apply Forall_fmap. eapply Forall_impl; [exact Hfits|]. intros k Hk. by apply seg_of_ks_round.
  - eapply (StronglySorted_fmap ks_base_le _ _ ks_fits); [|done|done].
    intros x y Hx Hy Hxy. unfold base_le. cbn [compose].
    destruct (seg_of_ks_round x Hx) as (_ & _ & -> & _).
    destruct (seg_of_ks_round y Hy) as (_ & _ & -> & _).
    unfold ks_base_le, PAGE_SIZE in *. word_lia.
Qed.

Lemma mmu_compute_excluded_list :
  ∃ ex l, mmu_compute_excluded fuel map stack = Ok ex ∧
    slist ex (Some 0%nat) l ∧ l.*2 = excluded_of ks.
Proof.
  destruct (copy_list_ok seg_of_ks (num_kernel_sects map) (kernel_sects map) stack)
    as (ex1 & l1 & E1 & _ & Hs1 & Hfst & Hsnd); [done..|].
  destruct excluded_rounded as (_ & Hf & Hs). fold ks in Hsnd.
  unfold mmu_compute_excluded, excluded_of. rewrite ex_copy_gen, E1, bind_Ok.
  assert (Hlen1 : length l1 = num_kernel_sects map) by
    (by rewrite <- (length_fmap fst l1), Hfst, length_seq).
  destruct (ex_round_ok fuel ex1 (Some 0%nat) l1) as (ex2 & E2 & Hl2 & Hs2 & _).
  { done. } { rewrite Hfst. apply NoDup_seq. } { lia. }
  rewrite E2, bind_Ok. rewrite list_fmap_compose, <- Hsnd, <- on_segs_snd in *.
  assert (Hnd : NoDup (on_segs round_excluded l1).*1) by (rewrite on_segs_fst, Hfst; apply NoDup_seq).
  destruct (on_segs round_excluded l1) as [|[i s] l2] eqn:E.
  { apply (f_equal length) in E. unfold on_segs in E. rewrite length_fmap in E. cbn in E. lia. }
  destruct Hs2 as [[= <-] (n & Hn & Hs2)]. rewrite (proj2 (idx_Ok _ _ _) Hn), bind_Ok.
  cbn [next]. destruct (ex_merge_ok fuel ex2 0 s n l2) as (ex' & l' & -> & _ & Hsl & Hm & _); try done.
  - apply (f_equal length) in E. unfold on_segs in E. rewrite length_fmap in E. cbn in E. lia.
  - by exists ex', l'.
Qed.
End Excluded.

(** ** Theorems on the excluded list *)

(** C31: [mmu_compute_excluded] on kernel sections sorted by base terminates
    with a list of page-aligned segments, in increasing order and with a gap
    between neighbours, that covers exactly the pages the sections reach into. *)
Theorem mmu_compute_excluded_exact (fuel : nat) (map : PhysicalMMap) (stack : list SegmentList) :
  let ks := take (num_kernel_sects map) (kernel_sects map) in
  (0 < num_kernel_sects map ≤ length (kernel_sects map))%nat →
  (num_kernel_sects map ≤ length stack)%nat → (num_kernel_sects map ≤ fuel)%nat →
  Forall ks_fits ks → StronglySorted ks_base_le ks →
  ∃ ex segs, mmu_compute_excluded fuel map stack = Ok ex ∧
    seg_list (num_kernel_sects map) ex (Some 0%nat) = Ok segs ∧
    Forall page_aligned segs ∧ StronglySorted gap_before segs ∧
    (∀ a, covers segs a ↔ Exists (fun k => on_section_page k a) ks).
Proof.
  intros ks Hnum Hst Hf Hfit Hso.
  destruct (mmu_compute_excluded_list fuel map stack Hnum Hst Hf Hfit Hso) as (ex & l & E & Hsl & Hl).
  destruct (excluded_rounded map Hfit Hso) as (Hal & Hfits & Hsor). fold ks in Hl, Hal, Hfits, Hsor.
  assert (Hcov : ∀ a, covers ((round_excluded ∘ seg_of_ks) <$> ks) a ↔
                      Exists (fun k => on_section_page k a) ks).
  { intros a. unfold covers. rewrite Exists_fmap.
    rewrite !Exists_exists. rewrite Forall_forall in Hfit.
    split; intros (k & Hk & Ha); exists k; (split; [done|]);
      destruct (seg_of_ks_round k (Hfit k Hk)) as (_ & _ & E1 & E2);
      unfold on_section_page in *; cbn [compose] in *; lia. }
  exists ex, (excluded_of ks). split; [done|].
  assert (Hlks : length ks = num_kernel_sects map) by (subst ks; rewrite length_take; lia).
  unfold excluded_of in *.
  destruct ((round_excluded ∘ seg_of_ks) <$> ks) as [|p r] eqn:Ek.
  { apply (f_equal length) in Ek. rewrite length_fmap in Ek. cbn in Ek. lia. }
  assert (Hr : S (length r) = length ks) by (by apply (f_equal length) in Ek; rewrite length_fmap in Ek).
  split.
  { rewrite <- Hl. apply slist_seg_list; [done|].
    rewrite <- (length_fmap snd l), Hl. pose proof (merge_segs_length p r). lia. }
  split; [by apply merge_segs_aligned|]. split; [by apply merge_segs_gaps|].
  intros a. rewrite merge_segs_covers; [apply Hcov| |done].
  eapply Forall_impl; [exact Hfits|]. intros s (_ & ? & _). done.
Qed.

(** The memory map GRUB reports under QEMU with 128 MB, and a kernel image of
    three sections that share pages. *)
Definition demo_map : PhysicalMMap := {|
  total_ram := 0x7fe0000; num_mmap := 2;
  ram_sects := [ {| me_base := 0; me_length := 0x9fc00 |};
                 {| me_base := 0x100000; me_length := 0x7ee0000 |} ];
  num_kernel_sects := 3;
  kernel_sects := [ {| ks_base := 0x100000; ks_length := 0x18; ks_name := 0 |};
                    {| ks_base := 0x100020; ks_length := 0x6000; ks_name := 0 |};
                    {| ks_base := 0x107000; ks_length := 0x9001; ks_name := 0 |} ] |}.

Ltac sorted_tac :=
  repeat first [apply SSorted_nil | apply SSorted_cons | apply Forall_nil_2 | apply Forall_cons_2].

Lemma mmu_compute_excluded_exact_witness :
  ∃ ex segs, mmu_compute_excluded 3 demo_map (replicate 128 zero_node) = Ok ex ∧
    seg_list 3 ex (Some 0%nat) = Ok segs ∧ Forall page_aligned segs.
Proof.
  destruct (mmu_compute_excluded_exact 3 demo_map (replicate 128 zero_node))
    as (ex & segs & H1 & H2 & H3 & _).
  - cbn. lia.
  - cbn. lia.
  - cbn. lia.
  - cbn. sorted_tac; unfold ks_fits, PAGE_SIZE; cbn; lia.
  - cbn. sorted_tac; unfold ks_base_le; cbn; lia.
  - exists ex, segs. by repeat split.
Defined.

(** ** Subtracting one excluded segment *)

Definition extent (s : Segment) : Z * Z := (s_base s, s_len s).

(** What is left of the free segments [l] when [E] is taken out of them. *)
Fixpoint carve_segs (E : Segment) (l : list Segment) : list (Z * Z) :=
  match l with
  | [] => []
  | f :: l =>
      if (s_base f <? s_base E) && (s_base E <? s_end f) then
        if s_end E <? s_end f then
          (s_base f, s_base E - s_base f) :: (s_end E, s_end f - s_end E) :: (extent <$> l)
        else (s_base f, s_base E - s_base f) :: carve_segs E l
      else if (s_base E <=? s_base f) && (s_base f <? s_end E) then
        (s_end E, s_end f - s_end E) :: (extent <$> l)
      else extent f :: carve_segs E l
  end.

(** A free segment as [free_round] leaves it. *)
Definition free_ok (s : Segment) : Prop :=
  page_aligned s ∧ 0 ≤ s_base s ∧ 0 < s_len s ∧ s_end s < 18446744073709551616.

(** No free segment starts inside [E] and ends in it. *)
Definition not_swallowed (E f : Segment) : Prop :=
  s_base E ≤ s_base f < s_end E → s_end E < s_end f.

Lemma slist_cons_insert fs i s n l :
  (i < length fs)%nat → i ∉ l.*1 → slist fs n l →
  slist (<[i := mkNode n s]> fs) (Some i) ((i, s) :: l).
Proof.
  intros Hi Hnl Hl. split; [done|]. exists n. rewrite list_lookup_insert_eq by done.
  split; [done|]. eapply slist_ext; [|exact Hl]. intros j Hj. apply list_lookup_insert_ne. set_solver.
Qed.

Section Carve.
Context (ex : list SegmentList) (e : nat) (E : Segment) (i : nat).
Hypothesis HE : ex !! e = Some (mkNode None E).
Hypothesis HEok : page_aligned E ∧ seg_fits E.

Lemma carve_split fuel fs head prev f F n l :
  fs !! f = Some (mkNode n F) → slist fs n l → f ∉ l.*1 → i ∉ l.*1 → f ≠ i →
  (i < length fs)%nat → free_ok F →
  s_base F < s_base E → s_base E < s_end F → s_end E < s_end F →
  ∃ fs' l', carve (S fuel) fs head prev (Some f) ex (Some e) i = Ok (fs', head) ∧
    slist fs' (Some f) l' ∧
    extent <$> l'.*2 = (s_base F, s_base E - s_base F) :: (s_end E, s_end F - s_end E) :: (extent <$> l.*2) ∧
    (∀ j, j ∉ f :: l.*1 → j ≠ i → fs' !! j = fs !! j).
Proof using HE HEok.
  intros Hf Hl Hfl Hil Hfi Hi HF H1 H2 H3.
  destruct HF as (_ & HF1 & HF2 & HF3), HEok as ((_ & _ & HEe) & HE1 & HE2 & HE3).
  assert (Hflt : (f < length fs)%nat) by (by eapply lookup_lt_Some).
  cbn [carve]. rewrite (proj2 (idx_Ok _ _ _) Hf), (proj2 (idx_Ok _ _ _) HE), !bind_Ok.
  cbn [seg next]. rewrite !(proj2 (Z.ltb_lt _ _)) by done. cbn [andb].
  rewrite upd_Ok, bind_Ok by done. set (fs1 := <[f := _]> fs).
  destruct (lookup_lt_is_Some_2 fs i Hi) as [ni Hni].
  assert (fs1 !! i = Some ni) as Hni1 by (subst fs1; by rewrite list_lookup_insert_ne).
  rewrite (proj2 (idx_Ok _ _ _) Hni1), bind_Ok, upd_Ok, bind_Ok
    by (subst fs1; by rewrite length_insert).
  set (fs2 := <[i := _]> fs1).
  assert (Hf2 : fs2 !! f = Some (mkNode n (mkSeg (s_base F) (s_end F) (u64 (s_base E - s_base F))))).
  { subst fs2 fs1. rewrite list_lookup_insert_ne by done. by apply list_lookup_insert_eq. }
  rewrite (set_next_Ok _ _ _ _ Hf2), bind_Ok. cbn [seg].
  set (fs3 := <[f := _]> fs2).
  exists fs3. eexists. split; [by destruct fuel|]. split; [|split].
  - subst fs3. apply (slist_cons_insert fs2 f _ (Some i)
      ((i, mkSeg (s_end E) (s_end (seg ni)) (u64 (s_end F - s_end E))) :: l)).
    + by subst fs2 fs1; rewrite !length_insert.
    + cbn. set_solver.
    + subst fs2. apply slist_cons_insert; [by subst fs1; rewrite length_insert|done|].
      eapply slist_ext; [|exact Hl]. intros j Hj. apply list_lookup_insert_ne. set_solver.
  - cbn. unfold extent at 1 2. cbn. rewrite !u64_small by lia. done.
  - intros j Hj Hji. subst fs3 fs2 fs1. rewrite !list_lookup_insert_ne by set_solver. done.
Qed.

(** The entry starts inside the excluded range and outlives it: its base moves
    to the range's end and the walk ends. *)
Lemma carve_trim fuel fs head prev f F n l :
  fs !! f = Some (mkNode n F) → slist fs n l → f ∉ l.*1 → free_ok F →
  s_base E ≤ s_base F → s_base F < s_end E → s_end E < s_end F →
  ∃ fs' l', carve (S fuel) fs head prev (Some f) ex (Some e) i = Ok (fs', head) ∧
    slist fs' (Some f) l' ∧ extent <$> l'.*2 = (s_end E, s_end F - s_end E) :: (extent <$> l.*2) ∧
    (∀ j, j ∉ f :: l.*1 → j ≠ i → fs' !! j = fs !! j).
Proof using HE HEok.
  intros Hn Hl Hfl HF H1 H2 H3. assert (Hflt : (f < length fs)%nat) by (by eapply lookup_lt_Some).
  cbn [carve]. rewrite (proj2 (idx_Ok _ _ _) Hn), (proj2 (idx_Ok _ _ _) HE), !bind_Ok.
  cbn [seg next]. rewrite (proj2 (Z.ltb_ge (s_base F) _)) by done. cbn [andb].
  rewrite (proj2 (Z.leb_le _ _)), (proj2 (Z.ltb_lt (s_base F) _)) by done. cbn [andb].
  rewrite (proj2 (Z.ltb_ge _ _)) by lia.
  rewrite upd_Ok, bind_Ok by done. eexists. eexists ((f, _) :: l).
  split; [by destruct fuel|]. split; [by apply slist_cons_insert|]. split.
  - cbn. unfold extent at 1. cbn. destruct HEok as ((_ & _ & ?) & ? & ? & ?).
    destruct HF as (_ & ? & ? & ?). by rewrite u64_small by lia.
  - intros j Hjn Hji. apply list_lookup_insert_ne. set_solver.
Qed.

Lemma carve_single fuel fs head prev h l :
  slist fs h l → NoDup l.*1 → i ∉ l.*1 → (i < length fs)%nat → (length l ≤ fuel)%nat →
  Forall free_ok l.*2 → Forall (not_swallowed E) l.*2 →
  ∃ fs' l', carve fuel fs head prev h ex (Some e) i = Ok (fs', head) ∧
    slist fs' h l' ∧ extent <$> l'.*2 = carve_segs E l.*2 ∧
    (∀ j, j ∉ l.*1 → j ≠ i → fs' !! j = fs !! j).
Proof using HE HEok.
  revert fuel fs h prev. induction l as [|[f F] l IH];
    intros fuel fs h prev Hl Hnd Hil Hi Hf Hok Hsw; cbn [slist length] in *.
  { subst h. exists fs, []. by destruct fuel. }
  destruct Hl as [-> (n & Hn & Hl)]. destruct fuel as [|fuel]; [lia|].
  cbn [fmap list_fmap] in Hnd, Hil, Hok, Hsw |- *. cbn [fst snd] in *.
  apply NoDup_cons in Hnd as [Hfl Hnd]. apply not_elem_of_cons in Hil as [Hfi Hil].
  apply Forall_cons in Hok as [HF Hok]. apply Forall_cons in Hsw as [HsF Hsw].
  assert (Hflt : (f < length fs)%nat) by (by eapply lookup_lt_Some).
  cbn [carve_segs].
  destruct ((s_base F <? s_base E) && (s_base E <? s_end F)) eqn:EA.
  - bool_cases. destruct (s_end E <? s_end F) eqn:EB; bool_cases.
    + destruct (carve_split fuel fs head prev f F n l) as (fs' & l' & HC); try done.
      exists fs', l'. exact HC.
    + cbn [carve]. rewrite (proj2 (idx_Ok _ _ _) Hn), (proj2 (idx_Ok _ _ _) HE), !bind_Ok.
      cbn [seg next]. rewrite !(proj2 (Z.ltb_lt _ _)) by done. cbn [andb].
      rewrite upd_Ok, bind_Ok by done. rewrite (proj2 (Z.ltb_ge _ _)) by done.
      set (fs1 := <[f := _]> fs).
      destruct (IH fuel fs1 n (Some f)) as (fs' & l' & -> & Hs & He & Hj); try done.
      { eapply slist_ext; [|exact Hl]. intros j Hj. apply list_lookup_insert_ne. set_solver. }
      { by subst fs1; rewrite length_insert. } { lia. }
      exists fs'. eexists ((f, _) :: l'). split; [done|]. split; [|split].
      * cbn. split; [done|]. exists n. rewrite Hj by (done || set_solver).
        split; [by apply list_lookup_insert_eq|done].
      * cbn. rewrite He. unfold extent. cbn. destruct HEok as (_ & ? & ? & ?).
        destruct HF as ((_ & _ & ?) & ? & ? & ?). by rewrite u64_small by lia.
      * intros j Hjn Hji. rewrite Hj by set_solver. apply list_lookup_insert_ne. set_solver.
  - destruct ((s_base E <=? s_base F) && (s_base F <? s_end E)) eqn:EB.
    + bool_cases. destruct (carve_trim fuel fs head prev f F n l) as (fs' & l' & HC); try done; [by apply HsF|].
      exists fs', l'. exact HC.
    + cbn [carve]. rewrite (proj2 (idx_Ok _ _ _) Hn), (proj2 (idx_Ok _ _ _) HE), !bind_Ok.
      cbn [seg next]. rewrite EA, EB.
      destruct (IH fuel fs n (Some f)) as (fs' & l' & -> & Hs & He & Hj); try done; [lia|].
      exists fs', ((f, F) :: l'). split; [done|]. split; [|split].
      * cbn. split; [done|]. exists n. by rewrite Hj.
      * cbn. by rewrite He.
      * intros j Hjn Hji. apply Hj; set_solver.
Qed.
End Carve.

(** ** The extents that remain *)

Definition in_extent (x : Z * Z) (a : Z) : Prop := x.1 ≤ a < x.1 + x.2.
Definition extent_ok (x : Z * Z) : Prop :=
  0 ≤ x.1 ∧ 0 < x.2 ∧ x.1 mod PAGE_SIZE = 0 ∧ x.2 mod PAGE_SIZE = 0 ∧
  x.1 + x.2 < 18446744073709551616.
Definition extent_before (x y : Z * Z) : Prop := x.1 + x.2 ≤ y.1.
Definition seg_before (s t : Segment) : Prop := s_end s ≤ s_base t.

Lemma free_ok_extent s : free_ok s → extent_ok (extent s) ∧ s_end s = s_base s + s_len s.
Proof. intros ((? & ? & E) & ? & ? & ?). unfold extent_ok, extent. cbn. lia. Qed.

Lemma extents_ok l :
  Forall free_ok l → StronglySorted seg_before l →
  Forall extent_ok (extent <$> l) ∧ StronglySorted extent_before (extent <$> l) ∧
  (∀ b, Forall (fun t => b ≤ s_base t) l → Forall (fun x => b ≤ x.1) (extent <$> l)).
Proof.
  intros Hok Hso. split; [|split].
  - apply Forall_fmap. eapply Forall_impl; [exact Hok|]. intros s Hs. by apply free_ok_extent.
  - eapply (StronglySorted_fmap seg_before _ _ free_ok); [|done|done].
    intros x y Hx _ Hxy. destruct (free_ok_extent x Hx) as [_ E].
    unfold extent_before, extent, seg_before in *. cbn. lia.
  - intros b Hb. by apply Forall_fmap.
Qed.

Section CarveSpec.
Context (E : Segment).
Hypothesis HEok : page_aligned E ∧ seg_fits E.

Lemma carve_segs_ok l :
  Forall free_ok l → StronglySorted seg_before l → Forall (not_swallowed E) l →
  Forall extent_ok (carve_segs E l) ∧ StronglySorted extent_before (carve_segs E l) ∧
  (∀ b, Forall (fun t => b ≤ s_base t) l → Forall (fun x => b ≤ x.1) (carve_segs E l)).
Proof using HEok.
  destruct HEok as ((HE1 & HE2 & HE3) & HE4 & HE5 & HE6).
  induction l as [|f l IH]; intros Hok Hso Hsw; cbn [carve_segs]; [by repeat constructor|].
  apply Forall_cons in Hok as [HF Hok]. apply StronglySorted_inv in Hso as [Hso Hfl].
  apply Forall_cons in Hsw as [HsF Hsw].
  destruct (IH Hok Hso Hsw) as (I1 & I2 & I3). destruct (extents_ok l Hok Hso) as (X1 & X2 & X3).
  destruct (free_ok_extent f HF) as [Hfe Hend]. pose proof HF as ((HF1 & HF2 & _) & HF3 & HF4 & HF5).
  unfold extent_ok, extent in Hfe. cbn [fst snd] in Hfe.
  specialize (X3 _ Hfl). specialize (I3 _ Hfl).
  assert (Hge : ∀ b, b ≤ s_base f → Forall (fun t => b ≤ s_base t) l).
  { intros b Hb. eapply Forall_impl; [exact Hfl|]. intros t Ht. unfold seg_before in Ht. cbn in Ht. lia. }
  unfold PAGE_SIZE in *.
  destruct ((s_base f <? s_base E) && (s_base E <? s_end f)) eqn:EA; bool_cases.
  - destruct (Z.ltb_spec (s_end E) (s_end f)); (split; [|split]).
    + repeat constructor; try done; unfold extent_ok, PAGE_SIZE; cbn; word_lia.
    + repeat constructor; try done; cbn; try (unfold extent_before; cbn; lia);
        (eapply Forall_impl; [exact X3|]; intros x Hx; unfold extent_before; cbn in *; lia).
    + intros b [Hb ?]%Forall_cons. repeat constructor; cbn; try lia.
      eapply Forall_impl; [exact X3|]. intros x Hx. cbn in Hx. lia.
    + constructor; [|done]. unfold extent_ok, PAGE_SIZE. cbn. word_lia.
    + constructor; [done|]. eapply Forall_impl; [exact I3|]. intros x Hx.
      unfold extent_before. cbn in *. lia.
    + intros b [Hb ?]%Forall_cons. constructor; [done|].
      eapply Forall_impl; [exact I3|]. intros x Hx. cbn in Hx. lia.
  - destruct ((s_base E <=? s_base f) && (s_base f <? s_end E)) eqn:EB; (split; [|split]).
    + bool_cases. assert (s_end E < s_end f) by (by apply HsF).
      constructor; [|done]. unfold extent_ok, PAGE_SIZE. cbn. word_lia.
    + constructor; [done|]. eapply Forall_impl; [exact X3|]. intros x Hx.
      unfold extent_before. cbn in *. lia.
    + bool_cases. intros b [Hb ?]%Forall_cons. constructor; [cbn; lia|].
      eapply Forall_impl; [exact X3|]. intros x Hx. cbn in Hx. lia.
    + constructor; [|done]. apply free_ok_extent. done.
    + constructor; [done|]. eapply Forall_impl; [exact I3|]. intros x Hx.
      unfold extent_before, extent. cbn in *. lia.
    + intros b [Hb ?]%Forall_cons. constructor; [done|].
      eapply Forall_impl; [exact I3|]. intros x Hx. cbn in Hx. lia.
Qed.

Lemma extents_cover l a : Exists (fun x => in_extent x a) (extent <$> l) ↔ covers l a.
Proof. unfold covers. by rewrite Exists_fmap. Qed.

Lemma carve_segs_covers l a :
  Forall free_ok l → StronglySorted seg_before l → Forall (not_swallowed E) l →
  Exists (fun x => in_extent x a) (carve_segs E l) ↔
  covers l a ∧ ¬ (s_base E ≤ a < s_end E).
Proof using HEok.
  destruct HEok as ((HE1 & HE2 & HE3) & HE4 & HE5 & HE6).
  induction l as [|f l IH]; intros Hok Hso Hsw; cbn [carve_segs].
  { unfold covers. rewrite !Exists_nil. tauto. }
  apply Forall_cons in Hok as [HF Hok]. apply StronglySorted_inv in Hso as [Hso Hfl].
  apply Forall_cons in Hsw as [HsF Hsw]. specialize (IH Hok Hso Hsw).
  destruct (free_ok_extent f HF) as [_ Hend].
  assert (Hrest : covers l a → s_end f ≤ a).
  { unfold covers. rewrite Exists_exists. intros (t & Ht & Ha).
    rewrite Forall_forall in Hfl. specialize (Hfl t Ht). unfold seg_before in Hfl. lia. }
  assert (Hcons : covers (f :: l) a ↔ (s_base f ≤ a < s_end f) ∨ covers l a).
  { unfold covers. rewrite Exists_cons, Hend. done. }
  destruct ((s_base f <? s_base E) && (s_base E <? s_end f)) eqn:EA; bool_cases.
  - destruct (Z.ltb_spec (s_end E) (s_end f)); rewrite !Exists_cons, Hcons;
      rewrite ?extents_cover, ?IH; unfold in_extent; cbn [fst snd]; clear IH Hcons; intuition lia.
  - destruct ((s_base E <=? s_base f) && (s_base f <? s_end E)) eqn:EB;
      rewrite !Exists_cons, Hcons, ?extents_cover, ?IH; unfold in_extent, extent; cbn [fst snd].
    + bool_cases. assert (s_end E < s_end f) by (by apply HsF). clear Hcons IH. intuition lia.
    + clear Hcons IH. apply andb_false_iff in EA, EB. destruct EA, EB; bool_cases; intuition lia.
Qed.
End CarveSpec.

(** ** Free segments of the RAM map *)

(** The whole pages of a RAM region. *)
Definition ram_lo (r : MMapEntry) : Z := PAGE_SIZE * ((me_base r + (PAGE_SIZE - 1)) / PAGE_SIZE).
Definition ram_hi (r : MMapEntry) : Z := PAGE_SIZE * ((me_base r + me_length r) / PAGE_SIZE).

(** The region fits the address space and holds at least one whole page. *)
Definition ram_ok (r : MMapEntry) : Prop :=
  0 ≤ me_base r ∧ 0 ≤ me_length r ∧
  me_base r + me_length r + 2 * PAGE_SIZE ≤ 18446744073709551616 ∧ ram_lo r < ram_hi r.
Definition ram_before (r t : MMapEntry) : Prop := me_base r + me_length r ≤ me_base t.

Lemma round_free_ram r : ram_ok r →
  round_free (seg_of_me r) = mkSeg (ram_lo r) (ram_hi r) (ram_hi r - ram_lo r).
Proof.
  unfold ram_ok, ram_lo, ram_hi, PAGE_SIZE. intros (H1 & H2 & H3 & H4).
  unfold round_free, seg_of_me, PAGE_SIZE. cbn [s_base s_end s_len].
  set (b := me_base r) in *. set (n := me_length r) in *. clearbody b n. clear r.
  rewrite (u64_small (b + n)) by lia.
  set (nb := if truth (b mod 4096) then _ else b).
  assert (E : nb = 4096 * ((b + (4096 - 1)) / 4096)).
  { subst nb. unfold truth. destruct (Z.eqb_spec (b mod 4096) 0); cbn [negb]; [word_lia|].
    rewrite u64_small by lia. word_lia. }
  rewrite E. clearbody nb. clear E nb.
  set (lo := (b + (4096 - 1)) / 4096) in *. set (hi := (b + n) / 4096) in *.
  assert (4096 * hi ≤ b + n < 4096 * hi + 4096) by (subst hi; word_lia).
  assert (0 ≤ lo) by (subst lo; word_lia). clearbody lo hi.
  rewrite (u64_small (b + n - 4096 * lo)) by lia.
  assert (b + n - 4096 * lo - (b + n - 4096 * lo) mod 4096 = 4096 * hi - 4096 * lo) as -> by word_lia.
  rewrite u64_small by lia. f_equal. lia.
Qed.

Lemma ram_free_ok r : ram_ok r → free_ok (mkSeg (ram_lo r) (ram_hi r) (ram_hi r - ram_lo r)).
Proof.
  unfold ram_ok, free_ok, page_aligned, ram_lo, ram_hi, PAGE_SIZE. cbn. intros (H1 & H2 & H3 & H4).
  word_lia.
Qed.

Lemma slist_extents_before l : StronglySorted extent_before (extent <$> l) →
  Forall extent_ok (extent <$> l) →
  ∀ s t a, l = s :: t → covers t a → s_base s + s_len s ≤ a.
Proof.
  intros Hso Hok s t a ->. cbn in Hso. apply StronglySorted_inv in Hso as [_ Hst].
  unfold covers. rewrite Exists_exists. intros (x & Hx & Ha).
  rewrite Forall_fmap, Forall_forall in Hst. specialize (Hst x Hx).
  unfold extent_before, extent in Hst. cbn in Hst. lia.
Qed.

(** [drop_null_page] removes page 0 and nothing else. *)
Lemma drop_null_page_ok fs h l :
  slist fs h l → l ≠ [] →
  Forall extent_ok (extent <$> l.*2) → StronglySorted extent_before (extent <$> l.*2) →
  ∃ fs' h' l', drop_null_page fs h = Ok (fs', h') ∧ slist fs' h' l' ∧ (length l' ≤ length l)%nat ∧
    Forall extent_ok (extent <$> l'.*2) ∧ StronglySorted extent_before (extent <$> l'.*2) ∧
    (∀ a, covers l'.*2 a ↔ covers l.*2 a ∧ PAGE_SIZE ≤ a).
Proof.
  intros Hl Hne Hok Hso. pose proof (slist_NoDup _ _ _ Hl) as Hnd.
  destruct l as [|[i s] l]; [done|]. destruct Hl as [-> (n & Hn & Hl)].
  cbn [fmap list_fmap fst snd] in *.
  pose proof (slist_extents_before (s :: l.*2) Hso Hok s l.*2) as Hrest.
  pose proof Hok as [Hs Hokl]%Forall_cons. pose proof Hso as [Hsol Hsl]%StronglySorted_inv.
  pose proof Hnd as [Hil Hndl]%NoDup_cons.
  unfold extent_ok, extent in Hs. cbn [fst snd] in Hs.
  assert (s_base s = 0 ∨ PAGE_SIZE ≤ s_base s) as Hb by (unfold PAGE_SIZE in *; word_lia).
  assert (s_len s = PAGE_SIZE ∨ 2 * PAGE_SIZE ≤ s_len s) as Hn2 by (unfold PAGE_SIZE in *; word_lia).
  unfold drop_null_page. rewrite (proj2 (idx_Ok _ _ _) Hn), bind_Ok. cbn [seg next]. unfold NULL.
  destruct (Z.eqb_spec (s_base s) 0) as [E|E].
  - destruct (Z.eqb_spec (s_len s) PAGE_SIZE) as [E2|E2].
    + exists fs, n, l. do 5 (split; [done || (cbn; lia)|]).
      intros a. specialize (Hrest a eq_refl). unfold covers in *. rewrite Exists_cons, E, E2 in *.
      unfold PAGE_SIZE in *. clear -Hrest. intuition lia.
    + rewrite upd_Ok, bind_Ok by (by eapply lookup_lt_Some).
      rewrite E. unfold PAGE_SIZE in *. rewrite (u64_small (0 + 4096)), (u64_small (s_len s - 4096)) by lia.
      eexists _, _, ((i, _) :: l). split; [done|]. split; [|split; [|split; [|split]]].
      * apply slist_cons_insert; [by eapply lookup_lt_Some|done|done].
      * cbn. lia.
      * constructor; [|done]. unfold extent_ok, extent, PAGE_SIZE. cbn. word_lia.
      * constructor; [done|]. eapply Forall_impl; [exact Hsl|]. intros x Hx.
        unfold extent_before, extent in *. cbn in *. lia.
      * intros a. specialize (Hrest a eq_refl). unfold covers in *. cbn [fmap list_fmap snd].
        rewrite !Exists_cons. cbn [s_base s_len]. clear -Hrest E Hn2 E2. intuition lia.
  - exists fs, (Some i), ((i, s) :: l). split; [done|]. split; [|do 3 (split; [done|])].
    + cbn. eauto.
    + intros a. specialize (Hrest a eq_refl). unfold covers in *. cbn [fmap list_fmap snd].
      rewrite !Exists_cons. clear -Hrest Hb E Hs. unfold PAGE_SIZE in *. intuition lia.
Qed.

Lemma carve_segs_length E l : (length (carve_segs E l) ≤ S (length l))%nat.
Proof.
  induction l as [|f l IH]; cbn [carve_segs length]; [lia|].
  repeat case_match; cbn [length]; rewrite ?length_fmap; lia.
Qed.

Lemma carve_segs_ne E l : l ≠ [] → carve_segs E l ≠ [].
Proof. destruct l as [|f l]; [done|]. intros _. cbn. by repeat case_match. Qed.

Definition ram_seg (r : MMapEntry) : Segment := mkSeg (ram_lo r) (ram_hi r) (ram_hi r - ram_lo r).

Section Free.
Context (fuel : nat) (map : PhysicalMMap).
Let ram := take (num_mmap map) (ram_sects map).
Hypothesis Hnum : (0 < num_mmap map ≤ length (ram_sects map))%nat.
Hypothesis Hmax : (num_mmap map < MAX_FREE_SEGMENTS)%nat.
Hypothesis Hfuel : (num_mmap map ≤ fuel)%nat.
Hypothesis Hram : Forall ram_ok ram.
Hypothesis Hsorted : StronglySorted ram_before ram.

Lemma ram_segs_ok :
  Forall free_ok (ram_seg <$> ram) ∧ StronglySorted seg_before (ram_seg <$> ram).
Proof using Hram Hsorted.
  clear Hnum Hmax Hfuel. split.
  - apply Forall_fmap. eapply Forall_impl; [exact Hram|]. intros r Hr. by apply ram_free_ok.
  - eapply (StronglySorted_fmap ram_before _ _ ram_ok); [|done|done].
    intros x y Hx Hy Hxy. unfold seg_before, ram_before, ram_seg, ram_ok, ram_hi, ram_lo, PAGE_SIZE in *.
    cbn. word_lia.
Qed.

(** The list after the copy and rounding loops. *)
Lemma free_rounded :
  ∃ fs l, (r ← free_copy (num_mmap map) (ram_sects map) 0 None (replicate MAX_FREE_SEGMENTS zero_node);
           free_round fuel r (Some 0%nat) None (Some 0%nat)) = Ok (fs, Some 0%nat) ∧
    length fs = MAX_FREE_SEGMENTS ∧ slist fs (Some 0%nat) l ∧
    l.*1 = seq 0 (num_mmap map) ∧ l.*2 = ram_seg <$> ram.
Proof using Hnum Hmax Hfuel Hram.
  destruct (copy_list_ok seg_of_me (num_mmap map) (ram_sects map) (replicate MAX_FREE_SEGMENTS zero_node))
    as (fs1 & l1 & E1 & Hl1 & Hs1 & Hfst & Hsnd); [done|rewrite length_replicate; lia|].
  fold ram in Hsnd. rewrite length_replicate in Hl1.
  assert (Hrs : round_free <$> l1.*2 = ram_seg <$> ram).
  { rewrite Hsnd, <- list_fmap_compose. apply list_fmap_ext. intros k r Hr.
    apply round_free_ram. rewrite Forall_forall in Hram. apply Hram, list_elem_of_lookup. eauto. }
  destruct (free_round_ok fuel fs1 (Some 0%nat) (Some 0%nat) None l1) as (fs2 & E2 & Hl2 & Hs2 & _).
  - done.
  - rewrite Hfst. apply NoDup_seq.
  - rewrite <- (length_fmap fst l1), Hfst, length_seq. done.
  - assert (Forall (fun s => 0 < s_len s) (round_free <$> l1.*2)) as HP.
    { rewrite Hrs. apply Forall_fmap. eapply Forall_impl; [exact Hram|].
      intros r (_ & _ & _ & ?). cbn. lia. }
    rewrite Forall_fmap in HP. exact HP.
  - exists fs2, (on_segs round_free l1). rewrite free_copy_gen, E1, bind_Ok.
    split; [done|]. split; [lia|]. split; [done|]. split.
    + by rewrite on_segs_fst.
    + by rewrite on_segs_snd.
Qed.

Lemma free_segments_list (ex : list SegmentList) (E : Segment) :
  ex !! 0%nat = Some (mkNode None E) → page_aligned E → seg_fits E →
  Forall (fun r => s_base E ≤ ram_lo r < s_end E → s_end E < ram_hi r) ram →
  ∃ fs h l, mmu_compute_free_segments fuel (replicate MAX_FREE_SEGMENTS zero_node) map ex = Ok (fs, h) ∧
    slist fs h l ∧ (length l ≤ S (num_mmap map))%nat ∧
    Forall extent_ok (extent <$> l.*2) ∧ StronglySorted extent_before (extent <$> l.*2) ∧
    (∀ a, covers l.*2 a ↔
       covers (ram_seg <$> ram) a ∧ ¬ (s_base E ≤ a < s_end E) ∧ PAGE_SIZE ≤ a).
Proof using Hnum Hmax Hfuel Hram Hsorted.
  intros HE HEa HEf Hsw. destruct ram_segs_ok as [Hok Hso].
  destruct free_rounded as (fs2 & l2 & E2 & Hl2 & Hs2 & Hfst & Hsnd).
  assert (Hsw' : Forall (not_swallowed E) l2.*2) by (rewrite Hsnd; by apply Forall_fmap).
  assert (Hlen : length l2 = num_mmap map) by (by rewrite <- (length_fmap fst l2), Hfst, length_seq).
  rewrite <- Hsnd in Hok, Hso.
  destruct (carve_single ex 0 E (num_mmap map) HE (conj HEa HEf) fuel fs2 (Some 0%nat) None (Some 0%nat) l2)
    as (fs3 & l3 & E3 & Hs3 & Hx & _); try done; [by eapply slist_NoDup| |lia|lia|].
  { rewrite Hfst, elem_of_seq. lia. }
  destruct (carve_segs_ok E (conj HEa HEf) l2.*2 Hok Hso Hsw') as (C1 & C2 & _).
  pose proof (fun a => carve_segs_covers E (conj HEa HEf) l2.*2 a Hok Hso Hsw') as C3.
  rewrite <- Hx in C1, C2.
  assert (C3' : ∀ a, covers l3.*2 a ↔ covers l2.*2 a ∧ ¬ (s_base E ≤ a < s_end E)).
  { intros a. rewrite <- C3, <- Hx. symmetry. apply extents_cover. }
  assert (Hlen3 : (length l3 ≤ S (num_mmap map))%nat).
  { rewrite <- (length_fmap snd l3), <- (length_fmap extent), Hx, <- Hlen, <- (length_fmap snd l2).
    apply carve_segs_length. }
  destruct (drop_null_page_ok fs3 (Some 0%nat) l3) as (fs4 & h4 & l4 & E4 & Hs4 & Hl4 & D1 & D2 & D3);
    try done.
  { intros ->. cbn in Hx. symmetry in Hx. revert Hx. apply carve_segs_ne.
    intros E0. apply (f_equal length) in E0. rewrite length_fmap in E0. cbn in E0. lia. }
  exists fs4, h4, l4. unfold mmu_compute_free_segments.
  destruct (free_copy _ _ _ _ _) as [fs1| |]; [|done..]. rewrite bind_Ok in *. rewrite E2, bind_Ok.
  cbn [fst snd]. rewrite E3, bind_Ok. cbn [fst snd]. split; [done|]. split; [done|]. split; [lia|].
  do 2 (split; [done|]). intros a. rewrite D3, C3', Hsnd. tauto.
Qed.
End Free.

(** C32: [mmu_compute_free_segments], given a RAM map sorted by base whose
    regions each hold a whole page and fewer than 32 regions, and one excluded
    segment [E] such that no region that starts inside [E] also ends inside it,
    terminates with a list of non-empty page-aligned segments, in increasing
    order and disjoint, that covers exactly the whole pages of RAM that are
    neither in [E] nor page 0. *)
Theorem mmu_compute_free_segments_exact (fuel : nat) (map : PhysicalMMap)
    (ex : list SegmentList) (E : Segment) :
  let ram := take (num_mmap map) (ram_sects map) in
  (0 < num_mmap map ≤ length (ram_sects map))%nat →
  (num_mmap map < MAX_FREE_SEGMENTS)%nat → (num_mmap map ≤ fuel)%nat →
  Forall ram_ok ram → StronglySorted ram_before ram →
  ex !! 0%nat = Some (mkNode None E) → page_aligned E → seg_fits E →
  Forall (fun r => s_base E ≤ ram_lo r < s_end E → s_end E < ram_hi r) ram →
  ∃ fs h segs,
    mmu_compute_free_segments fuel (replicate MAX_FREE_SEGMENTS zero_node) map ex = Ok (fs, h) ∧
    seg_list (S (num_mmap map)) fs h = Ok segs ∧
    Forall extent_ok (extent <$> segs) ∧ StronglySorted extent_before (extent <$> segs) ∧
    (∀ a, covers segs a ↔
       Exists (fun r => ram_lo r ≤ a < ram_hi r) ram ∧ ¬ (s_base E ≤ a < s_end E) ∧ PAGE_SIZE ≤ a).
Proof.
  intros ram Hnum Hmax Hf Hram Hso HE HEa HEf Hsw.
  destruct (free_segments_list fuel map Hnum Hmax Hf Hram Hso ex E HE HEa HEf Hsw)
    as (fs & h & l & E1 & Hs & Hlen & H1 & H2 & H3).
  exists fs, h, l.*2. split; [done|]. split; [by apply slist_seg_list|]. do 2 (split; [done|]).
  intros a. rewrite H3. unfold covers. rewrite Exists_fmap. fold ram.
  rewrite !Exists_exists. split; intros [(r & Hin & Hr) Ha]; (split; [|done]); exists r;
    (split; [done|]); revert Hr; unfold ram_seg; cbn; lia.
Qed.

Lemma mmu_compute_free_segments_exact_witness :
  ∃ fs h segs, mmu_compute_free_segments 2 (replicate MAX_FREE_SEGMENTS zero_node) demo_map
      [mkNode None (mkSeg 0x100000 0x111000 0x11000)] = Ok (fs, h) ∧
    seg_list 3 fs h = Ok segs ∧ Forall extent_ok (extent <$> segs).
Proof.
  destruct (mmu_compute_free_segments_exact 2 demo_map
    [mkNode None (mkSeg 0x100000 0x111000 0x11000)] (mkSeg 0x100000 0x111000 0x11000))
    as (fs & h & segs & H1 & H2 & H3 & _).
  - cbn. lia.
  - vm_compute. lia.
  - cbn. lia.
  - cbn. sorted_tac; unfold ram_ok, PAGE_SIZE; cbn; repeat split; vm_compute; congruence.
  - cbn. sorted_tac; unfold ram_before; cbn; lia.
  - reflexivity.
  - vm_compute. done.
  - unfold seg_fits. cbn. lia.
  - cbn. sorted_tac; vm_compute; (tauto || (intros []; congruence)).
  - exists fs, h, segs. by repeat split.
Defined.

(** C33: the subtraction loop never returns when a RAM segment lies inside an
    excluded segment and ends before it: the entry is unlinked, but the loop
    goes round again with the same two entries (whatever the fuel, whether or
    not the entry has a predecessor). *)
Theorem carve_hangs_on_swallowed (fuel : nat) (fs ex : list SegmentList)
    (head prev : option nat) (f e i : nat) (fn en : SegmentList) :
  fs !! f = Some fn → ex !! e = Some en →
  s_base (seg en) ≤ s_base (seg fn) → s_end (seg fn) < s_end (seg en) →
  s_base (seg fn) < s_end (seg en) →
  (∀ p, prev = Some p → (p < length fs)%nat) →
  carve fuel fs head prev (Some f) ex (Some e) i = Hang.
Proof.
  intros Hf He H1 H2 H3. revert fs fn Hf H1 H2 H3 head.
  induction fuel as [|fuel IH]; intros fs fn Hf H1 H2 H3 head Hp; cbn [carve]; [done|].
  rewrite (proj2 (idx_Ok _ _ _) Hf), bind_Ok, (proj2 (idx_Ok _ _ _) He), bind_Ok.
  rewrite (proj2 (Z.ltb_ge _ _) H1). cbn [andb].
  rewrite (proj2 (Z.leb_le _ _) H1), (proj2 (Z.ltb_lt _ _) H3), (proj2 (Z.ltb_lt _ _) H2). cbn [andb].
  destruct prev as [p|]; [|by eapply IH].
  destruct (lookup_lt_is_Some_2 fs p (Hp p eq_refl)) as [pn Hpn].
  unfold set_next. rewrite (proj2 (idx_Ok _ _ _) Hpn), bind_Ok, upd_Ok, bind_Ok by eauto.
  destruct (decide (p = f)) as [->|Hne].
  - rewrite Hf in Hpn. injection Hpn as <-.
    eapply IH; [apply list_lookup_insert_eq; by eauto using lookup_lt_Some|done..|].
    intros q Hq. rewrite length_insert. eauto.
  - eapply IH; [by rewrite list_lookup_insert_ne|done..|].
    intros q Hq. rewrite length_insert. eauto.
Qed.

Lemma carve_hangs_on_swallowed_witness :
  carve 50 [mkNode None (mkSeg 0x100000 0x102000 0x2000)] (Some 0%nat) None (Some 0%nat)
    [mkNode None (mkSeg 0x100000 0x110000 0x10000)] (Some 0%nat) 1 = Hang.
Proof.
  eapply carve_hangs_on_swallowed; [reflexivity|reflexivity|cbn; lia|cbn; lia|cbn; lia|done].
Defined.
