(* ===== verification/Frames.v ===== *)
(** * The physical frame allocator (src/src/mmu.c, lines 24-33 and 211-242)

    [MMU_alloc_frame] takes frames from the free segments first and then from a
    list of freed frames threaded through the frames themselves;
    [MMU_free_frame] appends to that list.  The file also states, as the class
    [FrameAllocator], what the paging code relies on, and proves that the
    allocator of mmu.c provides it. *)

From S2P Require Import Prelude Memory Segments.
From Stdlib Require Import Sorted.

(** ** State and operations *)

Record MMUState := mkMMU {
  free_segments : list SegmentList;
  free_segment_head : option nat;
  free_page_head : Z;
  free_page_tail : Z;
  page_table : Z;
  next_kernel_heap_vaddr : Z;
  next_kernel_thread_stack_vaddr : Z
}.

Definition set_segments (st : MMUState) (fs : list SegmentList) (h : option nat) : MMUState :=
  mkMMU fs h (free_page_head st) (free_page_tail st) (page_table st)
    (next_kernel_heap_vaddr st) (next_kernel_thread_stack_vaddr st).
Definition set_free_pages (st : MMUState) (h t : Z) : MMUState :=
  mkMMU (free_segments st) (free_segment_head st) h t (page_table st)
    (next_kernel_heap_vaddr st) (next_kernel_thread_stack_vaddr st).

Definition MMU_alloc_frame (m : mem) (st : MMUState) : outcome (Z * MMUState) :=
  match free_segment_head st with
  | Some h =>
      nd ← idx (free_segments st) h;
      let s := seg nd in
      let ret := s_base s in
      let s' := mkSeg (u64 (s_base s + PAGE_SIZE)) (s_end s) (u64 (s_len s - PAGE_SIZE)) in
      fs ← upd (free_segments st) h (mkNode (next nd) s');
      Ok (ret, set_segments st fs (if truth (s_len s') then Some h else next nd))
  | None =>
      if free_page_head st =? NULL then Ok (NULL, st)
      else Ok (free_page_head st,
               set_free_pages st (rd64 m (free_page_head st)) (free_page_tail st))
  end.

Definition MMU_free_frame (m : mem) (st : MMUState) (addr : Z) : mem * MMUState :=
  let '(m, st) :=
    if free_page_head st =? NULL then (m, set_free_pages st addr addr)
    else (wr64 m (free_page_tail st) addr, set_free_pages st (free_page_head st) addr) in
  (wr64 m addr NULL, st).

(** ** What the allocator promises *)

(** A usable frame: page-aligned, not the NULL page, and below 2^40, where
    both readings of the 40-bit address field of a page-table entry agree. *)
Definition frame (a : Z) : Prop := a mod PAGE_SIZE = 0 ∧ 0 < a < 1099511627776.

(** [m2] agrees with [m1] on the bytes of the frames [l]. *)
Definition same_frames (l : list Z) (m1 m2 : mem) : Prop :=
  ∀ f a, f ∈ l → f ≤ a < f + PAGE_SIZE → rd8 m2 a = rd8 m1 a.

(** [m2] differs from [m1] only inside the frames [l]. *)
Definition only_frames (l : list Z) (m1 m2 : mem) : Prop :=
  ∀ a, (∀ f, f ∈ l → ¬ (f ≤ a < f + PAGE_SIZE)) → rd8 m2 a = rd8 m1 a.

(** The contract: a queue [q] of free frames; the allocator keeps its own data
    only inside frames that are in the queue. *)
Class FrameAllocator (A : Type) := {
  fa_alloc : mem → A → outcome (Z * A);
  fa_free : mem → A → Z → mem * A;
  fa_rep : mem → A → list Z → Prop;
  fa_frames m s q : fa_rep m s q → Forall frame q ∧ NoDup q;
  fa_alloc_cons m s f q : fa_rep m s (f :: q) → ∃ s', fa_alloc m s = Ok (f, s') ∧ fa_rep m s' q;
  fa_alloc_nil m s : fa_rep m s [] → fa_alloc m s = Ok (NULL, s);
  fa_free_snoc m s q f : fa_rep m s q → frame f → f ∉ q →
    ∃ m' s', fa_free m s f = (m', s') ∧ fa_rep m' s' (q ++ [f]) ∧ only_frames (q ++ [f]) m m';
  fa_stable m m' s q : fa_rep m s q → same_frames q m m' → fa_rep m' s q
}.

(** ** Representation of the queue of free frames *)

Fixpoint pages_from (b : Z) (n : nat) : list Z :=
  match n with O => [] | S n => b :: pages_from (b + PAGE_SIZE) n end.

Definition extent_pages (x : Z * Z) : list Z := pages_from x.1 (Z.to_nat (x.2 / PAGE_SIZE)).

Definition seg_pages (segs : list Segment) : list Z := concat (extent_pages ∘ extent <$> segs).

(** The freed frames, each holding the address of the next. *)
Fixpoint chain (m : mem) (h : Z) (ps : list Z) : Prop :=
  match ps with
  | [] => h = NULL
  | p :: ps => h = p ∧ chain m (rd64 m p) ps
  end.

Definition frames_rep (m : mem) (st : MMUState) (q : list Z) : Prop :=
  ∃ l ps, slist (free_segments st) (free_segment_head st) l ∧
    Forall extent_ok (extent <$> l.*2) ∧
    chain m (free_page_head st) ps ∧
    (∀ p, last ps = Some p → free_page_tail st = p) ∧
    q = seg_pages l.*2 ++ ps ∧ Forall frame q ∧ NoDup q.

Lemma elem_of_pages_from b n a :
  a ∈ pages_from b n ↔ ∃ k, (k < n)%nat ∧ a = b + PAGE_SIZE * Z.of_nat k.
Proof.
  revert b. induction n as [|n IH]; intros b; cbn [pages_from].
  - split; [by intros ?%elem_of_nil|intros (k & ? & _); lia].
  - rewrite elem_of_cons, IH. split.
    + intros [->|(k & ? & ->)]; [exists 0%nat|exists (S k)]; lia.
    + intros ([|k] & ? & ->); [left; lia|right; exists k; lia].
Qed.

Lemma NoDup_pages_from b n : NoDup (pages_from b n).
Proof.
  revert b. induction n as [|n IH]; intros b; cbn [pages_from]; constructor; [|done].
  rewrite elem_of_pages_from. intros (k & _ & E). unfold PAGE_SIZE in E. lia.
Qed.

Lemma chain_ext m m' h ps :
  (∀ p, p ∈ ps → rd64 m' p = rd64 m p) → chain m h ps → chain m' h ps.
Proof.
  revert h. induction ps as [|p ps IH]; intros h Hm; cbn [chain]; [done|].
  intros [-> H]. split; [done|]. rewrite Hm by set_solver. apply IH; [|done].
  intros. apply Hm. set_solver.
Qed.

(** Appending a frame: the last link is redirected and the new frame ends it. *)
Lemma chain_snoc m h ps t f :
  chain m h (ps ++ [t]) → NoDup (ps ++ [t]) → f ≠ NULL → f ∉ ps ++ [t] →
  Forall frame (ps ++ [t]) → frame f →
  chain (wr64 (wr64 m t f) f NULL) h (ps ++ [t; f]).
Proof.
  intros Hc Hnd Hf Hni Hfr Hff. revert h Hc.
  assert (Hap : ∀ a b, frame a → frame b → a ≠ b → apart a 8 b 8).
  { unfold frame, apart, PAGE_SIZE. intros. word_lia. }
  rewrite Forall_app, Forall_singleton in Hfr. destruct Hfr as [Hfps Hft].
  induction ps as [|p ps IH]; intros h; cbn [app chain].
  - intros [-> _]. split; [done|]. rewrite rd64_wr64_apart by (apply Hap; set_solver).
    rewrite !rd64_wr64_eq. destruct Hff as [_ ?]. rewrite u64_small by lia.
    split; [done|]. by rewrite u64_small.
  - intros [-> Hc]. split; [done|]. inversion_clear Hnd. inversion_clear Hfps.
    rewrite !rd64_wr64_apart by (apply Hap; set_solver). apply IH; set_solver.
Qed.

Lemma extent_pages_cons x :
  extent_ok x → extent_pages x = x.1 :: pages_from (x.1 + PAGE_SIZE) (Z.to_nat ((x.2 - PAGE_SIZE) / PAGE_SIZE)).
Proof.
  unfold extent_pages, extent_ok. intros (? & ? & ? & H & ?).
  replace (Z.to_nat (x.2 / PAGE_SIZE)) with (S (Z.to_nat ((x.2 - PAGE_SIZE) / PAGE_SIZE))); [done|].
  unfold PAGE_SIZE in *. word_lia.
Qed.

Lemma MMU_alloc_frame_cons m st f q :
  frames_rep m st (f :: q) → ∃ st', MMU_alloc_frame m st = Ok (f, st') ∧ frames_rep m st' q.
Proof.
  intros (l & ps & Hs & Hok & Hch & Htl & Hq & Hfr & Hnd). unfold MMU_alloc_frame.
  apply Forall_cons in Hfr as [Hff Hfr]. apply NoDup_cons in Hnd as [Hni Hnd].
  destruct l as [|[i s] l]; cbn [slist] in Hs.
  - rewrite Hs. destruct ps as [|p ps]; [done|]. cbn in Hq. injection Hq as <- <-.
    cbn [chain] in Hch. destruct Hch as [Hh Hch].
    rewrite Hh, (proj2 (Z.eqb_neq f NULL)) by (destruct Hff; unfold NULL; lia).
    eexists. split; [done|]. exists [], q. cbn. split; [done|]. split; [by constructor|].
    split; [done|]. split; [|done]. intros p Hp. apply Htl. destruct q; [done|]. exact Hp.
  - destruct Hs as [Hh (n & Hn & Hl)]. rewrite Hh, (proj2 (idx_Ok _ _ _) Hn), bind_Ok.
    cbn [seg next]. rewrite upd_Ok, bind_Ok by eauto using lookup_lt_Some.
    cbn [fmap list_fmap] in Hok. apply Forall_cons in Hok as [Hx Hok].
    assert (HN : NoDup (i :: l.*1)).
    { apply (slist_NoDup (free_segments st) (Some i) ((i, s) :: l)). cbn. eauto. }
    apply NoDup_cons in HN as [HN _].
    assert (Hl' : ∀ nd, slist (<[i:=nd]> (free_segments st)) n l).
    { intros nd. eapply slist_ext; [|exact Hl]. intros j Hj.
      rewrite list_lookup_insert_ne; [done|]. intros ->. done. }
    unfold seg_pages in Hq. cbn [fmap list_fmap concat] in Hq. unfold compose in Hq at 1.
    rewrite extent_pages_cons in Hq by done. cbn [app] in Hq. injection Hq as -> Hq.
    eexists. split; [done|].
    destruct Hx as (X1 & X2 & X3 & X4 & X5). cbn [extent fst snd] in *. fold (seg_pages l.*2) in Hq.
    cbn [s_len s_base s_end]. destruct (truth (u64 (s_len s - PAGE_SIZE))) eqn:Et.
    + exists ((i, mkSeg (u64 (s_base s + PAGE_SIZE)) (s_end s) (u64 (s_len s - PAGE_SIZE))) :: l), ps.
      assert (E : PAGE_SIZE < s_len s).
      { revert Et. unfold PAGE_SIZE in *. word_lia. }
      unfold PAGE_SIZE in *. rewrite !u64_small by lia.
      unfold set_segments. cbn [free_segments free_segment_head free_page_head free_page_tail].
      split; [split; [done|]; exists n; split; [|done]; apply list_lookup_insert_eq;
              eauto using lookup_lt_Some|].
      split. { cbn [fmap list_fmap snd]. constructor; [|done]. unfold extent_ok, extent, PAGE_SIZE.
               cbn [fst snd s_base s_len]. word_lia. }
      split; [done|]. split; [done|]. split; [|done].
      exact Hq.
    + exists l, ps. unfold set_segments.
      cbn [free_segments free_segment_head free_page_head free_page_tail].
      assert (E : s_len s = PAGE_SIZE) by (revert Et; unfold PAGE_SIZE in *; word_lia).
      split; [done|]. do 3 (split; [done|]). split; [|done].
      rewrite Hq, E. done.
Qed.

Lemma MMU_alloc_frame_nil m st : frames_rep m st [] → MMU_alloc_frame m st = Ok (NULL, st).
Proof.
  intros (l & ps & Hs & Hok & Hch & _ & Hq & _). unfold MMU_alloc_frame.
  symmetry in Hq. apply app_eq_nil in Hq as [Hq ->]. cbn in Hch. rewrite Hch.
  destruct l as [|[i s] l]; [by rewrite Hs|].
  unfold seg_pages in Hq. cbn [fmap list_fmap concat] in Hq. unfold compose in Hq at 1.
  inversion_clear Hok. by rewrite extent_pages_cons in Hq.
Qed.

Lemma frame_neq a : frame a → a ≠ NULL.
Proof. unfold frame, NULL. lia. Qed.

Lemma only_frames_wr64 l m a v : a ∈ l → only_frames l m (wr64 m a v).
Proof.
  intros Hin b Hb. unfold wr64. apply rd8_wr_le_out. specialize (Hb a Hin).
  unfold PAGE_SIZE in Hb. lia.
Qed.

Lemma only_frames_trans l m1 m2 m3 :
  only_frames l m1 m2 → only_frames l m2 m3 → only_frames l m1 m3.
Proof. intros H1 H2 a Ha. by rewrite H2, H1. Qed.

Lemma MMU_free_frame_snoc m st q f :
  frames_rep m st q → frame f → f ∉ q →
  ∃ m' st', MMU_free_frame m st f = (m', st') ∧ frames_rep m' st' (q ++ [f]) ∧
    only_frames (q ++ [f]) m m'.
Proof.
  intros (l & ps & Hs & Hok & Hch & Htl & Hq & Hfr & Hnd) Hff Hni. unfold MMU_free_frame.
  assert (HF : Forall frame (q ++ [f])) by (apply Forall_app; split; [done|by constructor]).
  assert (HN : NoDup (q ++ [f])).
  { apply NoDup_app. split; [done|]. split; [|apply NoDup_singleton].
    intros x Hx ->%list_elem_of_singleton. done. }
  assert (Hneq : f ≠ NULL) by (by apply frame_neq).
  destruct (last ps) as [t|] eqn:El.
  - apply last_Some in El as [ps' ->]. 
    assert (Ht : free_page_tail st = t) by (by apply Htl). clear Htl.
    rewrite (proj2 (Z.eqb_neq (free_page_head st) NULL)).
    2: { assert (Hh : ∃ p, p ∈ q ∧ free_page_head st = p).
         { destruct ps' as [|p ps']; cbn [app chain] in Hch; destruct Hch as [-> _]; eexists;
             (split; [|done]); rewrite Hq; set_solver. }
         destruct Hh as (p & Hp & ->). apply frame_neq. rewrite Forall_forall in Hfr. by apply Hfr. }
    eexists _, _. split; [done|]. rewrite Ht. split.
    + exists l, (ps' ++ [t; f]). unfold set_free_pages.
      cbn [free_segments free_segment_head free_page_head free_page_tail].
      do 2 (split; [done|]). subst q. rewrite Forall_app in Hfr. apply NoDup_app in Hnd as (_ & _ & Hnd).
      split; [apply chain_snoc; try done; [set_solver|apply Hfr]|].
      split; [intros p; replace (ps' ++ [t; f]) with ((ps' ++ [t]) ++ [f]) by (by rewrite <- app_assoc);
              rewrite last_snoc; congruence|].
      split; [|done]. rewrite <- !app_assoc. done.
    + eapply only_frames_trans; apply only_frames_wr64; subst q; set_solver.
  - apply last_None in El. subst ps. cbn in Hch. rewrite Hch. cbn [Z.eqb].
    eexists _, _. split; [done|]. split; [|apply only_frames_wr64; set_solver].
    exists l, [f]. unfold set_free_pages.
    cbn [free_segments free_segment_head free_page_head free_page_tail chain].
    do 2 (split; [done|]). split; [split; [done|]; by rewrite rd64_wr64_eq|].
    split; [cbn; congruence|]. split; [by rewrite Hq, app_nil_r|done].
Qed.

Lemma frames_rep_stable m m' st q : frames_rep m st q → same_frames q m m' → frames_rep m' st q.
Proof.
  intros (l & ps & Hs & Hok & Hch & Htl & Hq & Hfr & Hnd) Hm. exists l, ps.
  do 2 (split; [done|]). split; [|done]. eapply chain_ext; [|exact Hch].
  intros p Hp. apply rd_le_ext. intros b Hb. apply (Hm p); [subst q; set_solver|].
  unfold PAGE_SIZE. lia.
Qed.

Lemma frames_rep_frames m st q : frames_rep m st q → Forall frame q ∧ NoDup q.
Proof. intros (l & ps & _ & _ & _ & _ & _ & H). exact H. Qed.

#[export, program] Instance mmu_allocator : FrameAllocator MMUState := {|
  fa_alloc := MMU_alloc_frame; fa_free := MMU_free_frame; fa_rep := frames_rep
|}.
Next Obligation. exact frames_rep_frames. Qed.
Next Obligation. exact MMU_alloc_frame_cons. Qed.
Next Obligation. exact MMU_alloc_frame_nil. Qed.
Next Obligation. exact MMU_free_frame_snoc. Qed.
Next Obligation. exact frames_rep_stable. Qed.

(** ** A fresh allocator owns the pages of its segments *)

Lemma elem_of_extent_pages x a :
  extent_ok x → a ∈ extent_pages x ↔ a mod PAGE_SIZE = 0 ∧ in_extent x a.
Proof.
  intros (H1 & H2 & H3 & H4 & H5). unfold extent_pages, in_extent.
  rewrite elem_of_pages_from. unfold PAGE_SIZE in *. split.
  - intros (k & Hk & ->). word_lia.
  - intros [Ha Hr]. exists (Z.to_nat ((a - x.1) / 4096)). word_lia.
Qed.

Lemma elem_of_seg_pages segs a :
  Forall extent_ok (extent <$> segs) →
  a ∈ seg_pages segs ↔ a mod PAGE_SIZE = 0 ∧ covers segs a.
Proof.
  unfold seg_pages. induction segs as [|s segs IH]; intros Hok.
  - cbn. split; [by intros ?%elem_of_nil|by intros [_ ?%Exists_nil]].
  - inversion_clear Hok as [|?? Hx Hrest]. unfold covers in *. cbn [fmap list_fmap concat].
    rewrite elem_of_app, IH, Exists_cons by done. unfold compose at 1.
    rewrite elem_of_extent_pages by done. unfold in_extent, extent. cbn. tauto.
Qed.

Lemma NoDup_seg_pages segs :
  Forall extent_ok (extent <$> segs) → StronglySorted extent_before (extent <$> segs) →
  NoDup (seg_pages segs).
Proof.
  induction segs as [|s segs IH]; intros Hok Hso; [by constructor|].
  inversion_clear Hok as [|?? Hx Hrest]. inversion_clear Hso as [|?? Hso' Hall].
  unfold seg_pages. cbn [fmap list_fmap concat]. fold (seg_pages segs). apply NoDup_app.
  split; [apply NoDup_pages_from|]. split; [|by apply IH].
  intros a Ha Ha'. unfold compose in Ha. rewrite elem_of_extent_pages in Ha by done.
  rewrite elem_of_seg_pages in Ha' by done. destruct Ha' as [_ Ha'].
  apply extents_cover in Ha'. apply Exists_exists in Ha' as (y & Hy & Hay).
  rewrite Forall_forall in Hall. specialize (Hall y Hy). destruct Ha as [_ Ha].
  unfold extent_before, in_extent in *. lia.
Qed.

Lemma frames_rep_init m st l :
  slist (free_segments st) (free_segment_head st) l → free_page_head st = NULL →
  Forall extent_ok (extent <$> l.*2) → StronglySorted extent_before (extent <$> l.*2) →
  (∀ a, covers l.*2 a → 0 < a < 1099511627776) →
  frames_rep m st (seg_pages l.*2).
Proof.
  intros Hs Hh Hok Hso Hr. exists l, []. do 2 (split; [done|]). split; [done|].
  split; [done|]. split; [by rewrite app_nil_r|]. split; [|by apply NoDup_seg_pages].
  apply Forall_forall. intros a Ha. rewrite elem_of_seg_pages in Ha by done.
  destruct Ha as [Ha Hc]. split; [done|by apply Hr].
Qed.

(** ** Runs of a client *)

(** A client takes frames, writes into those it holds and gives them back. *)
Inductive fop := FAlloc | FWrite (f off v : Z) | FFree (f : Z).

Fixpoint run_frames (ops : list fop) (m : mem) (st : MMUState) : outcome (list Z * (mem * MMUState)) :=
  match ops with
  | [] => Ok ([], (m, st))
  | FAlloc :: ops =>
      r ← MMU_alloc_frame m st;
      k ← run_frames ops m r.2;
      Ok (r.1 :: k.1, k.2)
  | FWrite f off v :: ops => run_frames ops (wr8 m (f + off) v) st
  | FFree f :: ops => let '(m, st) := MMU_free_frame m st f in run_frames ops m st
  end.

Fixpoint take_out (f : Z) (l : list Z) : option (list Z) :=
  match l with
  | [] => None
  | x :: l => if decide (x = f) then Some l else k ← take_out f l; Some (x :: k)
  end.

Lemma take_out_Some f l k : take_out f l = Some k → l ≡ₚ f :: k.
Proof.
  revert k. induction l as [|x l IH]; intros k; cbn; [done|]. case_decide as E.
  - intros [= ->]. by subst.
  - destruct (take_out f l) as [k'|]; cbn; [|done]. intros [= <-].
    rewrite (IH k') by done. apply Permutation_swap.
Qed.

(** The specification: a first-in first-out queue [q] and the frames [held]
    by the client; [None] when the client writes or frees what it does not hold. *)
Fixpoint fifo (ops : list fop) (q held : list Z) : option (list Z * (list Z * list Z)) :=
  match ops with
  | [] => Some ([], (q, held))
  | FAlloc :: ops =>
      match q with
      | [] => k ← fifo ops [] held; Some (NULL :: k.1, k.2)
      | f :: q => k ← fifo ops q (f :: held); Some (f :: k.1, k.2)
      end
  | FWrite f off v :: ops =>
      if decide (f ∈ held ∧ 0 ≤ off < PAGE_SIZE) then fifo ops q held else None
  | FFree f :: ops =>
      match take_out f held with
      | Some held => fifo ops (q ++ [f]) held
      | None => None
      end
  end.

Lemma frames_disjoint f g a :
  frame f → frame g → f ≠ g → f ≤ a < f + PAGE_SIZE → ¬ (g ≤ a < g + PAGE_SIZE).
Proof. unfold frame, PAGE_SIZE. intros. word_lia. Qed.

Lemma run_frames_fifo ops m st q held rs q' held' :
  frames_rep m st q → NoDup (held ++ q) → Forall frame (held ++ q) →
  fifo ops q held = Some (rs, (q', held')) →
  ∃ m' st', run_frames ops m st = Ok (rs, (m', st')) ∧ frames_rep m' st' q' ∧
    held' ++ q' ≡ₚ held ++ q ∧ only_frames (held ++ q) m m'.
Proof.
  revert m st q held rs. induction ops as [|[|f off v|f] ops IH];
    intros m st q held rs Hrep Hnd Hfr Hs; cbn [fifo run_frames] in *.
  - injection Hs as <- <- <-. by exists m, st.
  - destruct q as [|f q].
    + destruct (fifo ops [] held) as [[rs1 k]|] eqn:E; [|done]. cbn in Hs. injection Hs as <- ->.
      rewrite MMU_alloc_frame_nil, bind_Ok by done. cbn [fst snd].
      destruct (IH m st [] held rs1) as (m' & st' & E1 & ?); try done.
      exists m', st'. by rewrite E1.
    + destruct (fifo ops q (f :: held)) as [[rs1 k]|] eqn:E; [|done]. cbn in Hs. injection Hs as <- ->.
      destruct (MMU_alloc_frame_cons _ _ _ _ Hrep) as (st1 & E1 & Hrep1). rewrite E1, bind_Ok.
      cbn [fst snd].
      assert (HP : (f :: held) ++ q ≡ₚ held ++ f :: q) by apply Permutation_middle.
      destruct (IH m st1 q (f :: held) rs1) as (m' & st' & E2 & R2 & P2 & O2); try done.
      { by rewrite HP. } { by rewrite HP. }
      exists m', st'. rewrite E2. split; [done|]. split; [done|].
      split; [by rewrite P2|]. intros a Ha. apply O2. intros g Hg. apply Ha. by rewrite <- HP.
  - case_decide as Hd; [|done]. destruct Hd as [Hin Hoff].
    assert (Hrep1 : frames_rep (wr8 m (f + off) v) st q).
    { eapply frames_rep_stable; [done|]. intros g a Hg Ha. apply rd8_wr8_ne. intros <-.
      rewrite Forall_app, !Forall_forall in Hfr. apply NoDup_app in Hnd as (_ & Hnd & _).
      eapply (frames_disjoint g f); [exact (proj2 Hfr g Hg)|exact (proj1 Hfr f Hin)| |exact Ha|lia].
      intros ->. by eapply Hnd. }
    destruct (IH _ st q held rs Hrep1 Hnd Hfr Hs) as (m' & st' & E2 & R2 & P2 & O2).
    exists m', st'. split; [done|]. split; [done|]. split; [done|].
    intros a Ha. rewrite O2 by done. apply rd8_wr8_ne. intros <-. apply (Ha f); [set_solver|lia].
  - destruct (take_out f held) as [held1|] eqn:E; [|done].
    apply take_out_Some in E.
    assert (HP : held1 ++ q ++ [f] ≡ₚ held ++ q).
    { rewrite E, (Permutation_app_comm q [f]), app_assoc, <- (Permutation_cons_append held1 f). done. }
    assert (Hf : frame f ∧ f ∉ q).
    { rewrite E in Hnd, Hfr. cbn in Hnd, Hfr. inversion_clear Hnd. inversion_clear Hfr. set_solver. }
    destruct (MMU_free_frame_snoc m st q f Hrep) as (m1 & st1 & E1 & R1 & O1); [apply Hf..|].
    rewrite E1. destruct (IH m1 st1 (q ++ [f]) held1 rs) as (m' & st' & E2 & R2 & P2 & O2); try done.
    { by rewrite HP. } { by rewrite HP. }
    exists m', st'. split; [done|]. split; [done|]. split; [by rewrite P2|].
    intros a Ha. rewrite O2, O1; [done|intros g Hg; apply Ha; rewrite <- HP; set_solver..].
Qed.

(** C3: the frame allocator of mmu.c behaves as a first-in first-out queue of
    frames for every client that writes and frees only frames it holds: the
    results are those of the queue, the frames held and free are at every
    point exactly the initial ones (so no frame is handed out twice and none is
    lost), and only those frames' memory is written. *)
Theorem frame_allocator_refines_fifo (ops : list fop) (m : mem) (st : MMUState)
    (q rs q' held : list Z) :
  frames_rep m st q → fifo ops q [] = Some (rs, (q', held)) →
  ∃ m' st', run_frames ops m st = Ok (rs, (m', st')) ∧ frames_rep m' st' q' ∧
    held ++ q' ≡ₚ q ∧ NoDup (held ++ q') ∧ only_frames q m m'.
Proof.
  intros Hrep Hs. destruct (frames_rep_frames _ _ _ Hrep) as [Hfr Hnd].
  destruct (run_frames_fifo ops m st q [] rs q' held) as (m' & st' & E & R & P & O); try done.
  exists m', st'. split; [done|]. split; [done|]. split; [done|]. split; [by rewrite P|done].
Qed.

Lemma frame_allocator_refines_fifo_witness :
  let st := mkMMU [mkNode (Some 1%nat) (mkSeg 0x1000 0 0x1000); mkNode None (mkSeg 0x5000 0 0x2000)]
              (Some 0%nat) 0 0 0 0 0 in
  ∃ m' st', run_frames [FAlloc; FWrite 0x1000 8 255; FAlloc; FFree 0x1000; FAlloc; FAlloc; FAlloc] ∅ st
    = Ok ([0x1000; 0x5000; 0x6000; 0x1000; 0], (m', st')) ∧ frames_rep m' st' [].
Proof.
  cbv zeta.
  destruct (frame_allocator_refines_fifo
    [FAlloc; FWrite 0x1000 8 255; FAlloc; FFree 0x1000; FAlloc; FAlloc; FAlloc] ∅
    (mkMMU [mkNode (Some 1%nat) (mkSeg 0x1000 0 0x1000); mkNode None (mkSeg 0x5000 0 0x2000)]
       (Some 0%nat) 0 0 0 0 0)
    [0x1000; 0x5000; 0x6000] [0x1000; 0x5000; 0x6000; 0x1000; 0] [] [0x1000; 0x6000; 0x5000])
    as (m' & st' & H1 & H2 & _).
  - apply (frames_rep_init ∅ _ [(0%nat, mkSeg 0x1000 0 0x1000); (1%nat, mkSeg 0x5000 0 0x2000)]).
    + cbn. split; [done|]. eexists. split; [done|]. split; [done|]. by eexists.
    + done.
    + cbn. sorted_tac; vm_compute; repeat split; congruence.
    + cbn. sorted_tac; vm_compute; congruence.
    + intros a. unfold covers. cbn. rewrite !Exists_cons, Exists_nil. cbn. lia.
  - vm_compute. reflexivity.
  - by exists m', st'.
Defined.
