(* ===== verification/Machine.v ===== *)
(** * Port I/O, the kernel log and atomics

    The interface between the kernel and the hardware it drives: the port
    instructions of src/src/arch/x86_64/io.h against an arbitrary device, the
    [klog] macro of src/src/klog.h against a list of log records, and the
    atomic operations of src/src/arch/x86_64/atomic.c. *)

From S2P Require Import Prelude.

(** ** Ports *)

(** The devices behind the ports are hardware, not code of the kernel: a state
    [D] and the effect of each port instruction on it, both arbitrary. *)
Class PortIO (D : Type) := {
  port_in : Z → Z → D → Z * D;      (* width in bytes, port *)
  port_out : Z → Z → Z → D → D      (* width in bytes, port, value *)
}.

Section Ports.
Context {D : Type} `{PortIO D}.

Definition inb (port : Z) (d : D) : Z * D :=
  let '(v, d) := port_in 1 (u16 port) d in (u8 v, d).
Definition inw (port : Z) (d : D) : Z * D :=
  let '(v, d) := port_in 2 (u16 port) d in (u16 v, d).
Definition inl (port : Z) (d : D) : Z * D :=
  let '(v, d) := port_in 4 (u16 port) d in (u32 v, d).
Definition outb (port v : Z) (d : D) : D := port_out 1 (u16 port) (u8 v) d.
Definition outw (port v : Z) (d : D) : D := port_out 2 (u16 port) (u16 v) d.
Definition outl (port v : Z) (d : D) : D := port_out 4 (u16 port) (u32 v) d.
End Ports.

(** A device that answers every read from a script and records every write;
    used to evaluate drivers. *)
Record scripted := mkDev { script : list Z; written : list (Z * Z) }.

#[export] Instance scripted_ports : PortIO scripted := {|
  port_in _ _ d := match script d with
                   | [] => (0, d)
                   | v :: s => (v, mkDev s (written d))
                   end;
  port_out _ p v d := mkDev (script d) (written d ++ [(p, v)])
|}.

(** ** The kernel log *)

Definition KLOG_LEVEL_DEBUG : Z := 1.
Definition KLOG_LEVEL_INFO : Z := 3.
Definition KLOG_LEVEL_NOTICE : Z := 5.
Definition KLOG_LEVEL_WARN : Z := 7.
Definition KLOG_LEVEL_ERR : Z := 9.
Definition KLOG_LEVEL_CRIT : Z := 11.
Definition KLOG_LEVEL_EMERG : Z := 13.
Definition KLOG_MIN_LOG_LEVEL : Z := KLOG_LEVEL_DEBUG.

(** A record of the log: the level and the format string of the message. *)
Abbreviation klogs := (list (Z * string)).

Definition klog (level : Z) (fmt : string) (l : klogs) : klogs :=
  if KLOG_MIN_LOG_LEVEL <? level then l ++ [(level, fmt)] else l.

(** ** Atomic counters ([atomic_t] is a [uint32_t]) *)

Definition atomic_add (x add : Z) : Z := u32 (x + add).
Definition atomic_sub (x sub : Z) : Z := u32 (x - sub).
Definition atomic_get (x : Z) : Z := i32 x.

Lemma atomic_get_zero x : 0 ≤ x < 4294967296 → atomic_get x = 0 ↔ x = 0.
Proof.
  intros Hx. unfold atomic_get, i32, signed.
  replace (2 ^ 32) with 4294967296 by done. replace (2 ^ (32 - 1)) with 2147483648 by done.
  rewrite Z.mod_small by lia. destruct (x <? 2147483648) eqn:E; bool_cases; lia.
Qed.
