(* ===== verification/Irq.v ===== *)
(** * Interrupt control (src/src/arch/x86_64/interrupts.c)

    The nesting counter that [IRQ_disable] and [IRQ_enable] keep with the
    processor's interrupt flag, the handler table, and the masks of the two
    8259 interrupt controllers.  The dispatcher [IRQ_generic_isr], which runs
    handlers and switches processes, is in Sched.v. *)

From S2P Require Import Prelude Machine.

(** ** State *)

(** A handler is a function pointer and its argument; NULL is no handler.
    [iflag] is the processor's interrupt flag, set by STI, cleared by CLI. *)
Record irqs := mkIrqs {
  handlers : list (Z * Z);
  irq_semaphore : Z;
  iflag : bool;
  irq_log : klogs
}.

Definition set_sem (s : irqs) (n : Z) : irqs := mkIrqs (handlers s) n (iflag s) (irq_log s).
Definition set_iflag (s : irqs) (b : bool) : irqs := mkIrqs (handlers s) (irq_semaphore s) b (irq_log s).
Definition irq_klog (lvl : Z) (msg : string) (s : irqs) : irqs :=
  mkIrqs (handlers s) (irq_semaphore s) (iflag s) (klog lvl msg (irq_log s)).

Definition PIC_MASTER_COMMAND : Z := 0x20.
Definition PIC_MASTER_DATA : Z := 0x21.
Definition PIC_SLAVE_COMMAND : Z := 0xA0.
Definition PIC_SLAVE_DATA : Z := 0xA1.
Definition PIC_EOI : Z := 0x20.
Definition PIC_MASTER_REMAP_BASE : Z := 0x20.
Definition SYSCALL_TRAP_NUMBER : Z := 123.

(** ** Enabling and disabling *)

Definition IRQ_enable (s : irqs) : irqs :=
  if negb (truth (atomic_get (irq_semaphore s))) then s
  else
    let s := set_sem s (atomic_sub (irq_semaphore s) 1) in
    if negb (truth (atomic_get (irq_semaphore s))) then set_iflag s true else s.

Definition IRQ_disable (s : irqs) : irqs :=
  let s := if negb (truth (atomic_get (irq_semaphore s))) then set_iflag s false else s in
  set_sem s (atomic_add (irq_semaphore s) 1).

(** ** Handlers *)

Definition IRQ_set_handler (irq handler arg : Z) (s : irqs) : outcome irqs :=
  if (256 <? irq) || (irq <? 0) then
    Ok (irq_klog KLOG_LEVEL_WARN "cannot setup interrupt handler on irq %d" s)
  else
    hs ← upd (handlers s) (Z.to_nat irq) (handler, arg);
    Ok (mkIrqs hs (irq_semaphore s) (iflag s) (irq_log s)).

(** ** The interrupt controllers *)

Section Pic.
Context {D : Type} `{PortIO D}.

Definition PIC_sendEOI (irq : Z) (d : D) : D :=
  let d := if 8 <=? irq then outb PIC_SLAVE_COMMAND PIC_EOI d else d in
  outb PIC_MASTER_COMMAND PIC_EOI d.

(** [1 << n] in an [int]; a shift by 32 or more is undefined. *)
Definition int_bit (n : Z) : outcome Z := if n <? 32 then Ok (Z.shiftl 1 n) else Fault.

Definition pic_port (line : Z) : Z * Z :=
  if line <? 8 then (PIC_MASTER_DATA, line) else (PIC_SLAVE_DATA, line - 8).

Definition IRQ_set_mask (irq : Z) (s : irqs) (d : D) : outcome (irqs * D) :=
  let line := irq - PIC_MASTER_REMAP_BASE in
  if (line <? 0) || (0x2F <? line) then
    Ok (irq_klog KLOG_LEVEL_ERR "masking not supported on irq %d" s, d)
  else
    let '(port, n) := pic_port line in
    let '(v, d) := inb port d in
    b ← int_bit n;
    Ok (s, outb port (Z.lor v b) d).

Definition IRQ_clear_mask (irq : Z) (s : irqs) (d : D) : outcome (irqs * D) :=
  let line := irq - PIC_MASTER_REMAP_BASE in
  if (line <? 0) || (0x2F <? line) then
    Ok (irq_klog KLOG_LEVEL_ERR "masking not supported on irq %d" s, d)
  else
    let '(port, n) := pic_port line in
    let '(v, d) := inb port d in
    b ← int_bit n;
    Ok (s, outb port (Z.ldiff v b) d).

Definition IRQ_end_of_interrupt (irq : Z) (s : irqs) (d : D) : irqs * D :=
  let line := irq - PIC_MASTER_REMAP_BASE in
  if (line <? 0) || (0x2F <? line) then
    (irq_klog KLOG_LEVEL_ERR "end of interrupt not supported on irq %d" s, d)
  else (s, PIC_sendEOI (u8 line) d).

(** Lines 70-72: the loop of [PIC_init] over the lines from [i]. *)
Fixpoint pic_mask_all (k : nat) (i : Z) (s : irqs) (d : D) : outcome (irqs * D) :=
  match k with
  | O => Ok (s, d)
  | S k =>
      r ← (if i =? 2 then Ok (s, d) else IRQ_set_mask (u8 (i + PIC_MASTER_REMAP_BASE)) s d);
      pic_mask_all k (i + 1) r.1 r.2
  end.

Definition PIC_init (s : irqs) (d : D) : outcome (irqs * D) :=
  let '(a1, d) := inb PIC_MASTER_DATA d in
  let '(a2, d) := inb PIC_SLAVE_DATA d in
  let d := outb PIC_MASTER_COMMAND 0x11 d in
  let d := outb PIC_SLAVE_COMMAND 0x11 d in
  let d := outb PIC_MASTER_DATA PIC_MASTER_REMAP_BASE d in
  let d := outb PIC_SLAVE_DATA (PIC_MASTER_REMAP_BASE + 8) d in
  let d := outb PIC_MASTER_DATA 4 d in
  let d := outb PIC_SLAVE_DATA 2 d in
  let d := outb PIC_MASTER_DATA 1 d in
  let d := outb PIC_SLAVE_DATA 1 d in
  let d := outb PIC_MASTER_DATA a1 d in
  let d := outb PIC_SLAVE_DATA a2 d in
  pic_mask_all 16 0 s d.

(** [IDT_init] is assembly generated by a script; [idt_init] stands for it. *)
Definition IRQ_x86_64_init (idt_init : D → D) (syscall_handler : Z) (s : irqs) (d : D) :
    outcome (irqs * D) :=
  let s := mkIrqs (replicate 256 (NULL, NULL)) (irq_semaphore s) (iflag s) (irq_log s) in
  r ← PIC_init s d;
  let d := idt_init r.2 in
  s ← IRQ_set_handler SYSCALL_TRAP_NUMBER syscall_handler NULL (set_sem r.1 0);
  Ok (set_iflag s true, d).
End Pic.

(** ** Nesting *)

Inductive irq_op := OpDisable | OpEnable.

Definition run_irq (ops : list irq_op) (s : irqs) : irqs :=
  fold_left (fun s o => match o with OpDisable => IRQ_disable s | OpEnable => IRQ_enable s end) ops s.

(** The specification: a depth; enabling at depth zero has no effect. *)
Definition depth_step (n : nat) (o : irq_op) : nat :=
  match o with OpDisable => S n | OpEnable => pred n end.

(** The interrupt flag is set exactly when the counter is zero. *)
Definition irq_at (n : nat) (s : irqs) : Prop :=
  irq_semaphore s = Z.of_nat n ∧ iflag s = bool_decide (n = 0%nat).

Lemma truth_atomic_get x : 0 ≤ x < 4294967296 → truth (atomic_get x) = negb (x =? 0).
Proof.
  intros Hx. unfold truth. f_equal. apply Bool.eq_iff_eq_true.
  rewrite !Z.eqb_eq. by apply atomic_get_zero.
Qed.

Lemma IRQ_disable_handlers s : handlers (IRQ_disable s) = handlers s.
Proof. unfold IRQ_disable. by destruct (negb _). Qed.

Lemma IRQ_enable_handlers s : handlers (IRQ_enable s) = handlers s.
Proof. unfold IRQ_enable. by repeat case_match. Qed.

Lemma IRQ_disable_at n s :
  irq_at n s → Z.of_nat n < 4294967295 → irq_at (S n) (IRQ_disable s) ∧
  handlers (IRQ_disable s) = handlers s ∧ irq_log (IRQ_disable s) = irq_log s.
Proof.
  intros [Hs Hf] Hn. unfold IRQ_disable. rewrite truth_atomic_get, negb_involutive by lia.
  unfold irq_at, atomic_add, set_sem, set_iflag.
  destruct (irq_semaphore s =? 0) eqn:E; bool_cases; cbn; (split; [|done]);
    rewrite Hs, u32_small by lia; (split; [lia|]).
  - by rewrite bool_decide_false.
  - rewrite Hf, !bool_decide_false by lia. done.
Qed.

Lemma IRQ_enable_at n s :
  irq_at n s → Z.of_nat n < 4294967296 → irq_at (pred n) (IRQ_enable s) ∧
  handlers (IRQ_enable s) = handlers s ∧ irq_log (IRQ_enable s) = irq_log s.
Proof.
  intros [Hs Hf] Hn. unfold IRQ_enable. rewrite truth_atomic_get, negb_involutive by lia.
  destruct (irq_semaphore s =? 0) eqn:E; bool_cases.
  - assert (n = 0%nat) as -> by lia. done.
  - unfold irq_at, atomic_sub, set_sem, set_iflag. cbn [irq_semaphore].
    rewrite truth_atomic_get, negb_involutive by apply u32_range.
    rewrite Hs, u32_small by lia.
    destruct (Z.of_nat n - 1 =? 0) eqn:E1; bool_cases; cbn; (split; [|done]); (split; [lia|]).
    + by rewrite bool_decide_true by lia.
    + rewrite Hf, !bool_decide_false by lia. done.
Qed.

Lemma run_irq_at ops n s :
  irq_at n s → Z.of_nat n + Z.of_nat (length ops) < 4294967296 →
  irq_at (fold_left depth_step ops n) (run_irq ops s) ∧ handlers (run_irq ops s) = handlers s.
Proof.
  revert n s. induction ops as [|[|] ops IH]; intros n s Hs Hn; cbn [run_irq fold_left length] in *;
    [done|..].
  - destruct (IRQ_disable_at n s Hs) as (H1 & H2 & _); [lia|].
    destruct (IH _ _ H1) as [H3 H4]; [lia|]. cbn. split; [done|]. by rewrite <- H2.
  - destruct (IRQ_enable_at n s Hs) as (H1 & H2 & _); [lia|].
    destruct (IH _ _ H1) as [H3 H4]; [lia|]. cbn. split; [done|]. by rewrite <- H2.
Qed.

(** C35: whatever the sequence of [IRQ_disable] and [IRQ_enable] calls (fewer
    than 2^32), the counter is the nesting depth and the processor's interrupt
    flag is set exactly when that depth is zero; an enable that is not matched
    by a disable does nothing, and the handler table is not touched. *)
Theorem IRQ_nesting (ops : list irq_op) (s : irqs) :
  irq_at 0 s → Z.of_nat (length ops) < 4294967296 →
  let n := fold_left depth_step ops 0%nat in
  irq_semaphore (run_irq ops s) = Z.of_nat n ∧
  (iflag (run_irq ops s) = true ↔ n = 0%nat) ∧
  handlers (run_irq ops s) = handlers s.
Proof.
  intros Hs Hlen n. destruct (run_irq_at ops 0 s Hs) as [[H1 H2] H3]; [lia|].
  fold n in H1, H2. rewrite H2, bool_decide_eq_true. done.
Qed.

Lemma IRQ_nesting_witness :
  let s := mkIrqs [] 0 true [] in
  iflag (run_irq [OpDisable; OpDisable; OpEnable] s) = false ∧
  iflag (run_irq [OpDisable; OpDisable; OpEnable; OpEnable] s) = true.
Proof.
  cbv zeta. split.
  - destruct (IRQ_nesting [OpDisable; OpDisable; OpEnable] (mkIrqs [] 0 true [])) as (_ & H & _);
      [by split|cbn; lia|]. destruct (iflag _); [|done]. by assert (1%nat = 0%nat) by (by apply H).
  - destruct (IRQ_nesting [OpDisable; OpDisable; OpEnable; OpEnable] (mkIrqs [] 0 true [])) as (_ & H & _);
      [by split|cbn; lia|]. by apply H.
Defined.

(** [IRQ_set_handler] installs the handler for the 256 vectors and leaves
    every other entry alone, only logs a warning for a negative number or one
    above 256, and for 256 itself, which its guard lets through, writes past
    the end of the table. *)
Theorem IRQ_set_handler_cases (irq h arg : Z) (s : irqs) :
  length (handlers s) = 256%nat →
  (0 ≤ irq < 256 → ∃ s', IRQ_set_handler irq h arg s = Ok s' ∧
     handlers s' !! Z.to_nat irq = Some (h, arg) ∧
     (∀ j, j ≠ Z.to_nat irq → handlers s' !! j = handlers s !! j) ∧
     irq_semaphore s' = irq_semaphore s ∧ iflag s' = iflag s) ∧
  (irq = 256 → IRQ_set_handler irq h arg s = Fault) ∧
  (irq < 0 ∨ 256 < irq → ∃ s', IRQ_set_handler irq h arg s = Ok s' ∧ handlers s' = handlers s).
Proof.
  intros Hlen. unfold IRQ_set_handler. split; [|split].
  - intros Hr. rewrite (proj2 (Z.ltb_ge 256 irq)), (proj2 (Z.ltb_ge irq 0)) by lia. cbn [orb].
    rewrite upd_Ok by lia. eexists. split; [done|]. cbn. split; [apply list_lookup_insert_eq; lia|].
    split; [|done]. intros j Hj. by apply list_lookup_insert_ne.
  - intros ->. cbn. unfold upd. rewrite decide_False by lia. done.
  - intros Hr. replace ((256 <? irq) || (irq <? 0))%bool with true; [eexists; done|].
    symmetry. apply orb_true_iff. rewrite !Z.ltb_lt. lia.
Qed.

Lemma IRQ_set_handler_cases_witness :
  IRQ_set_handler 256 0x1000 0 (mkIrqs (replicate 256 (0, 0)) 0 true []) = Fault.
Proof.
  apply (IRQ_set_handler_cases 256 0x1000 0 (mkIrqs (replicate 256 (0, 0)) 0 true [])); reflexivity.
Defined.

(** ** Masks *)

(** What the driver relies on: outside initialisation the data port of an 8259
    reads back the interrupt mask register last written to it. *)
Class Pic8259 (D : Type) `{PortIO D} := {
  imr : bool → D → Z;          (* [false] the master, [true] the slave *)
  imr_range (b : bool) (d : D) : 0 ≤ imr b d < 256;
  imr_read (b : bool) (d : D) : inb (if b then PIC_SLAVE_DATA else PIC_MASTER_DATA) d = (imr b d, d);
  imr_write (b b' : bool) (v : Z) (d : D) : imr b (outb (if b' then PIC_SLAVE_DATA else PIC_MASTER_DATA) v d)
                       = if Bool.eqb b b' then u8 v else imr b d
}.

(** The mask bit of a vector: line [irq - 0x20], eight lines per controller. *)
Definition masked {D} `{Pic8259 D} (irq : Z) (d : D) : bool :=
  let line := irq - PIC_MASTER_REMAP_BASE in
  Z.testbit (imr (8 <=? line) d) (line mod 8).

Lemma testbit_u8 x i : 0 ≤ i < 8 → Z.testbit (u8 x) i = Z.testbit x i.
Proof. intros Hi. unfold u8. replace 256 with (2 ^ 8) by done. rewrite Z.mod_pow2_bits_low by lia. done. Qed.

Lemma pic_port_line line : 0 ≤ line < 16 →
  pic_port line = (if 8 <=? line then PIC_SLAVE_DATA else PIC_MASTER_DATA, line mod 8).
Proof.
  intros Hl. unfold pic_port. destruct (8 <=? line) eqn:E; bool_cases.
  - rewrite (proj2 (Z.ltb_ge line 8)) by lia. f_equal. word_lia.
  - rewrite (proj2 (Z.ltb_lt line 8)) by lia. by rewrite Z.mod_small by lia.
Qed.

Lemma testbit_int_bit n j : 0 ≤ n → 0 ≤ j → Z.testbit (Z.shiftl 1 n) j = (j =? n).
Proof. intros. rewrite Z.shiftl_1_l. by rewrite Z.pow2_bits_eqb, Z.eqb_sym by lia. Qed.

Section Masks.
Context {D : Type} `{Pic8259 D}.

Lemma masked_write (f : Z → Z → bool) (irq irq' : Z) (d : D) (v : Z) :
  0x20 ≤ irq < 0x30 → 0x20 ≤ irq' < 0x30 →
  let line := irq - PIC_MASTER_REMAP_BASE in
  (∀ j, 0 ≤ j < 8 → Z.testbit v j =
     if j =? line mod 8 then f irq irq else Z.testbit (imr (8 <=? line) d) j) →
  masked irq' (outb (if 8 <=? line then PIC_SLAVE_DATA else PIC_MASTER_DATA) v d) =
  if irq' =? irq then f irq irq else masked irq' d.
Proof.
  intros Hi Hi' line Hv. unfold masked. set (line' := irq' - PIC_MASTER_REMAP_BASE).
  unfold PIC_MASTER_REMAP_BASE in *. rewrite imr_write.
  assert (Hb : 0 ≤ line' mod 8 < 8) by word_lia.
  destruct (Bool.eqb (8 <=? line') (8 <=? line)) eqn:Eb.
  - apply Bool.eqb_prop in Eb. rewrite testbit_u8, Hv, Eb by done.
    destruct (line' mod 8 =? line mod 8) eqn:E1, (irq' =? irq) eqn:E2; bool_cases; try done;
      exfalso; subst line line'; destruct (8 <=? irq - 32) eqn:?, (8 <=? irq' - 32) eqn:?; bool_cases;
      try congruence; word_lia.
  - destruct (irq' =? irq) eqn:E2; bool_cases; [|done]. subst. by rewrite Bool.eqb_reflx in Eb.
Qed.

Lemma mask_guard irq : 0x20 ≤ irq < 0x30 →
  ((irq - PIC_MASTER_REMAP_BASE <? 0) || (0x2F <? irq - PIC_MASTER_REMAP_BASE))%bool = false.
Proof. intros. unfold PIC_MASTER_REMAP_BASE. apply orb_false_iff. rewrite !Z.ltb_ge. lia. Qed.

Lemma int_bit_line irq : 0x20 ≤ irq < 0x30 →
  int_bit ((irq - PIC_MASTER_REMAP_BASE) mod 8) = Ok (Z.shiftl 1 ((irq - PIC_MASTER_REMAP_BASE) mod 8)).
Proof.
  intros. unfold int_bit. rewrite (proj2 (Z.ltb_lt _ 32)); [done|]. unfold PIC_MASTER_REMAP_BASE. word_lia.
Qed.

(** For the 16 vectors of the interrupt controllers, [IRQ_set_mask] masks
    and [IRQ_clear_mask] unmasks exactly the vector asked for: the mask of no
    other vector changes, on either controller. *)
Theorem IRQ_masks_exact (irq : Z) (s : irqs) (d : D) :
  0x20 ≤ irq < 0x30 →
  ∃ d1 d2, IRQ_set_mask irq s d = Ok (s, d1) ∧ IRQ_clear_mask irq s d = Ok (s, d2) ∧
    ∀ irq', 0x20 ≤ irq' < 0x30 →
      masked irq' d1 = (if irq' =? irq then true else masked irq' d) ∧
      masked irq' d2 = (if irq' =? irq then false else masked irq' d).
Proof.
  intros Hi. unfold IRQ_set_mask, IRQ_clear_mask. rewrite mask_guard, pic_port_line by
    (done || (unfold PIC_MASTER_REMAP_BASE; lia)).
  rewrite imr_read, int_bit_line, !bind_Ok by done. eexists _, _. do 2 (split; [done|]).
  intros irq' Hi'. split.
  - apply (masked_write (fun _ _ => true)); [done..|]. intros j Hj.
    rewrite Z.lor_spec, testbit_int_bit by word_lia. destruct (j =? _); [apply orb_true_r|apply orb_false_r].
  - apply (masked_write (fun _ _ => false)); [done..|]. intros j Hj.
    rewrite Z.ldiff_spec, testbit_int_bit by word_lia. destruct (j =? _); [apply andb_false_r|apply andb_true_r].
Qed.
End Masks.

(** A pair of controllers, as the pair of their mask registers. *)
Definition pics : Type := Z * Z.
#[export] Instance pics_ports : PortIO pics := {|
  port_in _ p d := (if p =? PIC_SLAVE_DATA then d.2 else d.1, d);
  port_out _ p v d := if p =? PIC_MASTER_DATA then (u8 v, d.2)
                      else if p =? PIC_SLAVE_DATA then (d.1, u8 v) else d
|}.
#[export, program] Instance pics_8259 : Pic8259 pics := {| imr b d := u8 (if b then d.2 else d.1) |}.
Next Obligation. intros. apply u8_range. Qed.
Next Obligation. by intros [] [a b]. Qed.
Next Obligation.
  intros [] [] v [a b]; unfold outb; cbn -[u8]; try done; exact (eq_trans (u8_idem _) (u8_idem _)).
Qed.

Lemma IRQ_masks_exact_witness :
  ∃ d1, IRQ_set_mask 0x2E (mkIrqs [] 0 true []) ((0, 0) : pics) = Ok (mkIrqs [] 0 true [], d1) ∧
    masked 0x2E d1 = true ∧ masked 0x2F d1 = false.
Proof.
  destruct (IRQ_masks_exact 0x2E (mkIrqs [] 0 true []) ((0, 0) : pics)) as (d1 & d2 & H1 & _ & H3); [lia|].
  exists d1. split; [done|]. split.
  - apply (H3 0x2E). lia.
  - apply (H3 0x2F). lia.
Defined.
