(* ===== verification/Paging.v ===== *)
(** * Four-level page tables (src/src/arch/x86_64/paging.c)

    The page-table code runs on the byte memory and takes frames from an
    arbitrary [FrameAllocator].  Kernel code reads and writes tables through
    the identity mapping that [PT_init] sets up, so a table's address is its
    physical address.  [translate] is the processor's own walk, the
    specification against which the code is proved. *)

From S2P Require Import Prelude Memory CString Segments Frames Machine Irq.

Definition HUGE_PAGE_FRAME_SIZE : Z := 0x200000.
Definition PAGE_TABLE_NUM_ENTS : nat := 512.
Definition PAGE_TABLE_DEPTH : nat := 3.
Definition PHYSICAL_PAGE_DEPTH : nat := 4.
Definition PAGE_FAULT_IRQ : Z := 0xE.

(** ** Entries *)

(** The bit fields of [struct PTE] that the code uses. *)
Definition pte_present (w : Z) : bool := Z.testbit w 0.
Definition pte_huge (w : Z) : bool := Z.testbit w 7.
Definition pte_demand (w : Z) : bool := Z.testbit w 9.
Definition pte_address (w : Z) : Z := Z.land (Z.shiftr w 12) (Z.ones 40).

(** Stores to a one-bit field of the entry at [ent]. *)
Definition pte_set_bit (m : mem) (ent bit : Z) : mem :=
  wr64 m ent (Z.lor (rd64 m ent) (Z.shiftl 1 bit)).
Definition pte_clear_bit (m : mem) (ent bit : Z) : mem :=
  wr64 m ent (Z.ldiff (rd64 m ent) (Z.shiftl 1 bit)).

Definition init_empty_page_table (m : mem) (pt : Z) : mem :=
  (memset m pt 0 (8 * Z.of_nat PAGE_TABLE_NUM_ENTS)).1.

Definition pte_set_addr (m : mem) (ent addr : Z) : mem :=
  let m := wr64 m ent addr in
  let m := pte_set_bit m ent 0 in
  pte_set_bit m ent 1.

Definition pte_addr (w : Z) : Z := u64 (Z.shiftl (pte_address w) 12).
Definition pte_get_addr (m : mem) (ent : Z) : Z := pte_addr (rd64 m ent).

(** ** Walking *)

Definition pt_offset_for_depth (vaddr : Z) (depth : nat) : Z :=
  if (depth =? PHYSICAL_PAGE_DEPTH)%nat then Z.land vaddr 0xFFF
  else Z.land (Z.shiftr vaddr (12 + 9 * (Z.of_nat PAGE_TABLE_DEPTH - Z.of_nat depth))) 0x1FF.

(** [cr3] is the page-table register that [pt_get_addr] reads. *)
Definition pt_get_next_pte (m : mem) (cr3 pt vaddr : Z) (depth : nat) : Z :=
  let pt := if pt =? NULL then cr3 else pte_get_addr m pt in
  u64 (pt + 8 * pt_offset_for_depth vaddr depth).

(** The loop of [pt_walk] with [k] iterations left: the entry and the depth. *)
Fixpoint pt_walk_loop (k : nat) (m : mem) (cr3 vaddr curr : Z) (i : nat) : Z * nat :=
  match k with
  | O => (pt_get_next_pte m cr3 curr vaddr i, PHYSICAL_PAGE_DEPTH)
  | S k =>
      let curr := pt_get_next_pte m cr3 curr vaddr i in
      if negb (pte_present (rd64 m curr)) then (curr, i)
      else pt_walk_loop k m cr3 vaddr curr (S i)
  end.

Definition pt_walk (m : mem) (cr3 vaddr : Z) : Z * nat :=
  pt_walk_loop PHYSICAL_PAGE_DEPTH m cr3 vaddr NULL 0.

Definition PT_addr_virt_to_phys (m : mem) (cr3 vaddr : Z) : Z :=
  let '(addr, depth) := pt_walk m cr3 vaddr in
  if (depth =? PHYSICAL_PAGE_DEPTH)%nat then addr else NULL.

(** ** Operations with an allocator *)

Record vm (A : Type) := mkVM {
  v_mem : mem;
  v_fa : A;
  v_cr3 : Z;
  v_log : klogs
}.
Arguments mkVM {A}.
Arguments v_mem {A}.
Arguments v_fa {A}.
Arguments v_cr3 {A}.
Arguments v_log {A}.

Section Ops.
Context {A : Type} `{FrameAllocator A}.

Definition vm_klog (lvl : Z) (msg : string) (s : vm A) : vm A :=
  mkVM (v_mem s) (v_fa s) (v_cr3 s) (klog lvl msg (v_log s)).
Definition vm_set_mem (s : vm A) (m : mem) : vm A := mkVM m (v_fa s) (v_cr3 s) (v_log s).
Definition vm_set_fa (s : vm A) (a : A) : vm A := mkVM (v_mem s) a (v_cr3 s) (v_log s).

(** [req_addr] is the faulting address that the processor leaves in CR2. *)
Definition page_fault_handler (req_addr : Z) (s : vm A) : outcome (vm A) :=
  let s := vm_klog KLOG_LEVEL_DEBUG "page fault on address %p. Error %x" s in
  let '(ent, depth) := pt_walk (v_mem s) (v_cr3 s) req_addr in
  if (depth =? PHYSICAL_PAGE_DEPTH)%nat then
    Ok (vm_klog KLOG_LEVEL_WARN "invalid page fault" s)
  else if negb (pte_demand (rd64 (v_mem s) ent)) || negb (depth =? PAGE_TABLE_DEPTH)%nat then
    Ok (vm_klog KLOG_LEVEL_WARN "unhandled page fault" s)
  else
    r ← fa_alloc (v_mem s) (v_fa s);
    let s := vm_set_fa s r.2 in
    if r.1 =? NULL then Ok (vm_klog KLOG_LEVEL_CRIT "out of memory" s)
    else Ok (vm_set_mem s (pte_set_addr (v_mem s) ent r.1)).

(** The loop of [PT_demand_allocate] with [k] levels to add; [None] when the
    allocator is out of frames. *)
Fixpoint demand_loop (k : nat) (vaddr ent : Z) (depth : nat) (s : vm A) :
    outcome (option Z * vm A) :=
  match k with
  | O => Ok (Some ent, s)
  | S k =>
      r ← fa_alloc (v_mem s) (v_fa s);
      let s := vm_set_fa s r.2 in
      let new_pt := r.1 in
      if new_pt =? NULL then Ok (None, vm_klog KLOG_LEVEL_CRIT "out of memory" s)
      else
        let m := init_empty_page_table (v_mem s) new_pt in
        let m := pte_set_addr m ent new_pt in
        let ent := pt_get_next_pte m (v_cr3 s) ent vaddr (S depth) in
        demand_loop k vaddr ent (S depth) (vm_set_mem s m)
  end.

Definition PT_demand_allocate (vaddr : Z) (s : vm A) : outcome (Z * vm A) :=
  let '(ent, depth) := pt_walk (v_mem s) (v_cr3 s) vaddr in
  if (depth =? PHYSICAL_PAGE_DEPTH)%nat then
    Ok (-1, vm_klog KLOG_LEVEL_WARN "allocation attempted twice on virtual address %p" s)
  else
    r ← demand_loop (PAGE_TABLE_DEPTH - depth) vaddr ent depth s;
    match r.1 with
    | None => Ok (-1, r.2)
    | Some ent => Ok (0, vm_set_mem r.2 (pte_set_bit (v_mem r.2) ent 9))
    end.

(** The loop of [PT_free]: the last entry, or [None] when one is not present. *)
Fixpoint free_walk (k : nat) (m : mem) (cr3 vaddr curr : Z) (i : nat) : option Z :=
  match k with
  | O => Some curr
  | S k =>
      let curr := pt_get_next_pte m cr3 curr vaddr i in
      if negb (pte_present (rd64 m curr)) then None
      else free_walk k m cr3 vaddr curr (S i)
  end.

Definition PT_free (vaddr : Z) (s : vm A) : Z * vm A :=
  if truth (vaddr mod PAGE_SIZE) then
    (NULL, vm_klog KLOG_LEVEL_WARN "attempting to free invalid address" s)
  else
    match free_walk PHYSICAL_PAGE_DEPTH (v_mem s) (v_cr3 s) vaddr NULL 0 with
    | None => (NULL, s)
    | Some curr =>
        let m := pte_clear_bit (v_mem s) curr 0 in
        let m := pte_clear_bit m curr 9 in
        (pt_get_next_pte m (v_cr3 s) curr vaddr PHYSICAL_PAGE_DEPTH, vm_set_mem s m)
    end.
End Ops.

(** ** Initialisation *)

(** Lines 139-142, for the entries from [i]. *)
Fixpoint identity_loop (k : nat) (i identity_p2 : Z) (m : mem) : mem :=
  match k with
  | O => m
  | S k =>
      let ent := identity_p2 + 8 * i in
      let m := pte_set_addr m ent (i * HUGE_PAGE_FRAME_SIZE) in
      let m := pte_set_bit m ent 7 in
      identity_loop k (i + 1) identity_p2 m
  end.

(** [identity_p3] and [identity_p2] are the addresses of the static tables,
    [fault_handler] that of [page_fault_handler]. *)
Definition PT_init (identity_p3 identity_p2 fault_handler : Z) (m : mem) (irq : irqs) :
    outcome (mem * irqs) :=
  let m := init_empty_page_table m identity_p3 in
  let m := pte_set_addr m identity_p3 identity_p2 in
  let m := identity_loop PAGE_TABLE_NUM_ENTS 0 identity_p2 m in
  irq ← IRQ_set_handler PAGE_FAULT_IRQ fault_handler NULL irq;
  Ok (m, irq).

Definition PT_page_table_init (identity_p3 addr : Z) (m : mem) : mem :=
  let m := init_empty_page_table m addr in
  pte_set_addr m addr identity_p3.

(** ** The processor's translation *)

(** The walk of the paging unit (4-level paging, 48-bit addresses): an entry
    with bit 7 set at depth 1 or 2 maps a 1 GiB or 2 MiB page. *)
Fixpoint translate_from (k : nat) (m : mem) (t vaddr : Z) (depth : nat) : option Z :=
  match k with
  | O => Some (t + vaddr mod PAGE_SIZE)
  | S k =>
      let w := rd64 m (t + 8 * pt_offset_for_depth vaddr depth) in
      let size := 2 ^ (12 + 9 * (Z.of_nat PAGE_TABLE_DEPTH - Z.of_nat depth)) in
      if negb (pte_present w) then None
      else if (pte_huge w && (depth =? 1)%nat) || (pte_huge w && (depth =? 2)%nat) then
        Some (pte_addr w - pte_addr w mod size + vaddr mod size)
      else translate_from k m (pte_addr w) vaddr (S depth)
  end.

Definition translate (m : mem) (cr3 vaddr : Z) : option Z :=
  translate_from PHYSICAL_PAGE_DEPTH m cr3 vaddr 0.

(** ** Bits of an entry *)

Lemma u64_land x : u64 x = Z.land x (Z.ones 64).
Proof. unfold u64. by rewrite Z.land_ones. Qed.

Lemma u64_lor a b : u64 (Z.lor a b) = Z.lor (u64 a) (u64 b).
Proof. rewrite !u64_land. apply Z.land_lor_distr_l. Qed.

Lemma u64_ldiff a b : u64 (Z.ldiff a b) = Z.ldiff (u64 a) b.
Proof.
  rewrite !u64_land. apply Z.bits_inj'. intros n Hn.
  rewrite Z.land_spec, !Z.ldiff_spec, Z.land_spec. by destruct (Z.testbit a n), (Z.testbit b n), (Z.testbit _ n).
Qed.

Lemma rd64_set_bit m a b : 0 ≤ b < 64 →
  rd64 (pte_set_bit m a b) a = Z.lor (rd64 m a) (Z.shiftl 1 b).
Proof.
  intros Hb. unfold pte_set_bit. rewrite rd64_wr64_eq, u64_lor, u64_rd64. f_equal.
  apply u64_small. rewrite Z.shiftl_1_l.
  split; [lia|]. replace 18446744073709551616 with (2 ^ 64) by done. apply Z.pow_lt_mono_r; lia.
Qed.

Lemma rd64_clear_bit m a b :
  rd64 (pte_clear_bit m a b) a = Z.ldiff (rd64 m a) (Z.shiftl 1 b).
Proof. unfold pte_clear_bit. by rewrite rd64_wr64_eq, u64_ldiff, u64_rd64. Qed.

Lemma testbit_set w b i : 0 ≤ b → 0 ≤ i →
  Z.testbit (Z.lor w (Z.shiftl 1 b)) i = Z.testbit w i || (i =? b).
Proof. intros. by rewrite Z.lor_spec, testbit_int_bit. Qed.

Lemma testbit_clear w b i : 0 ≤ b → 0 ≤ i →
  Z.testbit (Z.ldiff w (Z.shiftl 1 b)) i = Z.testbit w i && negb (i =? b).
Proof. intros. by rewrite Z.ldiff_spec, testbit_int_bit. Qed.

(** The address field does not see the low twelve bits. *)
Lemma pte_addr_set w b : 0 ≤ b < 12 → pte_addr (Z.lor w (Z.shiftl 1 b)) = pte_addr w.
Proof.
  intros Hb. unfold pte_addr, pte_address. rewrite Z.shiftr_lor.
  replace (Z.shiftr (Z.shiftl 1 b) 12) with 0; [by rewrite Z.lor_0_r|].
  rewrite Z.shiftl_1_l, Z.shiftr_div_pow2 by lia. rewrite Z.div_small; [done|].
  split; [lia|]. apply Z.pow_lt_mono_r; lia.
Qed.

Lemma pte_addr_clear w b : 0 ≤ b < 12 → pte_addr (Z.ldiff w (Z.shiftl 1 b)) = pte_addr w.
Proof.
  intros Hb. unfold pte_addr, pte_address. rewrite Z.shiftr_ldiff.
  replace (Z.shiftr (Z.shiftl 1 b) 12) with 0; [by rewrite Z.ldiff_0_r|].
  rewrite Z.shiftl_1_l, Z.shiftr_div_pow2 by lia. rewrite Z.div_small; [done|].
  split; [lia|]. apply Z.pow_lt_mono_r; lia.
Qed.

Lemma pte_addr_aligned f : f mod PAGE_SIZE = 0 → 0 ≤ f < 2 ^ 52 → pte_addr f = f.
Proof.
  intros Hm Hr. unfold pte_addr, pte_address, PAGE_SIZE in *.
  rewrite Z.land_ones, Z.shiftr_div_pow2, Z.shiftl_mul_pow2 by lia.
  replace (2 ^ 12) with 4096 by done. replace (2 ^ 52) with 4503599627370496 in Hr by done.
  replace (2 ^ 40) with 1099511627776 by done. rewrite (Z.mod_small (f / 4096)) by word_lia.
  rewrite u64_small; word_lia.
Qed.

(** The low bits of an aligned address are clear. *)
Lemma testbit_aligned f b : f mod PAGE_SIZE = 0 → 0 ≤ b < 12 → Z.testbit f b = false.
Proof.
  intros Hm Hb. rewrite <- (Z.mod_pow2_bits_low f 12 b) by lia.
  replace (2 ^ 12) with PAGE_SIZE by done. by rewrite Hm, Z.bits_0.
Qed.

(** The word that [pte_set_addr] leaves. *)
Definition pte_word (f : Z) : Z := Z.lor (Z.lor f (Z.shiftl 1 0)) (Z.shiftl 1 1).

Lemma rd64_pte_set_addr m ent f : 0 ≤ f < 18446744073709551616 → rd64 (pte_set_addr m ent f) ent = pte_word f.
Proof.
  intros Hf. unfold pte_set_addr. rewrite !rd64_set_bit by lia. by rewrite rd64_wr64_eq, u64_small.
Qed.

Lemma pte_word_bits f : f mod PAGE_SIZE = 0 → 0 ≤ f < 2 ^ 52 →
  pte_present (pte_word f) = true ∧ pte_huge (pte_word f) = false ∧
  pte_demand (pte_word f) = false ∧ pte_addr (pte_word f) = f.
Proof.
  intros Hm Hr. unfold pte_word, pte_present, pte_huge, pte_demand. rewrite !testbit_set by lia.
  rewrite !pte_addr_set, pte_addr_aligned, !(testbit_aligned f) by (done || lia). done.
Qed.

Lemma only_in_set_bit m a b : only_in a 8 m (pte_set_bit m a b).
Proof. apply (wr_le_only_in 8). Qed.
Lemma only_in_clear_bit m a b : only_in a 8 m (pte_clear_bit m a b).
Proof. apply (wr_le_only_in 8). Qed.
Lemma only_in_pte_set_addr m a f : only_in a 8 m (pte_set_addr m a f).
Proof.
  eapply only_in_trans; [apply (wr_le_only_in 8)|].
  eapply only_in_trans; apply only_in_set_bit.
Qed.
Lemma only_in_init_empty m pt : only_in pt PAGE_SIZE m (init_empty_page_table m pt).
Proof. by apply memset_only_in. Qed.

Lemma rd64_init_empty m pt j : 0 ≤ j < 512 → rd64 (init_empty_page_table m pt) (pt + 8 * j) = 0.
Proof.
  intros Hj. unfold init_empty_page_table.
  apply rd64_memset_zero; [lia|]. change (8 * Z.of_nat PAGE_TABLE_NUM_ENTS) with 4096. lia.
Qed.

#[global] Opaque init_empty_page_table pte_set_addr pte_set_bit pte_clear_bit.

Lemma off_range v d : (d ≤ 3)%nat → 0 ≤ pt_offset_for_depth v d < 512.
Proof.
  intros Hd. unfold pt_offset_for_depth, PHYSICAL_PAGE_DEPTH.
  rewrite (proj2 (Nat.eqb_neq d 4)) by lia.
  change 0x1FF with (Z.ones 9). rewrite Z.land_ones by lia. by apply Z.mod_pos_bound.
Qed.

Lemma off_page v : pt_offset_for_depth v 4 = v mod PAGE_SIZE.
Proof. unfold pt_offset_for_depth. cbn. change 0xFFF with (Z.ones 12). by rewrite Z.land_ones. Qed.

(** ** Address spaces *)

(** A page is named by the indices of its entry at each level, a table by a
    prefix of them. *)
Definition path (v : Z) (d : nat) : list Z := pt_offset_for_depth v <$> seq 0 d.

Lemma path_S v d : path v (S d) = path v d ++ [pt_offset_for_depth v d].
Proof. unfold path. by rewrite seq_S, fmap_app. Qed.
Lemma path_length v d : length (path v d) = d.
Proof. unfold path. by rewrite length_fmap, length_seq. Qed.

(** What the last-level entry of a page says. *)
Inductive leaf := Demand | Mapped (f : Z).

#[export] Instance leaf_eq_dec : EqDecision leaf.
Proof. solve_decision. Defined.

Definition leaf_of (w : Z) : option leaf :=
  if pte_present w then Some (Mapped (pte_addr w))
  else if pte_demand w then Some Demand else None.

Record aspace := mkAS {
  tabs : gmap (list Z) Z;       (* the frame of each page table *)
  pgs : gmap (list Z) leaf      (* the state of each page *)
}.

(** The first top-level entry is the identity mapping, set up once. *)
Definition kernel_path (p : list Z) : Prop := match p with [] => True | i :: _ => i ≠ 0 end.

(** An address outside the identity-mapped top-level entry. *)
Definition kernel_addr (v : Z) : Prop := pt_offset_for_depth v 0 ≠ 0.

Definition table_entry_ok (t' : option Z) (w : Z) : Prop :=
  match t' with
  | Some t' => pte_present w = true ∧ pte_huge w = false ∧ pte_addr w = t'
  | None => pte_present w = false
  end.

(** The tables in memory are those of the address space. *)
Record as_rep (m : mem) (cr3 : Z) (A : aspace) : Prop := {
  as_root : tabs A !! [] = Some cr3;
  as_frame p t : tabs A !! p = Some t → frame t;
  as_inj p p' t : tabs A !! p = Some t → tabs A !! p' = Some t → p = p';
  as_parent p i : is_Some (tabs A !! (p ++ [i])) → is_Some (tabs A !! p);
  as_pg_parent p i : is_Some (pgs A !! (p ++ [i])) → is_Some (tabs A !! p);
  as_table p t i : tabs A !! p = Some t → (length p < 3)%nat → 0 ≤ i < 512 →
    kernel_path (p ++ [i]) → table_entry_ok (tabs A !! (p ++ [i])) (rd64 m (t + 8 * i));
  as_leaf p t i : tabs A !! p = Some t → length p = 3%nat → 0 ≤ i < 512 →
    leaf_of (rd64 m (t + 8 * i)) = pgs A !! (p ++ [i])
}.

Lemma kernel_path_v v d : kernel_addr v → kernel_path (path v d).
Proof. intros Hv. by destruct d. Qed.

Lemma entry_u64 t v d : frame t → (d ≤ 3)%nat →
  u64 (t + 8 * pt_offset_for_depth v d) = t + 8 * pt_offset_for_depth v d.
Proof. intros [_ Ht] Hd. pose proof (off_range v d Hd). apply u64_small. lia. Qed.

Lemma entry_neq t i : frame t → 0 ≤ i → (t + 8 * i =? NULL) = false.
Proof. intros [_ ?] ?. apply Z.eqb_neq. unfold NULL. lia. Qed.

(** Distinct entries of tables do not overlap. *)
Lemma entry_apart t i t' i' : frame t → frame t' → 0 ≤ i < 512 → 0 ≤ i' < 512 →
  (t ≠ t' ∨ i ≠ i') → apart (t + 8 * i) 8 (t' + 8 * i') 8.
Proof. unfold frame, apart, PAGE_SIZE. intros. word_lia. Qed.

(** ** Walks *)

(** The table that the entry pointer [curr] leads to (NULL leads to the root). *)
Definition leads_to (m : mem) (cr3 curr t : Z) : Prop :=
  (if curr =? NULL then cr3 else pte_get_addr m curr) = t.

(** What [pt_walk] finds: the first missing entry, or the mapped page. *)
Definition walk_spec (A : aspace) (v : Z) (r : Z * nat) : Prop :=
  ((r.2 ≤ 3)%nat ∧ (∃ t, tabs A !! path v r.2 = Some t ∧ r.1 = t + 8 * pt_offset_for_depth v r.2) ∧
     ((r.2 < 3)%nat → tabs A !! path v (S r.2) = None) ∧
     (∀ f, pgs A !! path v 4 ≠ Some (Mapped f)))
  ∨ (r.2 = 4%nat ∧ ∃ f, pgs A !! path v 4 = Some (Mapped f) ∧ r.1 = u64 (f + 8 * (v mod PAGE_SIZE))).

Section Walk.
Context (m : mem) (cr3 : Z) (A : aspace) (Hrep : as_rep m cr3 A).

Lemma tabs_missing v d d' : tabs A !! path v d = None → (d ≤ d')%nat → tabs A !! path v d' = None.
Proof using Hrep.
  intros Hn Hle. induction Hle as [|d' Hle IH]; [done|]. rewrite path_S.
  destruct (tabs A !! (path v d' ++ _)) as [t|] eqn:E; [|done].
  destruct (as_parent _ _ _ Hrep (path v d') (pt_offset_for_depth v d')) as [x Hx]; [by eexists|congruence].
Qed.

Lemma page_missing v d : tabs A !! path v d = None → (d ≤ 3)%nat → pgs A !! path v 4 = None.
Proof using Hrep.
  intros Hn Hd. pose proof (tabs_missing v d 3 Hn Hd) as H3. rewrite path_S.
  destruct (pgs A !! (path v 3 ++ _)) as [l|] eqn:E; [|done].
  destruct (as_pg_parent _ _ _ Hrep (path v 3) (pt_offset_for_depth v 3)) as [x Hx]; [by eexists|congruence].
Qed.

Lemma next_pte v d curr t :
  tabs A !! path v d = Some t → (d ≤ 3)%nat → leads_to m cr3 curr t →
  pt_get_next_pte m cr3 curr v d = t + 8 * pt_offset_for_depth v d.
Proof using Hrep.
  intros Ht Hd Hl. unfold pt_get_next_pte. rewrite Hl. apply entry_u64; [|done].
  by eapply as_frame.
Qed.

(** The entry of the table of depth [d] on the way to [v]. *)
Lemma table_entry v d t :
  kernel_addr v → tabs A !! path v d = Some t → (d < 3)%nat →
  table_entry_ok (tabs A !! path v (S d)) (rd64 m (t + 8 * pt_offset_for_depth v d)).
Proof using Hrep.
  intros Hv Ht Hd. rewrite path_S. apply (as_table _ _ _ Hrep); [done|by rewrite path_length| |].
  - apply off_range. lia.
  - rewrite <- path_S. by apply kernel_path_v.
Qed.

Lemma leaf_entry v t : tabs A !! path v 3 = Some t →
  leaf_of (rd64 m (t + 8 * pt_offset_for_depth v 3)) = pgs A !! path v 4.
Proof using Hrep.
  intros Ht. rewrite path_S. apply (as_leaf _ _ _ Hrep); [done|by rewrite path_length|by apply off_range].
Qed.

Lemma leads_entry v d t : tabs A !! path v d = Some t → (d ≤ 3)%nat →
  leads_to m cr3 (t + 8 * pt_offset_for_depth v d) (pte_addr (rd64 m (t + 8 * pt_offset_for_depth v d))).
Proof using Hrep.
  intros Ht Hd. unfold leads_to. rewrite entry_neq; [done|by eapply as_frame|].
  pose proof (off_range v d Hd). lia.
Qed.

Lemma leaf_present w : pte_present w = true ↔ ∃ f, leaf_of w = Some (Mapped f).
Proof using.
  unfold leaf_of. destruct (pte_present w); [split; eauto|].
  split; [done|]. intros [f E]. destruct (pte_demand w); done.
Qed.

Lemma pt_walk_loop_ok v : kernel_addr v → ∀ k d curr t,
  (k + d = 4)%nat → (d ≤ 3)%nat → tabs A !! path v d = Some t → leads_to m cr3 curr t →
  walk_spec A v (pt_walk_loop k m cr3 v curr d).
Proof using Hrep.
  intros Hv. induction k as [|k IH]; intros d curr t Hk Hd Ht Hl; [lia|]. cbn [pt_walk_loop].
  rewrite (next_pte v d curr t) by done.
  set (ent := t + 8 * pt_offset_for_depth v d).
  destruct (decide (d < 3)%nat) as [Hlt|Hge].
  - pose proof (table_entry v d t Hv Ht Hlt) as Hte. fold ent in Hte.
    destruct (tabs A !! path v (S d)) as [t'|] eqn:E; cbn [table_entry_ok] in Hte.
    + destruct Hte as (Hp & _ & Ha). rewrite Hp. cbn [negb].
      apply (IH (S d) ent t'); [lia|lia|done|]. subst t'. by apply leads_entry.
    + rewrite Hte. cbn [negb]. left. cbn [fst snd]. split; [done|]. split; [by exists t|].
      split; [done|]. intros f Hf. rewrite (page_missing v (S d)) in Hf by (done || lia). done.
  - assert (d = 3)%nat as -> by lia. assert (k = 0)%nat as -> by lia.
    pose proof (leaf_entry v t Ht) as Hle. fold ent in Hle.
    destruct (pte_present (rd64 m ent)) eqn:Ep; cbn [negb].
    + right. split; [done|]. unfold leaf_of in Hle. rewrite Ep in Hle.
      exists (pte_addr (rd64 m ent)). split; [done|]. cbn [pt_walk_loop fst].
      unfold pt_get_next_pte. pose proof (leads_entry v 3 t Ht ltac:(lia)) as Hl'. fold ent in Hl'.
      rewrite Hl'. by rewrite off_page.
    + left. cbn [fst snd]. split; [done|]. split; [by exists t|]. split; [lia|].
      intros f Hf. rewrite <- Hle in Hf. assert (pte_present (rd64 m ent) = true) by
        (apply leaf_present; eauto). congruence.
Qed.

Lemma pt_walk_ok v : kernel_addr v → walk_spec A v (pt_walk m cr3 v).
Proof using Hrep.
  intros Hv. eapply pt_walk_loop_ok; [done|done|lia|apply (as_root _ _ _ Hrep)|done].
Qed.

(** The loop of [PT_free] finds the entry of a mapped page, and only that. *)
Lemma free_walk_ok v : kernel_addr v → ∀ k d curr t,
  (k + d = 4)%nat → (d ≤ 3)%nat → tabs A !! path v d = Some t → leads_to m cr3 curr t →
  match free_walk k m cr3 v curr d with
  | Some e => ∃ t' f, tabs A !! path v 3 = Some t' ∧ e = t' + 8 * pt_offset_for_depth v 3 ∧
                pgs A !! path v 4 = Some (Mapped f)
  | None => ∀ f, pgs A !! path v 4 ≠ Some (Mapped f)
  end.
Proof using Hrep.
  intros Hv. induction k as [|k IH]; intros d curr t Hk Hd Ht Hl; [lia|]. cbn [free_walk].
  rewrite (next_pte v d curr t) by done.
  set (ent := t + 8 * pt_offset_for_depth v d).
  destruct (decide (d < 3)%nat) as [Hlt|Hge].
  - pose proof (table_entry v d t Hv Ht Hlt) as Hte. fold ent in Hte.
    destruct (tabs A !! path v (S d)) as [t'|] eqn:E; cbn [table_entry_ok] in Hte.
    + destruct Hte as (Hp & _ & Ha). rewrite Hp. cbn [negb].
      apply (IH (S d) ent t'); [lia|lia|done|]. subst t'. by apply leads_entry.
    + rewrite Hte. cbn [negb]. intros f Hf. rewrite (page_missing v (S d)) in Hf by (done || lia). done.
  - assert (d = 3)%nat as -> by lia. assert (k = 0)%nat as -> by lia.
    pose proof (leaf_entry v t Ht) as Hle. fold ent in Hle. cbn [free_walk].
    destruct (pte_present (rd64 m ent)) eqn:Ep; cbn [negb].
    + unfold leaf_of in Hle. rewrite Ep in Hle. eexists _, _. by rewrite <- Hle.
    + intros f Hf. rewrite <- Hle in Hf. assert (pte_present (rd64 m ent) = true) by
        (apply leaf_present; eauto). congruence.
Qed.

(** The processor sees exactly the mapped pages of the address space. *)
Definition page_view (v : Z) : option Z :=
  match pgs A !! path v 4 with Some (Mapped f) => Some (f + v mod PAGE_SIZE) | _ => None end.

Lemma translate_from_ok v : kernel_addr v → ∀ k d t,
  (k + d = 4)%nat → (d ≤ 3)%nat → tabs A !! path v d = Some t →
  translate_from k m t v d = page_view v.
Proof using Hrep.
  intros Hv. induction k as [|k IH]; intros d t Hk Hd Ht; [lia|]. cbn [translate_from]. cbv zeta.
  set (ent := t + 8 * pt_offset_for_depth v d). unfold page_view.
  destruct (decide (d < 3)%nat) as [Hlt|Hge].
  - pose proof (table_entry v d t Hv Ht Hlt) as Hte. fold ent in Hte.
    destruct (tabs A !! path v (S d)) as [t'|] eqn:E; cbn [table_entry_ok] in Hte.
    + destruct Hte as (Hp & Hh & Ha). rewrite Hp, Hh. cbn [negb andb orb].
      apply (IH (S d)); [lia|lia|]. by rewrite Ha.
    + rewrite Hte. cbn [negb]. by rewrite (page_missing v (S d)) by (done || lia).
  - assert (d = 3)%nat as -> by lia. assert (k = 0)%nat as -> by lia.
    pose proof (leaf_entry v t Ht) as Hle. fold ent in Hle. rewrite <- Hle.
    unfold leaf_of. destruct (pte_present (rd64 m ent)); cbn [negb].
    + rewrite andb_false_r, andb_false_r. done.
    + by destruct (pte_demand _).
Qed.

Lemma translate_ok v : kernel_addr v → translate m cr3 v = page_view v.
Proof using Hrep. intros Hv. apply translate_from_ok; [done|done|lia|apply (as_root _ _ _ Hrep)]. Qed.
End Walk.

(** ** Changing the tables *)

Definition tab_frames (A : aspace) : list Z := (map_to_list (tabs A)).*2.
Definition leaf_frame (l : leaf) : option Z := match l with Mapped f => Some f | Demand => None end.
Definition mapped_frames (pg : gmap (list Z) leaf) : list Z := omap leaf_frame (map_to_list pg).*2.

(** Every frame the address space holds: its tables and its mapped pages. *)
Definition owned (A : aspace) : list Z := tab_frames A ++ mapped_frames (pgs A).

Lemma elem_of_tab_frames A t : t ∈ tab_frames A ↔ ∃ p, tabs A !! p = Some t.
Proof.
  unfold tab_frames. rewrite list_elem_of_fmap. split.
  - intros ([p t'] & -> & Hin%elem_of_map_to_list). by exists p.
  - intros [p Hp]. exists (p, t). by rewrite elem_of_map_to_list.
Qed.

Lemma mapped_frames_insert pg k l :
  mapped_frames (<[k := l]> pg) ++ from_option (fun l => option_list (leaf_frame l)) [] (pg !! k)
  ≡ₚ option_list (leaf_frame l) ++ mapped_frames pg.
Proof.
  assert (Hfresh : ∀ pg' l', pg' !! k = None →
    mapped_frames (<[k := l']> pg') ≡ₚ option_list (leaf_frame l') ++ mapped_frames pg').
  { intros pg' l' Hk. unfold mapped_frames. rewrite map_to_list_insert by done. cbn.
    by destruct (leaf_frame l'). }
  destruct (pg !! k) as [l0|] eqn:E; cbn [from_option].
  - rewrite <- (insert_delete_id pg k l0 E) at 2. rewrite <- insert_delete_eq.
    rewrite !Hfresh by apply lookup_delete_eq.
    rewrite <- !app_assoc. apply Permutation_app_head, Permutation_app_comm.
  - rewrite app_nil_r. by apply Hfresh.
Qed.

Lemma mapped_frames_delete pg k :
  mapped_frames (delete k pg) ++ from_option (fun l => option_list (leaf_frame l)) [] (pg !! k)
  ≡ₚ mapped_frames pg.
Proof.
  destruct (pg !! k) as [l0|] eqn:E; cbn [from_option].
  - rewrite <- (insert_delete_id pg k l0 E) at 2.
    pose proof (mapped_frames_insert (delete k pg) k l0) as H. rewrite lookup_delete_eq in H. cbn in H.
    rewrite app_nil_r in H. rewrite H. apply Permutation_app_comm.
  - by rewrite delete_id, app_nil_r.
Qed.

Lemma tab_frames_insert A p t : tabs A !! p = None →
  tab_frames (mkAS (<[p := t]> (tabs A)) (pgs A)) ≡ₚ t :: tab_frames A.
Proof. intros Hp. unfold tab_frames. cbn [tabs]. by rewrite map_to_list_insert. Qed.

(** The tables depend on no other memory. *)
Lemma as_rep_stable m m' cr3 A :
  as_rep m cr3 A → same_frames (tab_frames A) m m' → as_rep m' cr3 A.
Proof.
  intros Hr Hm.
  assert (Hrd : ∀ p t i, tabs A !! p = Some t → 0 ≤ i < 512 → rd64 m' (t + 8 * i) = rd64 m (t + 8 * i)).
  { intros p t i Ht Hi. apply rd_le_ext. intros b Hb. apply (Hm t); [|unfold PAGE_SIZE; lia].
    apply elem_of_tab_frames. eauto. }
  destruct Hr as [H1 H2 H3 H4 H5 H6 H7]. split; try done.
  - intros p t i Ht Hl Hi Hk. rewrite (Hrd p) by done. by apply H6.
  - intros p t i Ht Hl Hi. rewrite (Hrd p) by done. by eapply H7.
Qed.

(** The word at one entry is replaced and every other entry keeps its own. *)
Definition one_entry (A : aspace) (m m' : mem) (t i w : Z) : Prop :=
  rd64 m' (t + 8 * i) = w ∧
  ∀ p' t' i', tabs A !! p' = Some t' → 0 ≤ i' < 512 → (t' ≠ t ∨ i' ≠ i) →
    rd64 m' (t' + 8 * i') = rd64 m (t' + 8 * i').

Lemma one_entry_only_in m cr3 A m' p t i w :
  as_rep m cr3 A → tabs A !! p = Some t → 0 ≤ i < 512 →
  only_in (t + 8 * i) 8 m m' → rd64 m' (t + 8 * i) = w → one_entry A m m' t i w.
Proof.
  intros Hr Ht Hi Hon Hw. split; [done|]. intros p' t' i' Ht' Hi' Hne.
  eapply (rd_le_only_in 8); [done|].
  apply entry_apart; eauto using as_frame.
Qed.

Lemma as_rep_set_leaf m m' cr3 A p t i w :
  as_rep m cr3 A → tabs A !! p = Some t → length p = 3%nat → 0 ≤ i < 512 →
  one_entry A m m' t i w →
  as_rep m' cr3 (mkAS (tabs A) (partial_alter (fun _ => leaf_of w) (p ++ [i]) (pgs A))).
Proof.
  intros Hr Ht Hlen Hi [Hw Ho]. pose proof Hr as [H1 H2 H3 H4 H5 H6 H7]. split; cbn [tabs pgs]; try done.
  - intros p' i' Hs. destruct (decide (p' ++ [i'] = p ++ [i])) as [E|Hne].
    + apply app_inj_tail in E as [-> ->]. by eexists.
    + rewrite lookup_partial_alter_ne in Hs by done. by eapply H5.
  - intros p' t' i' Ht' Hl' Hi' Hk. rewrite (Ho p' t' i' Ht' Hi'); [by apply H6|].
    left. intros ->. rewrite (H3 p' p t Ht' Ht) in Hl'. lia.
  - intros p' t' i' Ht' Hl' Hi'. destruct (decide (p' ++ [i'] = p ++ [i])) as [E|Hne].
    + apply app_inj_tail in E as [-> ->]. rewrite lookup_partial_alter_eq. congruence.
    + rewrite lookup_partial_alter_ne by done. rewrite (Ho p' t' i' Ht' Hi'); [by eapply H7|].
      destruct (decide (t' = t)) as [->|]; [|by left]. right. intros ->. apply Hne.
      by rewrite (H3 p' p t Ht' Ht).
Qed.

Lemma as_rep_add_table m m' cr3 A p t i f :
  as_rep m cr3 A → tabs A !! p = Some t → (length p < 3)%nat → 0 ≤ i < 512 →
  kernel_path (p ++ [i]) → tabs A !! (p ++ [i]) = None → frame f → f ∉ tab_frames A →
  one_entry A m m' t i (pte_word f) → (∀ j, 0 ≤ j < 512 → rd64 m' (f + 8 * j) = 0) →
  as_rep m' cr3 (mkAS (<[p ++ [i] := f]> (tabs A)) (pgs A)).
Proof.
  intros Hr Ht Hlen Hi Hkp Hn Hf Hni [Hw Ho] Hz. pose proof Hr as [H1 H2 H3 H4 H5 H6 H7].
  assert (Hfr : ∀ p' t', tabs A !! p' = Some t' → t' ≠ f).
  { intros p' t' Hp' ->. apply Hni, elem_of_tab_frames. eauto. }
  assert (Hw' : pte_present (pte_word f) = true ∧ pte_huge (pte_word f) = false ∧
                pte_demand (pte_word f) = false ∧ pte_addr (pte_word f) = f).
  { apply pte_word_bits; [apply Hf|]. destruct Hf as [_ ?]. lia. }
  split; cbn [tabs pgs].
  - rewrite lookup_insert_ne; [done|]. by destruct p.
  - intros p' t' Hp'. apply lookup_insert_Some in Hp' as [[<- <-]|[_ Hp']]; [done|by eapply H2].
  - intros p1 p2 t' Hp1 Hp2. apply lookup_insert_Some in Hp1, Hp2.
    destruct Hp1 as [[<- <-]|[_ Hp1]], Hp2 as [[<- E]|[_ Hp2]]; try done; [..|by eapply H3].
    + by apply Hfr in Hp2.
    + subst. by apply Hfr in Hp1.
  - intros p' i' Hs. destruct (decide (p' = p ++ [i])) as [->|Hne]; [by rewrite lookup_insert_eq|].
    rewrite lookup_insert_ne by done. destruct (decide (p' ++ [i'] = p ++ [i])) as [E|Hne'].
    + apply app_inj_tail in E as [-> ->]. by eexists.
    + rewrite lookup_insert_ne in Hs by done. by eapply H4.
  - intros p' i' Hs. destruct (decide (p' = p ++ [i])) as [->|Hne]; [by rewrite lookup_insert_eq|].
    rewrite lookup_insert_ne by done. by eapply H5.
  - intros p' t' i' Hp' Hl' Hi' Hk'. apply lookup_insert_Some in Hp' as [[<- <-]|[Hne Hp']].
    + rewrite Hz by done. rewrite lookup_insert_ne by (intros E; apply (f_equal length) in E;
        rewrite !length_app in E; cbn in E; lia).
      destruct (tabs A !! ((p ++ [i]) ++ [i'])) eqn:E; [|done].
      destruct (H4 (p ++ [i]) i') as [x Hx]; [by eexists|congruence].
    + destruct (decide (p' ++ [i'] = p ++ [i])) as [E|Hne'].
      * apply app_inj_tail in E as [-> ->]. assert (t' = t) as -> by congruence.
        rewrite lookup_insert_eq, Hw. cbn [table_entry_ok]. tauto.
      * rewrite lookup_insert_ne by done. rewrite (Ho p' t' i' Hp' Hi'); [by apply H6|].
        destruct (decide (t' = t)) as [->|]; [|by left]. right. intros ->. apply Hne'.
        by rewrite (H3 p' p t Hp' Ht).
  - intros p' t' i' Hp' Hl' Hi'. apply lookup_insert_Some in Hp' as [[<- <-]|[Hne Hp']].
    + rewrite Hz by done. destruct (pgs A !! ((p ++ [i]) ++ [i'])) eqn:E; [|done].
      destruct (H5 (p ++ [i]) i') as [x Hx]; [by eexists|congruence].
    + rewrite (Ho p' t' i' Hp' Hi'); [by eapply H7|]. left. intros ->.
      rewrite (H3 p' p t Hp' Ht) in Hl'. lia.
Qed.

(** ** Operations on an address space *)

Lemma same_frames_only l f m m' :
  only_in f PAGE_SIZE m m' → frame f → Forall frame l → f ∉ l → same_frames l m m'.
Proof.
  intros Hon Hf Hl Hni g a Hg Ha. apply Hon. rewrite Forall_forall in Hl.
  eapply frames_disjoint; [|exact Hf| |exact Ha]; [by apply Hl|]. by intros ->.
Qed.

Lemma only_frames_only l f m m' : only_in f PAGE_SIZE m m' → f ∈ l → only_frames l m m'.
Proof. intros Hon Hf a Ha. apply Hon. by apply Ha. Qed.

Lemma only_frames_mono l l' m m' : only_frames l m m' → l ⊆ l' → only_frames l' m m'.
Proof. intros Ho Hs a Ha. apply Ho. intros f Hf. apply Ha. by apply Hs. Qed.

Lemma entry_in_frame m m' t i : 0 ≤ i < 512 → only_in (t + 8 * i) 8 m m' → only_in t PAGE_SIZE m m'.
Proof. intros Hi Ho. eapply only_in_weaken; [exact Ho|lia|unfold PAGE_SIZE; lia]. Qed.

Section VM.
Context {F : Type} `{FrameAllocator F}.

Record vm_rep (s : vm F) (A : aspace) (q : list Z) : Prop := {
  vr_as : as_rep (v_mem s) (v_cr3 s) A;
  vr_fa : fa_rep (v_mem s) (v_fa s) q;
  vr_nodup : NoDup (owned A ++ q);
  vr_frames : Forall frame (owned A ++ q)
}.

Lemma vm_rep_perm s A q A' q' :
  vm_rep s A q → owned A' ++ q' ≡ₚ owned A ++ q →
  NoDup (owned A' ++ q') ∧ Forall frame (owned A' ++ q').
Proof using. intros [_ _ H1 H2] HP. by rewrite HP. Qed.

Lemma tab_not_free s A q p t : vm_rep s A q → tabs A !! p = Some t → frame t ∧ t ∉ q.
Proof using.
  intros [Ha _ Hnd Hfr] Ht. split; [by eapply as_frame|].
  apply NoDup_app in Hnd as (_ & Hnd & _). apply Hnd. unfold owned.
  apply elem_of_app. left. apply elem_of_tab_frames. eauto.
Qed.

Lemma free_not_owned s A f q : vm_rep s A (f :: q) → frame f ∧ f ∉ owned A ∧ f ∉ q.
Proof using.
  intros [_ _ Hnd Hfr]. apply Forall_app in Hfr as [_ Hfr]. apply NoDup_app in Hnd as (_ & Hno & Hnd).
  inversion_clear Hfr. inversion_clear Hnd. split; [done|]. split; [|done].
  intros Hin. by apply (Hno f Hin), elem_of_cons; left.
Qed.

(** A step that stores into the entry [i] of the table [t] keeps the allocator. *)
Lemma entry_store_fa s A q p t i m' :
  vm_rep s A q → tabs A !! p = Some t → 0 ≤ i < 512 →
  only_in (t + 8 * i) 8 (v_mem s) m' → fa_rep m' (v_fa s) q.
Proof using.
  intros Hr Ht Hi Ho. destruct (tab_not_free s A q p t Hr Ht) as [Hft Hni].
  destruct Hr as [_ Hfa _ Hfr]. apply (fa_stable (v_mem s)); [done|].
  apply Forall_app in Hfr as [_ Hfr].
  eapply same_frames_only; [by eapply entry_in_frame|done..].
Qed.

(** Lines 168-175: one iteration of the loop of [PT_demand_allocate]. *)
Lemma add_table_ok s A f q v d t s1 :
  vm_rep s A (f :: q) → kernel_addr v → (d < 3)%nat →
  tabs A !! path v d = Some t → tabs A !! path v (S d) = None →
  fa_rep (v_mem s) s1 q →
  let ent := t + 8 * pt_offset_for_depth v d in
  let m' := pte_set_addr (init_empty_page_table (v_mem s) f) ent f in
  let A' := mkAS (<[path v (S d) := f]> (tabs A)) (pgs A) in
  vm_rep (mkVM m' s1 (v_cr3 s) (v_log s)) A' q ∧
  pt_get_next_pte m' (v_cr3 s) ent v (S d) = f + 8 * pt_offset_for_depth v (S d) ∧
  tabs A' !! path v (S d) = Some f ∧
  owned A' ++ q ≡ₚ owned A ++ f :: q ∧
  only_frames (tab_frames A ++ f :: q) (v_mem s) m'.
Proof using.
  intros Hr Hv Hd Ht Hn Hs1 ent m' A'.
  destruct (free_not_owned s A f q Hr) as (Hff & Hfo & Hfq).
  destruct (tab_not_free s A _ _ _ Hr Ht) as [Hft Htq].
  pose proof (off_range v d ltac:(lia)) as Hoff.
  assert (Htf : t ≠ f) by (intros ->; apply Htq; set_solver).
  set (m1 := init_empty_page_table (v_mem s) f) in *.
  assert (H1 : only_in f PAGE_SIZE (v_mem s) m1) by apply only_in_init_empty.
  assert (H2 : only_in ent 8 m1 m') by apply only_in_pte_set_addr.
  assert (H2' : only_in t PAGE_SIZE m1 m') by (by eapply entry_in_frame).
  assert (Hftab : f ∉ tab_frames A) by (unfold owned in Hfo; set_solver).
  pose proof Hr as [Ha Hfa Hnd Hfr].
  assert (Hfrt : Forall frame (tab_frames A)).
  { unfold owned in Hfr. rewrite !Forall_app in Hfr. apply Hfr. }
  assert (Ha1 : as_rep m1 (v_cr3 s) A).
  { eapply as_rep_stable; [exact Ha|]. by eapply same_frames_only. }
  assert (Hone : one_entry A m1 m' t (pt_offset_for_depth v d) (pte_word f)).
  { eapply one_entry_only_in; [done..|]. apply rd64_pte_set_addr. destruct Hff. lia. }
  assert (Hz : ∀ j, 0 ≤ j < 512 → rd64 m' (f + 8 * j) = 0).
  { intros j Hj. rewrite <- (rd64_init_empty (v_mem s) f j Hj). fold m1.
    apply (rd_le_only_in 8 _ _ _ _ _ H2). by apply entry_apart; [..|left]. }
  assert (HA : as_rep m' (v_cr3 s) A').
  { unfold A'. rewrite path_S. eapply as_rep_add_table; try done; [by rewrite path_length|..];
      rewrite <- ?path_S; [by apply kernel_path_v|done]. }
  assert (HP : owned A' ++ q ≡ₚ owned A ++ f :: q).
  { unfold owned, A'. rewrite tab_frames_insert by done. cbn [pgs].
    rewrite <- Permutation_middle. done. }
  assert (Hq : ∀ g, g ∈ q → g ≠ f ∧ g ≠ t).
  { intros g Hg. split; intros ->; [done|]. apply Htq. set_solver. }
  split; [|split; [|split; [|split; [done|]]]].
  - destruct (vm_rep_perm s A _ A' q Hr HP) as [HN HF].
    split; cbn [v_mem v_fa v_cr3]; [done| |done|done].
    apply (fa_stable (v_mem s)); [done|]. apply Forall_app in HF as [_ HF].
    intros g a Hg Hga. destruct (Hq g Hg).
    transitivity (rd8 m1 a); [|]; eapply same_frames_only; try done; set_solver.
  - eapply next_pte; [exact HA|by apply lookup_insert_eq|lia|]. unfold leads_to.
    unfold ent. rewrite entry_neq by (done || lia). unfold pte_get_addr.
    rewrite (proj1 Hone). apply pte_word_bits; [apply Hff|]. destruct Hff. lia.
  - apply lookup_insert_eq.
  - eapply only_frames_trans; eapply only_frames_only; try done; [set_solver|].
    apply elem_of_app. left. apply elem_of_tab_frames. eauto.
Qed.

Lemma demand_loop_ok v : kernel_addr v → ∀ k d s A q t,
  (k + d = 3)%nat → vm_rep s A q → tabs A !! path v d = Some t →
  ((0 < k)%nat → tabs A !! path v (S d) = None) →
  ∃ r s' A', demand_loop k v (t + 8 * pt_offset_for_depth v d) d s = Ok (r, s') ∧
    vm_rep s' A' (drop k q) ∧ pgs A' = pgs A ∧ v_cr3 s' = v_cr3 s ∧
    owned A' ++ drop k q ≡ₚ owned A ++ q ∧
    only_frames (tab_frames A ++ q) (v_mem s) (v_mem s') ∧
    (if (k <=? length q)%nat
     then ∃ t', tabs A' !! path v 3 = Some t' ∧ r = Some (t' + 8 * pt_offset_for_depth v 3)
     else r = None).
Proof using.
  intros Hv. induction k as [|k IH]; intros d s A q t Hk Hr Ht Hn; cbn [demand_loop].
  - assert (d = 3)%nat as -> by lia. exists (Some (t + 8 * pt_offset_for_depth v 3)), s, A.
    rewrite drop_0. do 5 (split; [done|]). split; [done|]. cbn. eauto.
  - destruct q as [|f q].
    + rewrite (fa_alloc_nil _ _ (vr_fa _ _ _ Hr)), bind_Ok. cbn [fst snd Z.eqb NULL].
      exists None, (vm_klog KLOG_LEVEL_CRIT "out of memory" (vm_set_fa s (v_fa s))), A.
      split; [done|]. split; [|done]. by destruct Hr.
    + destruct (fa_alloc_cons _ _ _ _ (vr_fa _ _ _ Hr)) as (s1 & E1 & R1). rewrite E1, bind_Ok.
      cbn [fst snd]. destruct (free_not_owned s A f q Hr) as (Hff & _).
      rewrite (proj2 (Z.eqb_neq f NULL)) by (by apply frame_neq).
      cbn [vm_set_fa vm_set_mem v_mem v_cr3 v_log v_fa].
      destruct (add_table_ok s A f q v d t s1 Hr Hv ltac:(lia) Ht (Hn ltac:(lia)) R1)
        as (Hr' & Hnext & Hl & HP & Ho).
      rewrite Hnext.
      destruct (IH (S d) _ _ q f ltac:(lia) Hr' Hl) as (r & s' & A' & E & Hr2 & Hpg & Hc & HP2 & Ho2 & Hres).
      { intros Hk0. cbn [tabs]. rewrite lookup_insert_ne.
        - eapply tabs_missing; [exact (vr_as _ _ _ Hr)|by apply Hn; lia|lia].
        - intros E. apply (f_equal length) in E. rewrite !path_length in E. lia. }
      exists r, s', A'. split; [done|]. split; [done|]. split; [done|]. split; [done|].
      split; [by rewrite HP2|]. split; [|done].
      eapply only_frames_trans; [exact Ho|]. cbn [v_mem] in Ho2. eapply only_frames_mono; [exact Ho2|].
      intros g Hg. apply elem_of_app in Hg as [Hg|Hg]; [|set_solver].
      rewrite tab_frames_insert in Hg by (apply Hn; lia). set_solver.
Qed.

(** The number of tables still missing on the way to [v]. *)
Definition missing (A : aspace) (v : Z) : nat :=
  length (filter (fun d => tabs A !! path v d = None) (seq 1 3)).

Lemma missing_at A m cr3 v d :
  as_rep m cr3 A → (d ≤ 3)%nat → is_Some (tabs A !! path v d) →
  ((d < 3)%nat → tabs A !! path v (S d) = None) → missing A v = (3 - d)%nat.
Proof using.
  intros Hr Hd [t Ht] Hn.
  assert (Hup : ∀ e, (d < e ≤ 3)%nat → tabs A !! path v e = None).
  { intros e He. eapply (tabs_missing _ _ _ Hr v (S d)); [apply Hn|]; lia. }
  assert (Hdn : ∀ e, (e ≤ d)%nat → tabs A !! path v e ≠ None).
  { intros e He E. rewrite (tabs_missing _ _ _ Hr v e d E He) in Ht. done. }
  unfold missing. cbn [seq].
  destruct (decide ((d = 0 ∨ d = 1 ∨ d = 2 ∨ d = 3)%nat)) as [[->|[->|[->| ->]]]|]; [..|lia];
    rewrite !filter_cons, filter_nil;
    repeat case_decide; try done; exfalso;
    match goal with
    | H : tabs _ !! path _ ?e = None |- _ => by apply (Hdn e); [lia|]
    | H : ¬ (tabs _ !! path _ ?e = None) |- _ => by apply H, Hup; lia
    end.
Qed.

(** A page that is neither mapped nor being mapped. *)
Definition is_mapped (A : aspace) (v : Z) : bool :=
  match pgs A !! path v 4 with Some (Mapped _) => true | _ => false end.

Lemma is_mapped_false A v : is_mapped A v = false ↔ ∀ f, pgs A !! path v 4 ≠ Some (Mapped f).
Proof using.
  unfold is_mapped. destruct (pgs A !! path v 4) as [[|f]|]; split; try done.
  intros Hn. by destruct (Hn f).
Qed.

Lemma leaf_not_mapped w : (∀ f, leaf_of w ≠ Some (Mapped f)) → pte_present w = false.
Proof using. unfold leaf_of. destruct (pte_present w); [|done]. intros Hn. by destruct (Hn (pte_addr w)). Qed.

(** Replacing the leaf of [v] by what the word [w] says. *)
Lemma set_leaf_ok s A q v t w m' l :
  vm_rep s A q → tabs A !! path v 3 = Some t →
  only_in (t + 8 * pt_offset_for_depth v 3) 8 (v_mem s) m' →
  rd64 m' (t + 8 * pt_offset_for_depth v 3) = w → leaf_of w = l →
  let A' := mkAS (tabs A) (partial_alter (fun _ => l) (path v 4) (pgs A)) in
  as_rep m' (v_cr3 s) A' ∧ fa_rep m' (v_fa s) q ∧ only_frames (tab_frames A) (v_mem s) m'.
Proof using.
  intros Hr Ht Ho Hw <- A'. pose proof (off_range v 3 ltac:(lia)) as Hoff. split; [|split].
  - unfold A'. rewrite path_S. eapply as_rep_set_leaf; [exact (vr_as _ _ _ Hr)|done|by rewrite path_length|done|].
    eapply one_entry_only_in; [exact (vr_as _ _ _ Hr)|done..].
  - by eapply entry_store_fa.
  - eapply only_frames_only; [by eapply entry_in_frame|]. apply elem_of_tab_frames. eauto.
Qed.

Lemma set_demand_ok s A q v t :
  vm_rep s A q → tabs A !! path v 3 = Some t → is_mapped A v = false →
  let m' := pte_set_bit (v_mem s) (t + 8 * pt_offset_for_depth v 3) 9 in
  let A' := mkAS (tabs A) (<[path v 4 := Demand]> (pgs A)) in
  vm_rep (vm_set_mem s m') A' q ∧ owned A' ≡ₚ owned A ∧ only_frames (tab_frames A) (v_mem s) m'.
Proof using.
  intros Hr Ht Hm m' A'. set (ent := t + 8 * pt_offset_for_depth v 3) in *.
  pose proof (leaf_entry _ _ _ (vr_as _ _ _ Hr) v t Ht) as Hle. fold ent in Hle.
  rewrite is_mapped_false in Hm. rewrite <- Hle in Hm.
  destruct (set_leaf_ok s A q v t (Z.lor (rd64 (v_mem s) ent) (Z.shiftl 1 9)) m' (Some Demand))
    as (H1 & H2 & H3); try done.
  - apply only_in_set_bit.
  - by apply rd64_set_bit.
  - unfold leaf_of, pte_present, pte_demand. rewrite !testbit_set by lia.
    pose proof (leaf_not_mapped _ Hm) as E. unfold pte_present in E. rewrite E. cbn [orb Z.eqb].
    by rewrite orb_true_r.
  - assert (HP : owned A' ≡ₚ owned A).
    { unfold owned, A'. cbn [pgs]. apply Permutation_app_head.
      pose proof (mapped_frames_insert (pgs A) (path v 4) Demand) as HI. cbn [leaf_frame option_list app] in HI.
      rewrite <- Hle in HI. destruct (leaf_of (rd64 (v_mem s) ent)) as [[|f]|] eqn:E;
        cbn [from_option leaf_frame option_list] in HI; [by rewrite app_nil_r in HI| |by rewrite app_nil_r in HI].
      by destruct (Hm f). }
    split; [|done]. split; cbn [v_mem v_cr3 v_fa vm_set_mem]; [exact H1|done|..]; rewrite HP; apply Hr.
Qed.

Lemma PT_demand_allocate_ok v s A q :
  kernel_addr v → vm_rep s A q →
  ∃ ret s' A' q', PT_demand_allocate v s = Ok (ret, s') ∧ vm_rep s' A' q' ∧
    v_cr3 s' = v_cr3 s ∧ owned A' ++ q' ≡ₚ owned A ++ q ∧
    only_frames (tab_frames A ++ q) (v_mem s) (v_mem s') ∧
    (if is_mapped A v then ret = -1 ∧ pgs A' = pgs A ∧ q' = q
     else if (missing A v <=? length q)%nat
     then ret = 0 ∧ pgs A' = <[path v 4 := Demand]> (pgs A) ∧ q' = drop (missing A v) q
     else ret = -1 ∧ pgs A' = pgs A ∧ q' = []).
Proof using.
  intros Hv Hr. unfold PT_demand_allocate. pose proof (pt_walk_ok _ _ _ (vr_as _ _ _ Hr) v Hv) as Hw.
  destruct (pt_walk (v_mem s) (v_cr3 s) v) as [ent d]. unfold walk_spec in Hw. cbn [fst snd] in Hw.
  destruct Hw as [(Hd & (t & Ht & ->) & Hn & Hm)|(-> & f & Hf & _)].
  - apply is_mapped_false in Hm. rewrite Hm.
    unfold PHYSICAL_PAGE_DEPTH, PAGE_TABLE_DEPTH. rewrite (proj2 (Nat.eqb_neq d 4)) by lia.
    rewrite (missing_at A _ _ v d (vr_as _ _ _ Hr) Hd ltac:(by eexists) Hn).
    destruct (demand_loop_ok v Hv (3 - d) d s A q t ltac:(lia) Hr Ht ltac:(intros; apply Hn; lia))
      as (r & s' & A' & E & Hr' & Hpg & Hc & HP & Ho & Hres).
    rewrite E, bind_Ok. cbn [fst snd].
    destruct (3 - d <=? length q)%nat eqn:El.
    + destruct Hres as (t' & Ht' & ->).
      assert (Hm' : is_mapped A' v = false) by (unfold is_mapped in *; by rewrite Hpg).
      destruct (set_demand_ok s' A' _ v t' Hr' Ht' Hm') as (H1 & H2 & H3).
      eexists 0, _, _, _. split; [done|]. split; [exact H1|]. split; [done|].
      split; [by rewrite H2, HP|]. split; [|cbn [pgs]; by rewrite Hpg].
      eapply only_frames_trans; [exact Ho|]. eapply only_frames_only.
      { eapply (entry_in_frame _ _ t' (pt_offset_for_depth v 3)); [by apply off_range|]. apply only_in_set_bit. }
      assert (Hin : t' ∈ tab_frames A') by (apply elem_of_tab_frames; eauto).
      assert (Hall : t' ∈ owned A ++ q) by (rewrite <- HP; unfold owned; set_solver).
      apply elem_of_app in Hall as [Hall|]; [|set_solver]. unfold owned in Hall.
      apply elem_of_app in Hall as [|Hall]; [set_solver|]. exfalso.
      pose proof (vr_nodup _ _ _ Hr') as Hnd. unfold owned in Hnd. rewrite <- app_assoc in Hnd.
      apply NoDup_app in Hnd as (_ & Hnd & _). apply (Hnd t' Hin). rewrite Hpg. set_solver.
    + subst r. eexists _, _, _, _. split; [done|]. split; [exact Hr'|]. split; [done|]. split; [done|].
      split; [done|]. split; [done|]. split; [done|]. apply drop_ge. apply Nat.leb_gt in El. lia.
  - assert (Hm : is_mapped A v = true) by (unfold is_mapped; by rewrite Hf). rewrite Hm. cbn [Nat.eqb].
    eexists _, _, A, q. split; [done|]. split; [by destruct Hr|]. done.
Qed.

(** The handler's success: the first free frame [f] is mapped where the entry
    demanded one; [fa] is the allocator after it gave [f] out. *)
Lemma map_leaf_ok s A f q v t fa l :
  vm_rep s A (f :: q) → tabs A !! path v 3 = Some t → pgs A !! path v 4 = Some Demand → fa_rep (v_mem s) fa q →
  let m' := pte_set_addr (v_mem s) (t + 8 * pt_offset_for_depth v 3) f in
  let A' := mkAS (tabs A) (<[path v 4 := Mapped f]> (pgs A)) in
  vm_rep (mkVM m' fa (v_cr3 s) l) A' q ∧ owned A' ++ q ≡ₚ owned A ++ f :: q ∧ only_frames (tab_frames A) (v_mem s) m'.
Proof using.
  intros Hr Ht Hle R1 m' A'. destruct (free_not_owned s A f q Hr) as (Hff & _ & _).
  destruct (set_leaf_ok s A (f :: q) v t (pte_word f) m' (Some (Mapped f))) as (H1 & H2 & H3); try done.
  { apply only_in_pte_set_addr. }
  { apply rd64_pte_set_addr. destruct Hff. lia. }
  { unfold leaf_of. destruct (pte_word_bits f) as (-> & _ & _ & ->); [apply Hff|destruct Hff; lia|done]. }
  assert (HP : owned A' ++ q ≡ₚ owned A ++ f :: q).
  { unfold owned, A'. cbn [pgs]. pose proof (mapped_frames_insert (pgs A) (path v 4) (Mapped f)) as HI.
    rewrite Hle in HI. cbn [from_option leaf_frame option_list app] in HI. rewrite app_nil_r in HI.
    change (tab_frames (mkAS (tabs A) (<[path v 4 := Mapped f]> (pgs A)))) with (tab_frames A).
    rewrite HI, <- !app_assoc. apply Permutation_app_head. cbn. by rewrite Permutation_middle. }
  split; [|by split]. destruct (vm_rep_perm s A _ _ q Hr HP) as [HN HF]. split; cbn [v_mem v_cr3 v_fa]; [exact H1| |done|done].
  apply (fa_stable (v_mem s)); [done|]. intros g a Hg Ha. destruct (tab_not_free s A _ _ _ Hr Ht) as [Hft Htq].
  eapply (same_frames_only q t); [|done|by apply Forall_app in HF as [_ HF]|clear -Htq; set_solver|exact Hg|exact Ha].
  eapply (entry_in_frame _ _ t (pt_offset_for_depth v 3)); [by apply off_range|]. apply only_in_pte_set_addr.
Qed.

Lemma page_fault_handler_ok v s A q :
  kernel_addr v → vm_rep s A q →
  ∃ s' A' q', page_fault_handler v s = Ok s' ∧ vm_rep s' A' q' ∧ v_cr3 s' = v_cr3 s ∧
    owned A' ++ q' ≡ₚ owned A ++ q ∧ only_frames (tab_frames A) (v_mem s) (v_mem s') ∧
    match pgs A !! path v 4, q with
    | Some Demand, f :: q0 => pgs A' = <[path v 4 := Mapped f]> (pgs A) ∧ q' = q0
    | _, _ => A' = A ∧ q' = q ∧ v_mem s' = v_mem s
    end.
Proof using.
  intros Hv Hr. unfold page_fault_handler.
  set (s0 := vm_klog KLOG_LEVEL_DEBUG "page fault on address %p. Error %x" s).
  assert (Hr0 : vm_rep s0 A q) by (by destruct Hr).
  assert (Hsame : ∀ l, (∀ q0 f, q = f :: q0 → pgs A !! path v 4 ≠ Some Demand) →
    ∃ s' A' q', Ok (mkVM (v_mem s) (v_fa s) (v_cr3 s) l) = Ok s' ∧ vm_rep s' A' q' ∧ v_cr3 s' = v_cr3 s ∧
    owned A' ++ q' ≡ₚ owned A ++ q ∧ only_frames (tab_frames A) (v_mem s) (v_mem s') ∧
    match pgs A !! path v 4, q with
    | Some Demand, f :: q0 => pgs A' = <[path v 4 := Mapped f]> (pgs A) ∧ q' = q0
    | _, _ => A' = A ∧ q' = q ∧ v_mem s' = v_mem s
    end).
  { intros l Hd. eexists _, A, q. split; [done|]. split; [by destruct Hr|]. do 3 (split; [done|]).
    destruct (pgs A !! path v 4) as [[|]|]; try done. destruct q; [done|]. by destruct (Hd q z). }
  pose proof (pt_walk_ok _ _ _ (vr_as _ _ _ Hr0) v Hv) as Hw.
  destruct (pt_walk (v_mem s0) (v_cr3 s0) v) as [ent d]. unfold walk_spec in Hw. cbn [fst snd] in Hw.
  destruct Hw as [(Hd & (t & Ht & ->) & Hn & Hm)|(-> & f & Hf & _)].
  2: { cbn [Nat.eqb PHYSICAL_PAGE_DEPTH]. apply Hsame. intros. by rewrite Hf. }
  unfold PHYSICAL_PAGE_DEPTH, PAGE_TABLE_DEPTH. rewrite (proj2 (Nat.eqb_neq d 4)) by lia.
  destruct (decide (d = 3)%nat) as [->|Hd3].
  2: { rewrite (proj2 (Nat.eqb_neq d 3)), orb_true_r by lia. apply Hsame. intros ?? _.
       rewrite (page_missing _ _ _ (vr_as _ _ _ Hr0) v (S d)); [done|apply Hn; lia|lia]. }
  cbn [Nat.eqb negb]. rewrite orb_false_r.
  pose proof (leaf_entry _ _ _ (vr_as _ _ _ Hr0) v t Ht) as Hle.
  set (ent := t + 8 * pt_offset_for_depth v 3) in *.
  assert (Hnp : pte_present (rd64 (v_mem s0) ent) = false).
  { apply leaf_not_mapped. intros f. rewrite Hle. apply Hm. }
  unfold leaf_of in Hle. rewrite Hnp in Hle.
  destruct (pte_demand (rd64 (v_mem s0) ent)) eqn:Ed; cbn [negb].
  2: { apply Hsame. intros ?? _. by rewrite <- Hle. }
  destruct q as [|f q].
  - rewrite (fa_alloc_nil _ _ (vr_fa _ _ _ Hr0)), bind_Ok. cbn [fst snd Z.eqb NULL].
    apply Hsame. by intros.
  - destruct (fa_alloc_cons _ _ _ _ (vr_fa _ _ _ Hr0)) as (s1 & E1 & R1). rewrite E1, bind_Ok.
    cbn [fst snd]. destruct (free_not_owned s0 A f q Hr0) as (Hff & Hfo & Hfq).
    rewrite (proj2 (Z.eqb_neq f NULL)) by (by apply frame_neq).
    cbn [vm_set_fa vm_set_mem v_mem v_cr3 v_log v_fa].
    destruct (map_leaf_ok s0 A f q v t s1 (v_log s0) Hr0 Ht (eq_sym Hle) R1) as (V & HP & Ho).
    eexists _, _, q. split; [done|]. rewrite <- Hle. split; [exact V|]. split; [done|]. by split.
Qed.

Lemma mapped_frame s A q p f : vm_rep s A q → pgs A !! p = Some (Mapped f) → frame f.
Proof using.
  intros Hr Hf. assert (f ∈ mapped_frames (pgs A)) as Hin.
  { unfold mapped_frames. apply list_elem_of_omap. exists (Mapped f). split; [|done].
    apply list_elem_of_fmap. exists (p, Mapped f). by rewrite elem_of_map_to_list. }
  pose proof (vr_frames _ _ _ Hr) as HF. rewrite Forall_forall in HF. apply HF. unfold owned. clear -Hin. set_solver.
Qed.

(** An entry that is cleared gives its frame [f] back. *)
Lemma unmap_leaf_ok s A q v t f m' :
  vm_rep s A q → tabs A !! path v 3 = Some t → pgs A !! path v 4 = Some (Mapped f) →
  only_in (t + 8 * pt_offset_for_depth v 3) 8 (v_mem s) m' → leaf_of (rd64 m' (t + 8 * pt_offset_for_depth v 3)) = None →
  let A' := mkAS (tabs A) (delete (path v 4) (pgs A)) in
  vm_rep (vm_set_mem s m') A' q ∧ owned A' ++ [f] ≡ₚ owned A ∧ only_frames (tab_frames A) (v_mem s) m'.
Proof using.
  intros Hr Ht Hf Ho Hl A'. destruct (set_leaf_ok s A q v t _ m' None Hr Ht Ho eq_refl Hl) as (H1 & H2 & H3).
  assert (HP : owned A' ++ [f] ≡ₚ owned A).
  { unfold owned, A'. cbn [pgs]. pose proof (mapped_frames_delete (pgs A) (path v 4)) as HD. rewrite Hf in HD.
    cbn [from_option leaf_frame option_list] in HD. rewrite <- app_assoc, HD. done. }
  split; [|by split]. destruct Hr as [Ha Hfa Hnd Hfr].
  assert (Hsub : owned A' ++ q ++ [f] ≡ₚ owned A ++ q) by (rewrite (Permutation_app_comm q [f]), app_assoc, HP; done).
  rewrite <- Hsub in Hnd, Hfr. rewrite app_assoc in Hnd, Hfr. split; cbn [v_mem v_cr3 v_fa vm_set_mem]; [exact H1|done| |].
  - by apply NoDup_app in Hnd as (Hnd & _).
  - by apply Forall_app in Hfr as [Hfr _].
Qed.

Lemma PT_free_ok v s A q :
  kernel_addr v → vm_rep s A q →
  ∃ ret s' A', PT_free v s = (ret, s') ∧ vm_rep s' A' q ∧ v_cr3 s' = v_cr3 s ∧
    owned A' ++ (if ret =? NULL then [] else [ret]) ≡ₚ owned A ∧
    only_frames (tab_frames A) (v_mem s) (v_mem s') ∧ tabs A' = tabs A ∧
    match pgs A !! path v 4 with
    | Some (Mapped f) => if v mod PAGE_SIZE =? 0 then ret = f ∧ pgs A' = delete (path v 4) (pgs A)
                         else ret = NULL ∧ A' = A ∧ v_mem s' = v_mem s
    | _ => ret = NULL ∧ A' = A ∧ v_mem s' = v_mem s
    end.
Proof using.
  intros Hv Hr. unfold PT_free.
  assert (Hnop : ∀ l, vm_rep (mkVM (v_mem s) (v_fa s) (v_cr3 s) l) A q) by (by destruct Hr).
  destruct (truth (v mod PAGE_SIZE)) eqn:Et.
  { unfold truth in Et. bool_cases. rewrite (proj2 (Z.eqb_neq _ 0)) by done.
    eexists _, _, A. split; [done|]. split; [apply Hnop|]. split; [done|]. rewrite app_nil_r.
    do 3 (split; [done|]). by destruct (pgs A !! path v 4) as [[|]|]. }
  unfold truth in Et. bool_cases. rewrite (proj2 (Z.eqb_eq _ 0)) by done.
  pose proof (free_walk_ok _ _ _ (vr_as _ _ _ Hr) v Hv 4 0 NULL (v_cr3 s) ltac:(lia) ltac:(lia)
    (as_root _ _ _ (vr_as _ _ _ Hr)) eq_refl) as Hw.
  unfold PHYSICAL_PAGE_DEPTH.
  destruct (free_walk 4 (v_mem s) (v_cr3 s) v NULL 0) as [e|].
  2: { eexists _, s, A. split; [done|]. split; [done|]. split; [done|]. rewrite app_nil_r.
       do 3 (split; [done|]). destruct (pgs A !! path v 4) as [[|f]|]; try done. by destruct (Hw f). }
  destruct Hw as (t & f & Ht & -> & Hf). rewrite Hf. set (ent := t + 8 * pt_offset_for_depth v 3).
  set (m1 := pte_clear_bit (v_mem s) ent 0). set (m2 := pte_clear_bit m1 ent 9).
  pose proof (leaf_entry _ _ _ (vr_as _ _ _ Hr) v t Ht) as Hle. fold ent in Hle. rewrite Hf in Hle.
  assert (Haddr : pte_addr (rd64 (v_mem s) ent) = f).
  { unfold leaf_of in Hle. destruct (pte_present _); [congruence|]. by destruct (pte_demand _). }
  assert (Hw2 : rd64 m2 ent = Z.ldiff (Z.ldiff (rd64 (v_mem s) ent) (Z.shiftl 1 0)) (Z.shiftl 1 9)).
  { unfold m2, m1. by rewrite !rd64_clear_bit. }
  pose proof (mapped_frame s A q _ _ Hr Hf) as Hff.
  assert (Hret : pt_get_next_pte m2 (v_cr3 s) ent v 4 = f).
  { unfold pt_get_next_pte. unfold ent at 1. rewrite entry_neq.
    2: by eapply as_frame; [exact (vr_as _ _ _ Hr)|]. 2: pose proof (off_range v 3); lia.
    unfold pte_get_addr. rewrite Hw2, !pte_addr_clear, Haddr, off_page by lia.
    rewrite Et, Z.mul_0_r, Z.add_0_r. destruct Hff. apply u64_small. lia. }
  destruct (unmap_leaf_ok s A q v t f m2 Hr Ht Hf) as (V & HP & Ho).
  { eapply only_in_trans; apply only_in_clear_bit. }
  { fold ent. rewrite Hw2. unfold leaf_of, pte_present, pte_demand. rewrite !testbit_clear by lia.
    cbn [Z.eqb negb]. by rewrite !andb_false_r. }
  eexists f, _, _. rewrite Hret. split; [done|]. rewrite (proj2 (Z.eqb_neq f NULL)) by (by apply frame_neq).
  split; [exact V|split; [done|split; [exact HP|done]]].
Qed.
End VM.

(** ** Pages *)

(** The 36-bit number of the page that contains [v]. *)
Definition page_of (v : Z) : Z := (v / PAGE_SIZE) mod 2 ^ 36.

Lemma off_page_of v d : (d ≤ 3)%nat →
  pt_offset_for_depth v d = (page_of v / 2 ^ (9 * (3 - Z.of_nat d))) mod 512.
Proof.
  intros Hd. unfold pt_offset_for_depth, page_of, PHYSICAL_PAGE_DEPTH, PAGE_TABLE_DEPTH, PAGE_SIZE.
  rewrite (proj2 (Nat.eqb_neq d 4)) by lia.
  change 0x1FF with (Z.ones 9). rewrite Z.land_ones, Z.shiftr_div_pow2 by lia.
  rewrite Z.pow_add_r, <- Z.div_div by lia. change (2 ^ 12) with 4096. set (n := v / 4096).
  assert (d = 0 ∨ d = 1 ∨ d = 2 ∨ d = 3)%nat as [->|[->|[->| ->]]] by lia; clearbody n; cbn -[Z.div Z.modulo];
    Z.to_euclidean_division_equations; lia.
Qed.

Lemma path_page_of a b : path a 4 = path b 4 ↔ page_of a = page_of b.
Proof.
  unfold path. cbn [seq fmap list_fmap]. rewrite !off_page_of by lia. cbn [Z.of_nat Pos.of_succ_nat Pos.succ].
  change (2 ^ (9 * (3 - 0))) with 134217728. change (2 ^ (9 * (3 - 1))) with 262144.
  change (2 ^ (9 * (3 - 2))) with 512. change (2 ^ (9 * (3 - 3))) with 1.
  assert (Ha : 0 ≤ page_of a < 68719476736) by (unfold page_of; by apply Z.mod_pos_bound).
  assert (Hb : 0 ≤ page_of b < 68719476736) by (unfold page_of; by apply Z.mod_pos_bound).
  split; [|by intros ->]. intros E. injection E as E0 E1 E2 E3.
  revert Ha Hb E0 E1 E2 E3. generalize (page_of a) (page_of b). intros x y Ha Hb E0 E1 E2 E3.
  Z.to_euclidean_division_equations. lia.
Qed.

Lemma page_view_other A A' v b :
  page_of b ≠ page_of v → (∀ k, k ≠ path v 4 → pgs A' !! k = pgs A !! k) →
  page_view A' b = page_view A b.
Proof.
  intros Hne Hk. unfold page_view. rewrite Hk; [done|]. intros E. apply Hne. by apply path_page_of.
Qed.

(** ** What the processor sees *)

Section Hardware.
Context {F : Type} `{FrameAllocator F}.

(** C2: demand paging works.  When [PT_demand_allocate] is called on an
    unmapped kernel address and there are enough free frames, it returns 0 and
    the page still translates to nothing; the first fault on any address [a] of
    that page then makes the processor translate [a] to the same offset in a
    frame that was free; the translation of every address of every other page
    is what it was before, no frame is lost or shared, and memory changes only
    in page tables and in frames that were free. *)
Theorem PT_demand_fault_maps (s : vm F) (A : aspace) (q : list Z) (v a : Z) :
  vm_rep s A q → kernel_addr v → page_of a = page_of v → is_mapped A v = false →
  (missing A v < length q)%nat →
  ∃ s1 s2 A2 q2 f, PT_demand_allocate v s = Ok (0, s1) ∧
    translate (v_mem s1) (v_cr3 s1) a = None ∧
    page_fault_handler a s1 = Ok s2 ∧
    translate (v_mem s2) (v_cr3 s2) a = Some (f + a mod PAGE_SIZE) ∧ f ∈ q ∧
    (∀ b, kernel_addr b → page_of b ≠ page_of v →
       translate (v_mem s2) (v_cr3 s2) b = translate (v_mem s) (v_cr3 s) b) ∧
    vm_rep s2 A2 q2 ∧ owned A2 ++ q2 ≡ₚ owned A ++ q ∧
    only_frames (tab_frames A ++ q) (v_mem s) (v_mem s2).
Proof using.
  intros Hr Hv Hpg Hm Hq.
  assert (Hka : kernel_addr a).
  { unfold kernel_addr. by rewrite off_page_of, Hpg, <- off_page_of by lia. }
  assert (Hpath : path a 4 = path v 4) by (by apply path_page_of).
  destruct (PT_demand_allocate_ok v s A q Hv Hr) as (ret & s1 & A1 & q1 & E1 & Hr1 & Hc1 & HP1 & Ho1 & Hres).
  rewrite Hm, (proj2 (Nat.leb_le _ _)) in Hres by lia. destruct Hres as (-> & Hpgs1 & ->).
  destruct (page_fault_handler_ok a s1 A1 _ Hka Hr1) as (s2 & A2 & q2 & E2 & Hr2 & Hc2 & HP2 & Ho2 & Hres).
  rewrite Hpgs1, Hpath, lookup_insert_eq in Hres.
  destruct (drop (missing A v) q) as [|f q0] eqn:Ed.
  { apply (f_equal length) in Ed. rewrite length_drop in Ed. cbn [length] in Ed. lia. }
  destruct Hres as [Hpgs2 ->].
  assert (Hfq : f ∈ q).
  { rewrite <- (take_drop (missing A v) q), Ed, elem_of_app, elem_of_cons. tauto. }
  exists s1, s2, A2, q0, f. split; [done|].
  split; [|split; [done|split; [|split; [done|split; [|split; [done|split; [by rewrite HP2|]]]]]]].
  - rewrite (translate_ok _ _ _ (vr_as _ _ _ Hr1)) by done. unfold page_view.
    by rewrite Hpath, Hpgs1, lookup_insert_eq.
  - rewrite (translate_ok _ _ _ (vr_as _ _ _ Hr2)) by done. unfold page_view.
    by rewrite Hpath, Hpgs2, lookup_insert_eq.
  - intros b Hb Hne. rewrite (translate_ok _ _ _ (vr_as _ _ _ Hr2)), (translate_ok _ _ _ (vr_as _ _ _ Hr)) by done.
    eapply (page_view_other _ _ v); [done|]. intros k Hk.
    by rewrite Hpgs2, !lookup_insert_ne.
  - eapply only_frames_trans; [exact Ho1|]. eapply only_frames_mono; [exact Ho2|].
    intros g Hg. assert (Hall : g ∈ owned A ++ q) by (rewrite <- HP1; unfold owned; set_solver).
    apply elem_of_app in Hall as [Hall|]; [|set_solver]. unfold owned in Hall.
    apply elem_of_app in Hall as [|Hall]; [set_solver|]. exfalso.
    pose proof (vr_nodup _ _ _ Hr1) as Hnd. unfold owned in Hnd. rewrite <- app_assoc in Hnd.
    apply NoDup_app in Hnd as (_ & Hnd & _). apply (Hnd g Hg). apply elem_of_app. left.
    assert (HM : mapped_frames (pgs A1) ≡ₚ mapped_frames (pgs A)).
    { rewrite Hpgs1. pose proof (mapped_frames_insert (pgs A) (path v 4) Demand) as HI.
      unfold is_mapped in Hm. destruct (pgs A !! path v 4) as [[|]|]; try done;
        cbn in HI; by rewrite app_nil_r in HI. }
    by rewrite HM.
Qed.

(** The failure paths of [PT_demand_allocate].  On a page that is already
    mapped, or when there are too few free frames for the missing tables, it
    returns -1, and the processor's translation of every kernel address stays
    what it was; the tables it had already added stay part of the address
    space, so no frame is lost. *)
Theorem PT_demand_allocate_fails (s : vm F) (A : aspace) (q : list Z) (v : Z) :
  vm_rep s A q → kernel_addr v →
  (is_mapped A v = true ∨ (length q < missing A v)%nat) →
  ∃ s' A' q', PT_demand_allocate v s = Ok (-1, s') ∧ vm_rep s' A' q' ∧
    owned A' ++ q' ≡ₚ owned A ++ q ∧
    (∀ b, kernel_addr b → translate (v_mem s') (v_cr3 s') b = translate (v_mem s) (v_cr3 s) b).
Proof using.
  intros Hr Hv Hcase.
  destruct (PT_demand_allocate_ok v s A q Hv Hr) as (ret & s1 & A1 & q1 & E1 & Hr1 & Hc1 & HP1 & Ho1 & Hres).
  assert (Hres' : ret = -1 ∧ pgs A1 = pgs A).
  { destruct (is_mapped A v) eqn:Hm; [tauto|]. destruct Hcase as [|Hcase]; [done|].
    rewrite (proj2 (Nat.leb_gt _ _)) in Hres by lia. tauto. }
  destruct Hres' as [-> Hpg]. exists s1, A1, q1. split; [done|]. split; [done|]. split; [done|].
  intros b Hb. rewrite (translate_ok _ _ _ (vr_as _ _ _ Hr1)), (translate_ok _ _ _ (vr_as _ _ _ Hr)) by done.
  unfold page_view. by rewrite Hpg.
Qed.

(** C34: [PT_free] of the first address of a mapped kernel page returns the
    frame the processor translated it to, after which the page translates to
    nothing, every other page as before, and the frame belongs to no table and
    no page; on any other kernel address it returns NULL and changes nothing. *)
Theorem PT_free_unmaps (s : vm F) (A : aspace) (q : list Z) (v : Z) :
  vm_rep s A q → kernel_addr v →
  ∃ ret s' A', PT_free v s = (ret, s') ∧ vm_rep s' A' q ∧
    (∀ b, kernel_addr b → page_of b ≠ page_of v →
       translate (v_mem s') (v_cr3 s') b = translate (v_mem s) (v_cr3 s) b) ∧
    match translate (v_mem s) (v_cr3 s) v with
    | Some pa => if v mod PAGE_SIZE =? 0
                 then ret = pa ∧ ret ∉ owned A' ++ q ∧ translate (v_mem s') (v_cr3 s') v = None
                 else ret = NULL ∧ v_mem s' = v_mem s
    | None => ret = NULL ∧ v_mem s' = v_mem s
    end.
Proof using.
  intros Hr Hv. destruct (PT_free_ok v s A q Hv Hr) as (ret & s' & A' & E & Hr' & Hc & HP & Ho & Ht & Hres).
  exists ret, s', A'. split; [done|]. split; [done|].
  rewrite (translate_ok _ _ _ (vr_as _ _ _ Hr) v Hv).
  assert (Hk : ∀ k, k ≠ path v 4 → pgs A' !! k = pgs A !! k).
  { intros k Hk. destruct (pgs A !! path v 4) as [[|f]|]; [by destruct Hres as (_ & -> & _)| |
      by destruct Hres as (_ & -> & _)].
    destruct (v mod PAGE_SIZE =? 0); [destruct Hres as (_ & ->)|by destruct Hres as (_ & -> & _)].
    by rewrite lookup_delete_ne. }
  split.
  - intros b Hb Hne.
    rewrite (translate_ok _ _ _ (vr_as _ _ _ Hr')), (translate_ok _ _ _ (vr_as _ _ _ Hr)) by done.
    by eapply page_view_other.
  - rewrite (translate_ok _ _ _ (vr_as _ _ _ Hr') v Hv).
    unfold page_view. destruct (pgs A !! path v 4) as [[|f]|]; [tauto| |tauto].
    destruct (v mod PAGE_SIZE =? 0) eqn:Ea; [|tauto]. destruct Hres as [-> Hpg]. bool_cases.
    rewrite Hpg, lookup_delete_eq. split; [by rewrite Ea, Z.add_0_r|]. split; [|done].
    destruct Hr as [_ _ Hnd Hfr]. rewrite <- HP in Hnd, Hfr. destruct (f =? NULL) eqn:Ef.
    + bool_cases. subst. rewrite app_nil_r in HP, Hnd, Hfr. intros Hin.
      rewrite Forall_forall in Hfr. apply (frame_neq NULL); [by apply Hfr|done].
    + rewrite <- app_assoc in Hnd. apply NoDup_app in Hnd as (_ & Hno & Hnd). cbn in Hnd.
      apply NoDup_cons in Hnd as [Hq _]. intros [Hin|Hin]%elem_of_app; [|done].
      apply (Hno f Hin). set_solver.
Qed.

(** What [PT_addr_virt_to_phys] computes: for an address of a mapped kernel
    page it is the frame plus EIGHT times the offset in the page, so it agrees
    with the processor's translation only for addresses that are page-aligned;
    for other kernel addresses it is NULL. *)
Theorem PT_addr_virt_to_phys_scaled (m : mem) (cr3 : Z) (A : aspace) (v : Z) :
  as_rep m cr3 A → kernel_addr v →
  PT_addr_virt_to_phys m cr3 v =
    match translate m cr3 v with
    | Some pa => u64 (pa + 7 * (v mod PAGE_SIZE))
    | None => NULL
    end.
Proof using.
  intros Hr Hv. rewrite (translate_ok _ _ _ Hr) by done. unfold PT_addr_virt_to_phys, page_view.
  pose proof (pt_walk_ok _ _ _ Hr v Hv) as Hw.
  destruct (pt_walk m cr3 v) as [ent d]. unfold walk_spec in Hw. cbn [fst snd] in Hw.
  destruct Hw as [(Hd & _ & _ & Hm)|(-> & f & Hf & ->)].
  - unfold PHYSICAL_PAGE_DEPTH. rewrite (proj2 (Nat.eqb_neq d 4)) by lia.
    destruct (pgs A !! path v 4) as [[|f]|]; [done| |done]. by destruct (Hm f).
  - rewrite Hf. cbn [Nat.eqb PHYSICAL_PAGE_DEPTH]. f_equal. lia.
Qed.
End Hardware.

(** ** The initial address space *)

Lemma as_rep_root m cr3 :
  frame cr3 → (∀ i, 1 ≤ i < 512 → pte_present (rd64 m (cr3 + 8 * i)) = false) →
  as_rep m cr3 (mkAS {[ [] := cr3 ]} ∅).
Proof.
  intros Hf Hz. split; cbn [tabs pgs].
  - apply lookup_singleton_eq.
  - by intros p t [<- <-]%lookup_singleton_Some.
  - by intros p p' t [<- <-]%lookup_singleton_Some [<- _]%lookup_singleton_Some.
  - intros p i [t [E _]%lookup_singleton_Some]. by destruct p.
  - intros p i [t E]. by rewrite lookup_empty in E.
  - intros p t i [<- <-]%lookup_singleton_Some _ Hi Hk. cbn [app] in *.
    rewrite lookup_singleton_ne by done. apply Hz. cbn in Hk. lia.
  - by intros p t i [<- <-]%lookup_singleton_Some.
Qed.

Lemma identity_loop_ok k i p2 m :
  0 ≤ i → i + Z.of_nat k ≤ 512 → p2 mod PAGE_SIZE = 0 →
  only_in (p2 + 8 * i) (8 * Z.of_nat k) m (identity_loop k i p2 m) ∧
  ∀ j, i ≤ j < i + Z.of_nat k →
    rd64 (identity_loop k i p2 m) (p2 + 8 * j) = Z.lor (pte_word (j * HUGE_PAGE_FRAME_SIZE)) (Z.shiftl 1 7).
Proof.
  intros Hi Hk Hp. revert i m Hi Hk. induction k as [|k IH]; intros i m Hi Hk; cbn [identity_loop].
  - split; [done|]. intros. lia.
  - set (m1 := pte_set_bit (pte_set_addr m (p2 + 8 * i) (i * HUGE_PAGE_FRAME_SIZE)) (p2 + 8 * i) 7).
    destruct (IH (i + 1) m1) as [H1 H2]; [lia..|].
    assert (Ho : only_in (p2 + 8 * i) 8 m m1).
    { eapply only_in_trans; [apply only_in_pte_set_addr|apply only_in_set_bit]. }
    split.
    + eapply only_in_trans; (eapply only_in_weaken; [eassumption|lia|lia]).
    + intros j Hj. destruct (decide (j = i)) as [->|Hne]; [|apply H2; lia].
      etransitivity; [eapply (rd_le_only_in 8); [exact H1|unfold apart; lia]|].
      fold (rd64 m1 (p2 + 8 * i)). unfold m1. rewrite rd64_set_bit, rd64_pte_set_addr by
        (unfold HUGE_PAGE_FRAME_SIZE; lia). done.
Qed.

#[global] Opaque identity_loop.

Lemma identity_word_bits j : 0 ≤ j < 512 →
  let w := Z.lor (pte_word (j * HUGE_PAGE_FRAME_SIZE)) (Z.shiftl 1 7) in
  pte_present w = true ∧ pte_huge w = true ∧ pte_addr w = j * HUGE_PAGE_FRAME_SIZE.
Proof.
  intros Hj w. unfold w. rewrite pte_addr_set by lia. unfold pte_present, pte_huge.
  rewrite !testbit_set by lia. rewrite orb_true_r.
  destruct (pte_word_bits (j * HUGE_PAGE_FRAME_SIZE)) as (H1 & _ & _ & H4).
  - unfold HUGE_PAGE_FRAME_SIZE, PAGE_SIZE. word_lia.
  - unfold HUGE_PAGE_FRAME_SIZE. lia.
  - unfold pte_present in H1. rewrite H1. done.
Qed.

(** The tables after [PT_init] and [PT_page_table_init]. *)
Lemma identity_tables p3 p2 p4 h m irq m1 irq1 :
  p3 mod PAGE_SIZE = 0 → p2 mod PAGE_SIZE = 0 → frame p4 →
  0 ≤ p3 < 2 ^ 52 → 0 ≤ p2 < 2 ^ 52 → NoDup [p2; p3; p4] →
  PT_init p3 p2 h m irq = Ok (m1, irq1) →
  let m2 := PT_page_table_init p3 p4 m1 in
  (∀ i, 0 ≤ i < 512 → rd64 m2 (p4 + 8 * i) = if i =? 0 then pte_word p3 else 0) ∧
  (∀ i, 0 ≤ i < 512 → rd64 m2 (p3 + 8 * i) = if i =? 0 then pte_word p2 else 0) ∧
  (∀ j, 0 ≤ j < 512 → rd64 m2 (p2 + 8 * j) = Z.lor (pte_word (j * HUGE_PAGE_FRAME_SIZE)) (Z.shiftl 1 7)).
Proof.
  intros A3 A2 [A4 A4'] R3 R2 Hnd E m2.
  assert (HN : p2 ≠ p3 ∧ p2 ≠ p4 ∧ p3 ≠ p4 ∧ p3 ≠ p2).
  { apply NoDup_cons in Hnd as [N1 Hnd]. apply NoDup_cons in Hnd as [N2 _]. set_solver. }
  destruct HN as (HN1 & HN2 & HN3 & HN4).
  assert (Hsep : ∀ x y i, x mod PAGE_SIZE = 0 → y mod PAGE_SIZE = 0 → x ≠ y → 0 ≤ i < 512 →
    apart (x + 8 * i) 8 y PAGE_SIZE) by (unfold apart, PAGE_SIZE; intros; word_lia).
  assert (Hpage : ∀ mm x f i, 0 ≤ i < 512 → 0 ≤ f < 2 ^ 52 →
    rd64 (pte_set_addr (init_empty_page_table mm x) x f) (x + 8 * i) = if i =? 0 then pte_word f else 0).
  { intros mm x f i Hi Hf. destruct (i =? 0) eqn:E0; bool_cases.
    - subst. rewrite Z.mul_0_r, Z.add_0_r. apply rd64_pte_set_addr. lia.
    - rewrite <- (rd64_init_empty mm x i Hi). apply (rd_le_only_in 8 x 8); [apply only_in_pte_set_addr|].
      unfold apart. lia. }
  assert (Hin : ∀ mm x f, only_in x PAGE_SIZE mm (pte_set_addr (init_empty_page_table mm x) x f)).
  { intros mm x f. eapply only_in_trans; [apply only_in_init_empty|].
    eapply only_in_weaken; [apply only_in_pte_set_addr|lia|unfold PAGE_SIZE; lia]. }
  unfold PT_init in E. destruct (IRQ_set_handler _ _ _ _) as [irq'| |]; [|done..].
  rewrite bind_Ok in E. apply Ok_pair_inj in E as [<- <-].
  set (m0 := pte_set_addr (init_empty_page_table m p3) p3 p2) in *.
  destruct (identity_loop_ok PAGE_TABLE_NUM_ENTS 0 p2 m0) as [L1 L2]; [done|unfold PAGE_TABLE_NUM_ENTS; lia|done|].
  set (m1 := identity_loop PAGE_TABLE_NUM_ENTS 0 p2 m0) in *.
  rewrite Z.mul_0_r, Z.add_0_r in L1. change (8 * Z.of_nat PAGE_TABLE_NUM_ENTS) with PAGE_SIZE in L1.
  assert (Hm2 : only_in p4 PAGE_SIZE m1 m2) by apply Hin.
  split; [|split].
  - intros i Hi. by apply Hpage.
  - intros i Hi. rewrite <- (Hpage m p3 p2 i) by done. fold m0.
    etransitivity; [eapply (rd_le_only_in 8); [exact Hm2|by apply Hsep]|].
    eapply (rd_le_only_in 8); [exact L1|by apply Hsep].
  - intros j Hj. rewrite <- L2 by (unfold PAGE_TABLE_NUM_ENTS; lia).
    eapply (rd_le_only_in 8); [exact Hm2|by apply Hsep].
Qed.

(** The translation that such tables give. *)
Lemma translate_identity m2 p4 p3 p2 v :
  p3 mod PAGE_SIZE = 0 → p2 mod PAGE_SIZE = 0 → 0 ≤ p3 < 2 ^ 52 → 0 ≤ p2 < 2 ^ 52 →
  (∀ i, 0 ≤ i < 512 → rd64 m2 (p4 + 8 * i) = if i =? 0 then pte_word p3 else 0) →
  (∀ i, 0 ≤ i < 512 → rd64 m2 (p3 + 8 * i) = if i =? 0 then pte_word p2 else 0) →
  (∀ j, 0 ≤ j < 512 → rd64 m2 (p2 + 8 * j) = Z.lor (pte_word (j * HUGE_PAGE_FRAME_SIZE)) (Z.shiftl 1 7)) →
  0 ≤ v < 281474976710656 →
  translate m2 p4 v = if v <? 0x40000000 then Some v else None.
Proof.
  intros A3 A2 R3 R2 T4 T3 T2 Hv. unfold translate, PHYSICAL_PAGE_DEPTH.
  cbn [translate_from]. rewrite T4 by (apply off_range; lia).
  assert (O0 : pt_offset_for_depth v 0 = v / 549755813888).
  { rewrite off_page_of by lia. unfold page_of, PAGE_SIZE. cbn -[Z.div Z.modulo].
    Z.to_euclidean_division_equations; lia. }
  assert (O1 : pt_offset_for_depth v 1 = v / 1073741824 mod 512).
  { rewrite off_page_of by lia. unfold page_of, PAGE_SIZE. cbn -[Z.div Z.modulo].
    Z.to_euclidean_division_equations; lia. }
  assert (O2 : pt_offset_for_depth v 2 = v / 2097152 mod 512).
  { rewrite off_page_of by lia. unfold page_of, PAGE_SIZE. cbn -[Z.div Z.modulo].
    Z.to_euclidean_division_equations; lia. }
  destruct (pt_offset_for_depth v 0 =? 0) eqn:E0; bool_cases.
  2: { cbn [negb pte_present Z.testbit Z.odd]. rewrite (proj2 (Z.ltb_ge v _)) by (clear -O0 E0 Hv; word_lia). done. }
  destruct (pte_word_bits p3 A3 R3) as (-> & -> & _ & ->). cbn [negb andb orb Nat.eqb].
  rewrite T3 by (apply off_range; lia). destruct (pt_offset_for_depth v 1 =? 0) eqn:E1; bool_cases.
  2: { cbn [negb pte_present Z.testbit Z.odd]. rewrite (proj2 (Z.ltb_ge v _)) by (clear -O1 E1 Hv; word_lia). done. }
  destruct (pte_word_bits p2 A2 R2) as (-> & -> & _ & ->). cbn [negb andb orb Nat.eqb].
  rewrite T2 by (apply off_range; lia).
  destruct (identity_word_bits (pt_offset_for_depth v 2)) as (-> & -> & ->); [apply off_range; lia|].
  cbn [negb andb orb Nat.eqb]. assert (v < 0x40000000) by (clear -O0 E0 O1 E1 Hv; word_lia).
  rewrite (proj2 (Z.ltb_lt _ _)) by done. f_equal. rewrite O2. unfold HUGE_PAGE_FRAME_SIZE.
  change (2 ^ (12 + 9 * (Z.of_nat PAGE_TABLE_DEPTH - Z.of_nat 2))) with 2097152. clear -H Hv. word_lia.
Qed.

(** After [PT_init] and [PT_page_table_init] the processor translates every
    address of the first gigabyte to itself, and no other 48-bit address. *)
Theorem PT_init_identity (p3 p2 p4 h : Z) (m : mem) (irq : irqs) (m1 : mem) (irq1 : irqs) (v : Z) :
  p3 mod PAGE_SIZE = 0 → p2 mod PAGE_SIZE = 0 → frame p4 →
  0 ≤ p3 < 2 ^ 52 → 0 ≤ p2 < 2 ^ 52 → NoDup [p2; p3; p4] →
  PT_init p3 p2 h m irq = Ok (m1, irq1) → 0 ≤ v < 2 ^ 48 →
  translate (PT_page_table_init p3 p4 m1) p4 v = if v <? 0x40000000 then Some v else None.
Proof.
  intros A3 A2 A4 R3 R2 Hnd E Hv.
  destruct (identity_tables p3 p2 p4 h m irq m1 irq1) as (T4 & T3 & T2); [done..|].
  by apply (translate_identity _ p4 p3 p2).
Qed.

(** ** Concrete address spaces *)

(** Six free frames, and a root table at 0x1000 with nothing mapped. *)
Definition demo_frames : MMUState :=
  mkMMU [mkNode None (mkSeg 0x2000 0x8000 0x6000)] (Some 0%nat) 0 0 0 0 0.
Definition demo_vm : vm MMUState := mkVM ∅ demo_frames 0x1000 [].
Definition demo_root : aspace := mkAS {[ [] := 0x1000 ]} ∅.
Definition demo_queue : list Z := [0x2000; 0x3000; 0x4000; 0x5000; 0x6000; 0x7000].

Lemma demo_vm_rep : vm_rep demo_vm demo_root demo_queue.
Proof.
  assert (Hfa : frames_rep ∅ demo_frames demo_queue).
  { apply (frames_rep_init ∅ demo_frames [(0%nat, mkSeg 0x2000 0x8000 0x6000)]).
    - cbn. split; [done|]. by eexists.
    - done.
    - cbn. sorted_tac; vm_compute; repeat split; congruence.
    - cbn. sorted_tac; vm_compute; congruence.
    - intros a. unfold covers. cbn. rewrite !Exists_cons, Exists_nil. cbn. lia. }
  destruct (frames_rep_frames _ _ _ Hfa) as [H1 H2].
  assert (Ho : owned demo_root = [0x1000]) by (vm_compute; reflexivity).
  split; [|done|rewrite Ho|rewrite Ho].
  - apply as_rep_root; [by split|]. intros i Hi. cbn [v_mem demo_vm v_cr3].
    unfold rd64. rewrite rd_le_zero; [done|]. intros b _. unfold rd8. by rewrite lookup_empty.
  - constructor; [|done]. vm_compute. intros H. repeat (apply elem_of_cons in H as [H|H]; [done|]).
    by apply elem_of_nil in H.
  - constructor; [by split|done].
Qed.

Lemma PT_demand_fault_maps_witness :
  ∃ s1 s2 f, PT_demand_allocate 0xF0000000000 demo_vm = Ok (0, s1) ∧
    page_fault_handler 0xF0000000123 s1 = Ok s2 ∧
    translate (v_mem s2) (v_cr3 s2) 0xF0000000123 = Some (f + 0x123).
Proof.
  destruct (PT_demand_fault_maps demo_vm demo_root demo_queue 0xF0000000000 0xF0000000123)
    as (s1 & s2 & A2 & q2 & f & H1 & _ & H2 & H3 & _).
  - exact demo_vm_rep.
  - vm_compute. congruence.
  - vm_compute. reflexivity.
  - vm_compute. reflexivity.
  - vm_compute. lia.
  - exists s1, s2, f. split; [exact H1|]. split; [exact H2|exact H3].
Defined.

Lemma PT_demand_allocate_fails_witness :
  ∃ s', PT_demand_allocate 0xF0000000000
          (mkVM ∅ (mkMMU [] None 0 0 0 0 0) 0x1000 []) = Ok (-1, s').
Proof.
  destruct (PT_demand_allocate_fails (mkVM ∅ (mkMMU [] None 0 0 0 0 0) 0x1000 []) demo_root []
    0xF0000000000) as (s' & A' & q' & H1 & _).
  - destruct demo_vm_rep as [H1 _ H3 H4]. split; [exact H1| |by apply NoDup_app in H3 as (? & _ & _);
      rewrite app_nil_r|by apply Forall_app in H4 as [? _]; rewrite app_nil_r].
    exists [], []. cbn. split; [done|]. split; [constructor|]. split; [done|]. split; [done|].
    split; [done|]. split; [constructor|constructor].
  - vm_compute. congruence.
  - right. vm_compute. lia.
  - exists s'. exact H1.
Defined.

(** A state in which the first page of the heap is mapped. *)
Lemma demo_mapped : ∃ s A q f, vm_rep (F := MMUState) s A q ∧
  pgs A !! path 0xF0000000000 4 = Some (Mapped f).
Proof.
  destruct (PT_demand_allocate_ok 0xF0000000000 demo_vm demo_root demo_queue)
    as (ret & s1 & A1 & q1 & _ & H1 & _ & _ & _ & H2); [vm_compute; congruence|exact demo_vm_rep|].
  change (is_mapped demo_root 0xF0000000000) with false in H2. cbv iota in H2.
  replace (missing demo_root 0xF0000000000) with 3%nat in H2 by (vm_compute; reflexivity).
  cbn [Nat.leb length demo_queue drop] in H2. destruct H2 as (_ & H2 & ->).
  destruct (page_fault_handler_ok 0xF0000000000 s1 A1 _ ltac:(vm_compute; congruence) H1)
    as (s2 & A2 & q2 & _ & H3 & _ & _ & _ & H4).
  rewrite H2, lookup_insert_eq in H4. destruct H4 as [H4 _].
  exists s2, A2, q2, 0x5000. split; [exact H3|]. rewrite H4. apply lookup_insert_eq.
Qed.

Lemma PT_free_unmaps_witness :
  ∃ s A q ret s' A', vm_rep (F := MMUState) s A q ∧ is_mapped A 0xF0000000000 = true ∧
    PT_free 0xF0000000000 s = (ret, s') ∧ ret ∉ owned A' ++ q.
Proof.
  destruct demo_mapped as (s & A & q & f & Hr & Hf).
  destruct (PT_free_unmaps s A q 0xF0000000000 Hr) as (ret & s' & A' & H1 & H2 & _ & H3);
    [vm_compute; congruence|].
  rewrite (translate_ok _ _ _ (vr_as _ _ _ Hr)) in H3 by (vm_compute; congruence).
  unfold page_view in H3. rewrite Hf in H3.
  change (0xF0000000000 mod PAGE_SIZE =? 0) with true in H3. cbv iota in H3.
  exists s, A, q, ret, s', A'. split; [exact Hr|]. split; [unfold is_mapped; by rewrite Hf|].
  split; [exact H1|]. apply H3.
Defined.

Lemma PT_addr_virt_to_phys_scaled_witness :
  ∃ m cr3 f, translate m cr3 0xF0000000010 = Some (f + 0x10) ∧
    PT_addr_virt_to_phys m cr3 0xF0000000010 = u64 (f + 0x80).
Proof.
  destruct demo_mapped as (s & A & q & f & Hr & Hf).
  exists (v_mem s), (v_cr3 s), f.
  assert (E : translate (v_mem s) (v_cr3 s) 0xF0000000010 = Some (f + 0x10)).
  { rewrite (translate_ok _ _ _ (vr_as _ _ _ Hr)) by (vm_compute; congruence). unfold page_view.
    replace (path 0xF0000000010 4) with (path 0xF0000000000 4) by (vm_compute; reflexivity).
    by rewrite Hf. }
  split; [exact E|].
  rewrite (PT_addr_virt_to_phys_scaled (v_mem s) (v_cr3 s) A 0xF0000000010 (vr_as _ _ _ Hr))
    by (vm_compute; congruence).
  rewrite E. f_equal. change (0xF0000000010 mod PAGE_SIZE) with 16. lia.
Defined.

Lemma PT_init_identity_witness :
  ∃ m1 irq1, PT_init 0x10000 0x11000 1 ∅ (mkIrqs (replicate 256 (0, 0)) 0 true []) = Ok (m1, irq1) ∧
    translate (PT_page_table_init 0x10000 0x1000 m1) 0x1000 0x3FFFFFFF = Some 0x3FFFFFFF ∧
    translate (PT_page_table_init 0x10000 0x1000 m1) 0x1000 0x40000000 = None.
Proof.
  assert (HN : NoDup [0x11000; 0x10000; 0x1000]) by (apply (bool_decide_unpack _); vm_compute; exact I).
  assert (HE : ∃ m1 irq1, PT_init 0x10000 0x11000 1 ∅ (mkIrqs (replicate 256 (0, 0)) 0 true []) = Ok (m1, irq1)).
  { unfold PT_init.
    unfold IRQ_set_handler. cbn [Z.ltb Z.compare orb]. eexists _, _. reflexivity. }
  assert (HF : frame 0x1000) by (by split).
  destruct HE as (m1 & irq1 & HE). exists m1, irq1. split; [exact HE|].
  pose proof (fun v => PT_init_identity 0x10000 0x11000 0x1000 1 ∅
    (mkIrqs (replicate 256 (0, 0)) 0 true []) m1 irq1 v eq_refl eq_refl HF
    ltac:(lia) ltac:(lia) HN HE) as HT.
  split; [rewrite (HT 0x3FFFFFFF) by lia; reflexivity|rewrite (HT 0x40000000) by lia; reflexivity].
Defined.
