(* ===== verification/Mmu.v ===== *)
(** * Virtual memory of the kernel (src/src/mmu.c, lines 183-337)

    [MMU_init] and the operations that hand out kernel heap pages and thread
    stacks, on top of the frame allocator (Frames.v), the page tables
    (Paging.v) and the interrupt counter (Irq.v). *)

From S2P Require Import Prelude Memory Sort Segments Frames Machine Irq Paging.
From Stdlib Require Import Sorted.

Definition P4_PTE_ADDRESSES : Z := 0x10000000000.
Definition MMAP_KERNEL_STACKS_START : Z := P4_PTE_ADDRESSES.
Definition MMAP_KERNEL_STACKS_END : Z := 0x2 * P4_PTE_ADDRESSES.
Definition MMAP_KERNEL_HEAP_START : Z := 0xF * P4_PTE_ADDRESSES.
Definition MMAP_KERNEL_HEAP_END : Z := 0x10 * P4_PTE_ADDRESSES.
Definition KERNEL_THREAD_STACK_SIZE_PAGES : nat := 10.

(** ** State and operations *)

(** The memory, the page-table register and [mmu_state] are in [k_vm]. *)
Record kstate := mkK { k_vm : vm MMUState; k_irq : irqs }.

Definition set_heap_next (st : MMUState) (a : Z) : MMUState :=
  mkMMU (free_segments st) (free_segment_head st) (free_page_head st) (free_page_tail st)
    (page_table st) a (next_kernel_thread_stack_vaddr st).
Definition set_stack_next (st : MMUState) (a : Z) : MMUState :=
  mkMMU (free_segments st) (free_segment_head st) (free_page_head st) (free_page_tail st)
    (page_table st) (next_kernel_heap_vaddr st) a.
Definition set_page_table (st : MMUState) (a : Z) : MMUState :=
  mkMMU (free_segments st) (free_segment_head st) (free_page_head st) (free_page_tail st)
    a (next_kernel_heap_vaddr st) (next_kernel_thread_stack_vaddr st).

(** Lines 188-209.  [stack] is the uninitialised array [excluded]; the fuel
    bounds the list loops. *)
Definition MMU_init (fuel : nat) (identity_p3 identity_p2 fault_handler : Z)
    (map : PhysicalMMap) (stack : list SegmentList) (k : kstate) : outcome (Z * kstate) :=
  let s := k_vm k in
  if (MAX_EXCLUDE_SEGMENTS <? num_kernel_sects map)%nat then
    Ok (-1, mkK (vm_klog KLOG_LEVEL_EMERG "too many kernel segments for MMU"
                  (vm_set_fa s (mkMMU (replicate MAX_FREE_SEGMENTS zero_node) None 0 0 0 0 0))) (k_irq k))
  else
    ex ← mmu_compute_excluded fuel map stack;
    r ← mmu_compute_free_segments fuel (replicate MAX_FREE_SEGMENTS zero_node) map ex;
    let st := mkMMU r.1 r.2 NULL NULL NULL MMAP_KERNEL_HEAP_START (MMAP_KERNEL_STACKS_END - 8) in
    f ← MMU_alloc_frame (v_mem s) st;
    let st := set_page_table f.2 f.1 in
    if f.1 =? NULL then Ok (-1, mkK (vm_set_fa s st) (k_irq k))
    else
      p ← PT_init identity_p3 identity_p2 fault_handler (v_mem s) (k_irq k);
      let m := PT_page_table_init identity_p3 f.1 p.1 in
      Ok (0, mkK (mkVM m st f.1 (v_log s)) p.2).

Definition MMU_alloc_page (k : kstate) : outcome (Z * kstate) :=
  let irq := IRQ_disable (k_irq k) in
  let s := k_vm k in
  if next_kernel_heap_vaddr (v_fa s) =? MMAP_KERNEL_HEAP_END then
    Ok (NULL, mkK (vm_klog KLOG_LEVEL_EMERG "out of kernel heap virtual addresses" s) irq)
  else
    let ret := next_kernel_heap_vaddr (v_fa s) in
    let s := vm_set_fa s (set_heap_next (v_fa s) (u64 (ret + PAGE_SIZE))) in
    r ← PT_demand_allocate ret s;
    Ok (ret, mkK r.2 (IRQ_enable irq)).

(** The loop of [MMU_alloc_pages]: [false] when a page could not be had. *)
Fixpoint alloc_pages_loop (n : nat) (k : kstate) : outcome (bool * kstate) :=
  match n with
  | O => Ok (true, k)
  | S n =>
      r ← MMU_alloc_page k;
      if r.1 =? NULL then Ok (false, r.2) else alloc_pages_loop n r.2
  end.

Definition MMU_alloc_pages (num_pages : Z) (k : kstate) : outcome (Z * kstate) :=
  if num_pages <=? 0 then Ok (NULL, k)
  else
    let k := mkK (k_vm k) (IRQ_disable (k_irq k)) in
    r ← MMU_alloc_page k;
    if r.1 =? NULL then Ok (NULL, r.2)
    else
      b ← alloc_pages_loop (Z.to_nat (num_pages - 1)) r.2;
      if negb b.1 then Ok (NULL, b.2)
      else Ok (r.1, mkK (k_vm b.2) (IRQ_enable (k_irq b.2))).

Definition MMU_free_page (vaddr : Z) (s : vm MMUState) : vm MMUState :=
  let '(addr, s) := PT_free vaddr s in
  if addr =? NULL then s
  else let '(m, st) := MMU_free_frame (v_mem s) (v_fa s) addr in
       mkVM m st (v_cr3 s) (v_log s).

(** The loops of [MMU_free_pages] and [MMU_free_stack], from page [i]. *)
Fixpoint free_pages_loop (n : nat) (i vaddr : Z) (s : vm MMUState) : vm MMUState :=
  match n with
  | O => s
  | S n => free_pages_loop n (i + 1) vaddr (MMU_free_page (u64 (vaddr + PAGE_SIZE * i)) s)
  end.

Definition MMU_free_pages (rvaddr num_pages : Z) (s : vm MMUState) : vm MMUState :=
  free_pages_loop (Z.to_nat num_pages) 0 rvaddr s.

(** The loop of [MMU_alloc_stack]. *)
Fixpoint alloc_stack_loop (n : nat) (s : vm MMUState) : outcome (vm MMUState) :=
  match n with
  | O => Ok s
  | S n =>
      r ← PT_demand_allocate (next_kernel_thread_stack_vaddr (v_fa s)) s;
      let st := v_fa r.2 in
      alloc_stack_loop n (vm_set_fa r.2
        (set_stack_next st (u64 (next_kernel_thread_stack_vaddr st - PAGE_SIZE))))
  end.

Definition MMU_alloc_stack (k : kstate) : outcome (Z * kstate) :=
  let irq := IRQ_disable (k_irq k) in
  let s := k_vm k in
  if next_kernel_thread_stack_vaddr (v_fa s) =? MMAP_KERNEL_HEAP_START then
    Ok (NULL, mkK (vm_klog KLOG_LEVEL_EMERG "out of kernel stacks virtual addresses" s) irq)
  else
    let ret := next_kernel_thread_stack_vaddr (v_fa s) in
    s ← alloc_stack_loop KERNEL_THREAD_STACK_SIZE_PAGES s;
    Ok (ret, mkK s (IRQ_enable irq)).

Definition MMU_free_stack (rvaddr : Z) (s : vm MMUState) : vm MMUState :=
  free_pages_loop KERNEL_THREAD_STACK_SIZE_PAGES 0 (u64 (rvaddr - (PAGE_SIZE - 8))) s.

(** ** The virtual address counters *)

(** The fields of [mmu_state] that the frame allocator does not touch. *)
Definition vnext (st : MMUState) : Z * Z * Z :=
  (page_table st, next_kernel_heap_vaddr st, next_kernel_thread_stack_vaddr st).

Lemma MMU_alloc_frame_vnext m st f st' : MMU_alloc_frame m st = Ok (f, st') → vnext st' = vnext st.
Proof.
  unfold MMU_alloc_frame. destruct (free_segment_head st) as [h|].
  - destruct (idx _ h) as [nd| |]; [|done..]. rewrite bind_Ok.
    destruct (upd _ _ _) as [fs| |]; [|done..]. rewrite bind_Ok. by intros [= <- <-].
  - destruct (_ =? _); by intros [= <- <-].
Qed.

Lemma MMU_free_frame_vnext m st f : vnext (MMU_free_frame m st f).2 = vnext st.
Proof. unfold MMU_free_frame. by destruct (_ =? _). Qed.

Lemma demand_loop_vnext k v ent d (s : vm MMUState) r s' :
  demand_loop k v ent d s = Ok (r, s') → vnext (v_fa s') = vnext (v_fa s).
Proof.
  revert ent d s. induction k as [|k IH]; intros ent d s; cbn [demand_loop]; [by intros [= <- <-]|].
  destruct (fa_alloc (v_mem s) (v_fa s)) as [[f st]| |] eqn:E; [|done..]. rewrite bind_Ok. cbn [fst snd].
  apply MMU_alloc_frame_vnext in E. destruct (f =? NULL).
  - intros [= <- <-]. done.
  - intros Hl. apply IH in Hl. by rewrite Hl.
Qed.

Lemma PT_demand_allocate_vnext v (s : vm MMUState) r s' :
  PT_demand_allocate v s = Ok (r, s') → vnext (v_fa s') = vnext (v_fa s).
Proof.
  unfold PT_demand_allocate. destruct (pt_walk _ _ v) as [ent d].
  destruct (_ =? _)%nat; [by intros [= <- <-]|].
  destruct (demand_loop _ _ _ _ _) as [[o s1]| |] eqn:E; [|done..]. rewrite bind_Ok. cbn [fst snd].
  apply demand_loop_vnext in E. destruct o; by intros [= <- <-].
Qed.

Lemma page_fault_vnext v (s s' : vm MMUState) :
  page_fault_handler v s = Ok s' → vnext (v_fa s') = vnext (v_fa s).
Proof.
  unfold page_fault_handler. destruct (pt_walk _ _ v) as [ent d].
  destruct (_ =? _)%nat; [by intros [= <-]|]. destruct (_ || _); [by intros [= <-]|].
  destruct (fa_alloc _ _) as [[f st]| |] eqn:E; [|done..]. rewrite bind_Ok. cbn [fst snd].
  apply MMU_alloc_frame_vnext in E. destruct (f =? NULL); by intros [= <-].
Qed.

Lemma PT_free_fa v (s : vm MMUState) : v_fa (PT_free v s).2 = v_fa s.
Proof. unfold PT_free. destruct (truth _); [done|]. by destruct (free_walk _ _ _ _ _ _). Qed.

Lemma MMU_free_page_vnext v s : vnext (v_fa (MMU_free_page v s)) = vnext (v_fa s).
Proof.
  unfold MMU_free_page. pose proof (PT_free_fa v s) as E. destruct (PT_free v s) as [f s1]. cbn in E.
  destruct (f =? NULL); [by rewrite E|].
  pose proof (MMU_free_frame_vnext (v_mem s1) (v_fa s1) f) as E1.
  destruct (MMU_free_frame _ _ _) as [m st]. cbn in *. by rewrite E1, E.
Qed.

(** The counters play no part in the invariant. *)
Definition with_vnext (st : MMUState) (pt heap stack : Z) : MMUState :=
  mkMMU (free_segments st) (free_segment_head st) (free_page_head st) (free_page_tail st) pt heap stack.

Lemma vm_rep_vnext (s : vm MMUState) A q pt heap stack log :
  vm_rep s A q → vm_rep (mkVM (v_mem s) (with_vnext (v_fa s) pt heap stack) (v_cr3 s) log) A q.
Proof. intros [H1 H2 H3 H4]. by split. Qed.

(** ** Freeing pages *)

(** Addresses of the kernel's half of the 48-bit space. *)
Lemma kernel_addr_range v : 0x8000000000 ≤ v < 0x1000000000000 → kernel_addr v.
Proof.
  intros Hv. unfold kernel_addr. rewrite off_page_of by lia. unfold page_of, PAGE_SIZE.
  cbn -[Z.div Z.modulo]. Z.to_euclidean_division_equations; lia.
Qed.

Definition unmap (pg : gmap (list Z) leaf) (v : Z) : gmap (list Z) leaf :=
  match pg !! path v 4 with
  | Some (Mapped _) => if v mod PAGE_SIZE =? 0 then delete (path v 4) pg else pg
  | _ => pg
  end.

Lemma MMU_free_page_ok v s A q :
  kernel_addr v → vm_rep s A q →
  ∃ A' q', vm_rep (MMU_free_page v s) A' q' ∧ v_cr3 (MMU_free_page v s) = v_cr3 s ∧
    owned A' ++ q' ≡ₚ owned A ++ q ∧ tabs A' = tabs A ∧ pgs A' = unmap (pgs A) v.
Proof.
  intros Hv Hr. unfold MMU_free_page.
  destruct (PT_free_ok v s A q Hv Hr) as (ret & s1 & A1 & E & Hr1 & Hc & HP & Ho & Ht & Hres).
  rewrite E. destruct (ret =? NULL) eqn:En.
  - exists A1, q. rewrite app_nil_r in HP. split; [done|]. split; [done|]. split; [by rewrite HP|].
    split; [done|]. bool_cases. subst ret. unfold unmap.
    destruct (pgs A !! path v 4) as [[|f]|] eqn:Ef; [by destruct Hres as (_ & -> & _)| |by destruct Hres as (_ & -> & _)].
    destruct (v mod PAGE_SIZE =? 0); [|by destruct Hres as (_ & -> & _)].
    destruct Hres as [Hn Hpg]. exact Hpg.
  - bool_cases. assert (Hf : ∃ f, pgs A !! path v 4 = Some (Mapped f) ∧ ret = f ∧ v mod PAGE_SIZE = 0 ∧
      pgs A1 = delete (path v 4) (pgs A)).
    { destruct (pgs A !! path v 4) as [[|f]|]; [tauto| |tauto]. exists f.
      destruct (v mod PAGE_SIZE =? 0) eqn:Em; [|tauto]. bool_cases. tauto. }
    destruct Hf as (f & Hf & -> & Hm & Hpg).
    assert (Hall : owned A1 ++ q ++ [f] ≡ₚ owned A ++ q).
    { rewrite (Permutation_app_comm q [f]), app_assoc, HP. done. }
    assert (HN : NoDup (owned A1 ++ q ++ [f])) by (rewrite Hall; apply Hr).
    assert (HF : Forall frame (owned A1 ++ q ++ [f])) by (rewrite Hall; apply Hr).
    assert (Hff : frame f ∧ f ∉ q ∧ f ∉ owned A1).
    { rewrite !Forall_app, Forall_singleton in HF. split; [apply HF|].
      apply NoDup_app in HN as (_ & Hn1 & HN). apply NoDup_app in HN as (_ & Hn2 & _).
      split; [intros Hin; by apply (Hn2 f Hin), list_elem_of_singleton|].
      intros Hin. apply (Hn1 f Hin), elem_of_app. right. by apply list_elem_of_singleton. }
    destruct Hff as (Hff & Hnq & Hno).
    destruct (MMU_free_frame_snoc (v_mem s1) (v_fa s1) q f (vr_fa _ _ _ Hr1) Hff Hnq)
      as (m' & st' & E2 & R2 & O2).
    rewrite E2. exists A1, (q ++ [f]). split; [|split; [done|split; [done|split; [done|]]]].
    + split; cbn [v_mem v_fa v_cr3]; [|done|done|done].
      eapply as_rep_stable; [exact (vr_as _ _ _ Hr1)|]. intros g a Hg Ha. apply O2.
      intros h Hh. assert (Hgo : g ∈ owned A1) by (unfold owned; apply elem_of_app; by left).
      assert (Hfg : frame g ∧ frame h ∧ g ≠ h).
      { rewrite Forall_forall in HF. apply NoDup_app in HN as (_ & Hn1 & _).
        split; [apply HF, elem_of_app; by left|]. split; [apply HF, elem_of_app; by right|].
        intros ->. by apply (Hn1 h). }
      destruct Hfg as (F1 & F2 & F3). by apply (frames_disjoint g h a).
    + unfold unmap. by rewrite Hf, Hm.
Qed.

Lemma free_pages_loop_ok n i vaddr s A q :
  vm_rep s A q → (∀ j, i ≤ j < i + Z.of_nat n → kernel_addr (u64 (vaddr + PAGE_SIZE * j))) →
  let s' := free_pages_loop n i vaddr s in
  ∃ A' q', vm_rep s' A' q' ∧ v_cr3 s' = v_cr3 s ∧ vnext (v_fa s') = vnext (v_fa s) ∧
    owned A' ++ q' ≡ₚ owned A ++ q ∧ tabs A' = tabs A ∧
    pgs A' = fold_left unmap ((fun j => u64 (vaddr + PAGE_SIZE * j)) <$> seqZ i (Z.of_nat n)) (pgs A).
Proof.
  revert i s A q. induction n as [|n IH]; intros i s A q Hr Hk; cbn [free_pages_loop].
  - exists A, q. rewrite seqZ_nil by lia. done.
  - destruct (MMU_free_page_ok (u64 (vaddr + PAGE_SIZE * i)) s A q) as (A1 & q1 & R1 & C1 & P1 & T1 & G1);
      [apply Hk; lia|done|].
    destruct (IH (i + 1) _ A1 q1 R1) as (A2 & q2 & R2 & C2 & V2 & P2 & T2 & G2); [intros; apply Hk; lia|].
    exists A2, q2. split; [done|]. split; [by rewrite C2|]. split; [by rewrite V2, MMU_free_page_vnext|].
    split; [by rewrite P2|]. split; [by rewrite T2|].
    rewrite (seqZ_cons i) by lia. cbn [fmap list_fmap fold_left]. rewrite <- G1, G2.
    by replace (Z.pred (Z.of_nat (S n))) with (Z.of_nat n) by lia.
Qed.

(** What a run of [unmap] leaves: the pages it names are not mapped, the others
    are what they were. *)
Lemma fold_unmap_lookup vs pg k :
  fold_left unmap vs pg !! k =
    if decide (Exists (fun v => path v 4 = k ∧ v mod PAGE_SIZE = 0) vs)
    then match pg !! k with Some (Mapped _) => None | o => o end
    else pg !! k.
Proof.
  revert pg. induction vs as [|v vs IH]; intros pg; cbn [fold_left].
  - rewrite decide_False; [done|]. by intros ?%Exists_nil.
  - rewrite IH. clear IH.
    assert (Hu : unmap pg v !! k = if decide (path v 4 = k ∧ v mod PAGE_SIZE = 0)
      then match pg !! k with Some (Mapped _) => None | o => o end else pg !! k).
    { unfold unmap. case_decide as Hd.
      - destruct Hd as [<- Hm]. rewrite Hm. cbn [Z.eqb]. destruct (pg !! path v 4) as [[|f]|] eqn:E;
          [by rewrite E| |by rewrite E]. apply lookup_delete_eq.
      - destruct (pg !! path v 4) as [[|f]|]; [done| |done].
        destruct (v mod PAGE_SIZE =? 0) eqn:Em; [|done]. bool_cases.
        rewrite lookup_delete_ne; [done|]. intros E. by apply Hd. }
    rewrite Hu. rewrite (decide_ext _ _ _ _ (Exists_cons _ v vs)).
    repeat case_decide; try done; [by destruct (pg !! k) as [[|]|]|tauto..].
Qed.

(** ** Allocating heap pages *)

Definition heap_next (k : kstate) : Z := next_kernel_heap_vaddr (v_fa (k_vm k)).
Definition stack_next (k : kstate) : Z := next_kernel_thread_stack_vaddr (v_fa (k_vm k)).

(** The whole state: an address space, the free frames, interrupts nested [n]
    deep, and a heap pointer inside the heap region. *)
Record k_rep (k : kstate) (A : aspace) (q : list Z) (n : nat) : Prop := {
  kr_vm : vm_rep (k_vm k) A q;
  kr_irq : irq_at n (k_irq k)
}.

Definition in_heap (h : Z) : Prop :=
  MMAP_KERNEL_HEAP_START ≤ h < MMAP_KERNEL_HEAP_END ∧ h mod PAGE_SIZE = 0.

Lemma in_heap_kernel h v : in_heap h → h ≤ v < MMAP_KERNEL_HEAP_END → kernel_addr v.
Proof.
  intros [Hh _] Hv. apply kernel_addr_range.
  unfold MMAP_KERNEL_HEAP_START, MMAP_KERNEL_HEAP_END, P4_PTE_ADDRESSES in *. lia.
Qed.

Lemma MMU_alloc_page_ok k A q n h :
  k_rep k A q n → heap_next k = h → in_heap h → Z.of_nat n < 4294967295 →
  ∃ k' A' q', MMU_alloc_page k = Ok (h, k') ∧ k_rep k' A' q' n ∧
    heap_next k' = h + PAGE_SIZE ∧ stack_next k' = stack_next k ∧
    v_cr3 (k_vm k') = v_cr3 (k_vm k) ∧ owned A' ++ q' ≡ₚ owned A ++ q ∧
    (if is_mapped A h then pgs A' = pgs A ∧ q' = q
     else if (missing A h <=? length q)%nat
     then pgs A' = <[path h 4 := Demand]> (pgs A) ∧ q' = drop (missing A h) q
     else pgs A' = pgs A ∧ q' = []).
Proof.
  intros [Hr Hi] Hh Hin Hn. unfold MMU_alloc_page. unfold heap_next in Hh. rewrite Hh.
  pose proof Hin as [Hrange _].
  rewrite (proj2 (Z.eqb_neq h _)) by (unfold MMAP_KERNEL_HEAP_END in *; lia).
  set (s1 := vm_set_fa (k_vm k) (set_heap_next (v_fa (k_vm k)) (u64 (h + PAGE_SIZE)))).
  assert (Hr1 : vm_rep s1 A q) by (by apply vm_rep_vnext).
  destruct (PT_demand_allocate_ok h s1 A q) as (ret & s' & A' & q' & E & R' & C' & P' & _ & Hres);
    [eapply in_heap_kernel; [done|lia]|done|].
  rewrite E, bind_Ok. cbn [snd].
  destruct (IRQ_disable_at n (k_irq k) Hi Hn) as (I1 & _).
  destruct (IRQ_enable_at (S n) _ I1) as (I2 & _); [lia|].
  pose proof (PT_demand_allocate_vnext _ _ _ _ E) as Hv.
  unfold s1, vnext in Hv. cbn in Hv. injection Hv as _ Hv1 Hv2.
  exists (mkK s' (IRQ_enable (IRQ_disable (k_irq k)))), A', q'.
  split; [done|]. split; [by split|]. unfold heap_next, stack_next. cbn [k_vm].
  split. { rewrite Hv1. apply u64_small. unfold MMAP_KERNEL_HEAP_START, MMAP_KERNEL_HEAP_END, P4_PTE_ADDRESSES, PAGE_SIZE in *. lia. }
  split; [done|]. split; [by rewrite C'|]. split; [done|].
  destruct (is_mapped A h); [tauto|]. destruct (_ <=? _)%nat; tauto.
Qed.

(** Consecutive pages marked for demand allocation. *)
Definition demand_pages (h : Z) (n : nat) (pg : gmap (list Z) leaf) : gmap (list Z) leaf :=
  fold_left (fun pg v => <[path v 4 := Demand]> pg) (pages_from h n) pg.

(** Every heap page from [h] on is untouched. *)
Definition heap_fresh (A : aspace) (h : Z) : Prop :=
  ∀ v, h ≤ v < MMAP_KERNEL_HEAP_END → pgs A !! path v 4 = None.

Lemma missing_le A v : (missing A v ≤ 3)%nat.
Proof.
  unfold missing. etransitivity; [apply length_filter|]. done.
Qed.

Lemma heap_page_ne h v : in_heap h → h + PAGE_SIZE ≤ v < MMAP_KERNEL_HEAP_END → path v 4 ≠ path h 4.
Proof.
  intros [H1 H2] Hv E. apply path_page_of in E. revert E. unfold page_of, PAGE_SIZE in *.
  unfold MMAP_KERNEL_HEAP_START, MMAP_KERNEL_HEAP_END, P4_PTE_ADDRESSES in *.
  change (2 ^ 36) with 68719476736. Z.to_euclidean_division_equations; lia.
Qed.

Lemma alloc_page_fresh k A q n h :
  k_rep k A q n → heap_next k = h → in_heap h → Z.of_nat n < 4294967295 →
  heap_fresh A h → (3 ≤ length q)%nat →
  ∃ k' A' q', MMU_alloc_page k = Ok (h, k') ∧ k_rep k' A' q' n ∧
    heap_next k' = h + PAGE_SIZE ∧ stack_next k' = stack_next k ∧
    v_cr3 (k_vm k') = v_cr3 (k_vm k) ∧ owned A' ++ q' ≡ₚ owned A ++ q ∧
    pgs A' = <[path h 4 := Demand]> (pgs A) ∧ (length q ≤ length q' + 3)%nat ∧
    heap_fresh A' (h + PAGE_SIZE).
Proof.
  intros Hr Hh Hin Hn Hf Hq.
  destruct (MMU_alloc_page_ok k A q n h Hr Hh Hin Hn) as (k' & A' & q' & E & R & H1 & H2 & H3 & HP & Hres).
  assert (Hm : is_mapped A h = false).
  { unfold is_mapped. rewrite Hf; [done|]. destruct Hin. lia. }
  rewrite Hm in Hres. pose proof (missing_le A h).
  rewrite (proj2 (Nat.leb_le _ _)) in Hres by lia. destruct Hres as [Hpg ->].
  exists k', A', (drop (missing A h) q). do 6 (split; [done|]). split; [done|].
  rewrite length_drop. split; [lia|]. intros v Hv. rewrite Hpg, lookup_insert_ne.
  - apply Hf. unfold PAGE_SIZE in Hv. lia.
  - intros E'. by apply (heap_page_ne h v Hin Hv).
Qed.

Lemma alloc_pages_loop_ok j k A q n h :
  k_rep k A q n → heap_next k = h → h mod PAGE_SIZE = 0 → MMAP_KERNEL_HEAP_START ≤ h →
  h + PAGE_SIZE * Z.of_nat j ≤ MMAP_KERNEL_HEAP_END → Z.of_nat n < 4294967295 →
  heap_fresh A h → (3 * j ≤ length q)%nat →
  ∃ k' A' q', alloc_pages_loop j k = Ok (true, k') ∧ k_rep k' A' q' n ∧
    heap_next k' = h + PAGE_SIZE * Z.of_nat j ∧ stack_next k' = stack_next k ∧
    v_cr3 (k_vm k') = v_cr3 (k_vm k) ∧ owned A' ++ q' ≡ₚ owned A ++ q ∧
    pgs A' = demand_pages h j (pgs A) ∧ (length q ≤ length q' + 3 * j)%nat ∧
    heap_fresh A' (h + PAGE_SIZE * Z.of_nat j).
Proof.
  revert k A q h. induction j as [|j IH]; intros k A q h Hr Hh Ha Hlo Hhi Hn Hf Hq; cbn [alloc_pages_loop].
  - exists k, A, q. rewrite Z.mul_0_r, Z.add_0_r. do 6 (split; [done|]). split; [done|]. split; [lia|done].
  - assert (Hin : in_heap h) by (split; [unfold PAGE_SIZE in *; lia|done]).
    destruct (alloc_page_fresh k A q n h Hr Hh Hin Hn Hf ltac:(lia))
      as (k1 & A1 & q1 & E1 & R1 & H1 & H2 & H3 & P1 & G1 & L1 & F1).
    rewrite E1, bind_Ok. cbn [fst snd].
    rewrite (proj2 (Z.eqb_neq h NULL)) by (unfold NULL, MMAP_KERNEL_HEAP_START, P4_PTE_ADDRESSES in *; lia).
    destruct (IH k1 A1 q1 (h + PAGE_SIZE)) as (k2 & A2 & q2 & E2 & R2 & N2 & S2 & C2 & P2 & G2 & L2 & F2);
      try done; [unfold PAGE_SIZE in *; word_lia|unfold PAGE_SIZE in *; lia..|lia|].
    replace (h + PAGE_SIZE * Z.of_nat (S j)) with (h + PAGE_SIZE + PAGE_SIZE * Z.of_nat j) by lia.
    exists k2, A2, q2. split; [done|]. split; [done|]. split; [done|]. split; [by rewrite S2|].
    split; [by rewrite C2|]. split; [by rewrite P2|]. split; [by rewrite G2, G1|]. split; [lia|done].
Qed.

Lemma MMU_alloc_pages_ok k A q n h np :
  k_rep k A q n → heap_next k = h → h mod PAGE_SIZE = 0 → MMAP_KERNEL_HEAP_START ≤ h →
  0 < np → h + PAGE_SIZE * np ≤ MMAP_KERNEL_HEAP_END → Z.of_nat n < 4294967294 →
  heap_fresh A h → 3 * np ≤ Z.of_nat (length q) →
  ∃ k' A' q', MMU_alloc_pages np k = Ok (h, k') ∧ k_rep k' A' q' n ∧
    heap_next k' = h + PAGE_SIZE * np ∧ stack_next k' = stack_next k ∧
    v_cr3 (k_vm k') = v_cr3 (k_vm k) ∧ owned A' ++ q' ≡ₚ owned A ++ q ∧
    pgs A' = demand_pages h (Z.to_nat np) (pgs A) ∧ heap_fresh A' (h + PAGE_SIZE * np) ∧
    Z.of_nat (length q) ≤ Z.of_nat (length q') + 3 * np.
Proof.
  intros [Hr Hi] Hh Ha Hlo Hnp Hhi Hn Hf Hq. unfold MMU_alloc_pages.
  rewrite (proj2 (Z.leb_gt np 0)) by lia.
  destruct (IRQ_disable_at n (k_irq k) Hi ltac:(lia)) as (I1 & _).
  set (k0 := mkK (k_vm k) (IRQ_disable (k_irq k))).
  assert (Hr0 : k_rep k0 A q (S n)) by (by split).
  assert (Hin : in_heap h) by (split; [unfold PAGE_SIZE in *; lia|done]).
  destruct (alloc_page_fresh k0 A q (S n) h Hr0 Hh Hin ltac:(lia) Hf ltac:(lia))
    as (k1 & A1 & q1 & E1 & R1 & N1 & S1 & C1 & P1 & G1 & L1 & F1).
  rewrite E1, bind_Ok. cbn [fst snd].
  rewrite (proj2 (Z.eqb_neq h NULL)) by (unfold NULL, MMAP_KERNEL_HEAP_START, P4_PTE_ADDRESSES in *; lia).
  destruct (alloc_pages_loop_ok (Z.to_nat (np - 1)) k1 A1 q1 (S n) (h + PAGE_SIZE))
    as (k2 & A2 & q2 & E2 & R2 & N2 & S2 & C2 & P2 & G2 & L2 & F2); try done;
    [unfold PAGE_SIZE in *; word_lia|unfold PAGE_SIZE in *; lia..|lia|].
  rewrite E2, bind_Ok. cbn [fst snd negb].
  destruct R2 as [R2 I2]. destruct (IRQ_enable_at (S n) _ I2 ltac:(lia)) as (I3 & _).
  rewrite Z2Nat.id in * by lia.
  replace (h + PAGE_SIZE + PAGE_SIZE * (np - 1)) with (h + PAGE_SIZE * np) in * by lia.
  eexists _, A2, q2. split; [done|]. split; [by split|]. split; [done|]. split; [exact (eq_trans S2 S1)|].
  split; [exact (eq_trans C2 C1)|]. split; [by rewrite P2|]. split; [|split; [done|lia]].
  rewrite G2, G1. replace (Z.to_nat np) with (S (Z.to_nat (np - 1))) by lia. done.
Qed.

Lemma demand_pages_lookup h n pg k :
  demand_pages h n pg !! k =
    if decide (Exists (fun v => path v 4 = k) (pages_from h n)) then Some Demand else pg !! k.
Proof.
  unfold demand_pages. generalize (pages_from h n). intros vs. revert pg.
  induction vs as [|v vs IH]; intros pg; cbn [fold_left].
  - rewrite decide_False; [done|]. by intros ?%Exists_nil.
  - rewrite IH. rewrite (decide_ext _ _ _ _ (Exists_cons _ v vs)).
    repeat case_decide; try done; try tauto.
    + destruct H0 as [<-|]; [|done]. apply lookup_insert_eq.
    + rewrite lookup_insert_ne; [done|]. intros <-. apply H0. by left.
Qed.

(** [MMU_alloc_pages] with enough frames and addresses returns the next
    heap address, moves the heap pointer past the [np] pages, and marks each of
    them for demand allocation: none translates yet, no other page changes,
    interrupts are as before the call, and no frame is lost. *)
Theorem MMU_alloc_pages_reserves (k : kstate) (A : aspace) (q : list Z) (n : nat) (np : Z) :
  let h := heap_next k in
  k_rep k A q n → h mod PAGE_SIZE = 0 → MMAP_KERNEL_HEAP_START ≤ h →
  0 < np → h + PAGE_SIZE * np ≤ MMAP_KERNEL_HEAP_END → Z.of_nat n < 4294967294 →
  heap_fresh A h → 3 * np ≤ Z.of_nat (length q) →
  ∃ k' A' q', MMU_alloc_pages np k = Ok (h, k') ∧ k_rep k' A' q' n ∧
    heap_next k' = h + PAGE_SIZE * np ∧ owned A' ++ q' ≡ₚ owned A ++ q ∧
    (∀ v, h ≤ v < h + PAGE_SIZE * np → pgs A' !! path v 4 = Some Demand) ∧
    (∀ v, kernel_addr v →
       translate (v_mem (k_vm k')) (v_cr3 (k_vm k')) v = translate (v_mem (k_vm k)) (v_cr3 (k_vm k)) v).
Proof.
  intros h Hr Ha Hlo Hnp Hhi Hn Hf Hq.
  destruct (MMU_alloc_pages_ok k A q n h np) as (k' & A' & q' & E & R & N & _ & C & P & G & _ & _); try done.
  exists k', A', q'. do 4 (split; [done|]). split.
  - intros v Hv. rewrite G, demand_pages_lookup, decide_True; [done|].
    apply Exists_exists. exists (h + PAGE_SIZE * ((v - h) / PAGE_SIZE)). split.
    + apply elem_of_pages_from. exists (Z.to_nat ((v - h) / PAGE_SIZE)). unfold PAGE_SIZE in *. word_lia.
    + apply path_page_of. unfold page_of. f_equal. unfold PAGE_SIZE in *. word_lia.
  - intros v Hv. rewrite (translate_ok _ _ _ (vr_as _ _ _ (kr_vm _ _ _ _ R))) by done.
    rewrite (translate_ok _ _ _ (vr_as _ _ _ (kr_vm _ _ _ _ Hr))) by done.
    unfold page_view. rewrite G, demand_pages_lookup. case_decide as Hd; [|done].
    apply Exists_exists in Hd as (w & Hw & <-). apply elem_of_pages_from in Hw as (j & Hj & ->).
    rewrite Hf; [done|]. unfold PAGE_SIZE in *. lia.
Qed.

(** ** Touching and freeing pages *)

(** The page faults that accesses to the addresses [vs] raise, in order. *)
Fixpoint touch (vs : list Z) (s : vm MMUState) : outcome (vm MMUState) :=
  match vs with
  | [] => Ok s
  | v :: vs => s ← page_fault_handler v s; touch vs s
  end.

Lemma touch_ok vs s A q :
  Forall kernel_addr vs → vm_rep s A q →
  ∃ s' A' q', touch vs s = Ok s' ∧ vm_rep s' A' q' ∧ v_cr3 s' = v_cr3 s ∧
    owned A' ++ q' ≡ₚ owned A ++ q ∧
    (∀ p, Forall (fun v => path v 4 ≠ p) vs → pgs A' !! p = pgs A !! p).
Proof.
  revert s A q. induction vs as [|v vs IH]; intros s A q Hk Hr; cbn [touch]; [by exists s, A, q|].
  apply Forall_cons in Hk as [Hv Hk].
  destruct (page_fault_handler_ok v s A q Hv Hr) as (s1 & A1 & q1 & E1 & R1 & C1 & P1 & _ & G1).
  destruct (IH s1 A1 q1 Hk R1) as (s2 & A2 & q2 & E2 & R2 & C2 & P2 & G2).
  exists s2, A2, q2. rewrite E1, bind_Ok. split; [done|]. split; [done|]. split; [by rewrite C2|].
  split; [by rewrite P2|]. intros p [Hne Hp]%Forall_cons. rewrite G2 by done.
  destruct (pgs A !! path v 4) as [[|]|]; [destruct q|..]; [by destruct G1 as [-> _]|
    destruct G1 as [-> _]; by rewrite lookup_insert_ne|by destruct G1 as [-> _]..].
Qed.

Lemma page_covering h np v :
  0 ≤ h → h + PAGE_SIZE * np ≤ 0x1000000000000 → 0 ≤ np → h mod PAGE_SIZE = 0 →
  h ≤ v < h + PAGE_SIZE * np →
  (∃ j, 0 ≤ j < np ∧ path (h + PAGE_SIZE * j) 4 = path v 4).
Proof.
  intros Hh Hhi Hnp Ha Hv. exists ((v - h) / PAGE_SIZE). split; [unfold PAGE_SIZE in *; word_lia|].
  apply path_page_of. unfold page_of. f_equal. unfold PAGE_SIZE in *. word_lia.
Qed.


(** When the heap's addresses are used up, [MMU_alloc_page] returns NULL
    with interrupts one level deeper than at the call, so they stay disabled. *)
Theorem MMU_alloc_page_exhausted (k : kstate) (n : nat) :
  heap_next k = MMAP_KERNEL_HEAP_END → irq_at n (k_irq k) → Z.of_nat n < 4294967295 →
  ∃ k', MMU_alloc_page k = Ok (NULL, k') ∧ irq_at (S n) (k_irq k') ∧ iflag (k_irq k') = false ∧
    v_mem (k_vm k') = v_mem (k_vm k).
Proof.
  intros Hh Hi Hn. unfold MMU_alloc_page. unfold heap_next in Hh. rewrite Hh, Z.eqb_refl.
  destruct (IRQ_disable_at n (k_irq k) Hi Hn) as (I1 & _). eexists. split; [done|].
  split; [done|]. split; [|done]. destruct I1 as [_ I1]. cbn [k_irq]. rewrite I1. by apply bool_decide_false.
Qed.

Lemma MMU_alloc_page_exhausted_witness :
  ∃ k', MMU_alloc_page (mkK (mkVM ∅ (mkMMU [] None 0 0 0 MMAP_KERNEL_HEAP_END 0) 0x1000 [])
      (mkIrqs [] 0 true [])) = Ok (NULL, k') ∧ iflag (k_irq k') = false.
Proof.
  destruct (MMU_alloc_page_exhausted (mkK (mkVM ∅ (mkMMU [] None 0 0 0 MMAP_KERNEL_HEAP_END 0) 0x1000 [])
      (mkIrqs [] 0 true [])) 0) as (k' & H1 & _ & H2 & _); [done|by split|done|].
  exists k'. by split.
Defined.

(** Witnesses for the two properties of heap pages. *)
Definition demo_k : kstate :=
  mkK (mkVM ∅ (with_vnext demo_frames 0x1000 MMAP_KERNEL_HEAP_START (MMAP_KERNEL_STACKS_END - 8))
         0x1000 []) (mkIrqs [] 0 true []).

Lemma demo_k_rep : k_rep demo_k demo_root demo_queue 0.
Proof. split; [apply (vm_rep_vnext demo_vm), demo_vm_rep|by split]. Qed.

Lemma MMU_alloc_pages_reserves_witness :
  ∃ k', MMU_alloc_pages 2 demo_k = Ok (0xF0000000000, k') ∧ heap_next k' = 0xF0000002000.
Proof.
  destruct (MMU_alloc_pages_reserves demo_k demo_root demo_queue 0 2)
    as (k' & A' & q' & H1 & _ & H2 & _); [exact demo_k_rep|done|done|lia|done|lia| |done|].
  - intros v _. apply lookup_empty.
  - exists k'. by split.
Defined.


(** ** Stacks *)

(** A stack pointer that [MMU_alloc_stack] hands out: eight bytes below a page
    boundary. *)
Definition stack_top (a : Z) : Prop :=
  a mod PAGE_SIZE = PAGE_SIZE - 8 ∧ 0x8000010000 ≤ a < 0xFF0000000000.

Lemma alloc_stack_loop_ok j s A q a :
  vm_rep s A q → next_kernel_thread_stack_vaddr (v_fa s) = a →
  0x8000000000 + PAGE_SIZE * Z.of_nat j ≤ a < 0xFF0000000000 →
  ∃ s' A' q', alloc_stack_loop j s = Ok s' ∧ vm_rep s' A' q' ∧ v_cr3 s' = v_cr3 s ∧
    next_kernel_thread_stack_vaddr (v_fa s') = a - PAGE_SIZE * Z.of_nat j ∧
    owned A' ++ q' ≡ₚ owned A ++ q.
Proof.
  revert s A q a. induction j as [|j IH]; intros s A q a Hr Ha Hb; cbn [alloc_stack_loop].
  - exists s, A, q. do 3 (split; [done|]). split; [lia|done].
  - rewrite Ha.
    destruct (PT_demand_allocate_ok a s A q) as (ret & s1 & A1 & q1 & E & R1 & C1 & P1 & _);
      [apply kernel_addr_range; unfold PAGE_SIZE in *; lia|done|].
    rewrite E, bind_Ok. cbn [snd]. pose proof (PT_demand_allocate_vnext _ _ _ _ E) as Hv.
    unfold vnext in Hv. injection Hv as _ _ Hv.
    set (s2 := vm_set_fa s1 _). assert (R2 : vm_rep s2 A1 q1) by (by apply vm_rep_vnext).
    destruct (IH s2 A1 q1 (a - PAGE_SIZE) R2) as (s3 & A3 & q3 & E3 & R3 & C3 & N3 & P3).
    + unfold s2. cbn. rewrite Hv, Ha. apply u64_small. unfold PAGE_SIZE in *. lia.
    + unfold PAGE_SIZE in *. lia.
    + exists s3, A3, q3. split; [done|]. split; [done|]. split; [by rewrite C3|]. split; [rewrite N3; lia|].
      by rewrite P3.
Qed.

(** [MMU_alloc_stack] never reports that it is out of addresses: its guard
    compares the stack pointer with the (page-aligned) start of the heap, which
    the pointer, eight bytes below a page boundary, never equals; so it returns
    the pointer and moves it down by ten pages even when it has left the region
    [MMAP_KERNEL_STACKS_START, MMAP_KERNEL_STACKS_END). *)
Theorem MMU_alloc_stack_never_exhausted (k : kstate) (A : aspace) (q : list Z) (n : nat) :
  k_rep k A q n → stack_top (stack_next k) → Z.of_nat n < 4294967295 →
  ∃ k' A' q', MMU_alloc_stack k = Ok (stack_next k, k') ∧ k_rep k' A' q' n ∧
    stack_next k' = stack_next k - 10 * PAGE_SIZE ∧ owned A' ++ q' ≡ₚ owned A ++ q.
Proof.
  intros [Hr Hi] [Ht Hb] Hn. unfold MMU_alloc_stack. unfold stack_next in *.
  rewrite (proj2 (Z.eqb_neq _ MMAP_KERNEL_HEAP_START)).
  2: { intros E. rewrite E in Ht. vm_compute in Ht. congruence. }
  destruct (alloc_stack_loop_ok 10 (k_vm k) A q _ Hr eq_refl) as (s' & A' & q' & E & R' & C' & N' & P').
  { unfold PAGE_SIZE in *. lia. }
  unfold KERNEL_THREAD_STACK_SIZE_PAGES. rewrite E, bind_Ok.
  destruct (IRQ_disable_at n (k_irq k) Hi Hn) as (I1 & _).
  destruct (IRQ_enable_at (S n) _ I1) as (I2 & _); [lia|].
  eexists _, A', q'. split; [done|]. split; [by split|]. split; [|done]. cbn [k_vm]. rewrite N'.
  unfold PAGE_SIZE. lia.
Qed.

Lemma MMU_alloc_stack_never_exhausted_witness :
  let k := mkK (mkVM ∅ (with_vnext demo_frames 0x1000 0 (MMAP_KERNEL_STACKS_START - 8)) 0x1000 [])
             (mkIrqs [] 0 true []) in
  ∃ k', MMU_alloc_stack k = Ok (MMAP_KERNEL_STACKS_START - 8, k') ∧
    stack_next k' < MMAP_KERNEL_STACKS_START - 8.
Proof.
  cbv zeta.
  destruct (MMU_alloc_stack_never_exhausted
    (mkK (mkVM ∅ (with_vnext demo_frames 0x1000 0 (MMAP_KERNEL_STACKS_START - 8)) 0x1000 [])
       (mkIrqs [] 0 true [])) demo_root demo_queue 0) as (k' & A' & q' & H1 & _ & H2 & _).
  - split; [apply (vm_rep_vnext demo_vm), demo_vm_rep|by split].
  - vm_compute. repeat split; congruence.
  - done.
  - exists k'. split; [exact H1|]. rewrite H2. vm_compute. reflexivity.
Defined.

(** [MMU_free_stack] frees the wrong pages.  Given the pointer [top] that
    [MMU_alloc_stack] returned, whose pages extend DOWN from it, it unmaps the
    ten pages from the page of [top] UP: of the stack's own ten pages only the
    topmost is unmapped, the other nine keep their frames, and the nine pages
    above, which belong to other stacks, translate to nothing afterwards. *)
Theorem MMU_free_stack_wrong_direction (s : vm MMUState) (A : aspace) (q : list Z) (top v : Z) :
  vm_rep s A q → stack_top top →
  let base := top - (PAGE_SIZE - 8) in
  let s' := MMU_free_stack top s in
  (base ≤ v < base + 10 * PAGE_SIZE → translate (v_mem s') (v_cr3 s') v = None) ∧
  (base - 9 * PAGE_SIZE ≤ v < base →
     translate (v_mem s') (v_cr3 s') v = translate (v_mem s) (v_cr3 s) v).
Proof.
  intros Hr [Ht Hb] base s'.
  assert (Hbase : base mod PAGE_SIZE = 0) by (unfold base, PAGE_SIZE in *; word_lia).
  assert (Hu : u64 (top - (PAGE_SIZE - 8)) = base) by (unfold base; apply u64_small; unfold PAGE_SIZE; lia).
  destruct (free_pages_loop_ok 10 0 base s A q Hr) as (A' & q' & R' & C' & _ & _ & _ & G').
  { intros j Hj. rewrite u64_small by (unfold base, PAGE_SIZE in *; lia).
    apply kernel_addr_range. unfold base, PAGE_SIZE in *. lia. }
  unfold s', MMU_free_stack, KERNEL_THREAD_STACK_SIZE_PAGES in *. rewrite Hu. clear s'.
  set (s' := free_pages_loop 10 0 base s) in *.
  split; intros Hv; (assert (Hk : kernel_addr v) by
    (apply kernel_addr_range; unfold base, PAGE_SIZE in *; lia)).
  - rewrite (translate_ok _ _ _ (vr_as _ _ _ R')) by done. unfold page_view.
    rewrite G', fold_unmap_lookup, decide_True.
    + by destruct (pgs A !! path v 4) as [[|]|].
    + apply Exists_exists. destruct (page_covering base 10 v) as (j & Hj & Ej);
        try (unfold base, PAGE_SIZE in *; lia).
      exists (base + PAGE_SIZE * j). split; [|split; [done|unfold PAGE_SIZE in *; word_lia]].
      apply list_elem_of_fmap. exists j.
      split; [by rewrite u64_small by (unfold base, PAGE_SIZE in *; lia)|]. apply elem_of_seqZ. lia.
  - rewrite (translate_ok _ _ _ (vr_as _ _ _ R')), (translate_ok _ _ _ (vr_as _ _ _ Hr)) by done.
    unfold page_view. rewrite G', fold_unmap_lookup, decide_False; [done|].
    intros (x & (j & -> & Hj)%list_elem_of_fmap & Ex & _)%Exists_exists. apply elem_of_seqZ in Hj.
    rewrite u64_small in Ex by (unfold base, PAGE_SIZE in *; lia). apply path_page_of in Ex. revert Ex.
    unfold page_of. change (2 ^ 36) with 68719476736. clearbody base. unfold PAGE_SIZE in *.
    Z.to_euclidean_division_equations; lia.
Qed.

Lemma MMU_free_stack_wrong_direction_witness :
  let s := MMU_free_stack (MMAP_KERNEL_STACKS_END - 8) demo_vm in
  translate (v_mem s) (v_cr3 s) MMAP_KERNEL_STACKS_END = None.
Proof.
  cbv zeta.
  destruct (MMU_free_stack_wrong_direction demo_vm demo_root demo_queue (MMAP_KERNEL_STACKS_END - 8)
    MMAP_KERNEL_STACKS_END) as [H _].
  - exact demo_vm_rep.
  - vm_compute. repeat split; congruence.
  - apply H. unfold MMAP_KERNEL_STACKS_END, P4_PTE_ADDRESSES, PAGE_SIZE. lia.
Defined.

(** ** Initialisation *)

(** A boot memory map on which [MMU_init] is meant to work: RAM regions sorted,
    apart and below 2^40, each with a whole page, kernel sections sorted and
    within one run of pages [E], and no region that starts inside [E] ending
    inside it. *)
Record boot_map_ok (map : PhysicalMMap) (E : Segment) : Prop := {
  bm_ram : (0 < num_mmap map ≤ length (ram_sects map))%nat;
  bm_ram_max : (num_mmap map < MAX_FREE_SEGMENTS)%nat;
  bm_ram_ok : Forall ram_ok (take (num_mmap map) (ram_sects map));
  bm_ram_low : Forall (fun r => ram_hi r ≤ 1099511627776) (take (num_mmap map) (ram_sects map));
  bm_ram_sorted : StronglySorted ram_before (take (num_mmap map) (ram_sects map));
  bm_ks : (0 < num_kernel_sects map ≤ length (kernel_sects map))%nat;
  bm_ks_max : (num_kernel_sects map ≤ MAX_EXCLUDE_SEGMENTS)%nat;
  bm_ks_ok : Forall ks_fits (take (num_kernel_sects map) (kernel_sects map));
  bm_ks_sorted : StronglySorted ks_base_le (take (num_kernel_sects map) (kernel_sects map));
  bm_one : excluded_of (take (num_kernel_sects map) (kernel_sects map)) = [E];
  bm_fits : seg_fits E;
  bm_not_inside : Forall (fun r => s_base E ≤ ram_lo r < s_end E → s_end E < ram_hi r)
                    (take (num_mmap map) (ram_sects map))
}.

(** [a] is the address of a page of RAM that the kernel may use. *)
Definition usable_page (map : PhysicalMMap) (E : Segment) (a : Z) : Prop :=
  a mod PAGE_SIZE = 0 ∧ PAGE_SIZE ≤ a ∧ ¬ (s_base E ≤ a < s_end E) ∧
  Exists (fun r => ram_lo r ≤ a < ram_hi r) (take (num_mmap map) (ram_sects map)).

Lemma MMU_alloc_frame_mem m m' st : free_page_head st = NULL → MMU_alloc_frame m st = MMU_alloc_frame m' st.
Proof. intros E. unfold MMU_alloc_frame. destruct (free_segment_head st); [done|]. by rewrite E. Qed.

Lemma excluded_aligned map E : boot_map_ok map E → page_aligned E.
Proof.
  intros B. destruct (excluded_rounded map (bm_ks_ok _ _ B) (bm_ks_sorted _ _ B)) as (Hal & _ & _).
  pose proof (bm_one _ _ B) as H1. unfold excluded_of in H1.
  destruct ((round_excluded ∘ seg_of_ks) <$> take _ _) as [|p l]; [done|].
  apply merge_segs_aligned in Hal. rewrite H1 in Hal. by inversion_clear Hal.
Qed.

(** The free frames after the segments are computed, for any memory. *)
Lemma init_frames fuel map stack E :
  boot_map_ok map E → (num_kernel_sects map ≤ length stack)%nat →
  (num_kernel_sects map ≤ fuel)%nat → (num_mmap map ≤ fuel)%nat →
  ∃ ex fs hd q, mmu_compute_excluded fuel map stack = Ok ex ∧
    mmu_compute_free_segments fuel (replicate MAX_FREE_SEGMENTS zero_node) map ex = Ok (fs, hd) ∧
    (∀ m pt heap stk, frames_rep m (mkMMU fs hd NULL NULL pt heap stk) q) ∧
    (∀ a, a ∈ q ↔ usable_page map E a).
Proof.
  intros B Hst Hf1 Hf2. pose proof (excluded_aligned _ _ B) as Hal. destruct B.
  destruct (mmu_compute_excluded_list fuel map stack) as (ex & l & E1 & Hs & Hl); [done..|].
  rewrite bm_one0 in Hl. destruct l as [|[i s] [|? ?]]; try done. cbn in Hl. injection Hl as ->.
  destruct Hs as [[= <-] (nx & Hn & Hs)]. cbn in Hs. subst nx.
  destruct (free_segments_list fuel map bm_ram0 bm_ram_max0 Hf2 bm_ram_ok0 bm_ram_sorted0 ex E Hn Hal
    bm_fits0 bm_not_inside0) as (fs & hd & l & E2 & Hsl & _ & Hok & Hso & Hcov).
  assert (Hc : ∀ a, covers l.*2 a ↔ Exists (fun r => ram_lo r ≤ a < ram_hi r) (take (num_mmap map) (ram_sects map))
                 ∧ ¬ (s_base E ≤ a < s_end E) ∧ PAGE_SIZE ≤ a).
  { intros a. rewrite Hcov. unfold covers. rewrite Exists_fmap, !Exists_exists.
    split; intros [(r & Hin & Hr) Ha]; (split; [|done]); exists r; (split; [done|]);
      revert Hr; unfold ram_seg; cbn; lia. }
  exists ex, fs, hd, (seg_pages l.*2). split; [done|]. split; [done|]. split.
  - intros m pt heap stk. apply (frames_rep_init m (mkMMU fs hd NULL NULL pt heap stk) l); try done.
    intros a Ha. apply Hc in Ha as (Hr & _ & Ha). apply Exists_exists in Hr as (r & Hin & Hr).
    rewrite Forall_forall in bm_ram_low0. specialize (bm_ram_low0 r Hin). unfold PAGE_SIZE in Ha. lia.
  - intros a. rewrite elem_of_seg_pages by done. rewrite Hc. unfold usable_page. tauto.
Qed.

Lemma MMU_init_ok (fuel : nat) (p3 p2 h : Z) (map : PhysicalMMap) (stack : list SegmentList)
    (k : kstate) (E : Segment) :
  boot_map_ok map E → (∃ a, usable_page map E a) →
  (num_kernel_sects map ≤ length stack)%nat →
  (num_kernel_sects map ≤ fuel)%nat → (num_mmap map ≤ fuel)%nat →
  p3 mod PAGE_SIZE = 0 → p2 mod PAGE_SIZE = 0 → p2 ≠ p3 →
  s_base E ≤ p3 < s_end E → s_base E ≤ p2 < s_end E → s_end E ≤ 2 ^ 52 →
  length (handlers (k_irq k)) = 256%nat →
  ∃ k' f q, MMU_init fuel p3 p2 h map stack k = Ok (0, k') ∧
    vm_rep (k_vm k') (mkAS {[ [] := f ]} ∅) q ∧
    (∀ a, a ∈ f :: q ↔ usable_page map E a) ∧
    heap_next k' = MMAP_KERNEL_HEAP_START ∧ stack_next k' = MMAP_KERNEL_STACKS_END - 8 ∧
    (∀ v, 0 ≤ v < 2 ^ 48 → translate (v_mem (k_vm k')) (v_cr3 (k_vm k')) v =
                            if v <? 0x40000000 then Some v else None) ∧
    handlers (k_irq k') !! 14%nat = Some (h, NULL).
Proof.
  intros B [a Ha] Hst Hf1 Hf2 A3 A2 Hne I3 I2 H52 Hh.
  destruct (init_frames fuel map stack E B Hst Hf1 Hf2) as (ex & fs & hd & q & E1 & E2 & Hrep & Hq).
  unfold MMU_init. rewrite (proj2 (Nat.ltb_ge _ _)) by apply B. rewrite E1, bind_Ok, E2, bind_Ok. cbn [fst snd].
  destruct q as [|f q]; [by apply Hq, elem_of_nil in Ha|].
  set (st0 := mkMMU fs hd NULL NULL NULL MMAP_KERNEL_HEAP_START (MMAP_KERNEL_STACKS_END - 8)).
  destruct (MMU_alloc_frame_cons _ st0 _ _ (Hrep (v_mem (k_vm k)) NULL MMAP_KERNEL_HEAP_START (MMAP_KERNEL_STACKS_END - 8)))
    as (st1 & Ea & _).
  rewrite Ea, bind_Ok. cbn [fst snd].
  destruct (frames_rep_frames _ _ _ (Hrep ∅ 0 0 0)) as [HF HN]. apply Forall_cons in HF as [Hf HF].
  rewrite (proj2 (Z.eqb_neq f NULL)) by (by apply frame_neq).
  assert (Hi : IRQ_set_handler PAGE_FAULT_IRQ h NULL (k_irq k) =
    Ok (mkIrqs (<[14%nat := (h, NULL)]> (handlers (k_irq k))) (irq_semaphore (k_irq k)) (iflag (k_irq k)) (irq_log (k_irq k)))).
  { unfold IRQ_set_handler. change ((256 <? PAGE_FAULT_IRQ) || (PAGE_FAULT_IRQ <? 0))%bool with false.
    change (Z.to_nat PAGE_FAULT_IRQ) with 14%nat. by rewrite upd_Ok by lia. }
  assert (Hp : ∃ m1 irq1, PT_init p3 p2 h (v_mem (k_vm k)) (k_irq k) = Ok (m1, irq1) ∧
    handlers irq1 !! 14%nat = Some (h, NULL)).
  { unfold PT_init. rewrite Hi, bind_Ok. eexists _, _. split; [reflexivity|]. cbn [handlers].
    apply list_lookup_insert_eq. lia. }
  destruct Hp as (m1 & irq1 & Ep & Hh1). rewrite Ep, bind_Ok. cbn [fst snd].
  assert (Hfe : usable_page map E f) by (apply Hq, elem_of_cons; by left).
  assert (Hnd : NoDup [p2; p3; f]).
  { destruct Hfe as (_ & _ & Hfe & _).
    apply NoDup_cons; split; [|apply NoDup_cons; split; [|apply NoDup_singleton]].
    - intros [?|Hx%list_elem_of_singleton]%elem_of_cons; [done|]. apply Hfe. by rewrite <- Hx.
    - intros Hx%list_elem_of_singleton. apply Hfe. by rewrite <- Hx. }
  assert (Hs3 : 0 ≤ s_base E) by (destruct B as [_ _ _ _ _ _ _ _ _ _ [? _] _]; done).
  destruct (identity_tables p3 p2 f h _ _ m1 irq1 A3 A2 Hf ltac:(lia) ltac:(lia) Hnd Ep) as (T4 & T3 & T2).
  pose proof (MMU_alloc_frame_vnext _ _ _ _ Ea) as Hv. unfold vnext, st0 in Hv. cbn in Hv. injection Hv as _ Hv1 Hv2.
  rewrite (MMU_alloc_frame_mem _ (PT_page_table_init p3 f m1) st0 eq_refl) in Ea.
  destruct (MMU_alloc_frame_cons _ st0 _ _ (Hrep (PT_page_table_init p3 f m1) NULL MMAP_KERNEL_HEAP_START (MMAP_KERNEL_STACKS_END - 8)))
    as (st2 & Ea2 & Hrep2).
  rewrite Ea in Ea2. apply Ok_pair_inj in Ea2 as [_ <-].
  eexists _, f, q. split; [done|]. cbn [k_vm k_irq]. split; [|split; [done|split; [done|split; [done|split; [|done]]]]].
  - assert (Ho : owned (mkAS {[ [] := f ]} ∅) = [f]).
    { unfold owned, tab_frames, mapped_frames. cbn [tabs pgs]. by rewrite map_to_list_singleton, map_to_list_empty. }
    split; cbn [v_mem v_fa v_cr3]; [|exact Hrep2|by rewrite Ho|rewrite Ho; by constructor].
    apply as_rep_root; [done|]. intros i Hi1. rewrite T4 by lia. by rewrite (proj2 (Z.eqb_neq i 0)) by lia.
  - intros v Hv0. cbn [v_mem v_cr3]. apply (translate_identity _ f p3 p2); try done; lia.
Qed.


Lemma demo_map_ok : boot_map_ok demo_map (mkSeg 0x100000 0x111000 0x11000).
Proof.
  split.
  - cbn. lia.
  - vm_compute. lia.
  - cbn. sorted_tac; unfold ram_ok, PAGE_SIZE; cbn; repeat split; vm_compute; congruence.
  - cbn. sorted_tac; vm_compute; congruence.
  - cbn. sorted_tac; unfold ram_before; cbn; lia.
  - cbn. lia.
  - vm_compute. lia.
  - cbn. sorted_tac; unfold ks_fits, PAGE_SIZE; cbn; lia.
  - cbn. sorted_tac; unfold ks_base_le; cbn; lia.
  - vm_compute. reflexivity.
  - unfold seg_fits. cbn. lia.
  - cbn. sorted_tac; vm_compute; (tauto || (intros []; congruence)).
Qed.

