(* ===== verification/Kmalloc.v ===== *)
(** * The kernel heap (src/src/kmalloc.c)

    Six pools of fixed-size blocks threaded into free lists, and whole pages
    for larger requests.  The heap runs on the kernel's virtual memory and
    takes runs of pages from an arbitrary [PageSource]; mmu.c provides one. *)

From S2P Require Import Prelude Memory Segments Frames Machine Irq Paging Mmu.

(** ** Where pages come from *)

(** The contract of [MMU_alloc_pages] and [MMU_free_pages]: runs of pages that
    do not overlap any run that is still handed out. *)
Definition run_end (r : Z * Z) : Z := r.1 + PAGE_SIZE * r.2.
Definition run_apart (r t : Z * Z) : Prop := run_end r ≤ t.1 ∨ run_end t ≤ r.1.

Class PageSource (PS : Type) := {
  ps_alloc : Z → PS → outcome (Z * PS);
  ps_free : Z → Z → PS → outcome PS;
  ps_base : Z;
  ps_inv : PS → list (Z * Z) → Prop;
  ps_perm s L L' : L ≡ₚ L' → ps_inv s L → ps_inv s L';
  ps_runs s L : ps_inv s L → Forall (fun r => 0 ≤ ps_base ≤ r.1 ∧ 0 < r.2 ∧ run_end r < 281474976710656) L;
  ps_alloc_ok s L n : ps_inv s L → 0 < n < 2147483648 →
    ∃ a s', ps_alloc n s = Ok (a, s') ∧
      ((a = NULL ∧ ps_inv s' L) ∨ (a ≠ NULL ∧ Forall (run_apart (a, n)) L ∧ ps_inv s' ((a, n) :: L)));
  ps_free_ok s L a n : ps_inv s ((a, n) :: L) → ∃ s', ps_free a n s = Ok s' ∧ ps_inv s' L
}.

(** ** Data *)

Definition POOL_PAGE_INCREASE : Z := 4.
Definition NUM_POOLS : nat := 6.

(** [struct KmallocBlockHeader]: pool at 0, next at 8. *)
Definition HDR : Z := 16.
Definition block_pool (m : mem) (b : Z) : Z := rd64 m b.
Definition block_next (m : mem) (b : Z) : Z := rd64 m (b + 8).

(** [struct KmallocPool]: block_size at 0, free_head at 8; [pools] is the
    address of the static array of them. *)
Definition pool_size (m : mem) (p : Z) : Z := rd64 m p.
Definition free_head (m : mem) (p : Z) : Z := rd64 m (p + 8).
Definition pool_at (pools : Z) (i : nat) : Z := pools + 16 * Z.of_nat i.

(** The initialiser of [pools]. *)
Definition block_sizes : list Z := [32; 64; 128; 512; 1024; 2048].

(** ** Operations *)

Section Ops.
Context {PS : Type} `{Hps : PageSource PS}.

(** Lines 58-65, with [k] blocks left: [prev] is a [KmallocBlockHeader **]. *)
Fixpoint link_blocks (k : nat) (pool prev cur : Z) (m : mem) : mem :=
  match k with
  | O => m
  | S k =>
      let m := wr64 m prev cur in
      let m := wr64 m cur pool in
      let m := wr64 m (cur + 8) NULL in
      link_blocks k pool (cur + 8) (u64 (cur + pool_size m pool)) m
  end.

Definition kmalloc_increase_pool (pool num_pages : Z) (m : mem) (s : PS) : outcome (Z * (mem * PS)) :=
  if negb (free_head m pool =? NULL) then Ok (0, (m, s))
  else
    r ← ps_alloc num_pages s;
    if r.1 =? NULL then Ok (-1, (m, r.2))
    else
      let num_blocks := (num_pages * PAGE_SIZE) / pool_size m pool in
      Ok (0, (link_blocks (Z.to_nat num_blocks) pool (pool + 8) r.1 m, r.2)).

Definition kmalloc_alloc (pool : Z) (m : mem) (s : PS) : outcome (Z * (mem * PS)) :=
  r ← (if free_head m pool =? NULL then kmalloc_increase_pool pool POOL_PAGE_INCREASE m s
       else Ok (0, (m, s)));
  let '(m, s) := r.2 in
  if r.1 <? 0 then Ok (NULL, (m, s))
  else
    let ret := free_head m pool in
    if ret =? NULL then Fault
    else
      let m := wr64 m (pool + 8) (block_next m ret) in
      let m := wr64 m (ret + 8) NULL in
      Ok (ret, (m, s)).

(** The search for a pool: the first whose blocks hold [size] and a header. *)
Fixpoint find_pool (k : nat) (i : nat) (size pools : Z) (m : mem) : option nat :=
  match k with
  | O => None
  | S k => if u64 (size + HDR) <=? pool_size m (pool_at pools i) then Some i
           else find_pool k (1 + i) size pools m
  end.

Definition kmalloc (pools size : Z) (m : mem) (s : PS) : outcome (Z * (mem * PS)) :=
  if size =? 0 then Ok (NULL, (m, s))
  else
    match find_pool NUM_POOLS 0 size pools m with
    | Some i =>
        r ← kmalloc_alloc (pool_at pools i) m s;
        if r.1 =? NULL then Ok (NULL, r.2) else Ok (u64 (r.1 + HDR), r.2)
    | None =>
        let num_pages := i32 (size / PAGE_SIZE) in
        let num_pages := if truth (size mod PAGE_SIZE) then i32 (num_pages + 1) else num_pages in
        r ← ps_alloc num_pages s;
        if r.1 =? NULL then Ok (NULL, (m, r.2))
        else
          let m := wr64 m r.1 NULL in
          let m := wr64 m (r.1 + 8) num_pages in
          Ok (u64 (r.1 + HDR), (m, r.2))
    end.

Definition kfree (addr : Z) (m : mem) (s : PS) : outcome (mem * PS) :=
  let block := u64 (addr - HDR) in
  if block_pool m block =? NULL then
    s ← ps_free block (i32 (block_next m block)) s;
    Ok (m, s)
  else
    let pool := block_pool m block in
    let m := wr64 m (block + 8) (free_head m pool) in
    let m := wr64 m (pool + 8) block in
    Ok (m, s).
End Ops.

(** ** Representation *)

Definition bsize (i : nat) : Z := nth i block_sizes 0.

Lemma bsize_range i : (i < 6)%nat → 32 ≤ bsize i ≤ 2048 ∧ bsize i * (16384 / bsize i) = 16384.
Proof. intros Hi. do 6 (destruct i as [|i]; [vm_compute; repeat split; congruence|]). lia. Qed.

(** A free list: each block's [next] leads to the rest. *)
Fixpoint chain8 (m : mem) (h : Z) (l : list Z) : Prop :=
  match l with
  | [] => h = NULL
  | b :: l => h = b ∧ chain8 m (block_next m b) l
  end.

Lemma chain8_ext m m' h l :
  (∀ b, b ∈ l → block_next m' b = block_next m b) → chain8 m h l → chain8 m' h l.
Proof.
  revert h. induction l as [|b l IH]; intros h Hm; cbn [chain8]; [done|].
  intros [-> H]. split; [done|]. rewrite Hm by (apply elem_of_cons; by left).
  apply IH; [|done]. intros. apply Hm. apply elem_of_cons. by right.
Qed.

(** The blocks that exist (with their pool), which of them are free, and the
    page runs of large allocations. *)
Record heap := mkHeap { h_blocks : list (Z * nat); h_free : nat → list Z; h_big : list (Z * Z) }.

Definition set_free (H : heap) (i : nat) (l : list Z) : heap :=
  mkHeap (h_blocks H) (fun j => if decide (j = i) then l else h_free H j) (h_big H).

(** A block that has been handed out and not freed. *)
Definition live (H : heap) (b : Z) (i : nat) : Prop := (b, i) ∈ h_blocks H ∧ b ∉ h_free H i.

Section Heap.
Context {PS : Type} `{Hps : PageSource PS}.

Record heap_rep (pools : Z) (m : mem) (s : PS) (H : heap) (L : list (Z * Z)) : Prop := {
  hr_inv : ps_inv s L;
  hr_pools : 0 < pools ∧ pools + 96 ≤ ps_base;
  hr_size i : (i < 6)%nat → pool_size m (pool_at pools i) = bsize i;
  hr_chain i : (i < 6)%nat → chain8 m (free_head m (pool_at pools i)) (h_free H i);
  hr_free i b : (i < 6)%nat → b ∈ h_free H i → (b, i) ∈ h_blocks H;
  hr_nodup i : (i < 6)%nat → NoDup (h_free H i);
  hr_pool b i : (b, i) ∈ h_blocks H → (i < 6)%nat ∧ block_pool m b = pool_at pools i;
  hr_in b i : (b, i) ∈ h_blocks H → ∃ r, r ∈ L ∧ r.1 ≤ b ∧ b + bsize i ≤ run_end r;
  hr_bb b i b' j : (b, i) ∈ h_blocks H → (b', j) ∈ h_blocks H → (b, i) ≠ (b', j) →
    apart b (bsize i) b' (bsize j);
  hr_big a n : (a, n) ∈ h_big H → (a, n) ∈ L ∧ block_pool m a = NULL ∧ block_next m a = n;
  hr_bg b i a n : (b, i) ∈ h_blocks H → (a, n) ∈ h_big H → apart b (bsize i) a (PAGE_SIZE * n);
  hr_gg a n a' n' : (a, n) ∈ h_big H → (a', n') ∈ h_big H → (a, n) ≠ (a', n') →
    apart a (PAGE_SIZE * n) a' (PAGE_SIZE * n');
  hr_gnodup : NoDup (h_big H)
}.

(** Every block lies above the pool descriptors. *)
Lemma block_range pools m s H L b i :
  heap_rep pools m s H L → (b, i) ∈ h_blocks H →
  (i < 6)%nat ∧ 0 ≤ pools ∧ pools + 96 ≤ b ∧ b + bsize i < 281474976710656 ∧ 32 ≤ bsize i.
Proof using.
  intros R Hb. destruct (hr_pool _ _ _ _ _ R b i Hb) as [Hi _].
  destruct (hr_in _ _ _ _ _ R b i Hb) as (r & Hr & H1 & H2).
  pose proof (ps_runs _ _ (hr_inv _ _ _ _ _ R)) as HL. rewrite Forall_forall in HL.
  destruct (HL r Hr) as (H3 & H4 & H5). destruct (hr_pools _ _ _ _ _ R). destruct (bsize_range i Hi). lia.
Qed.

Lemma big_range pools m s H L a n :
  heap_rep pools m s H L → (a, n) ∈ h_big H →
  0 ≤ pools ∧ pools + 96 ≤ a ∧ a + PAGE_SIZE * n < 281474976710656 ∧ 0 < n.
Proof using.
  intros R Ha. destruct (hr_big _ _ _ _ _ R a n Ha) as [HL _].
  pose proof (ps_runs _ _ (hr_inv _ _ _ _ _ R)) as HF. rewrite Forall_forall in HF.
  destruct (HF _ HL) as (H3 & H4 & H5). unfold run_end in H5. cbn in *. destruct (hr_pools _ _ _ _ _ R). lia.
Qed.

(** Two blocks at the same address are the same block. *)
Lemma block_same pools m s H L b i j :
  heap_rep pools m s H L → (b, i) ∈ h_blocks H → (b, j) ∈ h_blocks H → i = j.
Proof using.
  intros R H1 H2. destruct (decide (i = j)) as [|Hne]; [done|].
  pose proof (block_range _ _ _ _ _ _ _ R H1) as (_ & _ & _ & _ & B1).
  pose proof (block_range _ _ _ _ _ _ _ R H2) as (_ & _ & _ & _ & B2).
  pose proof (hr_bb _ _ _ _ _ R b i b j H1 H2) as Hap.
  destruct Hap as [Hap|Hap]; [congruence|lia|lia].
Qed.

(** ** Relinking a free list *)

(** [m'] is [m] outside two byte ranges. *)
Definition outside (p n c k : Z) (m m' : mem) : Prop :=
  ∀ x, ¬ (p ≤ x < p + n) → ¬ (c ≤ x < c + k) → rd8 m' x = rd8 m x.

Lemma rd64_outside p n c k m m' x :
  outside p n c k m m' → apart x 8 p n → apart x 8 c k → rd64 m' x = rd64 m x.
Proof using.
  intros Ho A1 A2. apply rd_le_ext. intros y Hy. unfold apart in *. apply Ho; lia.
Qed.

(** The contents that belong to clients: the payloads of live blocks and the
    page runs of large allocations. *)
Definition clients_kept (H : heap) (m m' : mem) : Prop :=
  (∀ b j x, live H b j → b + HDR ≤ x < b + bsize j → rd8 m' x = rd8 m x) ∧
  (∀ g n x, (g, n) ∈ h_big H → g ≤ x < g + PAGE_SIZE * n → rd8 m' x = rd8 m x).

(** Only the head of pool [i] and the link of its block [b] changed. *)
Definition relinked (pools : Z) (i : nat) (b : Z) (m m' : mem) : Prop := outside (pool_at pools i + 8) 8 (b + 8) 8 m m'.

Lemma relinked_next pools m s H L i b m' c j :
  heap_rep pools m s H L → (b, i) ∈ h_blocks H → relinked pools i b m m' → (c, j) ∈ h_blocks H →
  block_pool m' c = block_pool m c ∧ (c ≠ b → block_next m' c = block_next m c).
Proof using.
  intros R Hb Hm Hc. pose proof (block_range _ _ _ _ _ _ _ R Hb) as (Hi & _ & _ & _ & B).
  pose proof (block_range _ _ _ _ _ _ _ R Hc) as (J1 & _ & J2 & J3 & J4). unfold block_pool, block_next.
  destruct (decide (c = b)) as [->|Hne].
  - split; [|done]. apply (rd64_outside _ _ _ _ _ _ _ Hm); unfold apart, pool_at; lia.
  - pose proof (hr_bb _ _ _ _ _ R c j b i Hc Hb ltac:(congruence)) as Hap.
    split; [|intros _]; apply (rd64_outside _ _ _ _ _ _ _ Hm); unfold apart, pool_at in *; lia.
Qed.

(** With a chain of its blocks at the head of the pool, it is a heap again. *)
Lemma relinked_rep pools m s H L i b l m' :
  heap_rep pools m s H L → (b, i) ∈ h_blocks H → relinked pools i b m m' →
  chain8 m' (free_head m' (pool_at pools i)) l → NoDup l → (∀ c, c ∈ l → (c, i) ∈ h_blocks H) →
  heap_rep pools m' s (set_free H i l) L.
Proof using.
  intros R Hb Hm Hch Hnd Hl. pose proof (block_range _ _ _ _ _ _ _ R Hb) as (Hi & B1 & B2 & B3 & B4).
  pose proof (fun x => rd64_outside _ _ _ _ _ _ x Hm) as Hfar. pose proof (fun c j => relinked_next _ _ _ _ _ _ _ _ c j R Hb Hm) as Hn.
  pose proof R as [R1 R2 R3 R4 R5 R6 R7 R8 R9 R10 R11 R12 R13]. split; cbn [h_blocks h_free h_big set_free]; try done.
  - intros j Hj. unfold pool_size. rewrite Hfar; [by apply R3|..]; unfold apart, pool_at in *; lia.
  - intros j Hj. case_decide as E; [by subst j|]. unfold free_head. rewrite Hfar by (unfold apart, pool_at in *; lia).
    eapply chain8_ext; [|by apply R4]. intros c Hc. apply (Hn c j); [by apply R5|]. intros ->.
    apply E. by apply (block_same _ _ _ _ _ _ _ _ R (R5 j b Hj Hc) Hb).
  - intros j c Hj. case_decide as E; [|by apply R5]. subst j. apply Hl.
  - intros j Hj. case_decide; [done|by apply R6].
  - intros c j Hc. destruct (Hn c j Hc) as [-> _]. by apply R7.
  - intros a n Ha. destruct (R10 a n Ha) as (G1 & G2 & G3). split; [done|]. pose proof (R11 b i a n Hb Ha) as Hap.
    pose proof (big_range _ _ _ _ _ _ _ R Ha) as (_ & J2 & _ & J4). unfold PAGE_SIZE, apart in *.
    unfold block_pool, block_next in *. rewrite !Hfar; [done|..]; unfold apart, pool_at in *; lia.
Qed.

(** Nobody's contents change when [b] is nobody's. *)
Lemma relinked_kept pools m s H L i b m' H' :
  heap_rep pools m s H L → (b, i) ∈ h_blocks H → relinked pools i b m m' →
  h_blocks H' = h_blocks H → h_big H' = h_big H → ¬ live H' b i → clients_kept H' m m'.
Proof using.
  intros R Hb Hm E1 E2 Hnl. pose proof (block_range _ _ _ _ _ _ _ R Hb) as (Hi & B1 & B2 & B3 & B4). split.
  - intros c j x Hc Hx. assert (Hne : (c, j) ≠ (b, i)) by congruence. destruct Hc as [Hc _]. rewrite E1 in Hc.
    pose proof (block_range _ _ _ _ _ _ _ R Hc) as (J1 & _ & J2 & J3 & J4).
    pose proof (hr_bb _ _ _ _ _ R c j b i Hc Hb Hne) as Hap. unfold apart, HDR in *. apply Hm; unfold pool_at; lia.
  - intros g n x Hg Hx. rewrite E2 in Hg. pose proof (big_range _ _ _ _ _ _ _ R Hg) as (J1 & J2 & J3 & J4).
    pose proof (hr_bg _ _ _ _ _ R b i g n Hb Hg) as Hap. unfold apart, PAGE_SIZE in *. apply Hm; unfold pool_at; lia.
Qed.

(** ** Taking a block from a free list *)

Lemma taken_relinked pools i b v m : relinked pools i b m (wr64 (wr64 m (pool_at pools i + 8) v) (b + 8) NULL).
Proof using. intros x X1 X2. unfold wr64. by rewrite !rd8_wr_le_out by (cbn; lia). Qed.

Lemma free_block pools m s H L i b l : heap_rep pools m s H L → (i < 6)%nat → h_free H i = b :: l → (b, i) ∈ h_blocks H.
Proof using. intros R Hi Hf. eapply hr_free; [exact R|done|rewrite Hf; apply elem_of_cons; by left]. Qed.

Lemma take_block_ok pools m s H L i b l :
  heap_rep pools m s H L → (i < 6)%nat → h_free H i = b :: l →
  let m' := wr64 (wr64 m (pool_at pools i + 8) (block_next m b)) (b + 8) NULL in
  heap_rep pools m' s (set_free H i l) L.
Proof using.
  intros R Hi Hf m'. pose proof (free_block _ _ _ _ _ _ _ _ R Hi Hf) as Hb. pose proof (block_range _ _ _ _ _ _ _ R Hb) as (_ & B1 & B2 & B3 & B4).
  pose proof (hr_nodup _ _ _ _ _ R i Hi) as Hnd. rewrite Hf in Hnd. apply NoDup_cons in Hnd as [Hnb Hnd].
  pose proof (hr_chain _ _ _ _ _ R i Hi) as Hch. rewrite Hf in Hch. destruct Hch as [Hh Hch].
  pose proof (taken_relinked pools i b (block_next m b) m) as Hm.
  assert (Hin : ∀ c, c ∈ l → (c, i) ∈ h_blocks H) by (intros c Hc; eapply hr_free; [exact R|done|rewrite Hf; by right]).
  apply (relinked_rep pools m s H L i b l m' R Hb Hm); [|done|done].
  replace (free_head m' (pool_at pools i)) with (block_next m b).
  - eapply chain8_ext; [|exact Hch]. intros c Hc. apply (relinked_next _ _ _ _ _ _ _ _ c i R Hb Hm (Hin c Hc)). by intros ->.
  - unfold free_head, m'. rewrite rd64_wr64_apart by (unfold apart, pool_at in *; lia). rewrite rd64_wr64_eq. symmetry. apply u64_rd64.
Qed.

(** ** Growing a pool *)

Fixpoint blocks_from (b z : Z) (k : nat) : list Z :=
  match k with O => [] | S k => b :: blocks_from (b + z) z k end.

Lemma elem_of_blocks_from b z k x :
  x ∈ blocks_from b z k ↔ ∃ j, 0 ≤ j < Z.of_nat k ∧ x = b + z * j.
Proof using.
  revert b. induction k as [|k IH]; intros b; cbn [blocks_from].
  - split; [by intros ?%elem_of_nil|intros (j & ? & _); lia].
  - rewrite elem_of_cons, IH. split.
    + intros [->|(j & ? & ->)]; [exists 0|exists (j + 1)]; lia.
    + intros (j & ? & ->). destruct (decide (j = 0)) as [->|]; [left; lia|right; exists (j - 1); lia].
Qed.

Lemma block_offset z q t : 32 ≤ z ≤ 2048 → z * q = 16384 → 0 ≤ t < q → 0 ≤ z * t ∧ z * t + z ≤ 16384.
Proof using. intros. nia. Qed.

Lemma NoDup_blocks_from b z k : 0 < z → NoDup (blocks_from b z k).
Proof using.
  intros Hz. revert b. induction k as [|k IH]; intros b; cbn [blocks_from]; constructor; [|done].
  rewrite elem_of_blocks_from. intros (j & Hj & E). nia.
Qed.

Lemma link_blocks_ok z pool : 32 ≤ z → ∀ k prev cur m,
  pool_size m pool = z → rd64 m prev = NULL →
  0 ≤ cur → cur + z * Z.of_nat k < 18446744073709551616 →
  apart prev 8 cur (z * Z.of_nat k) → apart prev 8 pool 8 → apart pool 8 cur (z * Z.of_nat k) →
  0 ≤ pool < 18446744073709551616 →
  let m' := link_blocks k pool prev cur m in
  chain8 m' (rd64 m' prev) (blocks_from cur z k) ∧
  (∀ b, b ∈ blocks_from cur z k → block_pool m' b = pool) ∧
  outside prev 8 cur (z * Z.of_nat k) m m'.
Proof using.
  intros Hz k. induction k as [|k IH]; intros prev cur m Hs Hn Hc Hmax A1 A2 A3 Hp m'.
  - split; [done|]. split; [by intros b ?%elem_of_nil|done].
  - cbn [link_blocks] in m'. subst m'.
    set (m1 := wr64 (wr64 (wr64 m prev cur) cur pool) (cur + 8) NULL).
    assert (Hk : z * Z.of_nat (S k) = z + z * Z.of_nat k) by nia. rewrite Hk in *.
    assert (Hzk : 0 ≤ z * Z.of_nat k) by nia.
    unfold apart in A1, A2, A3.
    assert (Hs1 : pool_size m1 pool = z).
    { unfold pool_size, m1. rewrite !rd64_wr64_apart by (unfold apart; lia). done. }
    assert (E1 : rd64 m1 (cur + 8) = NULL) by (unfold m1; by rewrite rd64_wr64_eq).
    assert (E2 : rd64 m1 cur = pool).
    { unfold m1. rewrite rd64_wr64_apart by (unfold apart; lia). rewrite rd64_wr64_eq. by apply u64_small. }
    assert (E3 : rd64 m1 prev = cur).
    { unfold m1. rewrite !rd64_wr64_apart by (unfold apart; lia). rewrite rd64_wr64_eq. apply u64_small. lia. }
    rewrite Hs1, (u64_small (cur + z)) by lia.
    destruct (IH (cur + 8) (cur + z) m1) as (C1 & C2 & C4); try done;
      [lia|lia|unfold apart; lia|unfold apart; lia|unfold apart; lia|].
    set (m' := link_blocks k pool (cur + 8) (cur + z) m1) in *.
    pose proof (fun x => rd64_outside _ _ _ _ _ _ x C4) as C3.
    split; [|split].
    + cbn [blocks_from chain8]. rewrite (C3 prev) by (unfold apart; lia). split; [done|]. exact C1.
    + cbn [blocks_from]. intros b [->|Hb]%elem_of_cons; [|by apply C2].
      unfold block_pool. rewrite C3 by (unfold apart; lia). done.
    + intros x X1 X2. rewrite C4 by lia. unfold m1, wr64. by rewrite !rd8_wr_le_out by lia.
Qed.

(** Memory outside the pool descriptors and the runs [L] is unchanged. *)
Definition frame_kept (pools : Z) (L : list (Z * Z)) (m m' : mem) : Prop :=
  ∀ x, ¬ (pools ≤ x < pools + 96) → (∀ r, r ∈ L → ¬ (r.1 ≤ x < run_end r)) → rd8 m' x = rd8 m x.

Lemma frame_kept_trans pools L1 L2 m1 m2 m3 :
  (∀ r, r ∈ L1 → r ∈ L2) → frame_kept pools L1 m1 m2 → frame_kept pools L2 m2 m3 → frame_kept pools L2 m1 m3.
Proof using. intros Hs H1 H2 x X1 X2. rewrite H2, H1 by eauto. done. Qed.

(** The heap after the pool [i] was given the run of pages at [a]. *)
Definition grow (H : heap) (i : nat) (a : Z) : heap :=
  let nb := blocks_from a (bsize i) (Z.to_nat (16384 / bsize i)) in
  mkHeap (((fun b => (b, i)) <$> nb) ++ h_blocks H)
    (fun j => if decide (j = i) then nb else h_free H j) (h_big H).

Lemma elem_of_grow H i a b j : (i < 6)%nat →
  (b, j) ∈ h_blocks (grow H i a) ↔
  (j = i ∧ ∃ t, 0 ≤ t < 16384 / bsize i ∧ b = a + bsize i * t) ∨ (b, j) ∈ h_blocks H.
Proof using.
  intros Hi. destruct (bsize_range i Hi) as [B1 B2]. unfold grow. cbn [h_blocks].
  rewrite elem_of_app, list_elem_of_fmap. split; (intros [Hl|]; [left|by right]).
  - destruct Hl as (x & [= -> ->] & Hx%elem_of_blocks_from). rewrite Z2Nat.id in Hx by word_lia. done.
  - destruct Hl as (-> & t & Ht & ->). eexists. split; [done|]. apply elem_of_blocks_from.
    exists t. rewrite Z2Nat.id by word_lia. done.
Qed.

(** What the heap holds does not meet a new run of pages. *)
Lemma fresh_run pools m s H L a :
  heap_rep pools m s H L → Forall (run_apart (a, 4)) L →
  (∀ b j, (b, j) ∈ h_blocks H → apart b (bsize j) a 16384) ∧ (∀ g n, (g, n) ∈ h_big H → apart g (PAGE_SIZE * n) a 16384).
Proof using.
  intros R HL. rewrite Forall_forall in HL. split.
  - intros b j Hb. destruct (hr_in _ _ _ _ _ R b j Hb) as (r & Hr & X1 & X2). specialize (HL r Hr).
    unfold run_apart, run_end, apart, PAGE_SIZE in *. cbn [fst snd] in *. lia.
  - intros g n Hg. destruct (hr_big _ _ _ _ _ R g n Hg) as [HgL _]. specialize (HL _ HgL).
    unfold run_apart, run_end, apart, PAGE_SIZE in *. cbn [fst snd] in *. lia.
Qed.

(** The stores of [link_blocks] on such a run. *)
Lemma grow_links pools m s H L i a s' :
  heap_rep pools m s H L → (i < 6)%nat → h_free H i = [] → ps_inv s' ((a, 4) :: L) →
  let k := Z.to_nat (16384 / bsize i) in
  let m' := link_blocks k (pool_at pools i) (pool_at pools i + 8) a m in
  chain8 m' (rd64 m' (pool_at pools i + 8)) (blocks_from a (bsize i) k) ∧
  (∀ b, b ∈ blocks_from a (bsize i) k → block_pool m' b = pool_at pools i) ∧
  outside (pool_at pools i + 8) 8 a 16384 m m'.
Proof using.
  intros R Hi Hf Hinv k m'. destruct (bsize_range i Hi) as [B1 B2].
  pose proof (ps_runs _ _ Hinv) as HF. apply Forall_cons in HF as [(F1 & _ & F2) HF].
  unfold run_end, PAGE_SIZE in F2. cbn [fst snd] in *. destruct (hr_pools _ _ _ _ _ R) as [P1 P2].
  assert (Hz : bsize i * Z.of_nat k = 16384) by (unfold k; rewrite Z2Nat.id by word_lia; done).
  pose proof (hr_chain _ _ _ _ _ R i Hi) as Hch. rewrite Hf in Hch. cbn in Hch.
  rewrite <- Hz. apply (link_blocks_ok (bsize i) (pool_at pools i)); try (rewrite ?Hz; unfold apart, pool_at in *; lia); [|done].
  by apply (hr_size _ _ _ _ _ R).
Qed.

(** They are seen by nobody else. *)
Lemma grow_frame pools m s H L i a m' :
  heap_rep pools m s H L → (i < 6)%nat → Forall (run_apart (a, 4)) L → outside (pool_at pools i + 8) 8 a 16384 m m' →
  (∀ b j x, (b, j) ∈ h_blocks H → b ≤ x < b + bsize j → rd8 m' x = rd8 m x) ∧
  (∀ g n x, (g, n) ∈ h_big H → g ≤ x < g + PAGE_SIZE * n → rd8 m' x = rd8 m x) ∧
  frame_kept pools ((a, 4) :: L) m m'.
Proof using.
  intros R Hi HL C4. destruct (fresh_run _ _ _ _ _ _ R HL) as [Hblk Hbig]. destruct (hr_pools _ _ _ _ _ R) as [P1 P2]. split; [|split].
  - intros b j x Hb Hx. pose proof (Hblk b j Hb) as Hap. pose proof (block_range _ _ _ _ _ _ _ R Hb) as (J1 & _ & J2 & J3 & J4).
    unfold apart, pool_at in *. apply C4; lia.
  - intros g n x Hg Hx. pose proof (Hbig g n Hg) as Hap. pose proof (big_range _ _ _ _ _ _ _ R Hg) as (_ & J2 & _).
    unfold apart, pool_at in *. apply C4; lia.
  - intros x X1 X2. specialize (X2 (a, 4) ltac:(left)). unfold run_end, PAGE_SIZE in X2. cbn [fst snd] in X2.
    unfold pool_at in *. apply C4; lia.
Qed.

Lemma grow_ok pools m s H L i a s' :
  heap_rep pools m s H L → (i < 6)%nat → h_free H i = [] →
  a ≠ NULL → Forall (run_apart (a, 4)) L → ps_inv s' ((a, 4) :: L) →
  let m' := link_blocks (Z.to_nat (16384 / bsize i)) (pool_at pools i) (pool_at pools i + 8) a m in
  heap_rep pools m' s' (grow H i a) ((a, 4) :: L) ∧
  (∀ b j x, (b, j) ∈ h_blocks H → b ≤ x < b + bsize j → rd8 m' x = rd8 m x) ∧
  (∀ g n x, (g, n) ∈ h_big H → g ≤ x < g + PAGE_SIZE * n → rd8 m' x = rd8 m x) ∧
  frame_kept pools ((a, 4) :: L) m m'.
Proof using.
  intros R Hi Hf Ha HL Hinv m'. destruct (bsize_range i Hi) as [B1 B2].
  destruct (grow_links pools m s H L i a s' R Hi Hf Hinv) as (C1 & C2 & C4). fold m' in C1, C2, C4.
  split; [|by apply (grow_frame pools m s H L i a m')].
  pose proof (fun x => rd64_outside _ _ _ _ _ _ x C4) as C3. destruct (fresh_run _ _ _ _ _ _ R HL) as [Hblk Hbig].
  pose proof (ps_runs _ _ Hinv) as HF. apply Forall_cons in HF as [(F1 & _ & F2) HF]. destruct (hr_pools _ _ _ _ _ R) as [P1 P2].
  assert (Hk : 0 ≤ 16384 / bsize i) by word_lia.
  assert (Hcell : ∀ b j, (b, j) ∈ h_blocks H → rd64 m' b = rd64 m b ∧ rd64 m' (b + 8) = rd64 m (b + 8)).
  { intros b j Hb. pose proof (Hblk b j Hb) as Hap. pose proof (block_range _ _ _ _ _ _ _ R Hb) as (J1 & _ & J2 & J3 & J4).
    split; apply C3; unfold apart, pool_at in *; lia. }
  assert (Hpc : ∀ j, (j < 6)%nat → rd64 m' (pool_at pools j) = rd64 m (pool_at pools j) ∧
    (j ≠ i → rd64 m' (pool_at pools j + 8) = rd64 m (pool_at pools j + 8))).
  { unfold run_end, PAGE_SIZE in F2. cbn [fst snd] in *. intros j Hj. split; [|intros Hne]; apply C3; unfold apart, pool_at in *; lia. }
  pose proof (fun b j => elem_of_grow H i a b j Hi) as Hin.
  assert (Hrange : ∀ t, 0 ≤ t < 16384 / bsize i → 0 ≤ bsize i * t ∧ bsize i * t + bsize i ≤ 16384)
    by (intros t Ht; by apply (block_offset _ (16384 / bsize i))).
  destruct R as [R1 R2 R3 R4 R5 R6 R7 R8 R9 R10 R11 R12 R13].
  split; try done.
  - intros j Hj. unfold pool_size. destruct (Hpc j Hj) as [-> _]. by apply R3.
  - intros j Hj. cbn [grow h_free]. case_decide as E; [subst j; exact C1|].
    unfold free_head. destruct (Hpc j Hj) as [_ ->]; [|done]. eapply chain8_ext; [|by apply R4].
    intros b Hb. unfold block_next. by destruct (Hcell b j) as [_ ->]; [apply R5|].
  - intros j b Hj Hb. apply Hin. cbn [grow h_free] in Hb. case_decide as E; [|right; by apply R5].
    subst j. left. split; [done|]. apply elem_of_blocks_from in Hb. rewrite Z2Nat.id in Hb by done. done.
  - intros j Hj. cbn [grow h_free]. case_decide; [apply NoDup_blocks_from; lia|by apply R6].
  - intros b j [(-> & t & Ht & ->)|Hb]%Hin.
    + split; [done|]. apply C2, elem_of_blocks_from. exists t. rewrite Z2Nat.id by done. done.
    + unfold block_pool. destruct (Hcell b j Hb) as [-> _]. by apply R7.
  - intros b j [(-> & t & Ht & ->)|Hb]%Hin.
    + exists (a, 4). split; [apply elem_of_cons; by left|]. unfold run_end, PAGE_SIZE. cbn [fst snd].
      pose proof (Hrange t Ht). lia.
    + destruct (R8 b j Hb) as (r & Hr & X). exists r. split; [apply elem_of_cons; by right|done].
  - intros b j b' j' [(-> & t & Ht & ->)|Hb]%Hin [(-> & t' & Ht' & ->)|Hb']%Hin Hne.
    + unfold apart. assert (t ≠ t') by congruence. nia.
    + pose proof (Hblk b' j' Hb') as Hap. pose proof (Hrange t Ht). unfold apart in *. lia.
    + pose proof (Hblk b j Hb) as Hap. pose proof (Hrange t' Ht'). unfold apart in *. lia.
    + by apply R9.
  - intros g n Hg. destruct (R10 g n Hg) as (G1 & G2 & G3). split; [apply elem_of_cons; by right|].
    pose proof (Hbig g n Hg) as Hap. rewrite Forall_forall in HF. destruct (HF _ G1) as (F3 & F4 & F5).
    cbn [fst snd] in *. unfold block_pool, block_next, PAGE_SIZE in *.
    rewrite !C3; [done|..]; unfold apart, pool_at in *; lia.
  - intros b j g n [(-> & t & Ht & ->)|Hb]%Hin Hg; [|by apply R11].
    pose proof (Hbig g n Hg) as Hap. pose proof (Hrange t Ht). unfold apart in *. lia.
Qed.

(** ** Allocating from a pool *)

(** What taking a block gives. *)
Definition took (H H' : heap) (b : Z) (i : nat) : Prop :=
  live H' b i ∧ ¬ live H b i ∧ (∀ c j, live H' c j ↔ live H c j ∨ (c = b ∧ j = i)).

Lemma take_block_live pools m s H L i b l :
  heap_rep pools m s H L → (i < 6)%nat → h_free H i = b :: l → took H (set_free H i l) b i.
Proof using.
  intros R Hi Hf. pose proof (hr_nodup _ _ _ _ _ R i Hi) as Hnd. rewrite Hf in Hnd.
  apply NoDup_cons in Hnd as [Hnb Hnd].
  assert (Hb : (b, i) ∈ h_blocks H) by (eapply hr_free; [exact R|done|rewrite Hf; apply elem_of_cons; by left]).
  unfold took, live. cbn [set_free h_blocks h_free]. split; [by rewrite decide_True|].
  split; [rewrite Hf; intros [_ Hn]; apply Hn, elem_of_cons; by left|].
  intros c j. case_decide as E; [subst j; rewrite Hf|].
  - destruct (decide (c = b)) as [->|Hne]; [tauto|]. rewrite not_elem_of_cons. tauto.
  - split; [tauto|]. intros [|[-> ->]]; [done|done].
Qed.

Lemma take_block_kept pools m s H L i b l v :
  heap_rep pools m s H L → (i < 6)%nat → h_free H i = b :: l →
  clients_kept H m (wr64 (wr64 m (pool_at pools i + 8) v) (b + 8) NULL).
Proof using.
  intros R Hi Hf. apply (relinked_kept pools m s H L i b); [done|by eapply free_block|apply taken_relinked|done|done|].
  intros [_ Hn]. apply Hn. rewrite Hf. left.
Qed.

(** A store inside a block or to a pool descriptor stays inside the frame. *)
Lemma block_frame pools m s H L b i m' :
  heap_rep pools m s H L → (b, i) ∈ h_blocks H →
  (∀ x, ¬ (pool_at pools i + 8 ≤ x < pool_at pools i + 16) → ¬ (b ≤ x < b + bsize i) → rd8 m' x = rd8 m x) →
  frame_kept pools L m m'.
Proof using.
  intros R Hb Hm x X1 X2. destruct (hr_in _ _ _ _ _ R b i Hb) as (r & Hr & Y1 & Y2). specialize (X2 r Hr).
  destruct (hr_pool _ _ _ _ _ R b i Hb) as [Hi _]. apply Hm; unfold pool_at; lia.
Qed.

(** Taking the first block of a pool that has one. *)
Lemma take_first pools m s H L i b l :
  heap_rep pools m s H L → (i < 6)%nat → h_free H i = b :: l →
  b ≠ NULL ∧ free_head m (pool_at pools i) = b.
Proof using.
  intros R Hi Hf.
  assert (Hb : (b, i) ∈ h_blocks H) by (eapply hr_free; [exact R|done|rewrite Hf; apply elem_of_cons; by left]).
  pose proof (block_range _ _ _ _ _ _ _ R Hb) as (_ & B1 & B2 & B3 & B4).
  pose proof (hr_chain _ _ _ _ _ R i Hi) as Hch. rewrite Hf in Hch. destruct Hch as [Hh _].
  split; [unfold NULL; lia|done].
Qed.

Lemma take_block_frame pools m s H L i b l v :
  heap_rep pools m s H L → (i < 6)%nat → h_free H i = b :: l →
  frame_kept pools L m (wr64 (wr64 m (pool_at pools i + 8) v) (b + 8) NULL).
Proof using.
  intros R Hi Hf.
  assert (Hb : (b, i) ∈ h_blocks H) by (eapply hr_free; [exact R|done|rewrite Hf; apply elem_of_cons; by left]).
  pose proof (block_range _ _ _ _ _ _ _ R Hb) as (_ & B1 & B2 & B3 & B4).
  eapply block_frame; [exact R|exact Hb|]. intros x X1 X2. unfold wr64. by rewrite !rd8_wr_le_out by (cbn; lia).
Qed.

(** The blocks of a new run are free; the others are as they were. *)
Lemma grow_live pools m s H L i a c j :
  heap_rep pools m s H L → (i < 6)%nat → h_free H i = [] → Forall (run_apart (a, 4)) L → live (grow H i a) c j ↔ live H c j.
Proof using.
  intros R Hi Hf HL. destruct (bsize_range i Hi) as [B1 B2]. destruct (fresh_run _ _ _ _ _ _ R HL) as [Hblk _].
  unfold live. rewrite (elem_of_grow H i a c j Hi). cbn [grow h_free]. case_decide as Ej; [subst j|tauto]. rewrite Hf. split.
  - intros [[(_ & t & Ht & ->)|Hc] Hn]; [|split; [done|apply not_elem_of_nil]].
    exfalso. apply Hn, elem_of_blocks_from. exists t. rewrite Z2Nat.id by word_lia. done.
  - intros [Hc _]. split; [by right|]. intros (t & Ht & ->)%elem_of_blocks_from. rewrite Z2Nat.id in Ht by word_lia.
    pose proof (block_offset _ (16384 / bsize i) t B1 B2 Ht). pose proof (Hblk _ _ Hc). unfold apart in *. lia.
Qed.

Lemma grow_first H i a : (i < 6)%nat → ∃ l, h_free (grow H i a) i = a :: l.
Proof using.
  intros Hi. destruct (bsize_range i Hi) as [B1 B2]. cbn [grow h_free]. rewrite decide_True by done.
  destruct (Z.to_nat (16384 / bsize i)) as [|k] eqn:Ek; [word_lia|]. by eexists.
Qed.

(** The first block of a new run is taken. *)
Lemma take_grown pools m s H L i a s' :
  heap_rep pools m s H L → (i < 6)%nat → h_free H i = [] → a ≠ NULL → Forall (run_apart (a, 4)) L → ps_inv s' ((a, 4) :: L) →
  let m1 := link_blocks (Z.to_nat (16384 / bsize i)) (pool_at pools i) (pool_at pools i + 8) a m in
  let m' := wr64 (wr64 m1 (pool_at pools i + 8) (block_next m1 a)) (a + 8) NULL in
  free_head m1 (pool_at pools i) = a ∧
  ∃ H', heap_rep pools m' s' H' ((a, 4) :: L) ∧ h_big H' = h_big H ∧ took H H' a i ∧ clients_kept H m m' ∧ frame_kept pools ((a, 4) :: L) m m'.
Proof using.
  intros R Hi Hf Ha HL Hinv m1 m'. destruct (grow_ok pools m s H L i a s' R Hi Hf Ha HL Hinv) as (R1 & K1 & K2 & K3). fold m1 in R1, K1, K2, K3.
  destruct (grow_first H i a Hi) as [l Hl]. destruct (take_first _ _ _ _ _ _ _ _ R1 Hi Hl) as [_ Hh]. split; [done|].
  pose proof (take_block_live _ _ _ _ _ _ _ _ R1 Hi Hl) as (T1 & _ & T3). pose proof (fun c j => grow_live _ _ _ _ _ i a c j R Hi Hf HL) as Hlive.
  pose proof (take_block_kept _ _ _ _ _ _ _ _ (block_next m1 a) R1 Hi Hl) as [KK1 KK2]. fold m' in KK1, KK2.
  exists (set_free (grow H i a) i l). split; [exact (take_block_ok _ _ _ _ _ _ _ _ R1 Hi Hl)|]. split; [done|]. split; [|split].
  - split; [done|]. split; [|intros c j; by rewrite T3, Hlive]. intros [Hc _]. destruct (fresh_run _ _ _ _ _ _ R HL) as [Hblk _].
    pose proof (Hblk _ _ Hc). destruct (bsize_range i Hi). unfold apart in *. lia.
  - split.
    + intros c j x Hc Hx. rewrite (KK1 c j x) by (done || by apply Hlive). apply (K1 c j x); [apply Hc|]. unfold HDR in Hx. lia.
    + intros g n x Hg Hx. rewrite (KK2 g n x) by done. by apply (K2 g n x).
  - eapply frame_kept_trans; [|exact K3|]; [done|]. by eapply take_block_frame.
Qed.

Lemma kmalloc_alloc_ok pools m s H L i :
  heap_rep pools m s H L → (i < 6)%nat →
  ∃ b m' s' H' L', kmalloc_alloc (pool_at pools i) m s = Ok (b, (m', s')) ∧
    heap_rep pools m' s' H' L' ∧ h_big H' = h_big H ∧ (∀ r, r ∈ L → r ∈ L') ∧
    ((b = NULL ∧ H' = H ∧ m' = m ∧ ps_alloc POOL_PAGE_INCREASE s = Ok (NULL, s')) ∨
     (b ≠ NULL ∧ took H H' b i ∧ clients_kept H m m' ∧ frame_kept pools L' m m')).
Proof using.
  intros R Hi. unfold kmalloc_alloc. destruct (h_free H i) as [|b l] eqn:Hf.
  - pose proof (hr_chain _ _ _ _ _ R i Hi) as Hch. rewrite Hf in Hch. cbn in Hch.
    rewrite Hch. cbn [Z.eqb NULL]. unfold kmalloc_increase_pool. rewrite Hch. cbn [Z.eqb NULL negb].
    destruct (ps_alloc_ok s L POOL_PAGE_INCREASE (hr_inv _ _ _ _ _ R)) as (a & s' & E & Hcase); [done|]. change POOL_PAGE_INCREASE with 4 in Hcase.
    rewrite E, bind_Ok. cbn [fst snd]. destruct Hcase as [[-> Hinv]|(Ha & HL & Hinv)].
    + cbn [Z.eqb NULL]. rewrite bind_Ok. cbn [fst snd]. change (-1 <? 0) with true. cbn iota.
      exists NULL, m, s', H, L. split; [done|]. split; [by destruct R|]. split; [done|]. split; [done|]. by left.
    + rewrite (proj2 (Z.eqb_neq a NULL)) by done. rewrite bind_Ok. cbn [fst snd].
      rewrite (hr_size _ _ _ _ _ R i Hi). change (POOL_PAGE_INCREASE * PAGE_SIZE) with 16384. change (0 <? 0) with false. cbn iota.
      destruct (take_grown pools m s H L i a s' R Hi Hf Ha HL Hinv) as (Hh & H' & R' & Hbig & Ht & Hk & Hfr).
      rewrite Hh, (proj2 (Z.eqb_neq a NULL)) by done. eexists a, _, s', H', _. split; [reflexivity|]. split; [exact R'|]. split; [done|].
      split; [intros r Hr; by right|]. right. by split_and!.
  - destruct (take_first _ _ _ _ _ _ _ _ R Hi Hf) as [Hb Hh]. rewrite Hh.
    rewrite (proj2 (Z.eqb_neq b NULL)) by done. rewrite bind_Ok. cbn [fst snd].
    change (0 <? 0) with false. cbn iota. rewrite Hh. rewrite (proj2 (Z.eqb_neq b NULL)) by done.
    eexists b, _, s, _, L. split; [reflexivity|].
    split; [by apply (take_block_ok _ _ _ _ _ _ _ _ R Hi Hf)|]. split; [done|]. split; [done|]. right.
    split; [done|]. split; [by eapply take_block_live|]. split; [by eapply take_block_kept|by eapply take_block_frame].
Qed.

(** The pool chosen for a request. *)
Lemma find_pool_ok pools m s H L size :
  heap_rep pools m s H L → 0 < size ≤ 2032 →
  ∃ i, find_pool NUM_POOLS 0 size pools m = Some i ∧ (i < 6)%nat ∧ size + HDR ≤ bsize i.
Proof using.
  intros R Hs. unfold NUM_POOLS, find_pool. unfold HDR. rewrite u64_small by lia.
  rewrite !(hr_size _ _ _ _ _ R) by lia. unfold bsize, block_sizes. cbn [nth Nat.add].
  repeat match goal with
  | |- context [?x <=? ?y] => destruct (Z.leb_spec x y); [eexists; split; [reflexivity|]; split; [lia|cbn [nth Nat.add]; lia]|]
  end. exfalso. lia.
Qed.

(** ** Freeing a block *)

Lemma put_block_ok pools m s H L i b :
  heap_rep pools m s H L → live H b i →
  let m' := wr64 (wr64 m (b + 8) (free_head m (pool_at pools i))) (pool_at pools i + 8) b in
  heap_rep pools m' s (set_free H i (b :: h_free H i)) L ∧ clients_kept (set_free H i (b :: h_free H i)) m m'.
Proof using.
  intros R [Hb Hnf] m'. pose proof (block_range _ _ _ _ _ _ _ R Hb) as (Hi & B1 & B2 & B3 & B4).
  assert (Hm : relinked pools i b m m') by (intros x X1 X2; unfold m', wr64; by rewrite !rd8_wr_le_out by (cbn; lia)).
  split.
  - apply (relinked_rep pools m s H L i b _ m' R Hb Hm).
    + cbn [chain8]. assert (Hh : free_head m' (pool_at pools i) = b) by (unfold free_head, m'; rewrite rd64_wr64_eq; apply u64_small; lia).
      rewrite Hh. split; [done|]. replace (block_next m' b) with (free_head m (pool_at pools i)).
      * eapply chain8_ext; [|by apply (hr_chain _ _ _ _ _ R)]. intros c Hc.
        apply (relinked_next _ _ _ _ _ _ _ _ c i R Hb Hm); [by eapply hr_free|by intros ->].
      * unfold block_next, m'. rewrite rd64_wr64_apart by (unfold apart, pool_at in *; lia). rewrite rd64_wr64_eq. symmetry. apply u64_rd64.
    + apply NoDup_cons. split; [done|by apply (hr_nodup _ _ _ _ _ R)].
    + intros c [->|Hc]%elem_of_cons; [done|by eapply hr_free].
  - apply (relinked_kept pools m s H L i b m' _ R Hb Hm); [done|done|]. intros [_ Hn]. apply Hn. cbn [set_free h_free]. rewrite decide_True by done. left.
Qed.

Lemma kfree_block pools m s H L i b :
  heap_rep pools m s H L → live H b i →
  kfree (b + HDR) m s =
    Ok (wr64 (wr64 m (b + 8) (free_head m (pool_at pools i))) (pool_at pools i + 8) b, s).
Proof using.
  intros R [Hb Hnf]. pose proof (block_range _ _ _ _ _ _ _ R Hb) as (Hi & B1 & B2 & B3 & B4).
  destruct (hr_pools _ _ _ _ _ R) as [Hp _].
  unfold kfree. replace (b + HDR - HDR) with b by lia. rewrite u64_small by lia.
  destruct (hr_pool _ _ _ _ _ R b i Hb) as [_ ->].
  by rewrite (proj2 (Z.eqb_neq (pool_at pools i) NULL)) by (unfold NULL, pool_at; lia).
Qed.

(** ** Large allocations *)

Definition add_big (H : heap) (a n : Z) : heap := mkHeap (h_blocks H) (h_free H) ((a, n) :: h_big H).

Lemma big_ok pools m s H L a n s' :
  heap_rep pools m s H L → a ≠ NULL → 0 < n < 2147483648 → Forall (run_apart (a, n)) L → ps_inv s' ((a, n) :: L) →
  let m' := wr64 (wr64 m a NULL) (a + 8) n in
  heap_rep pools m' s' (add_big H a n) ((a, n) :: L) ∧ outside a 16 a 16 m m'.
Proof using.
  intros R Ha Hn HL Hinv m'.
  pose proof (ps_runs _ _ Hinv) as HF. apply Forall_cons in HF as [(F1 & F2 & F3) HF].
  unfold run_end, PAGE_SIZE in F3. cbn [fst snd] in *. destruct (hr_pools _ _ _ _ _ R) as [P1 P2].
  assert (O : outside a 16 a 16 m m').
  { intros x X1 X2. unfold m', wr64. by rewrite !rd8_wr_le_out by (cbn; lia). }
  assert (C : ∀ x, apart x 8 a 16 → rd64 m' x = rd64 m x) by (intros x Hx; by apply (rd64_outside _ _ _ _ _ _ _ O)).
  rewrite Forall_forall in HL, HF.
  assert (Hold : ∀ x y, (∃ r, r ∈ L ∧ r.1 ≤ x ∧ y ≤ run_end r) → apart x (y - x) a (PAGE_SIZE * n)).
  { intros x y (r & Hr & X1 & X2). specialize (HL r Hr). unfold run_apart, run_end, apart, PAGE_SIZE in *. cbn [fst snd] in *. lia. }
  assert (Hblk : ∀ b j, (b, j) ∈ h_blocks H → apart b (bsize j) a (PAGE_SIZE * n)).
  { intros b j Hb. destruct (hr_in _ _ _ _ _ R b j Hb) as (r & Hr & X1 & X2).
    pose proof (Hold b (b + bsize j)) as A. replace (b + bsize j - b) with (bsize j) in A by lia. apply A. eauto. }
  assert (Hbig : ∀ g k, (g, k) ∈ h_big H → apart g (PAGE_SIZE * k) a (PAGE_SIZE * n)).
  { intros g k Hg. destruct (hr_big _ _ _ _ _ R g k Hg) as [HgL _].
    pose proof (Hold g (g + PAGE_SIZE * k)) as A. replace (g + PAGE_SIZE * k - g) with (PAGE_SIZE * k) in A by lia.
    apply A. exists (g, k). split; [done|]. unfold run_end. cbn. lia. }
  assert (Hcell : ∀ b j, (b, j) ∈ h_blocks H → rd64 m' b = rd64 m b ∧ rd64 m' (b + 8) = rd64 m (b + 8)).
  { intros b j Hb. pose proof (Hblk b j Hb) as A. pose proof (block_range _ _ _ _ _ _ _ R Hb) as (J1 & _ & J2 & J3 & J4).
    unfold apart, PAGE_SIZE in *. split; apply C; unfold apart; lia. }
  split; [|done]. pose proof R as [R1 R2 R3 R4 R5 R6 R7 R8 R9 R10 R11 R12 R13].
  split; cbn [add_big h_blocks h_free h_big]; try done.
  - intros j Hj. unfold pool_size. rewrite C; [by apply R3|]. unfold apart, pool_at. lia.
  - intros j Hj. unfold free_head. rewrite C by (unfold apart, pool_at; lia). eapply chain8_ext; [|by apply R4].
    intros b Hb. unfold block_next. by destruct (Hcell b j (R5 j b Hj Hb)) as [_ ->].
  - intros b j Hb. unfold block_pool. destruct (Hcell b j Hb) as [-> _]. by apply R7.
  - intros b j Hb. destruct (R8 b j Hb) as (r & Hr & X). exists r. split; [by right|done].
  - intros g k [[= -> ->]|Hg]%elem_of_cons.
    + split; [left|]. unfold block_pool, block_next, m'. rewrite rd64_wr64_apart, rd64_wr64_eq, rd64_wr64_eq by (unfold apart; lia).
      split; [done|]. apply u64_small. lia.
    + destruct (R10 g k Hg) as (G1 & G2 & G3). split; [by right|]. pose proof (Hbig g k Hg) as A.
      destruct (HF _ G1) as (F4 & F5 & _). cbn in F5. unfold block_pool, block_next, apart, PAGE_SIZE in *. rewrite !C by (unfold apart; lia). done.
  - intros b j g k Hb [[= -> ->]|Hg]%elem_of_cons; [by apply Hblk|by apply R11].
  - intros g k g' k' [[= -> ->]|Hg]%elem_of_cons [[= -> ->]|Hg']%elem_of_cons Hne; [done| |by apply Hbig|by apply R12].
    pose proof (Hbig g' k' Hg') as A. unfold apart in *. lia.
  - constructor; [|done]. intros Hg. pose proof (Hbig a n Hg) as A. unfold apart, PAGE_SIZE in A. lia.
Qed.

(** A request too large for the pools that leaves room for the header in its
    last page. *)
Definition fits_pages (size : Z) : Prop := 2032 < size < 2147483647 * PAGE_SIZE ∧ 0 < size mod PAGE_SIZE ≤ PAGE_SIZE - HDR.

Lemma kmalloc_large_ok pools m s H L size :
  heap_rep pools m s H L → fits_pages size →
  let np := size / PAGE_SIZE + 1 in
  ∃ p m' s' H' L', kmalloc pools size m s = Ok (p, (m', s')) ∧ heap_rep pools m' s' H' L' ∧ (∀ r, r ∈ L → r ∈ L') ∧
    ((p = NULL ∧ H' = H ∧ m' = m ∧ ps_alloc np s = Ok (NULL, s')) ∨
     (∃ a, p = a + HDR ∧ p ≠ NULL ∧ H' = add_big H a np ∧ size + HDR ≤ PAGE_SIZE * np ∧ outside a 16 a 16 m m' ∧ (a, np) ∈ L' ∧ Forall (run_apart (a, np)) L)).
Proof using.
  intros R [Hs Hmod] np. assert (Hnp : size / PAGE_SIZE + 1 < 2147483648) by (unfold PAGE_SIZE in *; word_lia). unfold kmalloc. rewrite (proj2 (Z.eqb_neq _ 0)) by lia.
  assert (Hnone : find_pool NUM_POOLS 0 size pools m = None).
  { unfold NUM_POOLS, find_pool, HDR. unfold PAGE_SIZE in Hs. rewrite u64_small by lia. rewrite !(hr_size _ _ _ _ _ R) by lia.
    unfold bsize, block_sizes. cbn [nth Nat.add].
    repeat match goal with |- context [?x <=? ?y] => rewrite (proj2 (Z.leb_gt x y)) by lia end. done. }
  assert (Hq : 0 ≤ size / PAGE_SIZE) by (apply Z.div_pos; unfold PAGE_SIZE in *; lia).
  assert (Hi : ∀ x, 0 ≤ x < 2147483648 → i32 x = x).
  { intros x Hx. unfold i32, signed. change (2 ^ 32) with 4294967296. change (2 ^ (32 - 1)) with 2147483648.
    rewrite Z.mod_small by lia. by rewrite (proj2 (Z.ltb_lt _ _)) by lia. }
  rewrite Hnone, (Hi (size / PAGE_SIZE)) by lia. unfold truth. rewrite (proj2 (Z.eqb_neq (size mod PAGE_SIZE) 0)) by lia. cbn [negb].
  rewrite Hi by lia. fold np.
  destruct (ps_alloc_ok s L np (hr_inv _ _ _ _ _ R)) as (a & s' & E & Hcase); [lia|]. rewrite E, bind_Ok. cbn [fst snd].
  destruct Hcase as [[-> Hinv]|(Ha & HL & Hinv)].
  - cbn [Z.eqb NULL]. exists NULL, m, s', H, L. split; [done|]. split; [by destruct R; split|]. split; [done|]. by left.
  - rewrite (proj2 (Z.eqb_neq a NULL)) by done.
    destruct (big_ok pools m s H L a np s' R Ha ltac:(lia) HL Hinv) as [R' O'].
    pose proof (ps_runs _ _ Hinv) as HF. apply Forall_cons in HF as [(F1 & _ & F2) _].
    unfold run_end, PAGE_SIZE in F2. cbn [fst snd] in *. destruct (hr_pools _ _ _ _ _ R).
    rewrite u64_small by (unfold HDR; lia). eexists _, _, s', _, _. split; [done|]. split; [exact R'|]. split; [intros r Hr; by right|].
    right. exists a. split; [done|]. split; [unfold NULL, HDR; lia|]. split; [done|]. split; [|split; [done|split; [left|done]]].
    unfold np, HDR, PAGE_SIZE in *. word_lia.
Qed.

(** ** Theorems *)

Lemma kmalloc_small_ok (pools : Z) (m : mem) (s : PS) (H : heap) (L : list (Z * Z)) (size : Z) :
  heap_rep pools m s H L → 0 < size ≤ 2032 →
  ∃ p m' s' H' L', kmalloc pools size m s = Ok (p, (m', s')) ∧ heap_rep pools m' s' H' L' ∧ h_big H' = h_big H ∧ (∀ r, r ∈ L → r ∈ L') ∧
    ((p = NULL ∧ H' = H ∧ m' = m ∧ ps_alloc POOL_PAGE_INCREASE s = Ok (NULL, s')) ∨
     (∃ i, took H H' (p - HDR) i ∧ size + HDR ≤ bsize i ∧ clients_kept H m m' ∧ frame_kept pools L' m m' ∧ p ≠ NULL ∧
        (∀ b j, live H b j → apart p size b (bsize j)) ∧
        (∀ a n, (a, n) ∈ h_big H → apart p size a (PAGE_SIZE * n)))).
Proof using.
  intros R Hs. unfold kmalloc. rewrite (proj2 (Z.eqb_neq size 0)) by lia.
  destruct (find_pool_ok pools m s H L size R Hs) as (i & Ei & Hi & Hsz). rewrite Ei.
  destruct (kmalloc_alloc_ok pools m s H L i R Hi) as (b & m' & s' & H' & L' & E & R' & Hg & HLs & Hcase).
  rewrite E, bind_Ok. cbn [fst snd]. destruct Hcase as [(-> & -> & -> & Hnone)|(Hb & Ht & Hk & Hfr)].
  - cbn [Z.eqb NULL]. exists NULL, m, s', H, L'. split; [done|]. split; [done|]. split; [done|]. split; [done|]. by left.
  - rewrite (proj2 (Z.eqb_neq b NULL)) by done. pose proof Ht as (T1 & T2 & T3).
    pose proof T1 as [Tb _]. pose proof (block_range _ _ _ _ _ _ _ R' Tb) as (_ & B1 & B2 & B3 & B4).
    rewrite u64_small by (unfold HDR; lia).
    exists (b + HDR), m', s', H', L'. split; [done|]. split; [done|]. split; [done|]. split; [done|]. right. exists i.
    replace (b + HDR - HDR) with b by lia. split; [done|]. split; [done|]. split; [done|]. split; [done|].
    split; [unfold NULL, HDR; lia|]. split.
    + intros c j Hc. assert (Hc' : live H' c j) by (apply T3; by left). destruct Hc' as [Hc' _].
      destruct (decide ((b, i) = (c, j))) as [[= <- <-]|Hne]; [done|].
      pose proof (hr_bb _ _ _ _ _ R' b i c j Tb Hc' Hne). unfold apart, HDR in *. lia.
    + intros a n Ha. rewrite <- Hg in Ha. pose proof (hr_bg _ _ _ _ _ R' b i a n Tb Ha).
      unfold apart, HDR in *. lia.
Qed.


(** C36: [kfree] of a live block makes exactly that block free, keeps every
    other client's contents, and the next request that needs a block of the
    same pool gets it back. *)
Theorem kfree_kmalloc_reuse (pools : Z) (m : mem) (s : PS) (H : heap) (L : list (Z * Z)) (b : Z) (i : nat) (size : Z) :
  heap_rep pools m s H L → live H b i →
  0 < size → find_pool NUM_POOLS 0 size pools m = Some i →
  ∃ m1, kfree (b + HDR) m s = Ok (m1, s) ∧
    let H1 := set_free H i (b :: h_free H i) in
    heap_rep pools m1 s H1 L ∧ clients_kept H1 m m1 ∧
    (∀ c j, live H1 c j ↔ live H c j ∧ (c, j) ≠ (b, i)) ∧
    ∃ m2, kmalloc pools size m1 s = Ok (b + HDR, (m2, s)).
Proof using.
  intros R Hl Hs Hfp. rewrite (kfree_block _ _ _ _ _ _ _ R Hl). eexists. split; [done|]. cbv zeta.
  destruct (put_block_ok _ _ _ _ _ _ _ R Hl) as [R1 K1]. cbv zeta in R1, K1.
  set (m1 := wr64 _ (pool_at pools i + 8) b) in *. split; [done|]. split; [done|].
  destruct Hl as [Hb Hnf]. pose proof (block_range _ _ _ _ _ _ _ R Hb) as (Hi & B1 & B2 & B3 & B4).
  split.
  - intros c j. unfold live. cbn [set_free h_blocks h_free]. case_decide as E; [subst j|].
    + rewrite not_elem_of_cons. split; [intros (? & ? & ?); split; [done|congruence]|].
      intros [[? ?] Hne]. split; [done|]. split; [congruence|done].
    + split; [intros [? ?]; split; [done|congruence]|tauto].
  - unfold kmalloc. rewrite (proj2 (Z.eqb_neq size 0)) by lia.
    assert (Hfp1 : find_pool NUM_POOLS 0 size pools m1 = Some i).
    { rewrite <- Hfp. unfold NUM_POOLS, find_pool. by rewrite !(hr_size _ _ _ _ _ R1), !(hr_size _ _ _ _ _ R) by lia. }
    rewrite Hfp1. unfold kmalloc_alloc.
    assert (Hf : h_free (set_free H i (b :: h_free H i)) i = b :: h_free H i) by
      (cbn [set_free h_free]; by rewrite decide_True).
    destruct (take_first _ _ _ _ _ _ _ _ R1 Hi Hf) as [Hbn Hh]. rewrite Hh.
    rewrite (proj2 (Z.eqb_neq b NULL)) by done. rewrite bind_Ok. cbn [fst snd].
    change (0 <? 0) with false. cbn iota. rewrite Hh, (proj2 (Z.eqb_neq b NULL)) by done.
    rewrite bind_Ok. cbn [fst snd]. rewrite (proj2 (Z.eqb_neq b NULL)) by done.
    rewrite u64_small by (unfold HDR; lia). by eexists.
Qed.


(** The size check of [kmalloc] adds the header size in 64 bits: the 16
    largest sizes wrap around and are served from the pool of 32-byte blocks. *)
Theorem kmalloc_size_wraps (pools : Z) (m : mem) (s : PS) (H : heap) (L : list (Z * Z)) (size : Z) :
  heap_rep pools m s H L → 18446744073709551616 - 16 ≤ size < 18446744073709551616 →
  ∃ p m' s' H' L', kmalloc pools size m s = Ok (p, (m', s')) ∧ heap_rep pools m' s' H' L' ∧
    (p = NULL ∨ live H' (p - HDR) 0 ∧ bsize 0 = 32).
Proof using.
  intros R Hs. unfold kmalloc. rewrite (proj2 (Z.eqb_neq size 0)) by lia.
  assert (Hf : find_pool NUM_POOLS 0 size pools m = Some 0%nat).
  { unfold NUM_POOLS, find_pool. rewrite (hr_size _ _ _ _ _ R) by lia.
    change (bsize 0) with 32. rewrite (proj2 (Z.leb_le _ 32)); [done|]. unfold u64, HDR.
    replace (size + 16) with (size + 16 - 18446744073709551616 + 1 * 18446744073709551616) by lia.
    rewrite Z.mod_add, Z.mod_small by lia. lia. }
  rewrite Hf. destruct (kmalloc_alloc_ok pools m s H L 0 R ltac:(lia)) as (b & m' & s' & H' & L' & E & R' & Hg & _ & Hcase).
  rewrite E, bind_Ok. cbn [fst snd]. destruct Hcase as [(-> & -> & -> & Hnone)|(Hb & Ht & Hk & _)].
  - cbn [Z.eqb NULL]. eexists _, _, _, _, _. split; [done|]. split; [done|]. by left.
  - rewrite (proj2 (Z.eqb_neq b NULL)) by done. destruct Ht as (T1 & _).
    pose proof T1 as [Tb _]. pose proof (block_range _ _ _ _ _ _ _ R' Tb) as (_ & B1 & B2 & B3 & B4).
    rewrite u64_small by (unfold HDR; lia).
    eexists _, _, _, _, _. split; [done|]. split; [done|]. right.
    replace (b + HDR - HDR) with b by lia. done.
Qed.
End Heap.

(** ** mmu.c as a source of pages *)

Definition pages_inv (k : kstate) (L : list (Z * Z)) : Prop :=
  (∃ A q, vm_rep (k_vm k) A q) ∧
  MMAP_KERNEL_HEAP_START ≤ heap_next k ≤ MMAP_KERNEL_HEAP_END ∧ heap_next k mod PAGE_SIZE = 0 ∧
  Forall (fun r => MMAP_KERNEL_HEAP_START ≤ r.1 ∧ 0 < r.2 ∧ run_end r ≤ heap_next k) L.

Lemma alloc_page_inv k :
  pages_inv k [] → ∃ a k', MMU_alloc_page k = Ok (a, k') ∧ pages_inv k' [] ∧
    ((a = NULL ∧ heap_next k' = heap_next k) ∨
     (a ≠ NULL ∧ a = heap_next k ∧ heap_next k' = a + PAGE_SIZE)).
Proof.
  intros ((A & q & Hr) & Hb & Ha & _). unfold MMU_alloc_page.
  destruct (next_kernel_heap_vaddr (v_fa (k_vm k)) =? MMAP_KERNEL_HEAP_END) eqn:E.
  - eexists _, _. split; [done|]. split; [|by left]. split; [|done]. exists A, q. by destruct Hr.
  - bool_cases. fold (heap_next k) in *. set (h := heap_next k) in *.
    set (s1 := vm_set_fa (k_vm k) (set_heap_next (v_fa (k_vm k)) (u64 (h + PAGE_SIZE)))).
    assert (Hr1 : vm_rep s1 A q) by (by apply vm_rep_vnext).
    unfold MMAP_KERNEL_HEAP_START, MMAP_KERNEL_HEAP_END, P4_PTE_ADDRESSES, PAGE_SIZE in *.
    destruct (PT_demand_allocate_ok h s1 A q) as (ret & s' & A' & q' & E1 & R' & _);
      [apply kernel_addr_range; lia|done|].
    fold s1. rewrite E1, bind_Ok. cbn [snd]. pose proof (PT_demand_allocate_vnext _ _ _ _ E1) as Hv.
    unfold s1, vnext in Hv. cbn in Hv. injection Hv as _ Hv _. rewrite u64_small in Hv by lia.
    eexists _, _. split; [done|]. split.
    + split; [by exists A', q'|]. unfold heap_next. cbn [k_vm]. rewrite Hv.
      unfold MMAP_KERNEL_HEAP_START, MMAP_KERNEL_HEAP_END, P4_PTE_ADDRESSES. split; [word_lia|].
      split; [unfold PAGE_SIZE; word_lia|done].
    + right. split; [unfold NULL; lia|]. done.
Qed.

Lemma alloc_loop_inv n k :
  pages_inv k [] → ∃ b k', alloc_pages_loop n k = Ok (b, k') ∧ pages_inv k' [] ∧
    heap_next k ≤ heap_next k' ∧ (b = true → heap_next k' = heap_next k + PAGE_SIZE * Z.of_nat n).
Proof.
  revert k. induction n as [|n IH]; intros k Hk; cbn [alloc_pages_loop].
  - exists true, k. split; [done|]. split; [done|]. split; [lia|]. intros. lia.
  - destruct (alloc_page_inv k Hk) as (a & k1 & E & K1 & Hc). rewrite E, bind_Ok. cbn [fst snd].
    destruct Hc as [[-> Hh]|(Ha & E1 & Hh)].
    + cbn [Z.eqb NULL]. exists false, k1. split; [done|]. split; [done|]. split; [lia|done].
    + rewrite (proj2 (Z.eqb_neq a NULL)) by done.
      destruct (IH k1 K1) as (b & k2 & E2 & K2 & Hle & Hb). exists b, k2. split; [done|]. split; [done|].
      unfold PAGE_SIZE in *. split; [lia|]. intros Ht. rewrite (Hb Ht). lia.
Qed.

Lemma pages_inv_mono k k' L :
  pages_inv k L → pages_inv k' [] → heap_next k ≤ heap_next k' → pages_inv k' L.
Proof.
  intros (_ & _ & _ & HF) (H1 & H2 & H3 & _) Hle. split; [done|]. split; [done|]. split; [done|].
  eapply Forall_impl; [exact HF|]. cbn. intros r. lia.
Qed.

Lemma MMU_alloc_pages_inv k L n :
  pages_inv k L → 0 < n < 2147483648 →
  ∃ a k', MMU_alloc_pages n k = Ok (a, k') ∧
    ((a = NULL ∧ pages_inv k' L) ∨ (a ≠ NULL ∧ Forall (run_apart (a, n)) L ∧ pages_inv k' ((a, n) :: L))).
Proof.
  intros HL Hn. unfold MMU_alloc_pages. rewrite (proj2 (Z.leb_gt n 0)) by lia.
  set (k0 := mkK (k_vm k) (IRQ_disable (k_irq k))).
  assert (H0 : pages_inv k0 []) by (destruct HL as (X1 & X2 & X3 & _); split; [exact X1|]; split; [exact X2|]; split; [exact X3|done]).
  destruct (alloc_page_inv k0 H0) as (a & k1 & E & K1 & Hc). rewrite E, bind_Ok. cbn [fst snd].
  assert (Hh0 : heap_next k0 = heap_next k) by done. rewrite Hh0 in Hc.
  destruct Hc as [[-> Hh]|(Ha & E1 & Hh)].
  { cbn [Z.eqb NULL]. eexists _, _. split; [done|]. left. split; [done|]. eapply pages_inv_mono; [done..|lia]. }
  rewrite (proj2 (Z.eqb_neq a NULL)) by done.
  destruct (alloc_loop_inv (Z.to_nat (n - 1)) k1 K1) as (b & k2 & E2 & K2 & Hle & Hb). rewrite E2, bind_Ok. cbn [fst snd].
  assert (HL2 : pages_inv k2 L) by (eapply pages_inv_mono; [done..|unfold PAGE_SIZE in *; lia]).
  destruct b; cbn [negb]; eexists _, _; (split; [done|]); [right|by left].
  split; [done|]. specialize (Hb eq_refl). rewrite Z2Nat.id in Hb by lia.
  destruct HL as (_ & HB & HA & HF). split.
  - eapply Forall_impl; [exact HF|]. intros r (_ & _ & Hr). right. cbn. lia.
  - destruct HL2 as (X1 & X2 & X3 & X4). split; [done|]. split; [done|]. split; [done|].
    constructor; [|done]. unfold run_end. cbn [fst snd].
    change (heap_next {| k_vm := k_vm k2; k_irq := IRQ_enable (k_irq k2) |}) with (heap_next k2).
    unfold PAGE_SIZE in *. lia.
Qed.

Lemma MMU_free_pages_inv k L a n :
  pages_inv k ((a, n) :: L) → pages_inv (mkK (MMU_free_pages a n (k_vm k)) (k_irq k)) L.
Proof.
  intros ((A & q & Hr) & HB & HA & HF). apply Forall_cons in HF as [(F1 & F2 & F3) HF].
  unfold run_end in F3. cbn [fst snd] in *.
  destruct (free_pages_loop_ok (Z.to_nat n) 0 a (k_vm k) A q Hr) as (A' & q' & R' & _ & V' & _).
  { intros j Hj. unfold MMAP_KERNEL_HEAP_START, MMAP_KERNEL_HEAP_END, P4_PTE_ADDRESSES, PAGE_SIZE in *.
    rewrite u64_small by lia. apply kernel_addr_range. lia. }
  assert (Hh : heap_next (mkK (MMU_free_pages a n (k_vm k)) (k_irq k)) = heap_next k).
  { unfold heap_next. cbn [k_vm]. unfold MMU_free_pages. unfold vnext in V'. by injection V' as _ V' _. }
  split; [by exists A', q'|]. rewrite Hh. done.
Qed.

#[export, program] Instance mmu_pages : PageSource kstate := {|
  ps_alloc := MMU_alloc_pages;
  ps_free a n k := Ok (mkK (MMU_free_pages a n (k_vm k)) (k_irq k));
  ps_base := MMAP_KERNEL_HEAP_START;
  ps_inv := pages_inv
|}.
Next Obligation. intros s L L' HP (H1 & H2 & H3 & H4). by rewrite HP in H4. Qed.
Next Obligation.
  intros s L (_ & H2 & _ & H4). eapply Forall_impl; [exact H4|]. intros r (? & ? & ?).
  unfold MMAP_KERNEL_HEAP_START, MMAP_KERNEL_HEAP_END, P4_PTE_ADDRESSES in *. lia.
Qed.
Next Obligation. exact MMU_alloc_pages_inv. Qed.
Next Obligation. intros s L a n HL. eexists. split; [done|]. by apply MMU_free_pages_inv. Qed.

(** ** A concrete heap *)

(** Initialised pools at 0x200000 and one live 32-byte block, the first of a
    run of four pages at the start of the heap. *)
Definition demo_pools : Z := 0x200000.
Definition demo_heap_mem : mem :=
  wr64 (fold_left (fun m i => wr64 m (pool_at demo_pools i) (bsize i)) (seq 0 6) ∅)
    MMAP_KERNEL_HEAP_START (pool_at demo_pools 0).
Definition demo_source : kstate :=
  mkK (mkVM ∅ (with_vnext demo_frames 0x1000 (MMAP_KERNEL_HEAP_START + 0x4000)
         (MMAP_KERNEL_STACKS_END - 8)) 0x1000 []) (mkIrqs [] 0 true []).
Definition demo_heap : heap := mkHeap [(MMAP_KERNEL_HEAP_START, 0%nat)] (fun _ => []) [].

Lemma demo_heap_rep :
  heap_rep demo_pools demo_heap_mem demo_source demo_heap [(MMAP_KERNEL_HEAP_START, 4)].
Proof.
  split; cbn [h_blocks h_free h_big demo_heap].
  - split; [exists demo_root, demo_queue; apply (vm_rep_vnext demo_vm), demo_vm_rep|].
    split; [vm_compute; split; congruence|]. split; [done|].
    constructor; [vm_compute; repeat split; congruence|done].
  - vm_compute. split; congruence.
  - intros i Hi. do 6 (destruct i as [|i]; [vm_compute; reflexivity|]). lia.
  - intros i Hi. do 6 (destruct i as [|i]; [vm_compute; reflexivity|]). lia.
  - by intros i b _ ?%elem_of_nil.
  - intros. constructor.
  - intros b i [= -> ->]%list_elem_of_singleton. split; [lia|]. vm_compute. reflexivity.
  - intros b i [= -> ->]%list_elem_of_singleton. exists (MMAP_KERNEL_HEAP_START, 4).
    split; [by apply list_elem_of_singleton|]. vm_compute. split; congruence.
  - by intros b i b' j [= -> ->]%list_elem_of_singleton [= -> ->]%list_elem_of_singleton.
  - by intros a n ?%elem_of_nil.
  - by intros b i a n _ ?%elem_of_nil.
  - by intros a n a' n' ?%elem_of_nil.
  - constructor.
Qed.


Lemma kfree_kmalloc_reuse_witness :
  ∃ m1 r, kfree (MMAP_KERNEL_HEAP_START + HDR) demo_heap_mem demo_source = Ok (m1, demo_source) ∧
    kmalloc demo_pools 10 m1 demo_source = Ok (MMAP_KERNEL_HEAP_START + HDR, r).
Proof.
  destruct (kfree_kmalloc_reuse demo_pools demo_heap_mem demo_source demo_heap
    [(MMAP_KERNEL_HEAP_START, 4)] MMAP_KERNEL_HEAP_START 0 10 demo_heap_rep) as (m1 & H1 & _ & _ & _ & m2 & H2).
  - split; [by apply list_elem_of_singleton|apply not_elem_of_nil].
  - lia.
  - vm_compute. reflexivity.
  - exists m1, (m2, demo_source). by split.
Defined.


Lemma kmalloc_size_wraps_witness :
  ∃ p r, kmalloc demo_pools (2 ^ 64 - 1) demo_heap_mem demo_source = Ok (p, r).
Proof.
  destruct (kmalloc_size_wraps demo_pools demo_heap_mem demo_source demo_heap
    [(MMAP_KERNEL_HEAP_START, 4)] (2 ^ 64 - 1) demo_heap_rep ltac:(lia)) as (p & m' & s' & H' & L' & H1 & _).
  exists p, (m', s'). exact H1.
Defined.
