(* ===== verification/Objects.v ===== *)
(** * Objects on the kernel heap

    What the clients of kmalloc.c rely on, stated once: an object that
    [kmalloc] returned is [owned], owned objects do not overlap, and stores to
    owned objects and to static memory leave the heap intact. *)

From S2P Require Import Prelude Memory CString LinkedList Segments Frames Machine Irq Paging Mmu Kmalloc.

Section Objects.
Context {PS : Type} `{Hps : PageSource PS}.

(** [p] points at the [n] bytes of an object that was allocated and not freed. *)
Definition owned (H : heap) (p n : Z) : Prop :=
  0 < n ∧ ((∃ i, live H (p - HDR) i ∧ n + HDR ≤ bsize i) ∨
           (∃ k, (p - HDR, k) ∈ h_big H ∧ n + HDR ≤ PAGE_SIZE * k)).

(** A static object: below the heap's pages and clear of the pool descriptors. *)
Definition static (pools a n : Z) : Prop := 0 < a ∧ a + n ≤ ps_base ∧ apart a n pools 96.

(** Where an object lies: inside a run of pages, behind its header. *)
Lemma owned_in pools m s H L p n :
  heap_rep pools m s H L → owned H p n → ∃ r, r ∈ L ∧ r.1 ≤ p - HDR ∧ p + n ≤ run_end r.
Proof using.
  intros R [Hn [(i & [Hb _] & Hs)|(k & Hk & Hs)]].
  - destruct (hr_in _ _ _ _ _ R _ _ Hb) as (r & Hr & X1 & X2). exists r. split; [done|]. lia.
  - destruct (hr_big _ _ _ _ _ R _ _ Hk) as (Hr & _). exists (p - HDR, k). split; [done|]. unfold run_end. cbn [fst snd]. lia.
Qed.

Lemma owned_le H p n k : owned H p n → 0 < k ≤ n → owned H p k.
Proof using. intros [Hn [(i & Hl & Hs)|(u & Hu & Hs)]] Hk; (split; [lia|]); [left; exists i|right; exists u]; (split; [done|lia]). Qed.

Lemma owned_range pools m s H L p n :
  heap_rep pools m s H L → owned H p n →
  0 < p ∧ 0 ≤ pools ∧ pools + 96 + HDR ≤ p ∧ ps_base ≤ p ∧ p + n < 281474976710656 ∧ 0 < n.
Proof using.
  intros R Ho. destruct (owned_in _ _ _ _ _ _ _ R Ho) as (r & Hr & X1 & X2). destruct Ho as [Hn _].
  pose proof (ps_runs _ _ (hr_inv _ _ _ _ _ R)) as HF. rewrite Forall_forall in HF. destruct (HF r Hr) as (F1 & _ & F3).
  destruct (hr_pools _ _ _ _ _ R). unfold HDR in *. lia.
Qed.

Lemma owned_apart pools m s H L p n q k :
  heap_rep pools m s H L → owned H p n → owned H q k → p ≠ q → apart p n q k.
Proof using.
  intros R [Hn [(i & [Hb _] & Hs)|(u & Hu & Hs)]] [Hk [(j & [Hc _] & Ht)|(v & Hv & Ht)]] Hne.
  - assert (Hne' : (p - HDR, i) ≠ (q - HDR, j)) by (intros [= E _]; lia).
    pose proof (hr_bb _ _ _ _ _ R _ _ _ _ Hb Hc Hne'). unfold apart, HDR in *. lia.
  - pose proof (hr_bg _ _ _ _ _ R _ _ _ _ Hb Hv). unfold apart, HDR in *. lia.
  - pose proof (hr_bg _ _ _ _ _ R _ _ _ _ Hc Hu). unfold apart, HDR in *. lia.
  - assert (Hne' : (p - HDR, u) ≠ (q - HDR, v)) by (intros [= E _]; lia).
    pose proof (hr_gg _ _ _ _ _ R _ _ _ _ Hu Hv Hne'). unfold apart, HDR in *. lia.
Qed.

Lemma owned_static pools m s H L p n a k :
  heap_rep pools m s H L → owned H p n → static pools a k → apart p n a k.
Proof using.
  intros R Ho (S1 & S2 & S3). pose proof (owned_range _ _ _ _ _ _ _ R Ho). unfold apart. lia.
Qed.

(** The heap reads only the pool descriptors and the headers of its blocks. *)
Lemma heap_rep_ext pools m m' s H L :
  heap_rep pools m s H L →
  (∀ x, pools ≤ x < pools + 96 → rd8 m' x = rd8 m x) →
  (∀ b i x, (b, i) ∈ h_blocks H → b ≤ x < b + HDR → rd8 m' x = rd8 m x) →
  (∀ a n x, (a, n) ∈ h_big H → a ≤ x < a + HDR → rd8 m' x = rd8 m x) →
  heap_rep pools m' s H L.
Proof using.
  intros R Hp Hb Hg.
  assert (Hpool : ∀ i, (i < 6)%nat → rd64 m' (pool_at pools i) = rd64 m (pool_at pools i) ∧
    rd64 m' (pool_at pools i + 8) = rd64 m (pool_at pools i + 8)).
  { intros i Hi. split; apply rd_le_ext; intros x Hx; cbn in Hx; apply Hp; unfold pool_at in *; lia. }
  assert (Hhdr : ∀ b i, (b, i) ∈ h_blocks H → rd64 m' b = rd64 m b ∧ rd64 m' (b + 8) = rd64 m (b + 8)).
  { intros b i Hi. split; apply rd_le_ext; intros x Hx; cbn in Hx; apply (Hb b i x Hi); unfold HDR; lia. }
  assert (Hbig : ∀ a n, (a, n) ∈ h_big H → rd64 m' a = rd64 m a ∧ rd64 m' (a + 8) = rd64 m (a + 8)).
  { intros a n Hi. split; apply rd_le_ext; intros x Hx; cbn in Hx; apply (Hg a n x Hi); unfold HDR; lia. }
  destruct R as [R1 R2 R3 R4 R5 R6 R7 R8 R9 R10 R11 R12 R13].
  split; try done; unfold pool_size, free_head, block_pool, block_next in *.
  - intros i Hi. destruct (Hpool i Hi) as [-> _]. by apply R3.
  - intros i Hi. destruct (Hpool i Hi) as [_ ->]. eapply chain8_ext; [|by apply R4].
    intros b Hb'. unfold block_next. by destruct (Hhdr b i (R5 i b Hi Hb')) as [_ ->].
  - intros b i Hi. destruct (Hhdr b i Hi) as [-> _]. by apply R7.
  - intros a n Ha. destruct (Hbig a n Ha) as [-> ->]. by apply R10.
Qed.

(** [x] belongs to a client or to static memory. *)
Definition client_byte (pools : Z) (H : heap) (x : Z) : Prop :=
  ∃ p n, (owned H p n ∨ static pools p n) ∧ p ≤ x < p + n.

Lemma client_byte_owned pools H p n x : owned H p n → p ≤ x < p + n → client_byte pools H x.
Proof using. intros Ho Hx. exists p, n. split; [by left|done]. Qed.

Lemma client_byte_static pools H p n x : static pools p n → p ≤ x < p + n → client_byte pools H x.
Proof using. intros Ho Hx. exists p, n. split; [by right|done]. Qed.

(** Stores to such bytes are not seen by the heap. *)
Lemma heap_rep_writes pools m m' s H L :
  heap_rep pools m s H L → (∀ x, rd8 m' x ≠ rd8 m x → client_byte pools H x) → heap_rep pools m' s H L.
Proof using.
  intros R Hm.
  assert (Hkeep : ∀ x, (∀ p n, owned H p n ∨ static pools p n → ¬ (p ≤ x < p + n)) → rd8 m' x = rd8 m x).
  { intros x Hx. destruct (decide (rd8 m' x = rd8 m x)) as [|Hne]; [done|].
    destruct (Hm x Hne) as (p & n & Hp & Hin). by destruct (Hx p n Hp). }
  apply (heap_rep_ext _ m); [done|..].
  - intros x Hx. apply Hkeep. intros p n [Hp|(S1 & S2 & S3)].
    + pose proof (owned_range _ _ _ _ _ _ _ R Hp). unfold HDR in *. lia.
    + unfold apart in S3. lia.
  - intros b i x Hb Hx. apply Hkeep. intros p n Hp.
    pose proof (block_range _ _ _ _ _ _ _ R Hb) as (Hi & B1 & B2 & B3 & B4).
    destruct Hp as [[Hn [(j & [Hc _] & Hs)|(k & Hk & Hs)]]|(S1 & S2 & S3)].
    + destruct (decide ((p - HDR, j) = (b, i))) as [[= <- <-]|Hne]; [lia|].
      pose proof (hr_bb _ _ _ _ _ R _ _ _ _ Hc Hb Hne). unfold apart, HDR in *. lia.
    + pose proof (hr_bg _ _ _ _ _ R _ _ _ _ Hb Hk). unfold apart, HDR, PAGE_SIZE in *. lia.
    + destruct (hr_in _ _ _ _ _ R _ _ Hb) as (r & Hr & X1 & X2).
      pose proof (ps_runs _ _ (hr_inv _ _ _ _ _ R)) as HF. rewrite Forall_forall in HF. destruct (HF r Hr) as (F1 & _). lia.
  - intros a k x Ha Hx. apply Hkeep. intros p n Hp. pose proof (big_range _ _ _ _ _ _ _ R Ha) as (_ & G2 & G3 & G4).
    destruct (hr_big _ _ _ _ _ R _ _ Ha) as (GL & _).
    pose proof (ps_runs _ _ (hr_inv _ _ _ _ _ R)) as HF. rewrite Forall_forall in HF. destruct (HF _ GL) as (F1 & _). cbn in F1.
    destruct Hp as [[Hn [(j & [Hc _] & Hs)|(v & Hv & Hs)]]|(S1 & S2 & S3)]; [| |lia].
    + pose proof (hr_bg _ _ _ _ _ R _ _ _ _ Hc Ha). unfold apart, HDR, PAGE_SIZE in *. lia.
    + destruct (decide ((p - HDR, v) = (a, k))) as [[= <- <-]|Hne]; [lia|].
      pose proof (hr_gg _ _ _ _ _ R _ _ _ _ Hv Ha Hne). unfold apart, HDR, PAGE_SIZE in *. lia.
Qed.

Lemma heap_rep_write pools m m' s H L p n :
  heap_rep pools m s H L → owned H p n ∨ static pools p n → only_in p n m m' → heap_rep pools m' s H L.
Proof using.
  intros R Hp Hm. eapply heap_rep_writes; [exact R|]. intros x Hx. exists p, n. split; [done|].
  destruct (decide (p ≤ x < p + n)) as [|Hout]; [done|]. by destruct (Hx (Hm x Hout)).
Qed.

(** Appending an object to a static list of objects. *)
Lemma enqueue_object pools m s H L list off n ds new :
  heap_rep pools m s H L → list_rep m list off ds → (∀ d, d ∈ ds ++ [new] → owned H d n) → new ∉ ds →
  off + 16 ≤ n → static pools list 24 →
  let m' := LL_enqueue m list new in
  list_rep m' list off (ds ++ [new]) ∧ heap_rep pools m' s H L ∧
  (∀ x, (∀ d, d ∈ ds ++ [new] → ¬ (d + off ≤ x < d + off + 16)) → ¬ (list ≤ x < list + 16) → rd8 m' x = rd8 m x) ∧
  (∀ d x, d ∈ ds ++ [new] → d ≤ x < d + n → ¬ (d + off ≤ x < d + off + 16) → rd8 m' x = rd8 m x).
Proof using.
  intros R Rl Ho Hnew Hn Hst m'. pose proof (lr_off_range _ _ _ _ Rl) as Hoff.
  assert (Hap : ∀ d e, d ∈ ds ++ [new] → e ∈ ds ++ [new] → d ≠ e → apart d n e n).
  { intros d e Hd He Hne. by apply (owned_apart _ _ _ _ _ _ _ _ _ R (Ho d Hd) (Ho e He)). }
  assert (Hs : ∀ d, d ∈ ds ++ [new] → apart d n list 24) by (intros d Hd; exact (owned_static _ _ _ _ _ _ _ _ _ R (Ho d Hd) Hst)).
  assert (Hin : new ∈ ds ++ [new]) by (apply elem_of_app; right; left).
  pose proof (owned_range _ _ _ _ _ _ _ R (Ho new Hin)) as (G1 & _ & _ & _ & G2 & _).
  assert (Hl : linkable list off ds new).
  { split; [lia|]. split; [unfold valid_hdr; lia|]. split; [specialize (Hs new Hin); unfold apart in *; lia|].
    apply Forall_forall. intros d Hd.
    assert (A : apart new n d n) by (apply Hap; [done|apply elem_of_app; by left|by intros ->]).
    unfold sep16, apart in *. lia. }
  destruct (LL_append_rep m list off ds new Rl Hl) as [R3 O3]. fold (LL_enqueue m list new) in R3, O3. fold m' in R3, O3.
  assert (K : ∀ x, (∀ d, d ∈ ds ++ [new] → ¬ (d + off ≤ x < d + off + 16)) → ¬ (list ≤ x < list + 16) → rd8 m' x = rd8 m x).
  { intros x X1 X2. apply O3. intros h [->|(d & -> & Hd)%list_elem_of_fmap]%elem_of_cons; [done|by apply X1]. }
  split; [done|]. split; [|split; [done|]].
  - eapply heap_rep_writes; [exact R|]. intros x Hx.
    destruct (decide (list ≤ x < list + 24)) as [Hx1|Hx1]; [by apply (client_byte_static _ _ list 24)|].
    destruct (decide (Exists (fun d => d + off ≤ x < d + off + 16) (ds ++ [new]))) as [He|Hne].
    + apply Exists_exists in He as (d & Hd & Hx2). apply (client_byte_owned _ _ d n); [by apply Ho|lia].
    + destruct Hx. apply K; [|lia]. intros d Hd Hx2. apply Hne, Exists_exists. by exists d.
  - intros d x Hd Hx Hno. apply K.
    + intros e He Hx2. destruct (decide (d = e)) as [->|Hne]; [done|]. pose proof (Hap d e Hd He Hne) as A. unfold apart in A. lia.
    + specialize (Hs d Hd). unfold apart in Hs. lia.
Qed.

(** What [kmalloc] gives a client: NULL and nothing changed, or a new object
    that no other object and no static memory meets, all of which keep their
    contents. *)
Definition new_object (pools : Z) (H H' : heap) (m m' : mem) (p n : Z) : Prop :=
  owned H' p n ∧
  (∀ q k, owned H q k → owned H' q k ∧ p ≠ q ∧ ∀ x, q ≤ x < q + k → rd8 m' x = rd8 m x) ∧
  (∀ a k x, static pools a k → a ≤ x < a + k → rd8 m' x = rd8 m x).

Definition request_ok (size : Z) : Prop := 0 < size ≤ 2032 ∨ fits_pages size.

(** Small requests, with the block behind the object. *)
Lemma kmalloc_small_block pools m s H L size :
  heap_rep pools m s H L → 0 < size ≤ 2032 →
  ∃ p m' s' H' L', kmalloc pools size m s = Ok (p, (m', s')) ∧ heap_rep pools m' s' H' L' ∧
    ((p = NULL ∧ H' = H ∧ m' = m ∧ ∃ np, ps_alloc np s = Ok (NULL, s')) ∨
     (p ≠ NULL ∧ new_object pools H H' m m' p size ∧ ∃ i, took H H' (p - HDR) i)).
Proof using.
  intros R Hs.
  destruct (kmalloc_small_ok pools m s H L size R Hs) as (p & m' & s' & H' & L' & E & R' & Hbig & HL & Hc).
  exists p, m', s', H', L'. split; [done|]. split; [done|].
  destruct Hc as [(? & ? & ? & ?)|(i & (T1 & T2 & T3) & Hsz & [K1 K2] & Hf & Hp & _)]; [left; eauto|]. right. split; [done|].
  split; [|by exists i].
  split; [split; [lia|left; exists i; by split]|]. split.
  - intros q k [Hk [(j & Hq & Hkz)|(v & Hv & Hkz)]].
    + split; [split; [done|left; exists j; split; [apply T3; by left|done]]|]. split.
      * intros <-. apply T2. destruct T1 as [T1 _]. assert (Hq' : live H' (p - HDR) j) by (apply T3; by left).
        destruct Hq' as [Hq' _]. by rewrite (block_same _ _ _ _ _ _ _ _ R' T1 Hq').
      * intros x Hx. apply (K1 (q - HDR) j x Hq). unfold HDR in *. lia.
    + split; [split; [done|right; exists v; by rewrite Hbig]|]. split.
      * intros <-. rewrite <- Hbig in Hv. destruct T1 as [T1 _]. pose proof (hr_bg _ _ _ _ _ R' _ _ _ _ T1 Hv) as A.
        unfold apart, HDR in *. lia.
      * intros x Hx. apply (K2 (q - HDR) v x Hv). unfold HDR in *. lia.
  - intros a k x (S1 & S2 & S3) Hx. apply Hf; [unfold apart in S3; lia|]. intros r Hr.
    pose proof (ps_runs _ _ (hr_inv _ _ _ _ _ R')) as HF. rewrite Forall_forall in HF. destruct (HF r Hr) as (F1 & _). lia.
Qed.

(** Giving a small object back. *)
Lemma kfree_object pools m s H L p i :
  heap_rep pools m s H L → live H (p - HDR) i →
  ∃ m' H', kfree p m s = Ok (m', s) ∧ heap_rep pools m' s H' L ∧
    (∀ q k, owned H q k → q ≠ p → owned H' q k ∧ ∀ x, q ≤ x < q + k → rd8 m' x = rd8 m x) ∧
    (∀ a k x, static pools a k → a ≤ x < a + k → rd8 m' x = rd8 m x) ∧ (∀ k, ¬ owned H' p k) ∧
    (∀ b j, live H' b j ↔ live H b j ∧ b ≠ p - HDR).
Proof using.
  intros R Hl. pose proof (kfree_block _ _ _ _ _ _ _ R Hl) as E. rewrite Z.sub_add in E.
  destruct (put_block_ok _ _ _ _ _ _ _ R Hl) as [R1 [K1 K2]]. cbv zeta in *.
  set (b := p - HDR) in *. set (H' := set_free H i (b :: h_free H i)) in *.
  destruct Hl as [Hb Hnf]. pose proof (block_range _ _ _ _ _ _ _ R Hb) as (Hi & B1 & B2 & B3 & B4).
  assert (Hlive : ∀ c j, live H c j → c ≠ b → live H' c j).
  { intros c j [Hc Hn] Hne. split; [done|]. unfold H'. cbn [set_free h_free]. case_decide; [|done]. subst j.
    apply not_elem_of_cons. by split. }
  eexists _, H'. split; [exact E|]. split; [exact R1|]. split_and!.
  - intros q k [Hk [(j & Hq & Hkz)|(v & Hv & Hkz)]] Hne.
    + assert (Hq' : live H' (q - HDR) j) by (apply Hlive; [done|unfold b; lia]).
      split; [split; [done|left; by exists j]|]. intros x Hx. apply (K1 (q - HDR) j x Hq'). unfold HDR in *. lia.
    + split; [split; [done|right; by exists v]|]. intros x Hx. apply (K2 (q - HDR) v x Hv). unfold HDR in *. lia.
  - intros a k x (S1 & S2 & S3) Hx. destruct (hr_in _ _ _ _ _ R _ _ Hb) as (r & Hr & X1 & _).
    pose proof (ps_runs _ _ (hr_inv _ _ _ _ _ R)) as HF. rewrite Forall_forall in HF. destruct (HF r Hr) as (F1 & _).
    unfold wr64. rewrite !rd8_wr_le_out; [done|cbn; lia|unfold pool_at, apart in *; cbn; lia].
  - intros k [Hk [(j & [Hq Hnq] & Hkz)|(v & Hv & Hkz)]]; [change (p - HDR) with b in Hq, Hnq|change (p - HDR) with b in Hv].
    + apply Hnq. rewrite (block_same _ _ _ _ _ _ _ _ R Hq Hb). unfold H'. cbn [set_free h_free]. rewrite decide_True by done. left.
    + pose proof (hr_bg _ _ _ _ _ R _ _ _ _ Hb Hv) as A. unfold apart, HDR in *. lia.
  - intros c j. split; [|intros [? ?]; by apply Hlive]. unfold H'. intros [Hc Hn]. cbn [set_free h_free h_blocks] in *. case_decide as Ej.
    + subst j. apply not_elem_of_cons in Hn as [? ?]. by split.
    + split; [done|]. intros ->. by rewrite (block_same _ _ _ _ _ _ _ _ R Hb Hc) in Ej.
Qed.

Lemma kmalloc_object pools m s H L size :
  heap_rep pools m s H L → request_ok size →
  ∃ p m' s' H' L', kmalloc pools size m s = Ok (p, (m', s')) ∧ heap_rep pools m' s' H' L' ∧
    ((p = NULL ∧ H' = H ∧ m' = m ∧ ∃ np, ps_alloc np s = Ok (NULL, s')) ∨ (p ≠ NULL ∧ new_object pools H H' m m' p size)).
Proof using.
  intros R [Hs|Hs].
  - destruct (kmalloc_small_block pools m s H L size R Hs) as (p & m' & s' & H' & L' & E & R' & Hc).
    exists p, m', s', H', L'. split; [done|]. split; [done|]. destruct Hc as [?|(? & ? & _)]; [by left|by right].
  - destruct (kmalloc_large_ok pools m s H L size R Hs) as (p & m' & s' & H' & L' & E & R' & HL & Hc).
    exists p, m', s', H', L'. split; [done|]. split; [done|].
    destruct Hc as [(? & ? & ? & ?)|(a & -> & Hp & -> & Hsz & Ho & HaL & Hap)]; [left; eauto|]. right. split; [done|].
    set (np := size / PAGE_SIZE + 1) in *.
    assert (Hown : owned (add_big H a np) (a + HDR) size).
    { split; [unfold fits_pages in Hs; lia|right]. exists np. replace (a + HDR - HDR) with a by lia. split; [left|done]. }
    split; [done|]. split.
    + intros q k Hq. assert (Hq' : owned (add_big H a np) q k).
      { destruct Hq as [Hk [(j & Hq & Hkz)|(v & Hv & Hkz)]]; (split; [done|]); [left; exists j; by split|right; exists v; split; [by right|done]]. }
      assert (Hne : a + HDR ≠ q).
      { intros <-. destruct (owned_in _ _ _ _ _ _ _ R Hq) as (r & Hr & X1 & X2). destruct Hq as [Hk _].
        rewrite Forall_forall in Hap. specialize (Hap r Hr). unfold run_apart, run_end, HDR, fits_pages, PAGE_SIZE in *. cbn [fst snd] in *. lia. }
      split; [done|]. split; [done|]. intros x Hx.
      destruct (owned_in _ _ _ _ _ _ _ R Hq) as (r & Hr & X1 & X2). rewrite Forall_forall in Hap. specialize (Hap r Hr).
      unfold run_apart, run_end, HDR, fits_pages, PAGE_SIZE in *. cbn [fst snd] in *. apply Ho; lia.
    + intros b k x (S1 & S2 & S3) Hx. pose proof (ps_runs _ _ (hr_inv _ _ _ _ _ R')) as HF. rewrite Forall_forall in HF.
      destruct (HF _ HaL) as (F1 & _). cbn in F1. apply Ho; lia.
Qed.

Lemma kmalloc_small_object pools m s H L size :
  heap_rep pools m s H L → 0 < size ≤ 2032 →
  ∃ p m' s' H' L', kmalloc pools size m s = Ok (p, (m', s')) ∧ heap_rep pools m' s' H' L' ∧
    ((p = NULL ∧ H' = H ∧ m' = m ∧ ∃ np, ps_alloc np s = Ok (NULL, s')) ∨ (p ≠ NULL ∧ new_object pools H H' m m' p size)).
Proof using. intros R Hs. apply kmalloc_object with (1 := R). by left. Qed.
End Objects.

(** Of the kernel's state the heap sees only the page tables and counters. *)
Lemma heap_rep_kvm pools m k k' H L : k_vm k' = k_vm k → heap_rep pools m k H L → heap_rep pools m k' H L.
Proof. intros E [Q1 Q2]. split; [|done..]. revert Q1. unfold ps_inv. cbn. unfold pages_inv, heap_next. by rewrite E. Qed.

(** ** An example: a heap with one object of up to 112 bytes *)

Definition demo_object : Z := MMAP_KERNEL_HEAP_START + HDR.
Definition demo_block_mem (j : nat) : mem :=
  wr64 (fold_left (fun m i => wr64 m (pool_at demo_pools i) (bsize i)) (seq 0 6) ∅)
    MMAP_KERNEL_HEAP_START (pool_at demo_pools j).
Definition demo_block_heap (j : nat) : heap := mkHeap [(MMAP_KERNEL_HEAP_START, j)] (fun _ => []) [].

(** One live block of pool [j] at the start of the heap. *)
Lemma demo_block_rep j : (j < 6)%nat →
  heap_rep demo_pools (demo_block_mem j) demo_source (demo_block_heap j) [(MMAP_KERNEL_HEAP_START, 4)].
Proof.
  intros Hj. assert (Hc : j = 0%nat ∨ j = 1%nat ∨ j = 2%nat ∨ j = 3%nat ∨ j = 4%nat ∨ j = 5%nat) by lia.
  split; cbn [h_blocks h_free h_big demo_block_heap].
  - exact (hr_inv _ _ _ _ _ demo_heap_rep).
  - vm_compute. split; congruence.
  - intros i Hi. destruct_or! Hc; subst j; (do 6 (destruct i as [|i]; [vm_compute; reflexivity|]); lia).
  - intros i Hi. destruct_or! Hc; subst j; (do 6 (destruct i as [|i]; [vm_compute; reflexivity|]); lia).
  - by intros i b _ ?%elem_of_nil.
  - intros. constructor.
  - intros b i [= -> ->]%list_elem_of_singleton. split; [lia|]. destruct_or! Hc; subst j; vm_compute; reflexivity.
  - intros b i [= -> ->]%list_elem_of_singleton. exists (MMAP_KERNEL_HEAP_START, 4).
    split; [by apply list_elem_of_singleton|]. destruct_or! Hc; subst j; vm_compute; split; congruence.
  - by intros b i b' k [= -> ->]%list_elem_of_singleton [= -> ->]%list_elem_of_singleton.
  - by intros a n ?%elem_of_nil.
  - by intros b i a n _ ?%elem_of_nil.
  - by intros a n a' n' ?%elem_of_nil.
  - constructor.
Qed.

Lemma demo_block_live j : live (demo_block_heap j) MMAP_KERNEL_HEAP_START j.
Proof. split; [by apply list_elem_of_singleton|apply not_elem_of_nil]. Qed.

Definition demo_object_mem : mem := demo_block_mem 2.
Definition demo_object_heap : heap := demo_block_heap 2.

Lemma demo_object_rep :
  heap_rep demo_pools demo_object_mem demo_source demo_object_heap [(MMAP_KERNEL_HEAP_START, 4)].
Proof. apply demo_block_rep. lia. Qed.

Lemma demo_object_owned n : 0 < n ≤ 112 → owned demo_object_heap demo_object n.
Proof.
  intros Hn. split; [lia|]. left. exists 2%nat. unfold demo_object. replace (MMAP_KERNEL_HEAP_START + HDR - HDR) with MMAP_KERNEL_HEAP_START by lia.
  split; [apply demo_block_live|]. unfold HDR, bsize. cbn. lia.
Qed.

Lemma demo_static a n : 0x200060 ≤ a → 0 ≤ n → a + n ≤ MMAP_KERNEL_HEAP_START → static demo_pools a n.
Proof.
  intros H1 H2 H3. unfold static. split; [lia|]. split; [exact H3|]. unfold apart, demo_pools. lia.
Qed.
