(* ===== verification/Sched.v ===== *)
(** * Processes and scheduling (src/src/proc.c, proc.h, syscall.c,
      arch/x86_64/proc.c and the dispatcher of arch/x86_64/interrupts.c)

    Processes live in the kernel's virtual memory and wait on intrusive lists;
    a context switch happens at the end of an interrupt, when the dispatcher
    finds that [next_proc] differs from [curr_proc]. *)

From S2P Require Import Prelude Memory CString LinkedList Segments Frames Machine Irq Paging Mmu Kmalloc.

(** ** [struct Process] *)

Definition off_queue : Z := 0.
Definition off_procs : Z := 16.
Definition off_rax : Z := 32.
Definition off_rbx : Z := 40.
Definition off_rcx : Z := 48.
Definition off_rdx : Z := 56.
Definition off_rdi : Z := 64.
Definition off_rsi : Z := 72.
Definition off_r8 : Z := 80.
Definition off_r9 : Z := 88.
Definition off_r10 : Z := 96.
Definition off_r11 : Z := 104.
Definition off_r12 : Z := 112.
Definition off_r13 : Z := 120.
Definition off_r14 : Z := 128.
Definition off_r15 : Z := 136.
Definition off_cs : Z := 144.
Definition off_ss : Z := 152.
Definition off_ds : Z := 160.
Definition off_es : Z := 168.
Definition off_fs : Z := 176.
Definition off_gs : Z := 184.
Definition off_rbp : Z := 192.
Definition off_rsp : Z := 200.
Definition off_rip : Z := 208.
Definition off_rflags : Z := 216.
Definition off_stack : Z := 224.
Definition off_name : Z := 232.
Definition sizeof_Process : Z := 240.

(** ** Contexts *)

(** The 15 words that the interrupt entry code and the processor push, and the
    registers that the C code saves itself. *)
Record cpu := mkCpu {
  c_stack : list Z;
  c_ds : Z; c_es : Z; c_fs : Z; c_gs : Z;
  c_r12 : Z; c_r13 : Z; c_r14 : Z; c_r15 : Z; c_rbx : Z
}.

(** Where [PROC_save_context] puts each word of the stack, in program order. *)
Definition saved_words : list (nat * Z) :=
  [(0%nat, off_rbp); (1%nat, off_rax); (2%nat, off_r9); (3%nat, off_r8); (4%nat, off_rcx);
   (5%nat, off_rdx); (6%nat, off_r11); (7%nat, off_r10); (8%nat, off_rsi); (9%nat, off_rdi);
   (10%nat, off_rip); (11%nat, off_cs); (12%nat, off_rflags); (13%nat, off_rsp); (14%nat, off_ss)].

(** The segment selectors of words 11 and 14 are cut to 16 bits when saved. *)
Definition save_word (i : nat) (w : Z) : Z :=
  if (i =? 11)%nat || (i =? 14)%nat then Z.land w 0xFFFF else w.

Fixpoint save_words (l : list (nat * Z)) (proc : Z) (stack : list Z) (m : mem) : outcome mem :=
  match l with
  | [] => Ok m
  | (i, off) :: l => w ← idx stack i; save_words l proc stack (wr64 m (proc + off) (save_word i w))
  end.

(** A segment register is stored as 16 bits. *)
Definition PROC_save_context (proc : Z) (c : cpu) (m : mem) : outcome mem :=
  m ← save_words saved_words proc (c_stack c) m;
  let m := wr16 m (proc + off_ds) (c_ds c) in
  let m := wr16 m (proc + off_es) (c_es c) in
  let m := wr16 m (proc + off_fs) (c_fs c) in
  let m := wr16 m (proc + off_gs) (c_gs c) in
  let m := wr64 m (proc + off_r12) (c_r12 c) in
  let m := wr64 m (proc + off_r13) (c_r13 c) in
  let m := wr64 m (proc + off_r14) (c_r14 c) in
  let m := wr64 m (proc + off_r15) (c_r15 c) in
  Ok (wr64 m (proc + off_rbx) (c_rbx c)).

(** Words 11 and 14 are or-ed into what the stack holds. *)
Definition load_word (i : nat) (old w : Z) : Z :=
  if (i =? 11)%nat || (i =? 14)%nat then Z.lor old w else w.

Fixpoint load_words (l : list (nat * Z)) (proc : Z) (m : mem) (stack : list Z) : outcome (list Z) :=
  match l with
  | [] => Ok stack
  | (i, off) :: l =>
      old ← idx stack i;
      stack ← upd stack i (load_word i old (rd64 m (proc + off)));
      load_words l proc m stack
  end.

Definition PROC_load_context (proc : Z) (m : mem) (c : cpu) : outcome cpu :=
  stack ← load_words saved_words proc m (c_stack c);
  Ok (mkCpu stack (rd16 m (proc + off_ds)) (rd16 m (proc + off_es)) (rd16 m (proc + off_fs))
        (rd16 m (proc + off_gs)) (rd64 m (proc + off_r12)) (rd64 m (proc + off_r13))
        (rd64 m (proc + off_r14)) (rd64 m (proc + off_r15)) (rd64 m (proc + off_rbx))).

(** ** State *)

(** [s_mem] is the kernel's virtual memory; [s_k] the MMU and interrupt state. *)
Record sched := mkS {
  s_mem : mem;
  s_k : kstate;
  curr_proc : Z;
  next_proc : Z;
  sleep_curr : Z;
  s_log : klogs
}.

Definition s_set_mem (s : sched) (m : mem) : sched :=
  mkS m (s_k s) (curr_proc s) (next_proc s) (sleep_curr s) (s_log s).
Definition s_set_k (s : sched) (k : kstate) : sched :=
  mkS (s_mem s) k (curr_proc s) (next_proc s) (sleep_curr s) (s_log s).
Definition s_set_curr (s : sched) (p : Z) : sched :=
  mkS (s_mem s) (s_k s) p (next_proc s) (sleep_curr s) (s_log s).
Definition s_set_next (s : sched) (p sl : Z) : sched :=
  mkS (s_mem s) (s_k s) (curr_proc s) p sl (s_log s).
Definition s_set_sleep (s : sched) (sl : Z) : sched :=
  mkS (s_mem s) (s_k s) (curr_proc s) (next_proc s) sl (s_log s).
Definition s_klog (lvl : Z) (msg : string) (s : sched) : sched :=
  mkS (s_mem s) (s_k s) (curr_proc s) (next_proc s) (sleep_curr s) (klog lvl msg (s_log s)).
Definition s_on_irq (f : irqs → irqs) (s : sched) : sched :=
  s_set_k s (mkK (k_vm (s_k s)) (f (k_irq (s_k s)))).

Section Proc.
(** Addresses of the static objects: [main_proc], the two lists of
    [proc_state], [pools] of kmalloc.c, and the code of [process_exit]. *)
Context (main_proc ready_queue procs pools process_exit_addr : Z).

(** ** Queues *)

Definition proc_queue_enqueue (queue proc : Z) (s : sched) : sched :=
  s_set_mem s (LL_enqueue (s_mem s) queue proc).

Definition proc_queue_dequeue (queue : Z) (s : sched) : Z * sched :=
  let '(m, p) := LL_dequeue (s_mem s) queue in (p, s_set_mem s m).

Definition PROC_queue_init (queue : Z) (s : sched) : sched :=
  s_set_mem s (LL_init (s_mem s) queue off_queue).

Definition PROC_queue_empty (queue : Z) (s : sched) : bool := LL_empty (s_mem s) queue.

Definition PROC_unblock_head (queue : Z) (s : sched) : sched :=
  if PROC_queue_empty queue s then s
  else
    let s := s_on_irq IRQ_disable s in
    let '(proc, s) := proc_queue_dequeue queue s in
    let s := proc_queue_enqueue ready_queue proc s in
    s_on_irq IRQ_enable s.

Fixpoint unblock_loop (fuel : nat) (queue : Z) (s : sched) : outcome sched :=
  match fuel with
  | O => Hang
  | S fuel =>
      let '(proc, s) := proc_queue_dequeue queue s in
      if proc =? NULL then Ok s
      else unblock_loop fuel queue (proc_queue_enqueue ready_queue proc s)
  end.

Definition PROC_unblock_all (fuel : nat) (queue : Z) (s : sched) : outcome sched :=
  let s := s_on_irq IRQ_disable s in
  s ← unblock_loop fuel queue s;
  Ok (s_on_irq IRQ_enable s).

(** ** Choosing the next process *)

(** Lines 120-121: a process that is not going to sleep is ready again. *)
Definition resched_requeue (s : sched) : sched :=
  if negb (curr_proc s =? NULL) && (sleep_curr s =? 0)
  then proc_queue_enqueue ready_queue (curr_proc s) s else s.

(** Lines 123-129. *)
Definition resched_pick (s : sched) : sched :=
  if PROC_queue_empty ready_queue s then s_set_next s main_proc 1
  else let '(p, s) := proc_queue_dequeue ready_queue s in s_set_next s p 0.

Definition PROC_reschedule (s : sched) : sched :=
  let s := s_on_irq IRQ_disable s in
  let s := resched_requeue s in
  let s := resched_pick s in
  if curr_proc s =? next_proc s then s_on_irq IRQ_enable s else s.

Definition PROC_yield (s : sched) : sched := PROC_reschedule s.

(** ** Interrupts *)

(** A handler either returns to the dispatcher or has itself switched away. *)
Inductive handled := Returned (s : sched) | Switched (c : cpu) (s : sched).

(** [run] calls the handler at a function pointer. *)
Definition IRQ_generic_isr {D} `{PortIO D}
    (run : Z → Z → Z → Z → cpu → sched → D → outcome (handled * D))
    (irq err : Z) (c : cpu) (s : sched) (d : D) : outcome (cpu * sched * D) :=
  let s := if negb (irq =? SYSCALL_TRAP_NUMBER)
           then s_on_irq (fun i => set_sem i (atomic_add (irq_semaphore i) 1)) s else s in
  h ← idx (handlers (k_irq (s_k s))) (Z.to_nat irq);
  r ← (if negb (h.1 =? NULL) then run h.1 irq err h.2 c s d
       else Ok (Returned (s_klog KLOG_LEVEL_INFO "received unhandled error interrupt: 0x%X 0x%X" s), d));
  match r.1 with
  | Switched c s => Ok (c, s, r.2)
  | Returned s =>
      let d := if (PIC_MASTER_REMAP_BASE <=? irq) && (irq <=? PIC_MASTER_REMAP_BASE + 0x2F)
               then PIC_sendEOI (u8 (irq - PIC_MASTER_REMAP_BASE)) r.2 else r.2 in
      cs ← (if negb (curr_proc s =? next_proc s) then
              m ← (if negb (curr_proc s =? NULL) then PROC_save_context (curr_proc s) c (s_mem s)
                   else Ok (s_mem s));
              c ← PROC_load_context (next_proc s) m c;
              let s := s_set_curr (s_set_mem s m) (next_proc s) in
              Ok (c, s_on_irq IRQ_enable s)
            else Ok (c, s));
      let '(c, s) := cs in
      let s := if negb (irq =? SYSCALL_TRAP_NUMBER)
               then s_on_irq (fun i => set_sem i (atomic_sub (irq_semaphore i) 1)) s else s in
      Ok (c, s, d)
  end.

(** [yield()]: the trap with system call number 0. *)
Definition yield_trap {D} `{PortIO D} (c : cpu) (s : sched) (d : D) : outcome (cpu * sched * D) :=
  IRQ_generic_isr (fun _ _ _ _ _ s d => Ok (Returned (PROC_yield s), d)) SYSCALL_TRAP_NUMBER 0 c s d.

(** [process_exit], up to and including the yield that does not come back. *)
Definition process_exit {D} `{PortIO D} (c : cpu) (s : sched) (d : D) : outcome (handled * D) :=
  let s := s_klog KLOG_LEVEL_INFO "process %s exited" s in
  let p := curr_proc s in
  let s := s_set_mem s (LL_del (s_mem s) (p + off_procs)) in
  let k := mkK (MMU_free_stack (rd64 (s_mem s) (p + off_stack)) (k_vm (s_k s))) (k_irq (s_k s)) in
  r ← kfree p (s_mem s) k;
  let s := s_set_curr (s_set_k (s_set_mem s r.1) r.2) NULL in
  y ← yield_trap c s d;
  let '(c, s, d) := y in Ok (Switched c s, d).

Definition syscall_handler {D} `{PortIO D} (num : Z) (c : cpu) (s : sched) (d : D) :
    outcome (handled * D) :=
  if num =? 0 then Ok (Returned (PROC_yield s), d)
  else if num =? 1 then process_exit c s d
  else Ok (Returned (s_klog KLOG_LEVEL_WARN "received unsupported system call %d" s), d).

(** Block the current process: enqueue it, mark it asleep and yield. *)
Definition PROC_block_on {D} `{PortIO D} (queue : Z) (enable_ints : bool) (c : cpu) (s : sched) (d : D) :
    outcome (cpu * sched * D) :=
  let s := proc_queue_enqueue queue (curr_proc s) s in
  let s := s_set_sleep s 1 in
  let s := if enable_ints then s_on_irq IRQ_enable s else s in
  yield_trap c s d.

(** ** Creating a process *)

Definition PROC_create_process (name entry_point arg : Z) (s : sched) : outcome (Z * sched) :=
  r ← kmalloc pools sizeof_Process (s_mem s) (s_k s);
  let new := r.1 in
  let s := s_set_k (s_set_mem s r.2.1) r.2.2 in
  (* the error path reads new->name whether or not there is a [new] *)
  if new =? NULL then Fault
  else
    let s := s_set_mem s (memset (s_mem s) new 0 sizeof_Process).1 in
    st ← MMU_alloc_stack (s_k s);
    let s := s_set_k s st.2 in
    let s := s_set_mem s (wr64 (s_mem s) (new + off_stack) st.1) in
    if st.1 =? NULL then
      f ← kfree new (s_mem s) (s_k s);
      let s := s_set_k (s_set_mem s f.1) f.2 in
      Ok (-1, s_klog KLOG_LEVEL_WARN "failed to start process %s" s)
    else
      let stack := st.1 in
      let m := s_mem s in
      let m := wr64 m stack NULL in
      let m := wr64 m (stack - 8) NULL in
      let m := wr64 m (stack - 16) process_exit_addr in
      let m := wr64 m (new + off_rsp) (stack - 16) in
      let m := wr64 m (new + off_rbp) (stack - 8) in
      let m := wr64 m (new + off_rip) entry_point in
      let m := wr64 m (new + off_rdi) arg in
      let m := wr64 m (new + off_cs) 0x10 in
      let m := wr64 m (new + off_name) name in
      let s := proc_queue_enqueue ready_queue new (s_set_mem s m) in
      let s := s_set_mem s (LL_enqueue (s_mem s) procs new) in
      Ok (0, s_klog KLOG_LEVEL_INFO "starting process %s" s).

(** ** The idle process *)

(** [PROC_run] runs in [main_proc]: it returns when no process is ready, or
    goes to sleep; when [main_proc] is resumed the loop begins again with
    disabling interrupts, as on entry. *)
Inductive run_result (D : Type) := RunDone (s : sched) | RunSwitched (c : cpu) (s : sched) (d : D).
Arguments RunDone {D}.
Arguments RunSwitched {D}.

Definition PROC_run {D} `{PortIO D} (c : cpu) (s : sched) (d : D) : outcome (run_result D) :=
  let s := s_on_irq IRQ_disable s in
  if PROC_queue_empty ready_queue s then Ok (RunDone (s_on_irq IRQ_enable s))
  else
    let s := s_on_irq IRQ_enable (s_set_sleep s 1) in
    r ← yield_trap c s d;
    let '(c, s, d) := r in Ok (RunSwitched c s d).
End Proc.
Arguments RunDone {D}.
Arguments RunSwitched {D}.

(** ** Saving and restoring *)

Lemma save_words_spec l proc stack m :
  (∀ i off, (i, off) ∈ l → is_Some (stack !! i)) →
  NoDup l.*2 → (∀ o o', o ∈ l.*2 → o' ∈ l.*2 → o ≠ o' → apart o 8 o' 8) →
  ∃ m', save_words l proc stack m = Ok m' ∧
    (∀ i off w, (i, off) ∈ l → stack !! i = Some w → rd64 m' (proc + off) = u64 (save_word i w)) ∧
    (∀ x, (∀ o, o ∈ l.*2 → ¬ (proc + o ≤ x < proc + o + 8)) → rd8 m' x = rd8 m x).
Proof.
  revert m. induction l as [|[i off] l IH]; intros m Hs Hnd Hap; cbn [save_words].
  { exists m. split; [done|]. split; [by intros ??? ?%elem_of_nil|done]. }
  destruct (Hs i off) as [w Hw]; [left|]. rewrite (proj2 (idx_Ok _ _ _) Hw), bind_Ok.
  cbn [fmap list_fmap snd] in Hnd, Hap. apply NoDup_cons in Hnd as [Hni Hnd].
  destruct (IH (wr64 m (proc + off) (save_word i w))) as (m' & E & H1 & H2).
  { intros j o Hj. apply (Hs j o). by right. } { done. }
  { intros o o' Ho Ho'. apply Hap; by right. }
  exists m'. split; [done|]. split.
  - intros j o w' [[= -> ->]|Hj]%elem_of_cons Hw'; [|by eapply H1].
    assert (w' = w) as -> by congruence.
    transitivity (rd64 (wr64 m (proc + off) (save_word i w)) (proc + off)); [|apply rd64_wr64_eq].
    apply rd_le_ext. intros x Hx. apply H2. intros o Ho Hxo.
    assert (Hne : off ≠ o) by (by intros ->).
    destruct (Hap off o) as [|]; [left|by right|done|lia|lia].
  - intros x Hx. rewrite H2 by (intros o Ho; apply Hx; by right).
    unfold wr64. apply rd8_wr_le_out. apply Hx. left.
Qed.

Lemma load_words_spec l proc m stack :
  (∀ i off, (i, off) ∈ l → is_Some (stack !! i)) → NoDup l.*1 →
  ∃ stack', load_words l proc m stack = Ok stack' ∧ length stack' = length stack ∧
    (∀ i off old, (i, off) ∈ l → stack !! i = Some old →
       stack' !! i = Some (load_word i old (rd64 m (proc + off)))) ∧
    (∀ i, i ∉ l.*1 → stack' !! i = stack !! i).
Proof.
  revert stack. induction l as [|[i off] l IH]; intros stack Hs Hnd; cbn [load_words].
  { exists stack. split; [done|]. split; [done|]. split; [by intros ??? ?%elem_of_nil|done]. }
  destruct (Hs i off) as [w Hw]; [left|]. rewrite (proj2 (idx_Ok _ _ _) Hw), bind_Ok.
  cbn [fmap list_fmap fst] in Hnd. apply NoDup_cons in Hnd as [Hni Hnd].
  rewrite upd_Ok, bind_Ok by eauto using lookup_lt_Some.
  set (st1 := <[i := _]> stack).
  destruct (IH st1) as (st' & E & Hl & H1 & H2).
  { intros j o Hj. unfold st1. apply lookup_lt_is_Some. rewrite length_insert. apply lookup_lt_is_Some, (Hs j o). by right. }
  { done. }
  exists st'. split; [done|]. split; [by rewrite Hl; unfold st1; rewrite length_insert|]. split.
  - intros j o old [[= -> ->]|Hj]%elem_of_cons Hold.
    + rewrite H2 by done. unfold st1. rewrite list_lookup_insert_eq by eauto using lookup_lt_Some. congruence.
    + apply (H1 j o); [done|]. unfold st1. rewrite list_lookup_insert_ne; [done|].
      intros ->. apply Hni, list_elem_of_fmap. by exists (j, o).
  - intros j Hj. cbn [fmap list_fmap fst] in Hj. apply not_elem_of_cons in Hj as [Hne Hj].
    rewrite H2 by done. unfold st1. by rewrite list_lookup_insert_ne.
Qed.

Lemma saved_words_ok :
  NoDup saved_words.*1 ∧ NoDup saved_words.*2 ∧
  (∀ o o', o ∈ saved_words.*2 → o' ∈ saved_words.*2 → o ≠ o' → apart o 8 o' 8) ∧
  Forall (fun o => 32 ≤ o ∧ o + 8 ≤ 224 ∧ ¬ (112 ≤ o < 144) ∧ ¬ (160 ≤ o < 192) ∧ o ≠ 40) saved_words.*2 ∧
  (∀ i, (i < 15)%nat ↔ i ∈ saved_words.*1).
Proof.
  split; [apply (bool_decide_unpack _); vm_compute; exact I|].
  split; [apply (bool_decide_unpack _); vm_compute; exact I|].
  assert (HF : Forall (fun o => o mod 8 = 0) saved_words.*2) by (apply (bool_decide_unpack _); vm_compute; exact I).
  split. { intros o o' Ho Ho' Hne. rewrite Forall_forall in HF. pose proof (HF o Ho). pose proof (HF o' Ho').
           unfold apart. word_lia. }
  split; [apply (bool_decide_unpack _); vm_compute; exact I|].
  intros i. split.
  - intros Hi. do 15 (destruct i as [|i]; [by apply (bool_decide_unpack _); vm_compute|]). lia.
  - intros Hi. assert (HF' : Forall (fun i => (i < 15)%nat) saved_words.*1) by (apply (bool_decide_unpack _); vm_compute; exact I).
    rewrite Forall_forall in HF'. by apply HF'.
Qed.

(** What a saved context holds, and that nothing else is written. *)
Definition context_in (m : mem) (proc : Z) (c : cpu) : Prop :=
  (∀ i off w, (i, off) ∈ saved_words → c_stack c !! i = Some w → rd64 m (proc + off) = u64 (save_word i w)) ∧
  rd16 m (proc + off_ds) = u16 (c_ds c) ∧ rd16 m (proc + off_es) = u16 (c_es c) ∧
  rd16 m (proc + off_fs) = u16 (c_fs c) ∧ rd16 m (proc + off_gs) = u16 (c_gs c) ∧
  rd64 m (proc + off_r12) = u64 (c_r12 c) ∧ rd64 m (proc + off_r13) = u64 (c_r13 c) ∧
  rd64 m (proc + off_r14) = u64 (c_r14 c) ∧ rd64 m (proc + off_r15) = u64 (c_r15 c) ∧
  rd64 m (proc + off_rbx) = u64 (c_rbx c).

Lemma rd_wr_le_eq n m a v : rd_le n (wr_le n m a v) a = v mod 256 ^ Z.of_nat n.
Proof. apply rd_le_wr_le. Qed.

Lemma PROC_save_context_ok proc c m :
  length (c_stack c) = 15%nat →
  ∃ m', PROC_save_context proc c m = Ok m' ∧ context_in m' proc c ∧
    (∀ x, ¬ (proc + 32 ≤ x < proc + 224) → rd8 m' x = rd8 m x).
Proof.
  intros Hlen. destruct saved_words_ok as (_ & N2 & N3 & N4 & N5).
  destruct (save_words_spec saved_words proc (c_stack c) m) as (m1 & E & H1 & H2); [|done..|].
  { intros i off Hi. apply lookup_lt_is_Some. rewrite Hlen. apply N5, list_elem_of_fmap. by exists (i, off). }
  unfold PROC_save_context. rewrite E, bind_Ok. eexists. split; [done|].
  unfold off_ds, off_es, off_fs, off_gs, off_r12, off_r13, off_r14, off_r15, off_rbx, rd16, rd64, wr16, wr64.
  split.
  - split.
    + intros i off w Hi Hw. rewrite <- (H1 i off w Hi Hw). unfold rd64.
      rewrite Forall_forall in N4. destruct (N4 off) as (O1 & O2 & O3 & O4 & O5); [apply list_elem_of_fmap; by exists (i, off)|].
      assert (Ho8 : off mod 8 = 0).
      { assert (HF : Forall (fun o => o mod 8 = 0) saved_words.*2) by (apply (bool_decide_unpack _); vm_compute; exact I).
        rewrite Forall_forall in HF. apply HF, list_elem_of_fmap. by exists (i, off). }
      rewrite !rd_le_wr_le_apart by (unfold apart; cbn; word_lia). done.
    + unfold off_ds, off_es, off_fs, off_gs, off_r12, off_r13, off_r14, off_r15, off_rbx, rd16, rd64.
      repeat split; rewrite ?rd_le_wr_le_apart by (unfold apart; cbn; lia); apply rd_wr_le_eq.
  - intros x Hx. rewrite !rd8_wr_le_out by (cbn; lia). apply H2. intros o Ho.
    rewrite Forall_forall in N4. destruct (N4 o Ho). lia.
Qed.

Lemma context_in_stable m m' proc c :
  (∀ x, proc + 32 ≤ x < proc + 224 → rd8 m' x = rd8 m x) → context_in m proc c → context_in m' proc c.
Proof.
  intros Hm (H1 & H2). destruct saved_words_ok as (_ & _ & _ & N4 & _).
  assert (Hrd : ∀ n o, 32 ≤ o → o + Z.of_nat n ≤ 224 → rd_le n m' (proc + o) = rd_le n m (proc + o)).
  { intros n o Ho1 Ho2. apply rd_le_ext. intros b Hb. apply Hm. lia. }
  split.
  - intros i off w Hi Hw. rewrite <- (H1 i off w Hi Hw). rewrite Forall_forall in N4.
    destruct (N4 off) as (O1 & O2 & _); [apply list_elem_of_fmap; by exists (i, off)|]. apply (Hrd 8%nat); cbn; lia.
  - unfold off_ds, off_es, off_fs, off_gs, off_r12, off_r13, off_r14, off_r15, off_rbx, rd16, rd64 in *.
    rewrite !Hrd by (cbn; lia). done.
Qed.

Lemma PROC_load_context_ok proc m c0 c :
  context_in m proc c0 → length (c_stack c0) = 15%nat → length (c_stack c) = 15%nat →
  ∃ c', PROC_load_context proc m c = Ok c' ∧ length (c_stack c') = 15%nat ∧
    (∀ i w0 old, c_stack c0 !! i = Some w0 → c_stack c !! i = Some old →
       c_stack c' !! i = Some (load_word i old (u64 (save_word i w0)))) ∧
    c_ds c' = u16 (c_ds c0) ∧ c_es c' = u16 (c_es c0) ∧ c_fs c' = u16 (c_fs c0) ∧ c_gs c' = u16 (c_gs c0) ∧
    c_r12 c' = u64 (c_r12 c0) ∧ c_r13 c' = u64 (c_r13 c0) ∧ c_r14 c' = u64 (c_r14 c0) ∧
    c_r15 c' = u64 (c_r15 c0) ∧ c_rbx c' = u64 (c_rbx c0).
Proof.
  intros (H1 & H2) L0 L1. destruct saved_words_ok as (N1 & _ & _ & _ & N5).
  destruct (load_words_spec saved_words proc m (c_stack c)) as (st & E & Hl & H3 & _); [|done|].
  { intros i off Hi. apply lookup_lt_is_Some. rewrite L1. apply N5, list_elem_of_fmap. by exists (i, off). }
  unfold PROC_load_context. rewrite E, bind_Ok. eexists. split; [done|]. cbn [c_stack c_ds c_es c_fs c_gs c_r12 c_r13 c_r14 c_r15 c_rbx].
  split; [by rewrite Hl|]. split; [|exact H2]. intros i w0 old Hw Ho.
  assert (Hi : i ∈ saved_words.*1).
  { apply N5. rewrite <- L0. by eapply lookup_lt_Some. }
  apply list_elem_of_fmap in Hi as ([i' off] & -> & Hi). cbn [fst] in *.
  rewrite (H3 i' off old Hi Ho). by rewrite (H1 i' off w0 Hi Hw).
Qed.

(** C37: the context of a process survives a switch.  When a process is saved,
    its [struct Process] is not written while others run, and it is loaded again
    on any interrupt stack, every general register, the instruction and stack
    pointers, the flags and the segment registers come back exactly; the code
    and stack selectors come back or-ed with what the stack already held. *)
Theorem context_roundtrip (proc : Z) (c c2 : cpu) (m m1 m2 : mem) :
  length (c_stack c) = 15%nat → length (c_stack c2) = 15%nat →
  Forall (fun w => 0 ≤ w < 18446744073709551616) (c_stack c) →
  PROC_save_context proc c m = Ok m1 →
  (∀ x, proc + 32 ≤ x < proc + 224 → rd8 m2 x = rd8 m1 x) →
  ∃ c', PROC_load_context proc m2 c2 = Ok c' ∧
    (∀ i, i ≠ 11%nat → i ≠ 14%nat → c_stack c' !! i = c_stack c !! i) ∧
    (∀ i w old, i = 11%nat ∨ i = 14%nat → c_stack c !! i = Some w → c_stack c2 !! i = Some old →
       c_stack c' !! i = Some (Z.lor old (Z.land w 0xFFFF))) ∧
    (c_r12 c', c_r13 c', c_r14 c', c_r15 c', c_rbx c') =
      (u64 (c_r12 c), u64 (c_r13 c), u64 (c_r14 c), u64 (c_r15 c), u64 (c_rbx c)) ∧
    (c_ds c', c_es c', c_fs c', c_gs c') = (u16 (c_ds c), u16 (c_es c), u16 (c_fs c), u16 (c_gs c)).
Proof.
  intros L0 L2 Hw Hs Hm. destruct (PROC_save_context_ok proc c m L0) as (m1' & E & Hc & _).
  rewrite Hs in E. injection E as <-. apply (context_in_stable _ m2) in Hc; [|done].
  destruct (PROC_load_context_ok proc m2 c c2 Hc L0 L2) as (c' & E & Ll & Hst & Q1 & Q2 & Q3 & Q4 & Q5 & Q6 & Q7 & Q8 & Q9).
  exists c'. split; [done|]. rewrite Q1, Q2, Q3, Q4, Q5, Q6, Q7, Q8, Q9. split; [|split; [|done]].
  - intros i H11 H14. destruct (decide (i < 15)%nat) as [Hi|Hi].
    + destruct (lookup_lt_is_Some_2 (c_stack c) i) as [w Ew]; [lia|].
      destruct (lookup_lt_is_Some_2 (c_stack c2) i) as [o Eo]; [lia|].
      rewrite (Hst i w o Ew Eo), Ew. unfold load_word, save_word.
      rewrite (proj2 (Nat.eqb_neq i 11)), (proj2 (Nat.eqb_neq i 14)) by done. cbn [orb].
      rewrite u64_small; [done|]. rewrite Forall_forall in Hw. apply Hw, list_elem_of_lookup. eauto.
    + by rewrite !lookup_ge_None_2 by lia.
  - intros i w old Hi Ew Eo. rewrite (Hst i w old Ew Eo). unfold load_word, save_word.
    replace ((i =? 11)%nat || (i =? 14)%nat) with true by (destruct Hi as [->| ->]; done).
    rewrite u64_small; [done|]. change 0xFFFF with (Z.ones 16). rewrite Z.land_ones by lia.
    pose proof (Z.mod_pos_bound w (2 ^ 16) ltac:(lia)). lia.
Qed.

Definition demo_cpu : cpu := mkCpu (Z.of_nat <$> seq 1 15) 1 2 3 4 5 6 7 8 9.

Lemma context_roundtrip_witness :
  ∃ m1 c', PROC_save_context 0x1000 demo_cpu ∅ = Ok m1 ∧
    PROC_load_context 0x1000 m1 (mkCpu (replicate 15 0) 0 0 0 0 0 0 0 0 0) = Ok c' ∧ c_rbx c' = 9.
Proof.
  destruct (PROC_save_context_ok 0x1000 demo_cpu ∅) as (m1 & E & _); [done|].
  destruct (context_roundtrip 0x1000 demo_cpu (mkCpu (replicate 15 0) 0 0 0 0 0 0 0 0 0) ∅ m1 m1)
    as (c' & H1 & _ & _ & H2 & _).
  - done.
  - done.
  - apply (bool_decide_unpack _). vm_compute. exact I.
  - exact E.
  - done.
  - exists m1, c'. split; [exact E|]. split; [exact H1|]. by injection H2 as _ _ _ _ H2.
Defined.

(** ** The ready queue *)

Section Queue.
Context (main_proc rq : Z) (U : list Z).

(** [U] holds every process that may be on the queue: 240-byte objects that
    overlap neither each other nor the queue's head. *)
Record universe : Prop := {
  un_valid d : d ∈ U → 0 < d ∧ d + 264 ≤ 18446744073709551616 ∧ apart d sizeof_Process rq 24;
  un_apart d d' : d ∈ U → d' ∈ U → d ≠ d' → apart d sizeof_Process d' sizeof_Process
}.
Hypothesis HU : universe.

Record ready (s : sched) (q : list Z) (n : nat) : Prop := {
  rd_list : list_rep (s_mem s) rq off_queue q;
  rd_univ d : d ∈ q → d ∈ U;
  rd_irq : irq_at n (k_irq (s_k s))
}.

Lemma linkable_univ q d : d ∈ U → (∀ d', d' ∈ q → d' ∈ U) → d ∉ q → linkable rq off_queue q d.
Proof using HU.
  intros Hd Hq Hn. destruct (un_valid HU d Hd) as (V1 & V2 & V3). unfold off_queue, sizeof_Process, apart in *.
  split; [done|]. split; [split; lia|]. split; [unfold apart; lia|].
  apply Forall_forall. intros d' Hd'. assert (d ≠ d') by (by intros ->).
  destruct (un_apart HU d d' Hd (Hq d' Hd')) as [|]; [done|..]; unfold sep16, apart, sizeof_Process in *; lia.
Qed.

(** The specification of [PROC_reschedule]: the next process, whether it is the
    idle one, and the queue that remains. *)
Definition resched (cur sl : Z) (q : list Z) : Z * Z * list Z :=
  match (if negb (cur =? NULL) && (sl =? 0) then q ++ [cur] else q) with
  | [] => (main_proc, 1, [])
  | p :: q => (p, 0, q)
  end.

(** The memory that scheduling may write: the queue's head and the queue
    headers of processes. *)
Definition only_queues (m m' : mem) : Prop :=
  ∀ x, ¬ (rq ≤ x < rq + 16) → (∀ d, d ∈ U → ¬ (d ≤ x < d + 16)) → rd8 m' x = rd8 m x.

Lemma only_hdrs_queues q m m' :
  (∀ d, d ∈ q → d ∈ U) → only_hdrs (rq :: (hdrs off_queue q)) m m' → only_queues m m'.
Proof using.
  intros Hq Ho x Hx1 Hx2. apply Ho.
  intros h [->|(d & -> & Hd)%list_elem_of_fmap]%elem_of_cons; [done|].
  unfold off_queue. rewrite Z.add_0_r. apply Hx2. by apply Hq.
Qed.

Lemma resched_requeue_ok s q n :
  ready s q n → (curr_proc s ≠ NULL → sleep_curr s = 0 → curr_proc s ∈ U ∧ curr_proc s ∉ q) →
  let s' := resched_requeue rq s in
  ready s' (if negb (curr_proc s =? NULL) && (sleep_curr s =? 0) then q ++ [curr_proc s] else q) n ∧
  curr_proc s' = curr_proc s ∧ s_k s' = s_k s ∧ only_queues (s_mem s) (s_mem s').
Proof using HU.
  intros [Rl Ru Ri] Hc. unfold resched_requeue.
  destruct (negb (curr_proc s =? NULL) && (sleep_curr s =? 0)) eqn:Eb; [|done]. bool_cases.
  destruct (Hc ltac:(done) ltac:(done)) as [HcU Hcq].
  destruct (LL_append_rep (s_mem s) rq off_queue q (curr_proc s) Rl) as [L1 L2]; [by apply linkable_univ|].
  assert (Hu1 : ∀ d, d ∈ q ++ [curr_proc s] → d ∈ U).
  { intros d [?| ->%list_elem_of_singleton]%elem_of_app; [by apply Ru|done]. }
  split; [by split|]. split; [done|]. split; [done|]. by eapply only_hdrs_queues.
Qed.

Lemma resched_pick_ok s q n :
  ready s q n →
  let '(nx, sl, q') := match q with [] => (main_proc, 1, []) | p :: q => (p, 0, q) end in
  let s' := resched_pick main_proc rq s in
  ready s' q' n ∧ curr_proc s' = curr_proc s ∧ next_proc s' = nx ∧ sleep_curr s' = sl ∧
  s_k s' = s_k s ∧ only_queues (s_mem s) (s_mem s').
Proof using.
  intros [Rl Ru Ri]. unfold resched_pick, PROC_queue_empty. rewrite (LL_empty_rep _ _ _ _ Rl).
  destruct q as [|p q].
  - rewrite bool_decide_true by done. split; [by split|done].
  - rewrite bool_decide_false by done. unfold proc_queue_dequeue.
    destruct (LL_dequeue_rep (s_mem s) rq off_queue p q Rl) as (E & L2 & M2). rewrite E.
    split; [split; [done| |done]|].
    + intros d Hd. apply Ru. by right.
    + do 4 (split; [done|]). by eapply only_hdrs_queues.
Qed.

Lemma PROC_reschedule_ok s q n :
  ready s q n → Z.of_nat n < 4294967295 →
  (curr_proc s ≠ NULL → sleep_curr s = 0 → curr_proc s ∈ U ∧ curr_proc s ∉ q) →
  let '(nx, sl, q') := resched (curr_proc s) (sleep_curr s) q in
  let s' := PROC_reschedule main_proc rq s in
  ready s' q' (if curr_proc s =? nx then n else S n) ∧
  curr_proc s' = curr_proc s ∧ next_proc s' = nx ∧ sleep_curr s' = sl ∧
  k_vm (s_k s') = k_vm (s_k s) ∧
  handlers (k_irq (s_k s')) = handlers (k_irq (s_k s)) ∧ only_queues (s_mem s) (s_mem s').
Proof using HU.
  intros [Rl Ru Ri] Hn Hc. unfold PROC_reschedule, resched.
  destruct (IRQ_disable_at n _ Ri Hn) as (I1 & I2 & _).
  set (s0 := s_on_irq IRQ_disable s).
  assert (R0 : ready s0 q (S n)) by (by split).
  destruct (resched_requeue_ok s0 q (S n) R0 Hc) as (R1 & C1 & K1 & M1).
  set (s1 := resched_requeue rq s0) in *.
  change (curr_proc s0) with (curr_proc s) in *. change (sleep_curr s0) with (sleep_curr s) in *.
  set (q1 := if negb (curr_proc s =? NULL) && (sleep_curr s =? 0) then q ++ [curr_proc s] else q) in *. clearbody s1 q1.
  pose proof (resched_pick_ok s1 q1 (S n) R1) as H2.
  set (s2 := resched_pick main_proc rq s1) in *. clearbody s2.
  destruct (match q1 with [] => _ | p :: q => _ end) as [[nx sl] q']. cbn zeta in *.
  destruct H2 as (R2 & C2 & N2 & S2 & K2 & M2). rewrite C2, C1, N2.
  assert (M : only_queues (s_mem s) (s_mem s2)) by (intros x X1 X2; rewrite M2, M1 by done; done).
  destruct (curr_proc s =? nx).
  - destruct R2 as [R2a R2b R2c]. destruct (IRQ_enable_at (S n) _ R2c) as (I3 & I4 & _); [lia|].
    split; [by split|]. cbn [s_on_irq s_set_k curr_proc next_proc sleep_curr s_k k_vm k_irq s_mem].
    rewrite C2, C1, I4, K2, K1. by rewrite <- I2.
  - split; [done|]. rewrite C2, C1, K2, K1. by rewrite <- I2.
Qed.

(** ** A yield *)

(** [cur] runs, the processes of [q] are ready in that order, and the context
    of each of them is saved in its [struct Process]. *)
Record running (s : sched) (cur : Z) (q : list Z) (ctx : Z → cpu) (n : nat) : Prop := {
  rn_ready : ready s q n;
  rn_cur : curr_proc s = cur;
  rn_next : next_proc s = cur;
  rn_sleep : sleep_curr s = 0;
  rn_nodup : NoDup (cur :: q);
  rn_in : cur ∈ U;
  rn_handler : ∃ h, handlers (k_irq (s_k s)) !! 123%nat = Some h ∧ h.1 ≠ NULL;
  rn_ctx p : p ∈ q → context_in (s_mem s) p (ctx p) ∧ length (c_stack (ctx p)) = 15%nat
}.

Lemma only_queues_ctx m m' p x :
  only_queues m m' → p ∈ U → p + 16 ≤ x < p + 240 → rd8 m' x = rd8 m x.
Proof using HU.
  intros Ho Hp Hx. apply Ho.
  - destruct (un_valid HU p Hp) as (_ & _ & Ha). unfold apart, sizeof_Process in Ha. lia.
  - intros d Hd Hxd. destruct (decide (d = p)) as [->|Hne]; [lia|].
    destruct (un_apart HU d p Hd Hp Hne); unfold sizeof_Process in *; lia.
Qed.

(** Saving a process writes no queue header and no other process's context. *)
Lemma saved_ready m m' cur q :
  (∀ x, ¬ (cur + 32 ≤ x < cur + 224) → rd8 m' x = rd8 m x) → cur ∈ U → (∀ d, d ∈ q → d ∈ U) →
  list_rep m rq off_queue q → list_rep m' rq off_queue q.
Proof using HU.
  intros Hm Hc Hq. apply list_rep_ext.
  - intros x Hx. apply Hm. destruct (un_valid HU cur Hc) as (_ & _ & Ha). unfold apart, sizeof_Process in Ha. lia.
  - intros d x Hd Hx. apply Hm. unfold off_queue in Hx. destruct (decide (d = cur)) as [->|Hne]; [lia|].
    destruct (un_apart HU d cur (Hq d Hd) Hc Hne); unfold sizeof_Process in *; lia.
Qed.

(** What a process finds in the registers when it is switched to: [c0] is what
    it had, [c] the interrupt frame it is loaded over. *)
Definition restored (c0 c c' : cpu) : Prop :=
  length (c_stack c') = 15%nat ∧
  (∀ i w0 old, c_stack c0 !! i = Some w0 → c_stack c !! i = Some old →
     c_stack c' !! i = Some (load_word i old (u64 (save_word i w0)))) ∧
  c_ds c' = u16 (c_ds c0) ∧ c_es c' = u16 (c_es c0) ∧ c_fs c' = u16 (c_fs c0) ∧ c_gs c' = u16 (c_gs c0) ∧
  c_r12 c' = u64 (c_r12 c0) ∧ c_r13 c' = u64 (c_r13 c0) ∧ c_r14 c' = u64 (c_r14 c0) ∧
  c_r15 c' = u64 (c_r15 c0) ∧ c_rbx c' = u64 (c_rbx c0).

(** The trap once [PROC_reschedule] has chosen another process: the context of
    [cur] is saved and that of [nx] loaded. *)
Lemma trap_switch {D} `{PortIO D} s cur nx cx n c (d : D) h :
  handlers (k_irq (s_k s)) !! 123%nat = Some h → h.1 ≠ NULL → cur ∈ U → nx ∈ U → nx ≠ cur → Z.of_nat n < 4294967295 → length (c_stack c) = 15%nat →
  let s1 := PROC_reschedule main_proc rq s in
  curr_proc s1 = cur → next_proc s1 = nx → irq_at (S n) (k_irq (s_k s1)) →
  context_in (s_mem s1) nx cx → length (c_stack cx) = 15%nat →
  ∃ c' s', yield_trap main_proc rq c s d = Ok (c', s', d) ∧ restored cx c c' ∧
    (curr_proc s', next_proc s', sleep_curr s') = (nx, nx, sleep_curr s1) ∧ irq_at n (k_irq (s_k s')) ∧
    handlers (k_irq (s_k s')) = handlers (k_irq (s_k s1)) ∧ context_in (s_mem s') cur c ∧
    (∀ x, ¬ (cur + 32 ≤ x < cur + 224) → rd8 (s_mem s') x = rd8 (s_mem s1) x).
Proof using HU.
  intros Hh Hh0 Hin HnU Hne Hn Hc s1 C1 N1 I1 X L.
  assert (Hcn : cur ≠ NULL) by (destruct (un_valid HU cur Hin); unfold NULL; lia).
  unfold yield_trap, IRQ_generic_isr, PROC_yield. rewrite Z.eqb_refl. cbn [negb].
  change (Z.to_nat SYSCALL_TRAP_NUMBER) with 123%nat.
  rewrite (proj2 (idx_Ok _ _ _) Hh), bind_Ok, (proj2 (Z.eqb_neq h.1 NULL) Hh0). cbn [negb].
  rewrite bind_Ok. cbn [fst snd]. fold s1. clearbody s1. rewrite C1, N1.
  rewrite (proj2 (Z.eqb_neq cur nx)), (proj2 (Z.eqb_neq cur NULL) Hcn) by done. cbn [negb].
  change ((PIC_MASTER_REMAP_BASE <=? SYSCALL_TRAP_NUMBER) && (SYSCALL_TRAP_NUMBER <=? PIC_MASTER_REMAP_BASE + 0x2F)) with false.
  cbn match.
  destruct (PROC_save_context_ok cur c (s_mem s1) Hc) as (m2 & E2 & X2 & F2). rewrite E2, !bind_Ok.
  destruct (PROC_load_context_ok nx m2 cx c) as (c' & E3 & L3 & Q3); [|done|done|].
  { eapply context_in_stable; [|exact X]. intros y Hy. apply F2.
    destruct (un_apart HU nx cur HnU Hin Hne); unfold sizeof_Process in *; lia. }
  rewrite E3, !bind_Ok. eexists c', _. split; [done|]. split; [by split|].
  destruct (IRQ_enable_at (S n) _ I1) as (I3 & I4 & _); [lia|].
  cbn [s_on_irq s_set_k s_set_curr s_set_mem s_mem s_k k_irq k_vm curr_proc next_proc sleep_curr]. rewrite N1.
  split; [done|]. split; [done|]. split; [by rewrite I4|]. by split.
Qed.

Lemma yield_trap_switch {D} `{PortIO D} s cur p q ctx n c (d : D) :
  running s cur (p :: q) ctx n → Z.of_nat n < 4294967295 → length (c_stack c) = 15%nat →
  ∃ c' s', yield_trap main_proc rq c s d = Ok (c', s', d) ∧ restored (ctx p) c c' ∧
    running s' p (q ++ [cur]) (fun x => if decide (x = cur) then c else ctx x) n.
Proof using HU.
  intros [Hr Hcur Hnx Hsl Hnd Hin (h & Hh & Hh0) Hctx] Hn Hc.
  assert (Hcn : cur ≠ NULL) by (destruct (un_valid HU cur Hin); unfold NULL; lia).
  apply NoDup_cons in Hnd as [Hcp Hnd]. apply not_elem_of_cons in Hcp as [Hcp Hcq].
  pose proof (PROC_reschedule_ok s (p :: q) n Hr Hn) as HR. rewrite Hcur, Hsl in HR.
  specialize (HR ltac:(intros _ _; split; [done|by apply not_elem_of_cons])).
  unfold resched in HR. rewrite (proj2 (Z.eqb_neq cur NULL) Hcn) in HR. cbn [negb andb Z.eqb app] in HR.
  rewrite (proj2 (Z.eqb_neq cur p) Hcp) in HR. cbn zeta in HR. destruct HR as ([R1a R1b R1c] & C1 & N1 & S1 & _ & H1 & M1).
  assert (HpU : p ∈ U) by (apply (rd_univ _ _ _ Hr); left).
  assert (Hoth : ∀ x cx, x ∈ U → context_in (s_mem s) x cx → context_in (s_mem (PROC_reschedule main_proc rq s)) x cx).
  { intros x cx HxU Hx. eapply context_in_stable; [|exact Hx]. intros y Hy. apply (only_queues_ctx _ _ x); [done|done|lia]. }
  destruct (Hctx p) as [Xp Lp]; [left|].
  destruct (trap_switch s cur p (ctx p) n c d h Hh Hh0 Hin HpU ltac:(congruence) Hn Hc C1 N1 R1c (Hoth p _ HpU Xp) Lp)
    as (c' & s' & E & Rs & Q & I & Hd & Xc & F). injection Q as Q1 Q2 Q3.
  exists c', s'. split; [done|]. split; [done|]. split; [|done|done|congruence| |done|exists h; by rewrite Hd, H1|].
  - split; [|done|done]. by eapply saved_ready.
  - apply NoDup_cons in Hnd as [Hpq Hnd]. apply NoDup_cons. split.
    + rewrite elem_of_app, list_elem_of_singleton. intros [?|?]; congruence.
    + apply NoDup_app. split; [done|]. split; [|apply NoDup_singleton].
      by intros x Hx ->%list_elem_of_singleton.
  - intros x [Hx| ->%list_elem_of_singleton]%elem_of_app; [|by rewrite decide_True].
    assert (Hxc : x ≠ cur) by (by intros ->). assert (HxU : x ∈ U) by (apply (rd_univ _ _ _ Hr); by right).
    rewrite decide_False by done. destruct (Hctx x) as [Xx Lx]; [by right|]. split; [|done].
    eapply context_in_stable; [|exact (Hoth x _ HxU Xx)]. intros y Hy. apply F.
    destruct (un_apart HU x cur HxU Hin Hxc); unfold sizeof_Process in *; lia.
Qed.

(** The trap when [PROC_reschedule] has chosen the process that runs. *)
Lemma trap_stay {D} `{PortIO D} s c (d : D) h :
  handlers (k_irq (s_k s)) !! 123%nat = Some h → h.1 ≠ NULL →
  let s1 := PROC_reschedule main_proc rq s in
  curr_proc s1 = next_proc s1 → yield_trap main_proc rq c s d = Ok (c, s1, d).
Proof using.
  intros Hh Hh0 s1 E. unfold yield_trap, IRQ_generic_isr, PROC_yield. rewrite Z.eqb_refl. cbn [negb].
  change (Z.to_nat SYSCALL_TRAP_NUMBER) with 123%nat.
  rewrite (proj2 (idx_Ok _ _ _) Hh), bind_Ok, (proj2 (Z.eqb_neq h.1 NULL) Hh0). cbn [negb].
  rewrite bind_Ok. cbn [fst snd]. fold s1. clearbody s1. rewrite E, Z.eqb_refl. cbn [negb]. by rewrite bind_Ok.
Qed.

(** A yield with nobody else ready comes straight back. *)
Lemma yield_trap_alone {D} `{PortIO D} s cur ctx n c (d : D) :
  running s cur [] ctx n → Z.of_nat n < 4294967295 →
  ∃ s', yield_trap main_proc rq c s d = Ok (c, s', d) ∧ running s' cur [] ctx n.
Proof using HU.
  intros [Hr Hcur Hnx Hsl Hnd Hin (h & Hh & Hh0) Hctx] Hn.
  assert (Hcn : cur ≠ NULL) by (destruct (un_valid HU cur Hin); unfold NULL; lia).
  pose proof (PROC_reschedule_ok s [] n Hr Hn) as HR. rewrite Hcur, Hsl in HR.
  specialize (HR ltac:(intros _ _; split; [done|apply not_elem_of_nil])).
  unfold resched in HR. rewrite (proj2 (Z.eqb_neq cur NULL) Hcn) in HR. cbn [negb andb Z.eqb app] in HR.
  rewrite Z.eqb_refl in HR. cbn zeta in HR. destruct HR as (R1 & C1 & N1 & S1 & _ & H1 & M1).
  eexists. split; [apply (trap_stay s c d h Hh Hh0); congruence|].
  split; [done..| |by intros ? ?%elem_of_nil]. exists h. by rewrite H1.
Qed.

(** ** Running *)

(** Bytes that only the scheduler may write: the head of the ready queue and
    the process structures. *)
Definition protected (x : Z) : Prop :=
  rq ≤ x < rq + 24 ∨ ∃ p, p ∈ U ∧ p ≤ x < p + sizeof_Process.

Lemma running_stable s cur q ctx n m' :
  (∀ x, protected x → rd8 m' x = rd8 (s_mem s) x) → running s cur q ctx n → running (s_set_mem s m') cur q ctx n.
Proof using.
  intros Hm [[Rl Ru Ri] Hcur Hnx Hsl Hnd Hin Hh Hctx].
  split; [|done..|].
  - split; [|done|done]. eapply list_rep_ext; [| |exact Rl].
    + intros x Hx. apply Hm. by left.
    + intros d x Hd Hx. apply Hm. right. exists d. split; [by apply Ru|]. unfold off_queue, sizeof_Process in *. lia.
  - intros p Hp. destruct (Hctx p Hp) as [X L]. split; [|done]. eapply context_in_stable; [|exact X].
    intros x Hx. apply Hm. right. exists p. split; [by apply Ru|]. unfold sizeof_Process. lia.
Qed.

(** An execution: the running process computes, changing memory as it likes
    outside the scheduler's own, and now and then traps to yield with whatever
    its registers then hold.  The trace lists who runs after each yield. *)
Inductive exec {D} `{PortIO D} : sched → list Z → sched → Prop :=
| exec_done s : exec s [] s
| exec_run s m' tr s' :
    (∀ x, protected x → rd8 m' x = rd8 (s_mem s) x) → exec (s_set_mem s m') tr s' → exec s tr s'
| exec_yield s c d c' s1 d' tr s' :
    length (c_stack c) = 15%nat → yield_trap main_proc rq c s d = Ok (c', s1, d') →
    exec s1 tr s' → exec s (curr_proc s1 :: tr) s'.

(** As many yields as the first part [a] of the queue runs exactly [a]. *)
Lemma exec_prefix {D} `{PortIO D} n s tr s' :
  exec s tr s' → Z.of_nat n < 4294967295 → ∀ cur a b ctx,
  running s cur (a ++ b) ctx n → length tr = length a →
  ∃ pre z ctx', cur :: a = pre ++ [z] ∧ tr = a ∧ running s' z (b ++ pre) ctx' n.
Proof using HU.
  intros He Hn. induction He as [s|s m' tr s' Hm He IH|s c d c' s1 d' tr s' Hc E He IH]; intros cur a b ctx Hr Hl.
  - destruct a; [|done]. exists [], cur, ctx. by rewrite app_nil_r.
  - apply (IH cur a b ctx); [|done]. by apply running_stable.
  - destruct a as [|p a]; [done|].
    destruct (yield_trap_switch s cur p (a ++ b) ctx n c d Hr Hn Hc) as (c2 & s2 & E2 & _ & R2).
    rewrite E in E2. injection E2 as -> -> ->. rewrite <- app_assoc in R2.
    destruct (IH p a (b ++ [cur]) _ R2) as (pre & z & ctx' & Ea & -> & R'); [by cbn in Hl; lia|].
    exists (cur :: pre), z, ctx'. rewrite Ea, (rn_cur _ _ _ _ _ R2). split; [done|]. split; [done|].
    by rewrite <- app_assoc in R'.
Qed.

(** One more yield after everybody else has run returns to where it began. *)
Lemma exec_cycle {D} `{PortIO D} n s tr s' cur q ctx :
  exec s tr s' → Z.of_nat n < 4294967295 →
  running s cur q ctx n → length tr = S (length q) → tr = q ++ [cur] ∧ ∃ ctx', running s' cur q ctx' n.
Proof using HU.
  intros He Hn. revert cur q ctx.
  induction He as [s|s m' tr s' Hm He IH|s c d c' s1 d' tr s' Hc E He IH]; intros cur q ctx Hr Hl.
  - done.
  - apply (IH cur q ctx); [|done]. by apply running_stable.
  - destruct q as [|p q].
    + destruct (yield_trap_alone s cur ctx n c d Hr Hn) as (s2 & E2 & R2). rewrite E in E2. injection E2 as -> -> ->.
      destruct (exec_prefix n _ _ _ He Hn cur [] [] ctx) as (pre & z & ctx' & Ea & -> & R'); [done|by cbn in *; lia|].
      destruct pre; [|by destruct pre]. injection Ea as <-. rewrite (rn_cur _ _ _ _ _ R2). eauto.
    + destruct (yield_trap_switch s cur p q ctx n c d Hr Hn Hc) as (c2 & s2 & E2 & _ & R2).
      rewrite E in E2. injection E2 as -> -> ->.
      destruct (exec_prefix n _ _ _ He Hn p (q ++ [cur]) [] (fun x => if decide (x = cur) then c else ctx x)) as (pre & z & ctx' & Ea & -> & R').
      { by rewrite app_nil_r. } { rewrite length_app. cbn in *. lia. }
      rewrite app_comm_cons in Ea. apply app_inj_tail in Ea as [<- <-].
      rewrite (rn_cur _ _ _ _ _ R2). eauto.
Qed.

End Queue.

(** A system of two processes: 0x1000 runs, 0x2000 is ready. *)
Definition demo_mem : mem :=
  match PROC_save_context 0x2000 demo_cpu ∅ with
  | Ok m => LL_append (LL_init m 0x100 off_queue) 0x100 0x2000
  | _ => ∅
  end.

Definition demo_sched : sched :=
  mkS demo_mem (mkK (k_vm demo_k) (mkIrqs (replicate 256 (0x77, 0)) 0 true [])) 0x1000 0x1000 0 [].

Lemma demo_universe : universe 0x100 [0x1000; 0x2000].
Proof.
  split.
  - intros d Hd. rewrite !elem_of_cons, elem_of_nil in Hd. unfold apart, sizeof_Process. lia.
  - intros d d' Hd Hd' Hne. rewrite !elem_of_cons, elem_of_nil in Hd, Hd'. unfold apart, sizeof_Process. lia.
Qed.

Lemma demo_running : running 0x100 [0x1000; 0x2000] demo_sched 0x1000 [0x2000] (fun _ => demo_cpu) 0.
Proof.
  destruct (PROC_save_context_ok 0x2000 demo_cpu ∅) as (m & E & X & _); [done|].
  assert (Hl : linkable 0x100 off_queue [] 0x2000).
  { apply (linkable_univ 0x100 [0x1000; 0x2000] demo_universe); [by right; left|by intros ? ?%elem_of_nil|apply not_elem_of_nil]. }
  destruct (LL_init_rep m 0x100 off_queue) as [L1 O1]; [done|done|].
  destruct (LL_append_rep (LL_init m 0x100 off_queue) 0x100 off_queue [] 0x2000 L1 Hl) as [L2 O2].
  assert (Em : s_mem demo_sched = LL_append (LL_init m 0x100 off_queue) 0x100 0x2000).
  { cbn [s_mem demo_sched]. unfold demo_mem. by rewrite E. }
  split; [|done|done|done| |by left| |].
  - split; [by rewrite Em|by intros d ->%list_elem_of_singleton; right; left|by split].
  - apply (bool_decide_unpack _). vm_compute. exact I.
  - exists (0x77, 0). by split.
  - intros p ->%list_elem_of_singleton. split; [|done]. rewrite Em. eapply context_in_stable; [|exact X].
    intros x Hx. rewrite O2; [rewrite O1; [done|lia]|].
    intros h Hh. cbn in Hh. rewrite !elem_of_cons, elem_of_nil in Hh. unfold off_queue in Hh. lia.
Qed.


(** ** Unblocking *)

Section Unblock.
Context (rq bq : Z) (U : list Z).
Hypothesis HU : universe rq U.
Hypothesis HB : universe bq U.
Hypothesis Hqq : apart rq 24 bq 24.

(** The processes of [q] are ready, those of [bs] blocked on the queue [bq]. *)
Record blocked (s : sched) (q bs : list Z) (n : nat) : Prop := {
  bl_ready : ready rq U s q n;
  bl_list : list_rep (s_mem s) bq off_queue bs;
  bl_univ d : d ∈ bs → d ∈ U;
  bl_nodup : NoDup (q ++ bs)
}.

(** Changing the links of one queue does not disturb another. *)
Lemma other_queue r r' m m' l l' :
  universe r U → universe r' U → apart r 24 r' 24 → (∀ d, d ∈ l → d ∈ U) → (∀ d, d ∈ l' → d ∈ U) →
  (∀ d, d ∈ l → d ∉ l') → only_hdrs (r :: (hdrs off_queue l)) m m' →
  list_rep m r' off_queue l' → list_rep m' r' off_queue l'.
Proof using.
  intros Hr Hr' Ha Hl Hl' Hd Ho. apply list_rep_ext.
  - intros x Hx. apply Ho. intros h [->|(d & -> & Hd')%list_elem_of_fmap]%elem_of_cons.
    + unfold apart in Ha. lia.
    + destruct (un_valid _ _ Hr' d (Hl d Hd')) as (_ & _ & A). unfold apart, off_queue, sizeof_Process in *. lia.
  - intros d x Hdl Hx. apply Ho. intros h [->|(e & -> & He)%list_elem_of_fmap]%elem_of_cons.
    + destruct (un_valid _ _ Hr d (Hl' d Hdl)) as (_ & _ & A). unfold apart, off_queue, sizeof_Process in *. lia.
    + assert (e ≠ d) by (intros ->; by eapply Hd).
      destruct (un_apart _ _ Hr e d (Hl e He) (Hl' d Hdl)) as [|]; [done|..]; unfold off_queue, sizeof_Process in *; lia.
Qed.

(** The memory that moving processes between the queues may write. *)
Definition only_two_queues (m m' : mem) : Prop :=
  ∀ x, ¬ (rq ≤ x < rq + 16) → ¬ (bq ≤ x < bq + 16) → (∀ d, d ∈ U → ¬ (d ≤ x < d + 16)) → rd8 m' x = rd8 m x.

Lemma move_head s q b bs n :
  blocked s q (b :: bs) n → ∃ s1, proc_queue_dequeue bq s = (b, s1) ∧
    blocked (proc_queue_enqueue rq b s1) (q ++ [b]) bs n ∧
    only_two_queues (s_mem s) (s_mem (proc_queue_enqueue rq b s1)) ∧
    curr_proc (proc_queue_enqueue rq b s1) = curr_proc s ∧ next_proc (proc_queue_enqueue rq b s1) = next_proc s ∧
    sleep_curr (proc_queue_enqueue rq b s1) = sleep_curr s ∧ s_k (proc_queue_enqueue rq b s1) = s_k s.
Proof using HU HB Hqq.
  intros [[Rl Ru Ri] Bl Bu Nd]. unfold proc_queue_dequeue.
  destruct (LL_dequeue_rep (s_mem s) bq off_queue b bs Bl) as (E & L2 & M2).
  rewrite E. set (m1 := LL_del (s_mem s) (b + off_queue)) in *. clearbody m1.
  eexists. split; [done|].
  rewrite NoDup_app in Nd. destruct Nd as (Nq & Nd & Nb). apply NoDup_cons in Nb as [Nb1 Nb2].
  assert (HbU : b ∈ U) by (apply Bu; left).
  assert (Hbq : b ∉ q) by (intros Hq; apply (Nd b Hq); left).
  assert (Rl1 : list_rep m1 rq off_queue q).
  { eapply (other_queue bq rq (s_mem s) m1 (b :: bs) q); [done|done| |done|done| |done|done].
    - unfold apart in *. lia.
    - intros d Hd Hq. by apply (Nd d Hq). }
  destruct (LL_append_rep m1 rq off_queue q b Rl1) as [L3 M3]; [by apply (linkable_univ rq U HU)|].
  assert (Hu3 : ∀ d, d ∈ q ++ [b] → d ∈ U).
  { intros d [?| ->%list_elem_of_singleton]%elem_of_app; auto. }
  split; [|split; [|done]].
  2: { intros x X1 X2 X3. rewrite (only_hdrs_queues rq U _ _ _ Hu3 M3) by done.
       apply (only_hdrs_queues bq U (b :: bs)); done. }
  split; [by split| |intros d Hd; apply Bu; by right|].
  - eapply (other_queue rq bq m1 _ (q ++ [b]) bs); [done|done|done|done| | |exact M3|exact L2].
    + intros d Hd. apply Bu. by right.
    + intros d [Hd| ->%list_elem_of_singleton]%elem_of_app; [|done]. intros Hb. apply (Nd d Hd). by right.
  - rewrite <- app_assoc. apply NoDup_app. split; [done|]. split; [exact Nd|]. by apply NoDup_cons.
Qed.

Lemma unblock_loop_ok bs : ∀ s q n fuel,
  blocked s q bs n → (length bs < fuel)%nat →
  ∃ s', unblock_loop rq fuel bq s = Ok s' ∧ blocked s' (q ++ bs) [] n ∧ only_two_queues (s_mem s) (s_mem s') ∧
    (curr_proc s', next_proc s', sleep_curr s', s_k s') = (curr_proc s, next_proc s, sleep_curr s, s_k s).
Proof using HU HB Hqq.
  induction bs as [|b bs IH]; intros s q n [|fuel] Hb Hf; [cbn in Hf; lia| |cbn in Hf; lia|]; cbn [unblock_loop].
  - unfold proc_queue_dequeue. rewrite (LL_dequeue_nil _ _ _ (bl_list _ _ _ _ Hb)). exists (s_set_mem s (s_mem s)).
    split; [done|]. rewrite app_nil_r. split; [by destruct s|]. split; [by intros ? _ _ _|done].
  - destruct (move_head s q b bs n Hb) as (s1 & E & Hb1 & M1 & C1 & N1 & S1 & K1). rewrite E.
    assert (HbU : b ∈ U) by (apply (bl_univ _ _ _ _ Hb); left).
    destruct (un_valid _ _ HU b HbU) as (Hb0 & _). rewrite (proj2 (Z.eqb_neq b NULL)) by (unfold NULL; lia).
    destruct (IH _ (q ++ [b]) n fuel Hb1) as (s' & E' & B' & M' & Q'); [cbn in Hf; lia|].
    exists s'. split; [done|]. rewrite Q', C1, N1, S1, K1. rewrite <- app_assoc in B'. split; [done|].
    split; [|done]. intros x X1 X2 X3. by rewrite M', M1.
Qed.

Lemma blocked_irq f s q bs n n' :
  blocked s q bs n → irq_at n' (f (k_irq (s_k s))) → blocked (s_on_irq f s) q bs n'.
Proof using. intros [[Rl Ru Ri] Bl Bu Nd] Hf. by split; [split|..]. Qed.

Lemma PROC_unblock_all_ok s q bs n fuel :
  blocked s q bs n → Z.of_nat n < 4294967295 → (length bs < fuel)%nat →
  ∃ s', PROC_unblock_all rq fuel bq s = Ok s' ∧ blocked s' (q ++ bs) [] n ∧
     PROC_queue_empty bq s' = true ∧
     (curr_proc s', next_proc s', sleep_curr s') = (curr_proc s, next_proc s, sleep_curr s) ∧
     only_two_queues (s_mem s) (s_mem s').
Proof using HU HB Hqq.
  intros Hb Hn Hf.
  destruct (IRQ_disable_at n _ (rd_irq _ _ _ _ _ (bl_ready _ _ _ _ Hb)) Hn) as (I1 & _).
  pose proof (blocked_irq IRQ_disable s q bs n (S n) Hb I1) as Hb0. unfold PROC_unblock_all.
  destruct (unblock_loop_ok bs _ q (S n) fuel Hb0 Hf) as (s1 & E & B1 & M1 & Q1). rewrite E, bind_Ok.
  destruct (IRQ_enable_at (S n) _ (rd_irq _ _ _ _ _ (bl_ready _ _ _ _ B1))) as (I2 & _); [lia|].
  eexists. split; [done|]. split; [by apply (blocked_irq IRQ_enable s1 _ [] (S n))|].
  split; [|split; [injection Q1 as Q1 Q2 Q3 _; cbn [s_on_irq s_set_k curr_proc next_proc sleep_curr] in *; congruence|exact M1]].
  unfold PROC_queue_empty. exact (LL_empty_rep _ _ _ _ (bl_list _ _ _ _ B1)).
Qed.

Lemma PROC_unblock_head_ok s q bs n :
  blocked s q bs n → Z.of_nat n < 4294967295 →
  let s' := PROC_unblock_head rq bq s in
  blocked s' (q ++ take 1 bs) (drop 1 bs) n ∧
  (curr_proc s', next_proc s', sleep_curr s') = (curr_proc s, next_proc s, sleep_curr s) ∧
  only_two_queues (s_mem s) (s_mem s') ∧ handlers (k_irq (s_k s')) = handlers (k_irq (s_k s)).
Proof using HU HB Hqq.
  intros Hb Hn. unfold PROC_unblock_head, PROC_queue_empty. rewrite (LL_empty_rep _ _ _ _ (bl_list _ _ _ _ Hb)).
  destruct bs as [|b bs].
  - rewrite bool_decide_true by done. cbn [take drop]. rewrite app_nil_r. split; [done|]. split; [done|]. by split; [intros ? _ _ _|].
  - rewrite bool_decide_false by done. cbn zeta.
    destruct (IRQ_disable_at n _ (rd_irq _ _ _ _ _ (bl_ready _ _ _ _ Hb)) Hn) as (I1 & H1 & _).
    pose proof (blocked_irq IRQ_disable s q (b :: bs) n (S n) Hb I1) as Hb0.
    destruct (move_head _ q b bs (S n) Hb0) as (s1 & E & B1 & M1 & C1 & N1 & S1 & K1). rewrite E.
    destruct (IRQ_enable_at (S n) _ (rd_irq _ _ _ _ _ (bl_ready _ _ _ _ B1))) as (I2 & H2 & _); [lia|].
    split; [by apply (blocked_irq IRQ_enable _ _ bs (S n))|].
    cbn [s_on_irq s_set_k curr_proc next_proc sleep_curr s_mem s_k k_irq] in *. rewrite C1, N1, S1.
    split; [done|]. split; [exact M1|]. rewrite H2, K1. exact H1.
Qed.

(** Waking a queue.  [PROC_unblock_all] moves every process that waits on a
    queue to the end of the ready queue, in the order in which they blocked, and
    leaves the queue empty; [PROC_unblock_head] moves the first one only, and
    does nothing on an empty queue.  Neither changes who runs, and interrupts
    are as they were. *)
Theorem unblock_moves (s : sched) (q bs : list Z) (n fuel : nat) :
  blocked s q bs n → Z.of_nat n < 4294967295 → (length bs < fuel)%nat →
  (∃ s', PROC_unblock_all rq fuel bq s = Ok s' ∧ blocked s' (q ++ bs) [] n ∧
     PROC_queue_empty bq s' = true ∧
     (curr_proc s', next_proc s', sleep_curr s') = (curr_proc s, next_proc s, sleep_curr s)) ∧
  (let s' := PROC_unblock_head rq bq s in
   blocked s' (q ++ take 1 bs) (drop 1 bs) n ∧
   (curr_proc s', next_proc s', sleep_curr s') = (curr_proc s, next_proc s, sleep_curr s)).
Proof using HU HB Hqq.
  intros Hb Hn Hf. split; [|destruct (PROC_unblock_head_ok s q bs n Hb Hn) as (? & ? & _); by split].
  destruct (PROC_unblock_all_ok s q bs n fuel Hb Hn Hf) as (s' & E & B' & Em & Q' & _). by exists s'.
Qed.
End Unblock.

(** A system in which 0x2000 is blocked on the queue at 0x100 and the ready
    queue, at 0x200, is empty. *)
Definition demo_blocked : sched :=
  mkS (LL_init (s_mem demo_sched) 0x200 off_queue) (s_k demo_sched) 0x1000 0x1000 0 [].

Lemma demo_universe2 : universe 0x200 [0x1000; 0x2000].
Proof.
  split.
  - intros d Hd. rewrite !elem_of_cons, elem_of_nil in Hd. unfold apart, sizeof_Process. lia.
  - apply (un_apart _ _ demo_universe).
Qed.

Lemma demo_blocked_ok : blocked 0x200 0x100 [0x1000; 0x2000] demo_blocked [] [0x2000] 0.
Proof.
  destruct demo_running as [[Rl Ru Ri] _ _ _ _ _ _ _].
  destruct (LL_init_rep (s_mem demo_sched) 0x200 off_queue) as [L1 O1]; [done|done|].
  split; [split; [exact L1|by intros ? ?%elem_of_nil|exact Ri]| |exact Ru|].
  - eapply list_rep_ext; [| |exact Rl].
    + intros x Hx. apply O1. lia.
    + intros d x ->%list_elem_of_singleton Hx. apply O1. unfold off_queue in Hx. lia.
  - apply (bool_decide_unpack _). vm_compute. exact I.
Qed.

Lemma unblock_moves_witness :
  ∃ s', PROC_unblock_all 0x200 2 0x100 demo_blocked = Ok s' ∧ PROC_queue_empty 0x100 s' = true.
Proof.
  destruct (unblock_moves 0x200 0x100 [0x1000; 0x2000] demo_universe2 demo_universe) with
    (s := demo_blocked) (q := [] : list Z) (bs := [0x2000]) (n := 0%nat) (fuel := 2%nat)
    as [(s' & E & _ & H & _) _].
  - unfold apart. lia.
  - exact demo_blocked_ok.
  - lia.
  - cbn. lia.
  - exists s'. by split.
Defined.
