(* ===== verification/Blocking.v ===== *)
(** * Sleeping and waking (src/src/proc.c)

    The life of a process over several system calls: it runs, yields, blocks on
    a queue, is woken by an interrupt handler and runs again, with [main_proc]
    running [PROC_run] whenever nobody is ready.  The code of Sched.v is proved
    to refine an abstract scheduler of three lists. *)

From S2P Require Import Prelude Memory CString LinkedList Segments Frames Machine Irq Paging Mmu Kmalloc Sched.

(** ** The abstract scheduler *)

(** Who runs, who is ready and who waits on the queue. *)
Record asched := mkA { a_cur : Z; a_ready : list Z; a_blocked : list Z }.

(** A process yields or blocks, an interrupt handler wakes the queue, and
    [main_proc] calls [PROC_run]. *)
Inductive sop := SYield | SBlock | SWake | SRun.

Section Abstract.
Context (main : Z).

Definition a_step (o : sop) (a : asched) : option asched :=
  let '(mkA cur q bs) := a in
  match o with
  | SYield => if decide (cur = main) then None else Some (match q with [] => a | p :: q => mkA p (q ++ [cur]) bs end)
  | SBlock =>
      if decide (cur = main) then None
      else Some (match q with [] => mkA main [] (bs ++ [cur]) | p :: q => mkA p q (bs ++ [cur]) end)
  | SWake => Some (mkA cur (q ++ bs) [])
  | SRun => if decide (cur = main) then Some (match q with [] => a | p :: q => mkA p q bs end) else None
  end.

(** The state after a sequence of operations, with who runs after each. *)
Fixpoint a_run (ops : list sop) (a : asched) : option (list Z * asched) :=
  match ops with
  | [] => Some ([], a)
  | o :: ops =>
      match a_step o a with
      | None => None
      | Some a => match a_run ops a with None => None | Some (tr, a') => Some (a_cur a :: tr, a') end
      end
  end.

(** The processes there are, [main_proc] apart. *)
Definition a_procs (a : asched) : list Z :=
  (if decide (a_cur a = main) then [] else [a_cur a]) ++ a_ready a ++ a_blocked a.

Definition a_ok (a : asched) : Prop := main ∉ a_ready a ++ a_blocked a.

(** No step loses or duplicates a process. *)
Lemma a_step_procs o a a' : a_ok a → a_step o a = Some a' → a_procs a' ≡ₚ a_procs a ∧ a_ok a'.
Proof using.
  destruct a as [cur q bs]. unfold a_ok, a_procs. cbn [a_cur a_ready a_blocked]. intros Hm.
  rewrite elem_of_app in Hm. destruct o; cbn [a_step].
  - destruct (decide (cur = main)) as [|Hc]; [done|]. intros [= <-].
    destruct q as [|p q]; cbn [a_cur a_ready a_blocked]; [by rewrite !decide_False, elem_of_app|].
    assert (p ≠ main) by (intros ->; apply Hm; left; left).
    rewrite !decide_False by done. split; [|rewrite !elem_of_app, list_elem_of_singleton; intros [[?|?]|?]; [|congruence|]; tauto || (apply Hm; left; by right)].
    cbn [app]. rewrite <- app_assoc. cbn [app]. rewrite <- (Permutation_middle q bs cur). apply perm_swap.
  - destruct (decide (cur = main)) as [|Hc]; [done|]. intros [= <-].
    destruct q as [|p q]; cbn [a_cur a_ready a_blocked].
    + rewrite decide_True by done. cbn [app]. split; [by rewrite Permutation_app_comm|].
      rewrite elem_of_app, list_elem_of_singleton. intros [?|?]; [tauto|congruence].
    + assert (p ≠ main) by (intros ->; apply Hm; left; left). rewrite decide_False by done. cbn [app]. split.
      * rewrite app_comm_cons, app_assoc. by rewrite (Permutation_app_comm _ [cur]).
      * rewrite !elem_of_app, list_elem_of_singleton. intros [?|[?|?]]; [apply Hm; left; by right|tauto|congruence].
  - intros [= <-]. cbn [a_cur a_ready a_blocked]. rewrite app_nil_r, elem_of_app. by split.
  - destruct (decide (cur = main)) as [->|Hc]; [|done]. intros [= <-].
    destruct q as [|p q]; cbn [a_cur a_ready a_blocked]; [rewrite decide_True, elem_of_app by done; by split|].
    assert (p ≠ main) by (intros ->; apply Hm; left; left). rewrite decide_False by done. cbn [app]. split; [done|].
    rewrite elem_of_app. intros [?|?]; apply Hm; [left; by right|by right].
Qed.

Lemma a_run_procs ops : ∀ a tr a', a_ok a → a_run ops a = Some (tr, a') → a_procs a' ≡ₚ a_procs a ∧ a_ok a'.
Proof using.
  induction ops as [|o ops IH]; intros a tr a' Ha; cbn [a_run]; [by intros [= <- <-]|].
  destruct (a_step o a) as [a1|] eqn:E; [|done]. destruct (a_run ops a1) as [[tr1 a2]|] eqn:E'; [|done]. intros [= <- <-].
  destruct (a_step_procs _ _ _ Ha E) as [P1 O1]. destruct (IH _ _ _ O1 E') as [P2 O2]. split; [by rewrite P2|done].
Qed.
End Abstract.

(** ** The concrete system *)

Section System.
Context (main rq bq : Z) (U : list Z).
Hypothesis HU : universe rq U.
Hypothesis HB : universe bq U.
Hypothesis Hqq : apart rq 24 bq 24.
Hypothesis Hmain : main ∈ U.

(** The state [s] is the abstract state [a]; every process that does not run
    has its registers [ctx] saved. *)
Record system (s : sched) (a : asched) (ctx : Z → cpu) (n : nat) : Prop := {
  sy_queues : blocked rq bq U s (a_ready a) (a_blocked a) n;
  sy_curr : curr_proc s = a_cur a ∧ next_proc s = a_cur a;
  sy_sleep : a_cur a ≠ main → sleep_curr s = 0;
  sy_in : a_cur a ∈ U ∧ a_cur a ∉ a_ready a ++ a_blocked a;
  sy_main : a_ok main a;
  sy_handler : ∃ h, handlers (k_irq (s_k s)) !! 123%nat = Some h ∧ h.1 ≠ NULL;
  sy_ctx p : p ∈ a_ready a ++ a_blocked a ∨ p = main → p ≠ a_cur a →
    context_in (s_mem s) p (ctx p) ∧ length (c_stack (ctx p)) = 15%nat
}.

(** Bytes that only the scheduler may write. *)
Definition guarded (x : Z) : Prop := rq ≤ x < rq + 24 ∨ bq ≤ x < bq + 24 ∨ ∃ p, p ∈ U ∧ p ≤ x < p + sizeof_Process.

(** Nothing but the scheduler's own memory has changed. *)
Definition sched_frame (s s' : sched) : Prop :=
  (∀ x, ¬ guarded x → rd8 (s_mem s') x = rd8 (s_mem s) x) ∧ handlers (k_irq (s_k s')) = handlers (k_irq (s_k s)).

Lemma sched_frame_trans s1 s2 s3 : sched_frame s1 s2 → sched_frame s2 s3 → sched_frame s1 s3.
Proof using. clear. intros [A1 A2] [B1 B2]. split; [|by rewrite B2]. intros x Hx. by rewrite B1, A1. Qed.

Lemma hdrs_guarded r q m m' x : r = rq ∨ r = bq → (∀ p, p ∈ q → p ∈ U) → only_hdrs (r :: hdrs off_queue q) m m' → ¬ guarded x → rd8 m' x = rd8 m x.
Proof using.
  clear. intros Hr Hq Ho Hx. apply Ho. intros h [->|(p & -> & Hp)%list_elem_of_fmap]%elem_of_cons Hh; apply Hx.
  - destruct Hr as [-> | ->]; [left|right; left]; lia.
  - right. right. exists p. split; [by apply Hq|]. unfold off_queue, sizeof_Process in *. lia.
Qed.

(** [PROC_reschedule] writes the links of the ready queue only. *)
Lemma PROC_reschedule_frame s q n :
  ready rq U s q n → (curr_proc s ≠ NULL → sleep_curr s = 0 → curr_proc s ∈ U ∧ curr_proc s ∉ q) →
  let q1 := if negb (curr_proc s =? NULL) && (sleep_curr s =? 0) then q ++ [curr_proc s] else q in
  only_hdrs (rq :: hdrs off_queue q1) (s_mem s) (s_mem (PROC_reschedule main rq s)).
Proof using HU.
  intros [Rl Ru Ri] Hc q1.
  assert (H1 : list_rep (s_mem (resched_requeue rq (s_on_irq IRQ_disable s))) rq off_queue q1 ∧
    only_hdrs (rq :: hdrs off_queue q1) (s_mem s) (s_mem (resched_requeue rq (s_on_irq IRQ_disable s)))).
  { unfold resched_requeue, q1. cbn [s_on_irq s_set_k curr_proc sleep_curr].
    destruct (negb (curr_proc s =? NULL) && (sleep_curr s =? 0)) eqn:Eb; [|by split]. bool_cases.
    destruct (Hc ltac:(done) ltac:(done)) as [HcU Hcq].
    apply (LL_append_rep (s_mem s) rq off_queue q (curr_proc s) Rl). by apply (linkable_univ rq U HU). }
  destruct H1 as [L1 O1]. unfold PROC_reschedule.
  set (s1 := resched_requeue rq (s_on_irq IRQ_disable s)) in *. clearbody s1.
  assert (O2 : only_hdrs (rq :: hdrs off_queue q1) (s_mem s1) (s_mem (resched_pick main rq s1))).
  { unfold resched_pick, PROC_queue_empty. rewrite (LL_empty_rep _ _ _ _ L1). destruct q1 as [|p q1].
    - rewrite bool_decide_true by done. by intros x _.
    - rewrite bool_decide_false by done. unfold proc_queue_dequeue.
      destruct (LL_dequeue_rep (s_mem s1) rq off_queue p q1 L1) as (E & _ & M2). by rewrite E. }
  assert (O3 : only_hdrs (rq :: hdrs off_queue q1) (s_mem s) (s_mem (resched_pick main rq s1))) by (intros x Hx; rewrite O2, O1 by done; done).
  cbv zeta. destruct (curr_proc (resched_pick main rq s1) =? next_proc (resched_pick main rq s1)); exact O3.
Qed.

(** A yield, by a process that stays ready or goes to sleep, in favour of
    another one. *)
Lemma yield_to {D} `{PortIO D} s cur q bs ctx n c (d : D) :
  blocked rq bq U s q bs n → Z.of_nat n < 4294967295 → length (c_stack c) = 15%nat →
  curr_proc s = cur → cur ∈ U → (sleep_curr s = 0 → cur ∉ q ++ bs) →
  (∃ h, handlers (k_irq (s_k s)) !! 123%nat = Some h ∧ h.1 ≠ NULL) →
  ∀ nx sl q', resched main cur (sleep_curr s) q = (nx, sl, q') → nx ≠ cur →
  context_in (s_mem s) nx (ctx nx) → length (c_stack (ctx nx)) = 15%nat →
  ∃ c' s', yield_trap main rq c s d = Ok (c', s', d) ∧ restored (ctx nx) c c' ∧ blocked rq bq U s' q' bs n ∧
    (curr_proc s', next_proc s', sleep_curr s') = (nx, nx, sl) ∧
    sched_frame s s' ∧ context_in (s_mem s') cur c ∧
    (∀ p cx, p ∈ U → p ≠ cur → context_in (s_mem s) p cx → context_in (s_mem s') p cx).
Proof using HU HB Hqq Hmain.
  intros [Rr Bl Bu Nd] Hn Hc Hcur Hin Hcb (h & Hh & Hh0) nx sl q' ER Hne Xn Ln. setoid_rewrite not_elem_of_app in Hcb.
  assert (Hcond : curr_proc s ≠ NULL → sleep_curr s = 0 → curr_proc s ∈ U ∧ curr_proc s ∉ q) by (rewrite Hcur; intros _ H0; split; [done|by apply Hcb]).
  assert (Hcn : cur ≠ NULL) by (destruct (un_valid _ _ HU cur Hin); unfold NULL; lia).
  pose proof (PROC_reschedule_ok main rq U HU s q n Rr Hn Hcond) as HR. pose proof (PROC_reschedule_frame s q n Rr Hcond) as F1.
  rewrite Hcur in HR, F1. rewrite ER, (proj2 (Z.eqb_neq cur nx)) in HR by congruence. cbn zeta in HR, F1.
  destruct HR as (R1 & C1 & N1 & S1 & _ & H1 & M1). destruct R1 as [R1a R1b R1c].
  unfold resched in ER. rewrite (proj2 (Z.eqb_neq cur NULL) Hcn) in ER, F1. cbn [negb andb] in ER, F1.
  set (q1 := if sleep_curr s =? 0 then q ++ [cur] else q) in *.
  assert (Hq1 : (∀ p, p ∈ q1 → p ∈ U) ∧ NoDup (q1 ++ bs) ∧ nx ∈ U ∧ ∀ p, p ∈ q' → p ∈ q1).
  { rewrite NoDup_app in Nd. destruct Nd as (Nq & Nd & Nb). assert (Hu1 : ∀ p, p ∈ q1 → p ∈ U).
    { unfold q1. destruct (sleep_curr s =? 0); [|by apply (rd_univ _ _ _ _ _ Rr)].
      intros p [Hp| ->%list_elem_of_singleton]%elem_of_app; [by apply (rd_univ _ _ _ _ _ Rr)|done]. }
    split; [done|]. split; [|destruct q1 as [|p q1]; injection ER as <- <- <-; [by split; [|intros p Hp%elem_of_nil]|]; split; [apply Hu1; left|by right]].
    unfold q1. destruct (Z.eqb_spec (sleep_curr s) 0) as [E0|]; [|by apply NoDup_app].
    rewrite <- app_assoc. apply NoDup_app. split; [done|]. split; [|apply NoDup_app; split; [apply NoDup_singleton|split; [|done]]].
    - intros x Hx [->%list_elem_of_singleton|Hb]%elem_of_app; [exact (proj1 (Hcb E0) Hx)|by apply (Nd x)].
    - intros x ->%list_elem_of_singleton. exact (proj2 (Hcb E0)). }
  destruct Hq1 as (Hu1 & Nd1 & HnU & Hsub).
  assert (X1 : ∀ p cx, p ∈ U → context_in (s_mem s) p cx → context_in (s_mem (PROC_reschedule main rq s)) p cx).
  { intros p cx Hp Hx. eapply context_in_stable; [|exact Hx]. intros y Hy. apply (only_queues_ctx rq U HU _ _ p); [done|done|lia]. }
  destruct (trap_switch main rq U HU s cur nx (ctx nx) n c d h Hh Hh0 Hin HnU Hne Hn Hc C1 N1 R1c (X1 _ _ HnU Xn) Ln)
    as (c' & s' & E & Rs & Q & I & Hd & Xc & F).
  exists c', s'. split; [done|]. split; [done|]. split; [|split; [by rewrite Q, S1|split; [split; [|by rewrite Hd]|split; [done|]]]].
  - split; [split; [|done|done]| |done|].
    + by eapply (saved_ready rq U HU).
    + apply (saved_ready bq U HB _ _ cur bs F Hin Bu).
      eapply (other_queue U rq bq _ _ q1 bs); [done|done|done|done|done| |exact F1|done].
      intros p Hp Hb. rewrite NoDup_app in Nd1. destruct Nd1 as (_ & Nd1 & _). by apply (Nd1 p).
    + destruct q1 as [|p q1]; injection ER as <- <- <-; [by cbn in Nd1|]. by apply NoDup_cons in Nd1 as [_ ?].
  - intros x Hx. rewrite F.
    + apply (hdrs_guarded rq q1); [by left|done|exact F1|done].
    + intros Hc'. apply Hx. right. right. exists cur. split; [done|]. unfold sizeof_Process. lia.
  - intros p cx Hp Hpc Hx. eapply context_in_stable; [|exact (X1 p cx Hp Hx)]. intros y Hy. apply F.
    destruct (un_apart _ _ HU p cur Hp Hin Hpc); unfold sizeof_Process in *; lia.
Qed.

(** ** One operation *)

(** The current process yields, blocks as the drivers do, the queue is woken,
    or [main_proc] goes through its loop. *)
Definition c_step {D} `{PortIO D} (fuel : nat) (o : sop) (c : cpu) (s : sched) (d : D) : outcome (cpu * sched * D) :=
  match o with
  | SYield => yield_trap main rq c s d
  | SBlock => PROC_block_on main rq bq true c (s_on_irq IRQ_disable s) d
  | SWake => s ← PROC_unblock_all rq fuel bq s; Ok (c, s, d)
  | SRun => r ← PROC_run main rq c s d; Ok (match r with RunDone s => (c, s, d) | RunSwitched c s d => (c, s, d) end)
  end.

(** What an operation by [cur] with registers [c] leads to. *)
Definition stepped {D} (s : sched) (a a' : asched) (ctx : Z → cpu) (n : nat) (c : cpu) (d : D) (r : outcome (cpu * sched * D)) : Prop :=
  ∃ c' s', r = Ok (c', s', d) ∧ system s' a' (fun x => if decide (x = a_cur a) then c else ctx x) n ∧ sched_frame s s' ∧
    (if decide (a_cur a' = a_cur a) then c' = c else restored (ctx (a_cur a')) c c').

Lemma stepped_cpu {D} s a a' ctx n c (d : D) r :
  stepped s a a' ctx n c d r → length (c_stack c) = 15%nat →
  ∃ c' s' ctx', r = Ok (c', s', d) ∧ system s' a' ctx' n ∧ sched_frame s s' ∧ length (c_stack c') = 15%nat.
Proof using.
  clear. intros (c' & s' & E & Sy & F & R) Hc. eexists c', s', _. split; [done|]. split; [done|]. split; [done|].
  destruct (decide _); [by subst|]. apply R.
Qed.

Lemma block_enqueue s q bs n cur :
  blocked rq bq U s q bs n → cur ∈ U → cur ∉ q ++ bs →
  blocked rq bq U (proc_queue_enqueue bq cur s) q (bs ++ [cur]) n ∧
  (∀ p cx, p ∈ U → context_in (s_mem s) p cx → context_in (s_mem (proc_queue_enqueue bq cur s)) p cx) ∧
  (∀ x, ¬ guarded x → rd8 (s_mem (proc_queue_enqueue bq cur s)) x = rd8 (s_mem s) x).
Proof using HU HB Hqq.
  intros [[Rl Ru Ri] Bl Bu Nd] Hin Hni. rewrite not_elem_of_app in Hni. destruct Hni as [Hcq Hcb].
  destruct (LL_append_rep (s_mem s) bq off_queue bs cur Bl) as [L1 O1]; [by apply (linkable_univ bq U HB)|].
  assert (Hu : ∀ p, p ∈ bs ++ [cur] → p ∈ U) by (intros p [Hp| ->%list_elem_of_singleton]%elem_of_app; [by apply Bu|done]).
  rewrite NoDup_app in Nd. destruct Nd as (Nq & Nd & Nb). split; [|split; [|by intros x; apply (hdrs_guarded bq (bs ++ [cur])); [right|..]]].
  - split; [split; [|done|done]|done|done|].
    + eapply (other_queue U bq rq _ _ (bs ++ [cur]) q); [done|done| |done|done| |exact O1|done]; [unfold apart in *; lia|].
      intros p [Hp| ->%list_elem_of_singleton]%elem_of_app Hq; [by apply (Nd p)|done].
    + apply NoDup_app. split; [done|]. split.
      * intros x Hx [Hb| ->%list_elem_of_singleton]%elem_of_app; [by apply (Nd x)|done].
      * apply NoDup_app. split; [done|]. split; [|apply NoDup_singleton]. by intros x Hx ->%list_elem_of_singleton.
  - intros p cx Hp Hx. eapply context_in_stable; [|exact Hx]. intros y Hy.
    apply (only_queues_ctx bq U HB _ _ p); [by eapply only_hdrs_queues|done|lia].
Qed.

(** The end of every switch: [yield_to] gives the new state. *)
Lemma switched {D} `{PortIO D} s s0 a ctx n c (d : D) bs nx sl q' :
  system s a ctx n → Z.of_nat n < 4294967295 → length (c_stack c) = 15%nat →
  blocked rq bq U s0 (a_ready a) bs n → curr_proc s0 = a_cur a → (sleep_curr s0 = 0 → a_cur a ∉ bs) →
  sched_frame s s0 →
  (∀ p cx, p ∈ U → context_in (s_mem s) p cx → context_in (s_mem s0) p cx) →
  resched main (a_cur a) (sleep_curr s0) (a_ready a) = (nx, sl, q') → nx ≠ a_cur a → nx ∈ a_ready a ++ a_blocked a ∨ nx = main →
  (nx ≠ main → sl = 0) → nx ∉ q' ++ bs → main ∉ q' ++ bs →
  (∀ p, p ∈ q' ++ bs → p ∈ a_ready a ++ a_blocked a ∨ p = a_cur a) →
  stepped s a (mkA nx q' bs) ctx n c d (yield_trap main rq c s0 d).
Proof using HU HB Hqq Hmain.
  intros [[Rr Bl Bu Nd] Hcur Hsl [Hin Hni] Hmn Hh Hctx] Hn Hc B0 C0 Hcb F0 K0 ER Hne Hnx Hs0 Hnq Hmq Hsub.
  destruct (Hctx nx Hnx Hne) as [Xn Ln].
  assert (HnU : nx ∈ U).
  { destruct Hnx as [[Hq|Hb]%elem_of_app| ->]; [by apply (rd_univ _ _ _ _ _ Rr)|by apply Bu|done]. }
  assert (Hcq : a_cur a ∉ a_ready a) by (rewrite not_elem_of_app in Hni; tauto).
  destruct (yield_to s0 (a_cur a) (a_ready a) bs ctx n c d B0 Hn Hc C0 Hin ltac:(rewrite not_elem_of_app; auto) ltac:(by rewrite (proj2 F0)) nx sl q' ER Hne
    (K0 _ _ HnU Xn) Ln) as (c' & s' & E & Rs & B' & Q' & Hd' & Xc & K').
  injection Q' as Q1 Q2 Q3. exists c', s'. split; [done|]. pose proof (sched_frame_trans _ _ _ F0 Hd') as F'.
  split; [|split; [done|cbn [a_cur]; by rewrite decide_False]].
  destruct Hh as (h & Hh & Hh0). split; cbn [a_cur a_ready a_blocked]; [done|done|intros; rewrite Q3; by apply Hs0|done|done|exists h; by rewrite (proj2 F')|].
  intros p Hp Hpn. destruct (decide (p = a_cur a)) as [->|Hpc]; [done|].
  assert (Hpa : p ∈ a_ready a ++ a_blocked a ∨ p = main).
  { destruct Hp as [Hp| ->]; [|by right]. destruct (Hsub p Hp) as [?|?]; [by left|done]. }
  destruct (Hctx p Hpa Hpc) as [Xp Lp]. split; [|done].
  assert (HpU : p ∈ U) by (destruct Hpa as [[Hq|Hb]%elem_of_app| ->]; [by apply (rd_univ _ _ _ _ _ Rr)|by apply Bu|done]).
  apply K'; [done|done|]. by apply K0.
Qed.

Lemma resched_asleep cur q : resched main cur 1 q = match q with [] => (main, 1, []) | p :: q => (p, 0, q) end.
Proof using. unfold resched. by rewrite andb_false_r. Qed.

Lemma step_yield {D} `{PortIO D} s a a' ctx n c (d : D) :
  system s a ctx n → a_step main SYield a = Some a' → Z.of_nat n < 4294967295 → length (c_stack c) = 15%nat →
  stepped s a a' ctx n c d (yield_trap main rq c s d).
Proof using HU HB Hqq Hmain.
  destruct a as [cur q bs]. intros Sy Ha Hn Hc. cbn [a_step] in Ha. destruct (decide (cur = main)) as [|Hcm]; [done|].
  injection Ha as <-. pose proof Sy as [[Rr Bl Bu Nd] [C1 C2] Sl [Hin Hni] Hmn (h & Hh & Hh0) Hctx].
  unfold a_ok in Hmn. cbn [a_cur a_ready a_blocked] in *. specialize (Sl Hcm).
  pose proof Hni as Hni'. apply not_elem_of_app in Hni' as [Hcq Hcb]. pose proof Hmn as Hmn'. apply not_elem_of_app in Hmn' as [Hmq Hmb].
  assert (Hcn : cur ≠ NULL) by (destruct (un_valid _ _ HU cur Hin); unfold NULL; lia).
  destruct q as [|p q].
  - assert (Hcond : curr_proc s ≠ NULL → sleep_curr s = 0 → curr_proc s ∈ U ∧ curr_proc s ∉ []) by (rewrite C1; by split).
    pose proof (PROC_reschedule_ok main rq U HU s [] n Rr Hn Hcond) as HR. pose proof (PROC_reschedule_frame s [] n Rr Hcond) as F1.
    rewrite C1, Sl in HR, F1. unfold resched in HR. rewrite (proj2 (Z.eqb_neq cur NULL) Hcn) in HR, F1.
    cbn [negb andb Z.eqb app] in HR, F1. rewrite Z.eqb_refl in HR. cbn zeta in HR. destruct HR as (R1 & D1 & D2 & D3 & _ & D4 & D5).
    eexists c, _. split; [apply (trap_stay main rq s c d h Hh Hh0); congruence|]. rewrite decide_True by done.
    split; [|split; [split; [intros x Hx; apply (hdrs_guarded rq [cur]); [by left|by intros y ->%list_elem_of_singleton|exact F1|done]|exact D4]|done]].
    split; cbn [a_cur a_ready a_blocked]; [|done|done|done|done|exists h; by rewrite D4|].
    + split; [done| |done|done]. eapply (other_queue U rq bq _ _ [cur] bs); [done|done|done| |done| |exact F1|done].
      * by intros x ->%list_elem_of_singleton.
      * by intros x ->%list_elem_of_singleton.
    + intros p Hp Hpc. rewrite decide_False by done. destruct (Hctx p Hp Hpc) as [X L]. split; [|done].
      eapply context_in_stable; [|exact X]. intros y Hy. apply (only_queues_ctx rq U HU _ _ p); [done| |lia].
      destruct Hp as [[Hp%elem_of_nil|Hp]%elem_of_app| ->]; [done|by apply Bu|done].
  - apply (switched s s (mkA cur (p :: q) bs) ctx n c d bs p 0 (q ++ [cur]) Sy Hn Hc); cbn [a_cur a_ready a_blocked]; try done.
    + unfold resched. by rewrite Sl, (proj2 (Z.eqb_neq cur NULL) Hcn).
    + intros ->. apply Hcq. left.
    + left. left.
    + apply NoDup_cons in Nd as [Nd _]. rewrite !elem_of_app, list_elem_of_singleton in *. intros [[?|?]|?]; [tauto| |tauto].
      subst. apply Hcq. left.
    + rewrite !elem_of_app, list_elem_of_singleton. intros [[?|?]|?]; [apply Hmq; by right|congruence|done].
    + intros x. rewrite !elem_of_app, list_elem_of_singleton, elem_of_cons. tauto.
Qed.

(** [PROC_block_on] up to the yield: the process is on the queue, marked
    asleep, and interrupts are on again. *)
Definition block_window (s : sched) : sched := s_on_irq IRQ_enable (s_set_sleep (proc_queue_enqueue bq (curr_proc s) s) 1).

Lemma block_window_ok s a ctx n :
  system s a ctx n → Z.of_nat n < 4294967295 →
  let s0 := block_window (s_on_irq IRQ_disable s) in
  blocked rq bq U s0 (a_ready a) (a_blocked a ++ [a_cur a]) n ∧
  curr_proc s0 = a_cur a ∧ next_proc s0 = a_cur a ∧ sleep_curr s0 = 1 ∧
  sched_frame s s0 ∧
  (∀ p cx, p ∈ U → context_in (s_mem s) p cx → context_in (s_mem s0) p cx).
Proof using HU HB Hqq.
  intros [B [C1 C2] Sl [Hin Hni] _ _ _] Hn s0. unfold s0, block_window.
  destruct (IRQ_disable_at n _ (rd_irq _ _ _ _ _ (bl_ready _ _ _ _ _ _ _ B)) Hn) as (I1 & I2 & _).
  pose proof (blocked_irq rq bq U IRQ_disable s _ _ n (S n) B I1) as B1.
  destruct (block_enqueue _ _ _ (S n) (a_cur a) B1 Hin Hni) as (B2 & K2 & F2).
  destruct (IRQ_enable_at (S n) _ (rd_irq _ _ _ _ _ (bl_ready _ _ _ _ _ _ _ B2))) as (I3 & I4 & _); [lia|].
  change (curr_proc (s_on_irq IRQ_disable s)) with (curr_proc s). rewrite C1.
  set (s2 := proc_queue_enqueue bq (a_cur a) (s_on_irq IRQ_disable s)) in *. split_and!; try done.
  - apply (blocked_irq rq bq U IRQ_enable (s_set_sleep s2 1) _ _ (S n)); [|done]. destruct B2 as [[? ? ?] ? ? ?]. by split; [split|..].
  - split; [exact F2|]. cbn [s_on_irq s_set_k s_k k_irq s_set_sleep]. etransitivity; [exact I4|exact I2].
Qed.

Lemma step_block {D} `{PortIO D} s a a' ctx n c (d : D) :
  system s a ctx n → a_step main SBlock a = Some a' → Z.of_nat n < 4294967295 → length (c_stack c) = 15%nat →
  stepped s a a' ctx n c d (PROC_block_on main rq bq true c (s_on_irq IRQ_disable s) d).
Proof using HU HB Hqq Hmain.
  intros Sy Ha Hn Hc. destruct (block_window_ok s a ctx n Sy Hn) as (B3 & C3 & N3 & S3 & Hh3 & K3).
  change (PROC_block_on main rq bq true c (s_on_irq IRQ_disable s) d) with (yield_trap main rq c (block_window (s_on_irq IRQ_disable s)) d).
  set (s0 := block_window (s_on_irq IRQ_disable s)) in *. clearbody s0.
  destruct a as [cur q bs]. cbn [a_step] in Ha. destruct (decide (cur = main)) as [|Hcm]; [done|].
  injection Ha as <-. pose proof Sy as [[Rr Bl Bu Nd] _ Sl [Hin Hni] Hmn _ _].
  unfold a_ok in Hmn. cbn [a_cur a_ready a_blocked] in *.
  pose proof Hni as Hni'. apply not_elem_of_app in Hni' as [Hcq Hcb]. pose proof Hmn as Hmn'. apply not_elem_of_app in Hmn' as [Hmq Hmb].
  pose proof (switched s s0 (mkA cur q bs) ctx n c d (bs ++ [cur])) as W.
  cbn [a_cur a_ready a_blocked] in W. rewrite S3 in W.
  destruct q as [|p q]; [apply (W main 1 [])|apply (W p 0 q)]; try done; try apply resched_asleep.
  - by right.
  - cbn [app]. rewrite elem_of_app, list_elem_of_singleton. intros [?|?]; [done|congruence].
  - cbn [app]. rewrite elem_of_app, list_elem_of_singleton. intros [?|?]; [done|congruence].
  - intros x. rewrite !elem_of_app, list_elem_of_singleton. tauto.
  - intros ->. apply Hcq. left.
  - left. left.
  - apply NoDup_cons in Nd as [Nd _]. rewrite !elem_of_app, list_elem_of_singleton in *. intros [?|[?|?]]; [tauto|tauto|].
    subst. apply Hcq. left.
  - rewrite !elem_of_app, list_elem_of_singleton. intros [?|[?|?]]; [apply Hmq; by right|done|congruence].
  - intros x. rewrite !elem_of_app, list_elem_of_singleton, elem_of_cons. tauto.
Qed.

Lemma unblock_loop_k fuel : ∀ s s', unblock_loop rq fuel bq s = Ok s' → s_k s' = s_k s.
Proof using.
  induction fuel as [|fuel IH]; intros s s'; cbn [unblock_loop]; [done|].
  unfold proc_queue_dequeue. destruct (LL_dequeue (s_mem s) bq) as [m p]. destruct (p =? NULL); [by intros [= <-]|].
  intros E. by rewrite (IH _ _ E).
Qed.

Lemma two_queues_ctx m m' p cx : only_two_queues rq bq U m m' → p ∈ U → context_in m p cx → context_in m' p cx.
Proof using HU HB.
  clear Hqq Hmain. intros F HpU. apply context_in_stable. intros y Hy.
  destruct (un_valid _ _ HU p HpU) as (_ & _ & A1). destruct (un_valid _ _ HB p HpU) as (_ & _ & A2). unfold apart, sizeof_Process in *.
  apply F; [lia|lia|]. intros e He Hye. destruct (decide (e = p)) as [->|Hne]; [lia|].
  destruct (un_apart _ _ HU e p He HpU Hne); unfold sizeof_Process in *; lia.
Qed.

Lemma unblock_all_handlers fuel s s' n : irq_at n (k_irq (s_k s)) → Z.of_nat n < 4294967295 →
  PROC_unblock_all rq fuel bq s = Ok s' → handlers (k_irq (s_k s')) = handlers (k_irq (s_k s)).
Proof using.
  intros Hi Hn E. unfold PROC_unblock_all in E. destruct (unblock_loop rq fuel bq (s_on_irq IRQ_disable s)) as [s1| |] eqn:E1; [|done|done].
  rewrite bind_Ok in E. injection E as <-. pose proof (unblock_loop_k _ _ _ E1) as Ek. cbn [s_on_irq s_set_k s_k k_irq]. rewrite Ek.
  destruct (IRQ_disable_at n _ Hi Hn) as (I1 & I2 & _). destruct (IRQ_enable_at (S n) _ I1) as (_ & I4 & _); [lia|].
  etransitivity; [exact I4|exact I2].
Qed.

Lemma step_wake s a a' ctx n fuel :
  system s a ctx n → a_step main SWake a = Some a' → Z.of_nat n < 4294967295 → (length (a_blocked a) < fuel)%nat →
  ∃ s', PROC_unblock_all rq fuel bq s = Ok s' ∧ system s' a' ctx n.
Proof using HU HB Hqq Hmain.
  destruct a as [cur q bs]. intros [B [C1 C2] Sl [Hin Hni] Hmn (h & Hh & Hh0) Hctx] Ha Hn Hf. cbn [a_step] in Ha. injection Ha as <-.
  unfold a_ok in Hmn. cbn [a_cur a_ready a_blocked] in *.
  destruct (PROC_unblock_all_ok rq bq U HU HB Hqq s q bs n fuel B Hn Hf) as (s' & E & B' & _ & Q & F). injection Q as Q1 Q2 Q3.
  pose proof (unblock_all_handlers _ _ _ n (rd_irq _ _ _ _ _ (bl_ready _ _ _ _ _ _ _ B)) Hn E) as Hhd.
  exists s'. split; [done|]. split; cbn [a_cur a_ready a_blocked]; rewrite ?app_nil_r; [done|by rewrite Q1, Q2|by rewrite Q3|done|
    by unfold a_ok; cbn [a_ready a_blocked]; rewrite app_nil_r|exists h; by rewrite Hhd|].
  intros p Hp Hpc. destruct (Hctx p Hp Hpc) as [X L]. split; [|done]. eapply two_queues_ctx; [done| |done].
  destruct Hp as [[Hq|Hb]%elem_of_app| ->]; [by apply (rd_univ _ _ _ _ _ (bl_ready _ _ _ _ _ _ _ B))|by apply (bl_univ _ _ _ _ _ _ _ B)|done].
Qed.

(** Waking the first process of the queue only. *)
Lemma step_wake_head s cur q b bs ctx n :
  system s (mkA cur q (b :: bs)) ctx n → Z.of_nat n < 4294967295 →
  let s' := PROC_unblock_head rq bq s in system s' (mkA cur (q ++ [b]) bs) ctx n ∧ sched_frame s s'.
Proof using HU HB Hqq Hmain.
  intros [B [C1 C2] Sl [Hin Hni] Hmn (h & Hh & Hh0) Hctx] Hn s'. destruct (PROC_unblock_head_ok rq bq U HU HB Hqq s q _ n B Hn) as (B' & Q & F & Hhd).
  fold s' in B', Q, F, Hhd. injection Q as Q1 Q2 Q3. unfold a_ok in *. cbn [a_cur a_ready a_blocked take drop] in *.
  assert (Hp : ∀ p, p ∈ (q ++ [b]) ++ bs ↔ p ∈ q ++ b :: bs) by (intros p; by rewrite <- app_assoc).
  split; [split; cbn [a_cur a_ready a_blocked]; [done|by rewrite Q1, Q2|by rewrite Q3|by rewrite Hp|by unfold a_ok; cbn [a_ready a_blocked]; rewrite Hp|exists h; by rewrite Hhd|]|].
  - intros p. rewrite Hp. intros Hq Hpc. destruct (Hctx p Hq Hpc) as [X L]. split; [|done]. eapply two_queues_ctx; [done| |done].
    destruct Hq as [[Hq|Hb]%elem_of_app| ->]; [by apply (rd_univ _ _ _ _ _ (bl_ready _ _ _ _ _ _ _ B))|by apply (bl_univ _ _ _ _ _ _ _ B)|done].
  - split; [|done]. intros x Hx. apply F; [intros ?; apply Hx; left; lia|intros ?; apply Hx; right; left; lia|].
    intros p Hpu Hxp. apply Hx. right. right. exists p. split; [done|]. unfold sizeof_Process. lia.
Qed.

Lemma step_run {D} `{PortIO D} s a a' ctx n c (d : D) :
  system s a ctx n → a_step main SRun a = Some a' → Z.of_nat n < 4294967295 → length (c_stack c) = 15%nat →
  (∃ s', PROC_run main rq c s d = Ok (RunDone s') ∧ a' = a ∧ a_ready a = [] ∧ system s' a ctx n ∧ sched_frame s s') ∨
  (∃ c' s', PROC_run main rq c s d = Ok (RunSwitched c' s' d) ∧ a_ready a ≠ [] ∧ stepped s a a' ctx n c d (Ok (c', s', d))).
Proof using HU HB Hqq Hmain.
  destruct a as [cur q bs]. intros Sy Ha Hn Hc. cbn [a_step] in Ha. destruct (decide (cur = main)) as [->|]; [|done].
  injection Ha as <-. pose proof Sy as [B [C1 C2] Sl [Hin Hni] Hmn (h & Hh & Hh0) Hctx]. pose proof B as [Rr Bl Bu Nd].
  unfold a_ok in Hmn. cbn [a_cur a_ready a_blocked] in *. apply not_elem_of_app in Hmn as [Hmq Hmb].
  destruct (IRQ_disable_at n _ (rd_irq _ _ _ _ _ Rr) Hn) as (I1 & I2 & _). destruct (IRQ_enable_at (S n) _ I1) as (I3 & I4 & _); [lia|].
  unfold PROC_run, PROC_queue_empty. change (s_mem (s_on_irq IRQ_disable s)) with (s_mem s). rewrite (LL_empty_rep _ _ _ _ (rd_list _ _ _ _ _ Rr)).
  destruct q as [|p q].
  - rewrite bool_decide_true by done. left. eexists. split; [done|]. split; [done|]. split; [done|].
    split; [split; cbn [a_cur a_ready a_blocked]; [|done|done|done|done|exists h; by rewrite <- Hh, <- I2, <- I4|done]|].
    + apply (blocked_irq rq bq U IRQ_enable (s_on_irq IRQ_disable s) [] bs (S n) n); [by apply (blocked_irq rq bq U IRQ_disable s [] bs n)|done].
    + split; [done|]. cbn [s_on_irq s_set_k s_k k_irq]. etransitivity; [exact I4|exact I2].
  - rewrite bool_decide_false by done. right.
    pose proof (blocked_irq rq bq U IRQ_disable s (p :: q) bs n (S n) B I1) as B1.
    assert (B2 : blocked rq bq U (s_on_irq IRQ_enable (s_set_sleep (s_on_irq IRQ_disable s) 1)) (p :: q) bs n).
    { apply (blocked_irq rq bq U IRQ_enable (s_set_sleep (s_on_irq IRQ_disable s) 1) (p :: q) bs (S n)); [|done].
      destruct B1 as [[? ? ?] ? ? ?]. by split; [split|..]. }
    pose proof (switched s (s_on_irq IRQ_enable (s_set_sleep (s_on_irq IRQ_disable s) 1)) (mkA main (p :: q) bs) ctx n c d bs p 0 q) as W.
    cbn [a_cur a_ready a_blocked] in W. destruct W as (c' & s' & E & W1 & W2); try done.
    + split; [done|]. cbn [s_on_irq s_set_k s_k k_irq s_set_sleep]. etransitivity; [exact I4|exact I2].
    + apply resched_asleep.
    + intros ->. apply Hmq. left.
    + left. left.
    + by apply NoDup_cons in Nd as [? _].
    + rewrite elem_of_app. intros [?|?]; [apply Hmq; by right|done].
    + intros x. rewrite !elem_of_app, elem_of_cons. tauto.
    + rewrite E, bind_Ok. exists c', s'. split; [done|]. split; [done|]. by exists c', s'.
Qed.

Lemma system_step {D} `{PortIO D} fuel o s a a' ctx n c (d : D) :
  system s a ctx n → a_step main o a = Some a' → Z.of_nat n < 4294967295 → length (c_stack c) = 15%nat →
  (length (a_procs main a) < fuel)%nat →
  ∃ c' s' ctx', c_step fuel o c s d = Ok (c', s', d) ∧ system s' a' ctx' n ∧
    (if decide (a_cur a' = a_cur a) then c' = c else restored (ctx (a_cur a')) c c' ∧ ctx' (a_cur a) = c).
Proof using HU HB Hqq Hmain.
  intros Sy Ha Hn Hc Hf.
  assert (Hst : ∀ r, stepped s a a' ctx n c d r → ∃ c' s' ctx', r = Ok (c', s', d) ∧ system s' a' ctx' n ∧
    (if decide (a_cur a' = a_cur a) then c' = c else restored (ctx (a_cur a')) c c' ∧ ctx' (a_cur a) = c)).
  { intros r (c' & s' & E & S' & _ & R'). eexists c', s', _. split; [done|]. split; [done|].
    destruct (decide (a_cur a' = a_cur a)); [done|]. by rewrite decide_True. }
  destruct o; cbn [c_step].
  - apply Hst. by apply step_yield.
  - apply Hst. by apply step_block.
  - destruct (step_wake s a a' ctx n fuel Sy Ha Hn) as (s' & E & S').
    { unfold a_procs in Hf. rewrite !length_app in Hf. lia. }
    rewrite E, bind_Ok. exists c, s', ctx. split; [done|]. split; [done|].
    destruct a as [cur q bs]. cbn [a_step] in Ha. injection Ha as <-. cbn [a_cur]. by rewrite decide_True.
  - destruct (step_run s a a' ctx n c d Sy Ha Hn Hc) as [(s' & E & -> & _ & S' & _)|(c' & s' & E & _ & S')]; rewrite E, bind_Ok.
    + exists c, s', ctx. rewrite decide_True by done. by split.
    + by apply Hst.
Qed.

(** ** Executions *)

Lemma system_stable s a ctx n m' :
  (∀ x, guarded x → rd8 m' x = rd8 (s_mem s) x) → system s a ctx n → system (s_set_mem s m') a ctx n.
Proof using Hmain.
  intros Hm [[[Rl Ru Ri] Bl Bu Nd] C1 Sl Hin Hmn Hh Hctx].
  assert (Hl : ∀ r l, (∀ x, r ≤ x < r + 24 → guarded x) → (∀ p, p ∈ l → p ∈ U) → list_rep (s_mem s) r off_queue l → list_rep m' r off_queue l).
  { intros r l Hr Hl. apply list_rep_ext; [intros x Hx; by apply Hm, Hr|]. intros p x Hp Hx. apply Hm. right. right. exists p.
    split; [by apply Hl|]. unfold off_queue, sizeof_Process in *. lia. }
  split; [|done..|].
  - split; [split; [|done|done]| |done|done]; apply Hl; try done; unfold guarded; tauto.
  - intros p Hp Hpc. destruct (Hctx p Hp Hpc) as [X L]. split; [|done]. eapply context_in_stable; [|exact X].
    intros x Hx. apply Hm. right. right. exists p.
    split; [destruct Hp as [[Hq|Hb]%elem_of_app| ->]; [by apply Ru|by apply Bu|done]|]. unfold sizeof_Process. lia.
Qed.

(** The running process computes, changing memory as it likes outside the
    scheduler's own, and now and then an operation happens, with whatever the
    registers then hold; the trace lists who runs after each. *)
Inductive bexec {D} `{PortIO D} (fuel : nat) : sched → list sop → list Z → sched → Prop :=
| bexec_done s : bexec fuel s [] [] s
| bexec_compute s m' ops tr s' :
    (∀ x, guarded x → rd8 m' x = rd8 (s_mem s) x) → bexec fuel (s_set_mem s m') ops tr s' → bexec fuel s ops tr s'
| bexec_op s o c d c' s1 d' ops tr s' :
    length (c_stack c) = 15%nat → c_step fuel o c s d = Ok (c', s1, d') →
    bexec fuel s1 ops tr s' → bexec fuel s (o :: ops) (curr_proc s1 :: tr) s'.

Lemma bexec_ok {D} `{PortIO D} fuel n s ops tr s' :
  bexec fuel s ops tr s' → Z.of_nat n < 4294967295 → ∀ a ctx atr a',
  system s a ctx n → (length (a_procs main a) < fuel)%nat → a_run main ops a = Some (atr, a') →
  tr = atr ∧ ∃ ctx', system s' a' ctx' n.
Proof using HU HB Hqq Hmain.
  intros He Hn. induction He as [s|s m' ops tr s' Hm He IH|s o c d c' s1 d' ops tr s' Hc E He IH]; intros a ctx atr a' Sy Hf Ha.
  - injection Ha as <- <-. by split; [|exists ctx].
  - apply (IH a ctx); [|done|done]. by apply system_stable.
  - cbn [a_run] in Ha. destruct (a_step main o a) as [a1|] eqn:E1; [|done].
    destruct (a_run main ops a1) as [[tr1 a2]|] eqn:E2; [|done]. injection Ha as <- <-.
    destruct (system_step fuel o s a a1 ctx n c d Sy E1 Hn Hc Hf) as (c2 & s2 & ctx' & E' & S' & _).
    rewrite E in E'. injection E' as -> -> ->.
    destruct (a_step_procs main o a a1 (sy_main _ _ _ _ Sy) E1) as [P1 _].
    destruct (IH a1 ctx' tr1 a2 S') as [-> S2]; [by rewrite P1|done|]. split; [|done].
    by destruct (sy_curr _ _ _ _ S') as [-> _].
Qed.

(** Every run of the abstract scheduler is an execution of the code. *)
Lemma bexec_exists {D} `{PortIO D} fuel n (d : D) c : Z.of_nat n < 4294967295 → length (c_stack c) = 15%nat → ∀ ops s a ctx atr a',
  system s a ctx n → (length (a_procs main a) < fuel)%nat → a_run main ops a = Some (atr, a') →
  ∃ s', bexec (D := D) fuel s ops atr s'.
Proof using HU HB Hqq Hmain.
  intros Hn Hc. induction ops as [|o ops IH]; intros s a ctx atr a' Sy Hf Ha; cbn [a_run] in Ha.
  - injection Ha as <- <-. exists s. constructor.
  - destruct (a_step main o a) as [a1|] eqn:E1; [|done].
    destruct (a_run main ops a1) as [[tr1 a2]|] eqn:E2; [|done]. injection Ha as <- <-.
    destruct (system_step fuel o s a a1 ctx n c d Sy E1 Hn Hc Hf) as (c2 & s2 & ctx' & E' & S' & _).
    destruct (a_step_procs main o a a1 (sy_main _ _ _ _ Sy) E1) as [P1 _].
    destruct (IH s2 a1 ctx' tr1 a2 S') as [s' He]; [by rewrite P1|done|]. exists s'.
    destruct (sy_curr _ _ _ _ S') as [<- _]. by eapply bexec_op.
Qed.

(** C11: sleeping and waking.  In any execution in which processes compute,
    yield, block on a queue, are woken by a handler, and [main_proc] runs
    [PROC_run], the processor goes from process to process exactly as in the
    abstract scheduler, which passes it to the first ready process and to
    [main_proc] when there is none; no process is lost or duplicated.  Any
    operation the abstract scheduler allows next succeeds, and a process that
    is switched to finds the registers it had when it was switched away. *)
Theorem blocking_refines {D} `{PortIO D} (fuel n : nat) (s s' : sched) (ops : list sop) (tr atr : list Z)
    (a a' : asched) (ctx : Z → cpu) :
  bexec fuel s ops tr s' → Z.of_nat n < 4294967295 → system s a ctx n →
  (length (a_procs main a) < fuel)%nat → a_run main ops a = Some (atr, a') →
  tr = atr ∧ a_procs main a' ≡ₚ a_procs main a ∧
  ∃ ctx', system s' a' ctx' n ∧
    ∀ o c (d : D) a2, length (c_stack c) = 15%nat → a_step main o a' = Some a2 →
      ∃ c2 s2 ctx2, c_step fuel o c s' d = Ok (c2, s2, d) ∧ system s2 a2 ctx2 n ∧
        (if decide (a_cur a2 = a_cur a') then c2 = c else restored (ctx' (a_cur a2)) c c2 ∧ ctx2 (a_cur a') = c).
Proof using HU HB Hqq Hmain.
  intros He Hn Sy Hf Ha. destruct (bexec_ok fuel n s ops tr s' He Hn a ctx atr a' Sy Hf Ha) as [-> (ctx' & S')].
  destruct (a_run_procs main ops a atr a' (sy_main _ _ _ _ Sy) Ha) as [P _]. split; [done|]. split; [done|].
  exists ctx'. split; [done|]. intros o c d a2 Hc Ho. apply (system_step fuel o s' a' a2 ctx' n c d S' Ho Hn Hc). by rewrite P.
Qed.

(** The abstract scheduler runs the ready processes in order. *)
Lemma a_run_yields k : ∀ cur q bs p, cur ≠ main → main ∉ q ++ bs → q !! k = Some p →
  ∃ tr a, a_run main (replicate (S k) SYield) (mkA cur q bs) = Some (tr, a) ∧ a_cur a = p.
Proof using.
  induction k as [|k IH]; intros cur [|x q] bs p Hc Hm Hp; try done.
  - injection Hp as ->. cbn [replicate a_run a_step]. rewrite decide_False by done. by eexists _, _.
  - cbn in Hp. assert (Hx : x ≠ main) by (intros ->; apply Hm; left).
    destruct (IH x (q ++ [cur]) bs p Hx) as (tr & a & E & Ea).
    + rewrite !elem_of_app, list_elem_of_singleton. cbn [app] in Hm. rewrite elem_of_cons, elem_of_app in Hm. intros [[?|?]|?]; [tauto|congruence|tauto].
    + by apply lookup_app_l_Some.
    + change (replicate (S (S k)) SYield) with (SYield :: replicate (S k) SYield). cbn [a_run a_step]. rewrite decide_False by done.
      rewrite E. by eexists _, _.
Qed.

(** C12: who is woken runs.  A process that waits at position [i] of the queue
    when it is woken has the processor after as many yields as there were
    ready processes, plus [i] and one. *)
Theorem woken_runs {D} `{PortIO D} (fuel n i : nat) (s s' : sched) (tr : list Z) (a : asched) (ctx : Z → cpu) (p : Z) :
  bexec fuel s (SWake :: replicate (length (a_ready a) + i + 1) SYield) tr s' → Z.of_nat n < 4294967295 →
  system s a ctx n → a_cur a ≠ main → (length (a_procs main a) < fuel)%nat → a_blocked a !! i = Some p →
  curr_proc s' = p.
Proof using HU HB Hqq Hmain.
  intros He Hn Sy Hc Hf Hp. destruct a as [cur q bs]. cbn [a_cur a_ready a_blocked] in *.
  pose proof (sy_main _ _ _ _ Sy) as Hm. unfold a_ok in Hm. cbn [a_ready a_blocked] in Hm.
  replace (length q + i + 1)%nat with (S (length q + i)) in He by lia.
  destruct (a_run_yields (length q + i) cur (q ++ bs) [] p Hc) as (atr & a' & E & Ea).
  - by rewrite app_nil_r.
  - rewrite lookup_app_r by lia. by replace (length q + i - length q)%nat with i by lia.
  - destruct (bexec_ok fuel n s _ tr s' He Hn (mkA cur q bs) ctx (cur :: atr) a' Sy Hf) as [_ (ctx' & S')].
    + cbn [a_run a_step a_cur]. by rewrite E.
    + destruct (sy_curr _ _ _ _ S') as [-> _]. done.
Qed.

(** ** A wake-up in the window before the yield *)

(** A hardware interrupt whose handler does not switch processes: the processor
    clears its interrupt flag, the dispatcher runs, the return from the
    interrupt restores the flag. *)
Definition interrupt {D} `{PortIO D} (run : Z → Z → Z → Z → cpu → sched → D → outcome (handled * D)) (irq err : Z)
    (c : cpu) (s : sched) (d : D) : outcome (cpu * sched * D) :=
  let b := iflag (k_irq (s_k s)) in
  r ← IRQ_generic_isr run irq err c (s_on_irq (fun i => set_iflag i false) s) d;
  let '(c, s, d) := r in Ok (c, s_on_irq (fun i => set_iflag i b) s, d).

(** The part of a driver's handler that matters here. *)
Definition waking {D} (fuel : nat) (_ _ _ _ : Z) (_ : cpu) (s : sched) (d : D) : outcome (handled * D) :=
  s ← PROC_unblock_all rq fuel bq s; Ok (Returned s, d).

Lemma interrupt_wakes {D} `{PortIO D} fuel irq err s q bs c (d : D) h :
  blocked rq bq U s q bs 0 → curr_proc s = next_proc s → (length bs < fuel)%nat → irq ≠ SYSCALL_TRAP_NUMBER →
  handlers (k_irq (s_k s)) !! Z.to_nat irq = Some h → h.1 ≠ NULL →
  ∃ s' d', interrupt (waking fuel) irq err c s d = Ok (c, s', d') ∧ blocked rq bq U s' (q ++ bs) [] 0 ∧
    (curr_proc s', next_proc s', sleep_curr s') = (curr_proc s, next_proc s, sleep_curr s) ∧
    handlers (k_irq (s_k s')) = handlers (k_irq (s_k s)) ∧ only_two_queues rq bq U (s_mem s) (s_mem s').
Proof using HU HB Hqq.
  intros B Hcn Hf Hi Hh Hh0. destruct (rd_irq _ _ _ _ _ (bl_ready _ _ _ _ _ _ _ B)) as [J1 J2].
  set (f := fun i => set_sem (set_iflag i false) (atomic_add (irq_semaphore i) 1)).
  assert (I1 : irq_at 1 (f (k_irq (s_k s)))) by (unfold irq_at, f, atomic_add; cbn; by rewrite J1).
  pose proof (blocked_irq rq bq U f s q bs 0 1 B I1) as B1.
  destruct (PROC_unblock_all_ok rq bq U HU HB Hqq (s_on_irq f s) q bs 1 fuel B1) as (s1 & E1 & B2 & _ & Q1 & F1); [lia|done|].
  pose proof (unblock_all_handlers fuel (s_on_irq f s) s1 1 I1 ltac:(lia) E1) as Hd1. injection Q1 as C1 N1 S1.
  cbn [s_on_irq s_set_k curr_proc next_proc sleep_curr s_mem] in C1, N1, S1, F1.
  unfold interrupt, IRQ_generic_isr. rewrite (proj2 (Z.eqb_neq irq _) Hi). cbn [negb].
  change (handlers (k_irq (s_k (s_on_irq (fun i => set_sem i (atomic_add (irq_semaphore i) 1)) (s_on_irq (fun i => set_iflag i false) s)))))
    with (handlers (k_irq (s_k s))).
  rewrite (proj2 (idx_Ok _ _ _) Hh), bind_Ok, (proj2 (Z.eqb_neq h.1 NULL) Hh0). cbn [negb].
  change (s_on_irq (fun i => set_sem i (atomic_add (irq_semaphore i) 1)) (s_on_irq (fun i => set_iflag i false) s)) with (s_on_irq f s).
  unfold waking. rewrite E1, !bind_Ok. cbn [fst snd]. rewrite C1, N1, Hcn, Z.eqb_refl. cbn [negb]. rewrite !bind_Ok.
  eexists _, _. split; [done|]. destruct (rd_irq _ _ _ _ _ (bl_ready _ _ _ _ _ _ _ B2)) as [J3 _]. split; [|split; [cbn [s_on_irq s_set_k curr_proc next_proc sleep_curr]; congruence|split; [exact Hd1|exact F1]]].
  set (g := fun i => set_iflag (set_sem i (atomic_sub (irq_semaphore i) 1)) (iflag (k_irq (s_k s)))).
  apply (blocked_irq rq bq U g s1 _ [] 1 0 B2). unfold irq_at, g, atomic_sub. cbn. by rewrite J3, J2.
Qed.

Lemma resched_head cur sl q p l : sl ≠ 0 → q = p :: l → resched main cur sl q = (p, 0, l).
Proof using. intros Hs ->. unfold resched. by rewrite (proj2 (Z.eqb_neq sl 0) Hs), andb_false_r. Qed.

(** The yield of a process that was woken before it slept: it stands last on
    the ready queue already. *)
Lemma yield_woken {D} `{PortIO D} s q ctx c (d : D) cur :
  blocked rq bq U s (q ++ [cur]) [] 0 → curr_proc s = cur → next_proc s = cur → sleep_curr s = 1 → cur ∈ U → cur ≠ main → main ∉ q →
  (∃ h, handlers (k_irq (s_k s)) !! 123%nat = Some h ∧ h.1 ≠ NULL) → length (c_stack c) = 15%nat →
  (∀ p, p ∈ q ∨ p = main → p ≠ cur → context_in (s_mem s) p (ctx p) ∧ length (c_stack (ctx p)) = 15%nat) →
  let a' := match q with [] => mkA cur [] [] | p :: l => mkA p (l ++ [cur]) [] end in
  ∃ c' s', yield_trap main rq c s d = Ok (c', s', d) ∧ system s' a' (fun x => if decide (x = cur) then c else ctx x) 0 ∧
    (if decide (a_cur a' = cur) then c' = c else restored (ctx (a_cur a')) c c').
Proof using HU HB Hqq Hmain.
  intros B C1 N1 S1 Hin Hcm Hmq (h & Hh & Hh0) Hc Hctx a'. pose proof B as [Rr Bl Bu Nd].
  rewrite app_nil_r in Nd. pose proof Nd as Nd0. apply NoDup_app in Nd as (Nq & Ncur & _).
  assert (Hcq : cur ∉ q) by (intros ?; eapply Ncur; [done|left]).
  assert (Hcond : curr_proc s ≠ NULL → sleep_curr s = 0 → curr_proc s ∈ U ∧ curr_proc s ∉ q ++ [cur]) by (rewrite S1; done).
  destruct q as [|p l]; unfold a'; clear a'; cbn [a_cur].
  - pose proof (PROC_reschedule_ok main rq U HU s [cur] 0 Rr ltac:(lia) Hcond) as HR.
    pose proof (PROC_reschedule_frame s [cur] 0 Rr Hcond) as F1. rewrite C1, S1 in HR, F1. rewrite resched_asleep, Z.eqb_refl in HR.
    rewrite andb_false_r in F1. cbn zeta in HR, F1. destruct HR as (R1 & D1 & D2 & D3 & _ & D4 & D5).
    eexists c, _. split; [apply (trap_stay main rq s c d h Hh Hh0); congruence|]. split; [|by rewrite decide_True].
    split; cbn [a_cur a_ready a_blocked app]; [|done|done|split; [done|by apply not_elem_of_nil]|by apply not_elem_of_nil|exists h; by rewrite D4|].
    + split; [done| |by intros x Hx%elem_of_nil|apply NoDup_nil_2].
      eapply (other_queue U rq bq _ _ [cur] []); [done|done|done| |by intros x Hx%elem_of_nil|by intros x _ Hx%elem_of_nil|exact F1|done].
      by intros x ->%list_elem_of_singleton.
    + intros x [Hx%elem_of_nil| ->] Hxc; [done|]. rewrite decide_False by done. destruct (Hctx main) as [X L]; [by right|done|]. split; [|done].
      eapply context_in_stable; [|exact X]. intros y Hy. apply (only_queues_ctx rq U HU _ _ main); [done|done|lia].
  - assert (Hpc : p ≠ cur) by (intros ->; apply Hcq; left).
    assert (Hpm : p ≠ main) by (intros ->; apply Hmq; left). destruct (Hctx p) as [Xp Lp]; [left; left|done|].
    destruct (yield_to s cur ((p :: l) ++ [cur]) [] ctx 0 c d B ltac:(lia) Hc C1 Hin ltac:(by rewrite S1) (ex_intro _ h (conj Hh Hh0)) p 0 (l ++ [cur])
      (resched_head cur (sleep_curr s) ((p :: l) ++ [cur]) p (l ++ [cur]) ltac:(by rewrite S1) eq_refl) Hpc Xp Lp) as (c' & s' & E & Rs & B' & Q' & Hd' & Xc & K').
    injection Q' as Q1 Q2 Q3. exists c', s'. split; [done|]. split; [|by rewrite decide_False].
    apply NoDup_cons in Nq as [Hpl _]. apply not_elem_of_cons in Hmq as [_ Hml].
    split; cbn [a_cur a_ready a_blocked]; rewrite ?app_nil_r; [done|done|done|split| |exists h; by rewrite (proj2 Hd')|].
    + apply (rd_univ _ _ _ _ _ Rr). left.
    + rewrite elem_of_app, list_elem_of_singleton. tauto.
    + unfold a_ok. cbn [a_ready a_blocked]. rewrite app_nil_r, elem_of_app, list_elem_of_singleton. intros [?|?]; congruence.
    + intros x Hx Hxp. destruct (decide (x = cur)) as [->|Hxc]; [done|].
      assert (Hx' : x ∈ p :: l ∨ x = main).
      { destruct Hx as [[Hx|Hx%list_elem_of_singleton]%elem_of_app| ->]; [left; by right|done|by right]. }
      destruct (Hctx x Hx' Hxc) as [X L]. split; [|done]. apply K'; [|done|done].
      destruct Hx' as [Hx'| ->]; [|done]. apply (rd_univ _ _ _ _ _ Rr), elem_of_app. by left.
Qed.

End System.

(** ** Example: 0x1000 runs, 0x2000 sleeps, 0x3000 is the idle process *)

Definition demo_procs : list Z := [0x1000; 0x2000; 0x3000].
Definition demo_asleep : sched :=
  s_set_mem demo_blocked (match PROC_save_context 0x3000 demo_cpu (s_mem demo_blocked) with Ok m => m | _ => ∅ end).

Lemma demo_procs_universe r : r = 0x100 ∨ r = 0x200 → universe r demo_procs.
Proof.
  intros Hr. unfold demo_procs. split.
  - intros d Hd. rewrite !elem_of_cons, elem_of_nil in Hd. unfold apart, sizeof_Process. lia.
  - intros d d' Hd Hd' Hne. rewrite !elem_of_cons, elem_of_nil in Hd, Hd'. unfold apart, sizeof_Process. lia.
Qed.

Lemma demo_system : system 0x3000 0x200 0x100 demo_procs demo_asleep (mkA 0x1000 [] [0x2000]) (fun _ => demo_cpu) 0.
Proof.
  destruct (PROC_save_context_ok 0x3000 demo_cpu (s_mem demo_blocked)) as (m & E & X & F); [done|].
  assert (Em : demo_asleep = s_set_mem demo_blocked m) by (unfold demo_asleep; by rewrite E). rewrite Em. clear Em E.
  destruct demo_blocked_ok as [[Rl Ru Ri] Bl Bu Nd]. destruct demo_running as [_ _ _ _ _ _ Hh Hctx].
  assert (Hl : ∀ r l, r = 0x100 ∨ r = 0x200 → (∀ p, p ∈ l → p = 0x2000) → list_rep (s_mem demo_blocked) r off_queue l → list_rep m r off_queue l).
  { intros r l Hr Hp. apply list_rep_ext; [intros x Hx; apply F; lia|].
    intros p x Hq Hx. rewrite (Hp p Hq) in Hx. apply F. unfold off_queue in Hx. lia. }
  split; cbn [a_cur a_ready a_blocked].
  - split; [split; [|by intros d Hd%elem_of_nil|exact Ri]| | |exact Nd].
    + apply Hl; [lia|by intros p Hp%elem_of_nil|exact Rl].
    + apply Hl; [lia|by intros p Hp%list_elem_of_singleton|exact Bl].
    + intros d ->%list_elem_of_singleton. right. left.
  - done.
  - done.
  - split; [left|]. by intros Hx%list_elem_of_singleton.
  - unfold a_ok. cbn [a_ready a_blocked app]. by intros Hx%list_elem_of_singleton.
  - exact Hh.
  - intros p [->%list_elem_of_singleton| ->] _; (split; [|done]); [|exact X].
    destruct (Hctx 0x2000) as [Y _]; [left|]. eapply context_in_stable; [|exact Y]. intros x Hx.
    cbn [s_set_mem s_mem]. rewrite F by lia.
    destruct (LL_init_rep (s_mem demo_sched) 0x200 off_queue) as [_ O1]; [done|done|]. apply O1. lia.
Qed.

(** ... and after 0x2000 has been woken. *)
Definition demo_woken : sched := match PROC_unblock_all 0x200 3 0x100 demo_asleep with Ok s => s | _ => demo_asleep end.

Lemma demo_woken_system : system 0x3000 0x200 0x100 demo_procs demo_woken (mkA 0x1000 [0x2000] []) (fun _ => demo_cpu) 0.
Proof.
  destruct (step_wake 0x3000 0x200 0x100 demo_procs (demo_procs_universe 0x200 (or_intror eq_refl)) (demo_procs_universe 0x100 (or_introl eq_refl))
    ltac:(unfold apart; lia) ltac:(right; right; left) demo_asleep _ (mkA 0x1000 [0x2000] []) (fun _ => demo_cpu) 0 3 demo_system eq_refl ltac:(lia) ltac:(cbn; lia))
    as (s & E & Sy).
  assert (Es : demo_woken = s) by (unfold demo_woken; by rewrite E). by rewrite Es.
Qed.

Lemma blocking_refines_witness :
  ∃ s', bexec (D := scripted) 0x3000 0x200 0x100 demo_procs 3 demo_asleep [SBlock; SWake; SRun] [0x3000; 0x3000; 0x2000] s' ∧
    a_procs 0x3000 (mkA 0x2000 [0x1000] []) ≡ₚ a_procs 0x3000 (mkA 0x1000 [] [0x2000]) ∧
    ∃ ctx', system 0x3000 0x200 0x100 demo_procs s' (mkA 0x2000 [0x1000] []) ctx' 0.
Proof.
  destruct (bexec_exists (D := scripted) 0x3000 0x200 0x100 demo_procs (demo_procs_universe 0x200 (or_intror eq_refl))
    (demo_procs_universe 0x100 (or_introl eq_refl)) ltac:(unfold apart; lia) ltac:(right; right; left) 3 0 (mkDev [] []) demo_cpu
    ltac:(lia) eq_refl [SBlock; SWake; SRun] demo_asleep (mkA 0x1000 [] [0x2000]) (fun _ => demo_cpu) [0x3000; 0x3000; 0x2000] (mkA 0x2000 [0x1000] []) demo_system
    ltac:(vm_compute; lia) eq_refl) as [s' He].
  destruct (blocking_refines (D := scripted) 0x3000 0x200 0x100 demo_procs (demo_procs_universe 0x200 (or_intror eq_refl))
    (demo_procs_universe 0x100 (or_introl eq_refl)) ltac:(unfold apart; lia) ltac:(right; right; left) 3 0 demo_asleep s'
    [SBlock; SWake; SRun] [0x3000; 0x3000; 0x2000] [0x3000; 0x3000; 0x2000] (mkA 0x1000 [] [0x2000]) (mkA 0x2000 [0x1000] [])
    (fun _ => demo_cpu) He ltac:(lia) demo_system ltac:(vm_compute; lia) eq_refl) as (_ & P & ctx' & S' & _).
  exists s'. split; [exact He|]. split; [exact P|]. by exists ctx'.
Defined.

Lemma woken_runs_witness :
  ∃ tr s', bexec (D := scripted) 0x3000 0x200 0x100 demo_procs 3 demo_asleep [SWake; SYield] tr s' ∧ curr_proc s' = 0x2000.
Proof.
  destruct (bexec_exists (D := scripted) 0x3000 0x200 0x100 demo_procs (demo_procs_universe 0x200 (or_intror eq_refl))
    (demo_procs_universe 0x100 (or_introl eq_refl)) ltac:(unfold apart; lia) ltac:(right; right; left) 3 0 (mkDev [] []) demo_cpu
    ltac:(lia) eq_refl [SWake; SYield] demo_asleep (mkA 0x1000 [] [0x2000]) (fun _ => demo_cpu) [0x1000; 0x2000] (mkA 0x2000 [0x1000] []) demo_system
    ltac:(vm_compute; lia) eq_refl) as [s' He].
  exists [0x1000; 0x2000], s'. split; [exact He|].
  exact (woken_runs (D := scripted) 0x3000 0x200 0x100 demo_procs (demo_procs_universe 0x200 (or_intror eq_refl))
    (demo_procs_universe 0x100 (or_introl eq_refl)) ltac:(unfold apart; lia) ltac:(right; right; left) 3 0 0 demo_asleep s'
    [0x1000; 0x2000] (mkA 0x1000 [] [0x2000]) (fun _ => demo_cpu) 0x2000 He ltac:(lia) demo_system ltac:(done) ltac:(vm_compute; lia) eq_refl).
Defined.

