(* ===== verification/Procs.v ===== *)
(** * Creating a process (src/src/proc.c, [PROC_create_process])

    The new process object comes from the heap, its stack from the MMU, and it
    joins the ready queue and the list of processes; this file puts the
    contracts of Objects.v, Mmu.v and LinkedList.v together. *)

From S2P Require Import Prelude Memory CString LinkedList Segments Frames Machine Irq Paging Mmu Kmalloc Objects Sched.

(** ** What [kmalloc] does to its page source *)

Lemma kmalloc_source {PS} `{PageSource PS} (P : PS → Prop) pools size m s p m' s' :
  kmalloc pools size m s = Ok (p, (m', s')) → P s → (∀ n a t, ps_alloc n s = Ok (a, t) → P t) → P s'.
Proof.
  intros E Hs Ha. unfold kmalloc in E. destruct (size =? 0); [by injection E as <- <- <-|].
  assert (Hpool : ∀ pool b m2 s2, kmalloc_alloc pool m s = Ok (b, (m2, s2)) → P s2).
  { intros pool b m2 s2. unfold kmalloc_alloc, kmalloc_increase_pool.
    destruct (free_head m pool =? NULL) eqn:Ef; cbn [negb].
    - destruct (ps_alloc POOL_PAGE_INCREASE s) as [[a t]| |] eqn:El; [|done..]. rewrite bind_Ok. cbn [fst snd]. apply Ha in El.
      destruct (a =? NULL); rewrite bind_Ok; cbn [fst snd].
      + change (-1 <? 0) with true. by intros [= _ _ <-].
      + change (0 <? 0) with false. cbv iota. intros E1. destruct (free_head (link_blocks _ _ _ _ _) pool =? NULL) in E1; [discriminate|].
        by injection E1 as _ _ <-.
    - rewrite bind_Ok. cbn [fst snd]. change (0 <? 0) with false. cbv iota. rewrite Ef. by intros [= _ _ <-]. }
  destruct (find_pool _ _ _ _ _) as [i|].
  - destruct (kmalloc_alloc _ _ _) as [[b [m2 s2]]| |] eqn:Ek; [|done..]. rewrite bind_Ok in E. cbn [fst snd] in E.
    apply Hpool in Ek. destruct (b =? NULL); by injection E as <- <- <-.
  - destruct (ps_alloc _ s) as [[a t]| |] eqn:El; [|done..]. rewrite bind_Ok in E. cbn [fst snd] in E. apply Ha in El.
    destruct (a =? NULL); by injection E as <- <- <-.
Qed.

Lemma MMU_alloc_page_stack k a k' : MMU_alloc_page k = Ok (a, k') → stack_next k' = stack_next k.
Proof.
  unfold MMU_alloc_page, stack_next. destruct (_ =? MMAP_KERNEL_HEAP_END); [by intros [= _ <-]|].
  set (s1 := vm_set_fa _ _). destruct (PT_demand_allocate _ s1) as [[r s2]| |] eqn:E; [|done..]. rewrite bind_Ok. cbn [snd].
  intros [= _ <-]. apply PT_demand_allocate_vnext in E. unfold vnext in E. cbn [k_vm]. by injection E as _ _ ->.
Qed.

Lemma alloc_pages_loop_stack n : ∀ k b k', alloc_pages_loop n k = Ok (b, k') → stack_next k' = stack_next k.
Proof.
  induction n as [|n IH]; intros k b k'; cbn [alloc_pages_loop]; [by intros [= _ <-]|].
  destruct (MMU_alloc_page k) as [[a k1]| |] eqn:E; [|done..]. rewrite bind_Ok. cbn [fst snd]. apply MMU_alloc_page_stack in E.
  destruct (a =? NULL); [by intros [= _ <-]|]. intros E'. by rewrite (IH _ _ _ E').
Qed.

Lemma MMU_alloc_pages_stack n k a k' : MMU_alloc_pages n k = Ok (a, k') → stack_next k' = stack_next k.
Proof.
  unfold MMU_alloc_pages. destruct (n <=? 0); [by intros [= _ <-]|].
  destruct (MMU_alloc_page _) as [[b k1]| |] eqn:E; [|done..]. rewrite bind_Ok. cbn [fst snd]. apply MMU_alloc_page_stack in E.
  destruct (b =? NULL); [by intros [= _ <-]|].
  destruct (alloc_pages_loop _ k1) as [[c k2]| |] eqn:E2; [|done..]. rewrite bind_Ok. cbn [fst snd]. apply alloc_pages_loop_stack in E2.
  unfold stack_next in *. destruct (negb c); intros [= _ <-]; cbn [k_vm] in *; by rewrite E2.
Qed.

(** Allocating a stack keeps the heap's pages. *)
Lemma alloc_stack_heap n : ∀ s s', alloc_stack_loop n s = Ok s' →
  next_kernel_heap_vaddr (v_fa s') = next_kernel_heap_vaddr (v_fa s).
Proof.
  induction n as [|n IH]; intros s s'; cbn [alloc_stack_loop]; [by intros [= <-]|].
  destruct (PT_demand_allocate _ s) as [[r s1]| |] eqn:E; [|done..]. rewrite bind_Ok. cbn [snd]. intros E'.
  apply PT_demand_allocate_vnext in E. unfold vnext in E. injection E as _ E _. apply IH in E'. rewrite E'. exact E.
Qed.

Lemma MMU_alloc_stack_ok k L :
  pages_inv k L → stack_top (stack_next k) →
  ∃ k', MMU_alloc_stack k = Ok (stack_next k, k') ∧ pages_inv k' L ∧ stack_next k' = stack_next k - 10 * PAGE_SIZE.
Proof.
  intros ((A & q & Hr) & Hh) [Ht Hb]. unfold MMU_alloc_stack. unfold stack_next in *.
  rewrite (proj2 (Z.eqb_neq _ MMAP_KERNEL_HEAP_START)).
  2: { intros E. rewrite E in Ht. vm_compute in Ht. congruence. }
  destruct (alloc_stack_loop_ok 10 (k_vm k) A q _ Hr eq_refl) as (s' & A' & q' & E & R' & C' & N' & P').
  { unfold PAGE_SIZE in *. lia. }
  unfold KERNEL_THREAD_STACK_SIZE_PAGES. rewrite E, bind_Ok. apply alloc_stack_heap in E.
  eexists. split; [done|]. split; [|cbn [k_vm]; rewrite N'; unfold PAGE_SIZE; lia].
  split; [by exists A', q'|]. unfold heap_next in *. cbn [k_vm]. by rewrite E.
Qed.

(** ** The new process *)

(** The registers a process starts with: the entry point, its argument, and a
    stack whose top word is the address of [process_exit]. *)
Definition start_cpu (stack entry_point arg : Z) : cpu :=
  mkCpu [stack - 8; 0; 0; 0; 0; 0; 0; 0; 0; arg; entry_point; 0x10; 0; stack - 16; 0] 0 0 0 0 0 0 0 0 0.

(** Lines 162-177 on the memory: the object at [new] and the stack. *)
Definition proc_memory (exit new stack name entry_point arg : Z) (m : mem) : mem :=
  let m := wr64 (memset m new 0 sizeof_Process).1 (new + off_stack) stack in
  let m := wr64 m stack NULL in
  let m := wr64 m (stack - 8) NULL in
  let m := wr64 m (stack - 16) exit in
  let m := wr64 m (new + off_rsp) (stack - 16) in
  let m := wr64 m (new + off_rbp) (stack - 8) in
  let m := wr64 m (new + off_rip) entry_point in
  let m := wr64 m (new + off_rdi) arg in
  let m := wr64 m (new + off_cs) 0x10 in
  wr64 m (new + off_name) name.

Section Memory.
Context (exit new stack name entry_point arg : Z) (m : mem).
Hypothesis Hap : apart new 240 (stack - 16) 24.

Ltac proc_read :=
  repeat first
    [ rewrite rd64_wr64_eq
    | rewrite rd64_wr64_apart by (unfold apart in *; lia)
    | rewrite rd64_memset_zero by (unfold sizeof_Process; lia) ].

Lemma proc_memory_words :
  let m' := proc_memory exit new stack name entry_point arg m in
  (∀ o, o ∈ [off_rax; off_rbx; off_rcx; off_rdx; off_rsi; off_r8; off_r9; off_r10; off_r11; off_r12; off_r13; off_r14; off_r15;
             off_ss; off_ds; off_es; off_fs; off_gs; off_rflags] → rd64 m' (new + o) = 0) ∧
  rd64 m' (new + off_rsp) = u64 (stack - 16) ∧ rd64 m' (new + off_rbp) = u64 (stack - 8) ∧
  rd64 m' (new + off_rip) = u64 entry_point ∧ rd64 m' (new + off_rdi) = u64 arg ∧ rd64 m' (new + off_cs) = 0x10 ∧
  rd64 m' (new + off_name) = u64 name ∧ rd64 m' (new + off_stack) = u64 stack ∧
  rd64 m' (stack - 16) = u64 exit ∧
  (∀ x, ¬ (new ≤ x < new + 240) → ¬ (stack - 16 ≤ x < stack + 8) → rd8 m' x = rd8 m x).
Proof using Hap.
  unfold proc_memory, off_rax, off_rbx, off_rcx, off_rdx, off_rsi, off_r8, off_r9, off_r10, off_r11, off_r12, off_r13, off_r14,
    off_r15, off_ss, off_ds, off_es, off_fs, off_gs, off_rflags, off_rsp, off_rbp, off_rip, off_rdi, off_cs, off_name, off_stack.
  cbv zeta. split.
  { apply Forall_forall. repeat (apply Forall_cons; split); [..|apply Forall_nil; exact I]; proc_read; done. }
  split_and!; [proc_read; done..|].
  intros x X1 X2. unfold wr64. rewrite !rd8_wr_le_out by (cbn; lia). rewrite memset_rd8 by (unfold sizeof_Process; lia).
  by rewrite decide_False by (unfold sizeof_Process; lia).
Qed.

Lemma proc_memory_context : context_in (proc_memory exit new stack name entry_point arg m) new (start_cpu stack entry_point arg).
Proof using Hap.
  destruct proc_memory_words as (Z0 & W1 & W2 & W3 & W4 & W5 & _).
  set (m' := proc_memory exit new stack name entry_point arg m) in *. clearbody m'.
  assert (Z16 : ∀ o, rd64 m' (new + o) = 0 → rd16 m' (new + o) = 0).
  { intros o Ho. unfold rd16, rd64 in *. change (rd_le 8 m' (new + o)) with (rd_le (2 + 6) m' (new + o)) in Ho. rewrite rd_le_app in Ho.
    pose proof (rd_le_range 2 m' (new + o)). pose proof (rd_le_range 6 m' (new + o + Z.of_nat 2)).
    change (256 ^ Z.of_nat 2) with 65536 in *. lia. }
  split.
  - intros i off w Hi Hw. unfold saved_words in Hi. rewrite !elem_of_cons in Hi.
    repeat match type of Hi with _ ∨ _ => destruct Hi as [[= -> ->]|Hi] end; [..|by apply elem_of_nil in Hi];
      cbn in Hw; injection Hw as <-; rewrite ?W1, ?W2, ?W3, ?W4, ?W5; try reflexivity; apply Z0; set_solver.
  - cbn [start_cpu c_ds c_es c_fs c_gs c_r12 c_r13 c_r14 c_r15 c_rbx].
    split_and!; first [apply Z16, Z0; set_solver | apply Z0; set_solver].
Qed.
End Memory.

(** ** Theorem *)

Section Create.
Context (rq procs pools exit : Z).

(** The ready queue [q] and the list [ps] of all processes, whose elements are
    heap objects; the list heads and the pools are in the kernel's image. *)
Record proc_inv (s : sched) (H : heap) (L : list (Z * Z)) (q ps : list Z) : Prop := {
  pv_heap : heap_rep pools (s_mem s) (s_k s) H L;
  pv_ready : list_rep (s_mem s) rq off_queue q;
  pv_all : list_rep (s_mem s) procs off_procs ps;
  pv_own d : d ∈ q ∨ d ∈ ps → owned H d sizeof_Process;
  pv_low : 0 < rq ∧ rq + 24 ≤ 0x8000000000 ∧ 0 < procs ∧ procs + 24 ≤ 0x8000000000 ∧ pools + 96 ≤ 0x8000000000 ∧
    apart rq 24 procs 24 ∧ apart rq 24 pools 96 ∧ apart procs 24 pools 96
}.

(** There is room in the stack region for one more stack. *)
Definition stack_room (k : kstate) : Prop := stack_top (stack_next k) ∧ stack_next k ≤ MMAP_KERNEL_STACKS_END - 8.

Lemma low_static a n : 0 < a → 0 ≤ n → a + n ≤ 0x8000000000 → apart a n pools 96 → static pools a n.
Proof using. intros H1 H2 H3 H4. split; [done|]. split; [|done]. unfold ps_base. cbn. unfold MMAP_KERNEL_HEAP_START, P4_PTE_ADDRESSES. lia. Qed.

Lemma stack_static s H L q ps : proc_inv s H L q ps → stack_room (s_k s) → static pools (stack_next (s_k s) - 16) 24.
Proof using.
  intros [_ _ _ _ Hl] [[_ Ht] He]. unfold MMAP_KERNEL_STACKS_END, P4_PTE_ADDRESSES in He. split; [lia|]. split.
  - unfold ps_base. cbn. unfold MMAP_KERNEL_HEAP_START, P4_PTE_ADDRESSES. lia.
  - unfold apart. lia.
Qed.

(** Appending to one of the lists leaves the other as it is. *)
Lemma enqueue_other H m m' s L q ps new head other off off' :
  heap_rep pools m s H L → list_rep m other off' ps → (∀ d, d ∈ ps → owned H d sizeof_Process) → (∀ d, d ∈ q ++ [new] → owned H d sizeof_Process) →
  (∀ x, (∀ d, d ∈ q ++ [new] → ¬ (d + off ≤ x < d + off + 16)) → ¬ (head ≤ x < head + 16) → rd8 m' x = rd8 m x) →
  0 ≤ off → off + 16 ≤ sizeof_Process → 0 ≤ off' → off' + 16 ≤ sizeof_Process → apart off 16 off' 16 →
  static pools other 24 → static pools head 24 → apart head 24 other 24 → list_rep m' other off' ps.
Proof using.
  intros R Rl Hps Hq K O1 O2 O3 O4 Ho So Sr Ar. eapply list_rep_ext; [| |exact Rl].
  - intros x Hx. apply K; [|unfold apart in Ar; lia]. intros d Hd.
    pose proof (owned_static _ _ _ _ _ _ _ _ _ R (Hq d Hd) So). unfold apart in *. lia.
  - intros d x Hd Hx. apply K; [|pose proof (owned_static _ _ _ _ _ _ _ _ _ R (Hps d Hd) Sr); unfold apart in *; lia].
    intros e He. destruct (decide (d = e)) as [->|Hne]; [unfold apart in Ho; lia|].
    pose proof (owned_apart _ _ _ _ _ _ _ _ _ R (Hps d Hd) (Hq e He) Hne). unfold apart in *. lia.
Qed.

(** Bytes that neither list's headers contain are kept by an append. *)
Lemma enqueue_keeps H m m' s L q new head off d x :
  heap_rep pools m s H L → (∀ d, d ∈ q ++ [new] → owned H d sizeof_Process) →
  (∀ x, (∀ d, d ∈ q ++ [new] → ¬ (d + off ≤ x < d + off + 16)) → ¬ (head ≤ x < head + 16) → rd8 m' x = rd8 m x) →
  0 ≤ off → off + 16 ≤ 32 → static pools head 24 → owned H d sizeof_Process → d + 32 ≤ x < d + sizeof_Process → rd8 m' x = rd8 m x.
Proof using.
  intros R Hq K O1 O2 Sr Hd Hx. apply K; [|pose proof (owned_static _ _ _ _ _ _ _ _ _ R Hd Sr); unfold apart in *; lia].
  intros e He. destruct (decide (d = e)) as [->|Hne]; [lia|].
  pose proof (owned_apart _ _ _ _ _ _ _ _ _ R Hd (Hq e He) Hne). unfold apart, sizeof_Process in *. lia.
Qed.

(** The object and the stack are filled in; the lists and the
    other processes do not notice. *)
Lemma create_fill m m1 k H L q ps new stack name entry_point arg :
  heap_rep pools m1 k H L → list_rep m rq off_queue q → list_rep m procs off_procs ps → owned H new sizeof_Process →
  (∀ d, d ∈ q ∨ d ∈ ps → owned H d sizeof_Process ∧ new ≠ d ∧ ∀ x, d ≤ x < d + sizeof_Process → rd8 m1 x = rd8 m x) →
  (∀ a, a = rq ∨ a = procs → static pools a 24 ∧ apart a 24 (stack - 16) 24 ∧ ∀ x, a ≤ x < a + 24 → rd8 m1 x = rd8 m x) →
  static pools (stack - 16) 24 →
  let m2 := proc_memory exit new stack name entry_point arg m1 in
  heap_rep pools m2 k H L ∧ list_rep m2 rq off_queue q ∧ list_rep m2 procs off_procs ps ∧
  (∀ d x, d ∈ q ∨ d ∈ ps → d ≤ x < d + sizeof_Process → rd8 m2 x = rd8 m x).
Proof using.
  intros R Rq Rp N1 Hk Hh Sst m2. pose proof (owned_static _ _ _ _ _ _ _ _ _ R N1 Sst) as Ast.
  destruct (proc_memory_words exit new stack name entry_point arg m1 Ast) as (_ & _ & _ & _ & _ & _ & _ & _ & _ & W10). fold m2 in W10.
  assert (Hp : ∀ d x, d ∈ q ∨ d ∈ ps → d ≤ x < d + sizeof_Process → rd8 m2 x = rd8 m x).
  { intros d x Hd Hx. destruct (Hk d Hd) as (O1 & O2 & O3).
    rewrite W10; [by apply O3| |pose proof (owned_static _ _ _ _ _ _ _ _ _ R O1 Sst); unfold apart in *; lia].
    pose proof (owned_apart _ _ _ _ _ _ _ _ _ R O1 N1 ltac:(congruence)). unfold apart, sizeof_Process in *. lia. }
  assert (Hkeep : ∀ a, a = rq ∨ a = procs → ∀ x, a ≤ x < a + 24 → rd8 m2 x = rd8 m x).
  { intros a Ha x Hx. destruct (Hh a Ha) as (Sa & Aa & Ka). rewrite W10; [by apply Ka| |unfold apart in Aa; lia].
    pose proof (owned_static _ _ _ _ _ _ _ _ _ R N1 Sa). unfold apart, sizeof_Process in *. lia. }
  split; [|split; [|split; [|exact Hp]]].
  - eapply heap_rep_writes; [exact R|]. intros x Hx.
    destruct (decide (new ≤ x < new + 240)); [by apply (client_byte_owned _ _ new 240)|].
    destruct (decide (stack - 16 ≤ x < stack + 8)); [apply (client_byte_static _ _ (stack - 16) 24); [done|lia]|].
    destruct Hx. by apply W10.
  - eapply list_rep_ext; [apply Hkeep; by left| |exact Rq]. intros d x Hd Hx. apply (Hp d); [by left|unfold off_queue, sizeof_Process in *; lia].
  - eapply list_rep_ext; [apply Hkeep; by right| |exact Rp]. intros d x Hd Hx. apply (Hp d); [by right|unfold off_procs, sizeof_Process in *; lia].
Qed.

(** Lines 179-180: the object joins both lists. *)
Lemma create_link m k H L q ps new :
  heap_rep pools m k H L → list_rep m rq off_queue q → list_rep m procs off_procs ps →
  (∀ d, d ∈ q ++ [new] → owned H d sizeof_Process) → (∀ d, d ∈ ps ++ [new] → owned H d sizeof_Process) → new ∉ q → new ∉ ps →
  static pools rq 24 → static pools procs 24 → apart rq 24 procs 24 →
  let m' := LL_enqueue (LL_enqueue m rq new) procs new in
  heap_rep pools m' k H L ∧ list_rep m' rq off_queue (q ++ [new]) ∧ list_rep m' procs off_procs (ps ++ [new]) ∧
  (∀ d x, owned H d sizeof_Process → d + 32 ≤ x < d + sizeof_Process → rd8 m' x = rd8 m x) ∧
  (∀ a n x, static pools a n → apart a n rq 24 → apart a n procs 24 → a ≤ x < a + n → rd8 m' x = rd8 m x).
Proof using.
  intros R Rq Rp Oq Op Nq Np Sq Sp Ar.
  destruct (enqueue_object pools m k H L rq off_queue sizeof_Process q new R Rq Oq Nq) as (Q1 & Q2 & Q3 & _); [done|done|].
  set (m3 := LL_enqueue m rq new) in *.
  assert (Rp3 : list_rep m3 procs off_procs ps).
  { eapply (enqueue_other H m m3 k L q ps new rq procs off_queue off_procs); try done; [|unfold apart, off_queue, off_procs; lia].
    intros d Hd. apply Op, elem_of_app. by left. }
  destruct (enqueue_object pools m3 k H L procs off_procs sizeof_Process ps new Q2 Rp3 Op Np) as (P1 & P2 & P3 & _); [done|done|].
  split; [done|]. split; [|split; [done|split]].
  - eapply (enqueue_other H m3 _ k L ps (q ++ [new]) new procs rq off_procs off_queue); try done; [|]; unfold apart, off_queue, off_procs in *; lia.
  - intros d x Hd Hx. rewrite (enqueue_keeps H m3 _ k L ps new procs off_procs d x) by done.
    by apply (enqueue_keeps H m m3 k L q new rq off_queue d x).
  - intros a n x Sa A1 A2 Hx.
    assert (Hno : ∀ (l : list Z) off d, (∀ d, d ∈ l → owned H d sizeof_Process) → 0 ≤ off → off + 16 ≤ 32 → d ∈ l → ¬ (d + off ≤ x < d + off + 16)).
    { intros l off d Hl O1 O2 Hd. pose proof (owned_static _ _ _ _ _ _ _ _ _ R (Hl d Hd) Sa). unfold apart, sizeof_Process in *. lia. }
    rewrite P3, Q3; [done| |unfold apart in *; lia| |unfold apart in *; lia]; intros d Hd;
      [by apply (Hno (q ++ [new]) off_queue d)|by apply (Hno (ps ++ [new]) off_procs d)].
Qed.

End Create.

(** An example: the first process. *)
Definition demo_create : sched :=
  mkS (LL_init (LL_init demo_object_mem 0x300000 off_queue) 0x301000 off_procs) demo_source NULL NULL 0 [].

Lemma demo_create_inv : proc_inv 0x300000 0x301000 demo_pools demo_create demo_object_heap [(MMAP_KERNEL_HEAP_START, 4)] [] [].
Proof.
  assert (S1 : static demo_pools 0x300000 24) by (apply demo_static; vm_compute; congruence).
  assert (S2 : static demo_pools 0x301000 24) by (apply demo_static; vm_compute; congruence).
  destruct (LL_init_rep demo_object_mem 0x300000 off_queue) as [R1 O1]; [unfold valid_hdr; lia|unfold off_queue; lia|].
  destruct (LL_init_rep (LL_init demo_object_mem 0x300000 off_queue) 0x301000 off_procs) as [R2 O2]; [unfold valid_hdr; lia|unfold off_procs; lia|].
  split; cbn [demo_create s_mem s_k].
  - eapply heap_rep_write; [|right; exact S2|exact O2]. eapply heap_rep_write; [exact demo_object_rep|right; exact S1|exact O1].
  - eapply list_rep_ext; [| |exact R1]; [intros x Hx; apply O2; lia|intros d x Hd; by apply elem_of_nil in Hd].
  - exact R2.
  - intros d [Hd|Hd]; by apply elem_of_nil in Hd.
  - unfold apart, demo_pools. lia.
Qed.

