(* ===== verification/Exit.v ===== *)
(** * The end of a process (src/src/proc.c, [process_exit])

    The process leaves the list of processes, its stack and its object are
    given back, and the next ready process runs.  What the code does to the
    list, the heap, the queue and the registers, in one theorem. *)

From S2P Require Import Prelude Memory CString LinkedList Segments Frames Machine Irq Paging Mmu Kmalloc Objects Sched Procs.

(** Freeing the pages of a stack does not disturb the heap's pages. *)
Lemma MMU_free_stack_inv k L top : stack_top top → pages_inv k L → pages_inv (mkK (MMU_free_stack top (k_vm k)) (k_irq k)) L.
Proof.
  intros [Ht Hb] ((A & q & Hr) & HB & HA & HF). unfold MMU_free_stack, KERNEL_THREAD_STACK_SIZE_PAGES.
  destruct (free_pages_loop_ok 10 0 (u64 (top - (PAGE_SIZE - 8))) (k_vm k) A q Hr) as (A' & q' & R' & _ & V' & _).
  { intros j Hj. unfold PAGE_SIZE in *. rewrite (u64_small (top - (4096 - 8))), u64_small by lia. apply kernel_addr_range. lia. }
  assert (Hh : heap_next (mkK (free_pages_loop 10 0 (u64 (top - (PAGE_SIZE - 8))) (k_vm k)) (k_irq k)) = heap_next k).
  { unfold heap_next. cbn [k_vm]. unfold vnext in V'. by injection V' as _ V' _. }
  split; [by exists A', q'|]. by rewrite Hh.
Qed.

(** The trap of a process that is no more: nothing is saved. *)
Lemma trap_load {D} `{PortIO D} main_proc rq s nx cx n c (d : D) h :
  handlers (k_irq (s_k s)) !! 123%nat = Some h → h.1 ≠ NULL → Z.of_nat n < 4294967295 → length (c_stack c) = 15%nat →
  let s1 := PROC_reschedule main_proc rq s in
  curr_proc s1 = NULL → next_proc s1 = nx → nx ≠ NULL → irq_at (S n) (k_irq (s_k s1)) →
  context_in (s_mem s1) nx cx → length (c_stack cx) = 15%nat →
  ∃ c' s', yield_trap main_proc rq c s d = Ok (c', s', d) ∧ restored cx c c' ∧ s_mem s' = s_mem s1 ∧ k_vm (s_k s') = k_vm (s_k s1) ∧
    (curr_proc s', next_proc s', sleep_curr s') = (nx, nx, sleep_curr s1) ∧ irq_at n (k_irq (s_k s')).
Proof.
  intros Hh Hh0 Hn Hc s1 C1 N1 Hnx I1 X L. unfold yield_trap, IRQ_generic_isr, PROC_yield. rewrite Z.eqb_refl. cbn [negb].
  change (Z.to_nat SYSCALL_TRAP_NUMBER) with 123%nat.
  rewrite (proj2 (idx_Ok _ _ _) Hh), bind_Ok, (proj2 (Z.eqb_neq h.1 NULL) Hh0). cbn [negb].
  rewrite bind_Ok. cbn [fst snd]. fold s1. clearbody s1. rewrite C1, N1, (proj2 (Z.eqb_neq NULL nx)), Z.eqb_refl by congruence. cbn [negb].
  change ((PIC_MASTER_REMAP_BASE <=? SYSCALL_TRAP_NUMBER) && (SYSCALL_TRAP_NUMBER <=? PIC_MASTER_REMAP_BASE + 0x2F)) with false.
  cbn match. rewrite !bind_Ok. destruct (PROC_load_context_ok nx (s_mem s1) cx c X L Hc) as (c' & E3 & L3 & Q3).
  rewrite E3, !bind_Ok. eexists c', _. split; [done|]. split; [by split|].
  destruct (IRQ_enable_at (S n) _ I1) as (I3 & _); [lia|].
  cbn [s_on_irq s_set_k s_set_curr s_set_mem s_mem s_k k_irq k_vm curr_proc next_proc sleep_curr]. by rewrite N1.
Qed.

Section Exit.
Context (main_proc rq procs pools : Z).

(** Who runs after [cur]: the first ready process, or [main_proc]. *)
Definition successor (q : list Z) : Z * list Z := match q with [] => (main_proc, []) | p :: q => (p, q) end.

(** [process_exit] up to the yield: the list, the stack and the object. *)
Lemma exit_frees s H L q xs cur ys i :
  proc_inv rq procs pools s H L q (xs ++ cur :: ys) → live H (cur - HDR) i → cur ∉ q → cur ∉ xs ++ ys →
  stack_top (rd64 (s_mem s) (cur + off_stack)) →
  let m1 := LL_del (s_mem s) (cur + off_procs) in
  let k1 := mkK (MMU_free_stack (rd64 m1 (cur + off_stack)) (k_vm (s_k s))) (k_irq (s_k s)) in
  ∃ m2 H', kfree cur m1 k1 = Ok (m2, k1) ∧ heap_rep pools m2 k1 H' L ∧ (∀ n, ¬ owned H' cur n) ∧
    list_rep m2 rq off_queue q ∧ list_rep m2 procs off_procs (xs ++ ys) ∧
    (∀ d, d ∈ q ∨ d ∈ xs ++ ys → owned H' d sizeof_Process) ∧
    (∀ d x, d ∈ q ∨ d ∈ xs ++ ys → d + 32 ≤ x < d + sizeof_Process → rd8 m2 x = rd8 (s_mem s) x) ∧
    (∀ a n x, static pools a n → apart a n procs 24 → a ≤ x < a + n → rd8 m2 x = rd8 (s_mem s) x).
Proof using.
  intros [R Rq Rp Hown (A1 & A2 & A3 & A4 & A5 & A6 & A7 & A8)] Hl Hcq Hcp Hst m1 k1.
  assert (Sq : static pools rq 24) by (apply low_static; done || lia). assert (Sp : static pools procs 24) by (apply low_static; done || lia).
  destruct (LL_del_rep (s_mem s) procs off_procs xs cur ys Rp) as [Rp1 O1]. fold m1 in Rp1, O1.
  assert (Hcur : cur ∈ q ∨ cur ∈ xs ++ cur :: ys) by (right; clear; set_solver).
  assert (Hsub : ∀ d, d ∈ q ∨ d ∈ xs ++ ys → (d ∈ q ∨ d ∈ xs ++ cur :: ys) ∧ d ≠ cur).
  { intros d [Hd|Hd]; (split; [|by intros ->]); [by left|]. right. revert Hd. clear. set_solver. }
  (* bytes outside the headers of the list of processes *)
  assert (K1 : ∀ x, (∀ d, d ∈ xs ++ cur :: ys → ¬ (d + 16 ≤ x < d + 32)) → ¬ (procs ≤ x < procs + 16) → rd8 m1 x = rd8 (s_mem s) x).
  { intros x X1 X2. apply O1. intros h [->|(d & -> & Hd)%list_elem_of_fmap]%elem_of_cons; [done|]. unfold off_procs. specialize (X1 d Hd). lia. }
  assert (Kp : ∀ d x, d ∈ q ∨ d ∈ xs ++ cur :: ys → d ≤ x < d + 16 ∨ d + 32 ≤ x < d + 240 → rd8 m1 x = rd8 (s_mem s) x).
  { intros d x Hd Hx. apply K1.
    - intros e He Hx'. destruct (decide (d = e)) as [->|Hne]; [lia|].
      pose proof (owned_apart _ _ _ _ _ _ _ _ _ R (Hown d Hd) (Hown e (or_intror He)) Hne). unfold apart, sizeof_Process in *. lia.
    - pose proof (owned_static _ _ _ _ _ _ _ _ _ R (Hown d Hd) Sp). unfold apart, sizeof_Process in *. lia. }
  assert (Ks : ∀ a n x, static pools a n → apart a n procs 24 → a ≤ x < a + n → rd8 m1 x = rd8 (s_mem s) x).
  { intros a n x Sa Aa Hx. apply K1; [|unfold apart in *; lia]. intros d Hd.
    pose proof (owned_static _ _ _ _ _ _ _ _ _ R (Hown d (or_intror Hd)) Sa). unfold apart, sizeof_Process in *. lia. }
  assert (Est : rd64 m1 (cur + off_stack) = rd64 (s_mem s) (cur + off_stack)).
  { apply rd_le_ext. intros x Hx. apply (Kp cur x Hcur). unfold off_stack in Hx. cbn in Hx. lia. }
  assert (R1 : heap_rep pools m1 k1 H L).
  { assert (R0 : heap_rep pools (s_mem s) k1 H L).
    { destruct R as [Q1 Q2]. split; [|done..]. unfold k1. apply MMU_free_stack_inv; [by rewrite Est|exact Q1]. }
    eapply heap_rep_writes; [exact R0|]. intros x Hx.
    destruct (decide (procs ≤ x < procs + 24)); [by apply (client_byte_static _ _ procs 24)|].
    destruct (decide (Exists (fun d => d + 16 ≤ x < d + 32) (xs ++ cur :: ys))) as [He|Hne].
    - apply Exists_exists in He as (d & Hd & Hx'). apply (client_byte_owned _ _ d sizeof_Process); [apply Hown; by right|unfold sizeof_Process; lia].
    - destruct Hx. apply K1; [|lia]. intros d Hd Hx'. apply Hne, Exists_exists. by exists d. }
  destruct (kfree_object pools m1 k1 H L cur i R1 Hl) as (m2 & H' & E2 & R2 & F1 & F2 & F3 & _).
  exists m2, H'. split; [done|]. split; [done|]. split; [done|].
  assert (Hk : ∀ d x, d ∈ q ∨ d ∈ xs ++ ys → d ≤ x < d + sizeof_Process → rd8 m2 x = rd8 m1 x).
  { intros d x Hd Hx. destruct (Hsub d Hd) as [Hd' Hne]. by apply (F1 d sizeof_Process (Hown d Hd') Hne). }
  split_and!.
  - eapply list_rep_ext; [| |exact Rq].
    + intros x Hx. rewrite (F2 rq 24) by done. apply (Ks rq 24); [done|done|lia].
    + intros d x Hd Hx. unfold off_queue in Hx. rewrite (Hk d) by (try (by left); unfold sizeof_Process; lia). apply (Kp d); [by left|lia].
  - eapply list_rep_ext; [| |exact Rp1].
    + intros x Hx. by apply (F2 procs 24).
    + intros d x Hd Hx. unfold off_procs in Hx. apply (Hk d); [by right|unfold sizeof_Process; lia].
  - intros d Hd. destruct (Hsub d Hd) as [Hd' Hne]. by apply (F1 d sizeof_Process (Hown d Hd') Hne).
  - intros d x Hd Hx. rewrite (Hk d) by (try done; lia). destruct (Hsub d Hd) as [Hd' _]. apply (Kp d); [done|unfold sizeof_Process in Hx; lia].
  - intros a n x Sa Aa Hx. rewrite (F2 a n) by done. by apply (Ks a n).
Qed.

Lemma owned_universe m k H L q : heap_rep pools m k H L → static pools rq 24 → (∀ d, d ∈ q → owned H d sizeof_Process) → universe rq q.
Proof using.
  intros R Sq Ho. split.
  - intros d Hd. destruct (owned_range _ _ _ _ _ _ _ R (Ho d Hd)) as (G1 & _ & _ & _ & G2 & _).
    pose proof (owned_static _ _ _ _ _ _ _ _ _ R (Ho d Hd) Sq). unfold sizeof_Process in *. split; [lia|]. split; [lia|done].
  - intros d e Hd He Hne. exact (owned_apart _ _ _ _ _ _ _ _ _ R (Ho d Hd) (Ho e He) Hne).
Qed.

(** Rescheduling keeps heap, lists and contexts. *)
Lemma resched_inv m k H L q ps m' k' q' :
  heap_rep pools m k H L → list_rep m procs off_procs ps → (∀ d, d ∈ q ∨ d ∈ ps → owned H d sizeof_Process) →
  static pools rq 24 → static pools procs 24 → apart rq 24 procs 24 → only_queues rq q m m' → k_vm k' = k_vm k →
  list_rep m' rq off_queue q' → (∀ d, d ∈ q' → d ∈ q) →
  heap_rep pools m' k' H L ∧ list_rep m' procs off_procs ps ∧
  (∀ d x, d ∈ q ∨ d ∈ ps → d + 16 ≤ x < d + sizeof_Process → rd8 m' x = rd8 m x) ∧
  (∀ a n x, static pools a n → apart a n rq 24 → a ≤ x < a + n → rd8 m' x = rd8 m x).
Proof using.
  intros R Rp Ho Sq Sp Ar F Ek Rq' Hsub.
  assert (Hk : ∀ d x, d ∈ q ∨ d ∈ ps → d + 16 ≤ x < d + sizeof_Process → rd8 m' x = rd8 m x).
  { intros d x Hd Hx. apply F.
    - pose proof (owned_static _ _ _ _ _ _ _ _ _ R (Ho d Hd) Sq). unfold apart in *. lia.
    - intros e He Hx'. destruct (decide (d = e)) as [->|Hne]; [lia|].
      pose proof (owned_apart _ _ _ _ _ _ _ _ _ R (Ho d Hd) (Ho e (or_introl He)) Hne). unfold apart, sizeof_Process in *. lia. }
  assert (Hs : ∀ a n x, static pools a n → apart a n rq 24 → a ≤ x < a + n → rd8 m' x = rd8 m x).
  { intros a n x Sa Aa Hx. apply F; [unfold apart in *; lia|]. intros e He Hx'.
    pose proof (owned_static _ _ _ _ _ _ _ _ _ R (Ho e (or_introl He)) Sa). unfold apart, sizeof_Process in *. lia. }
  split_and!; [| |done|done].
  - apply (heap_rep_kvm _ m' k); [done|]. eapply heap_rep_writes; [exact R|]. intros x Hx.
    destruct (decide (rq ≤ x < rq + 24)); [by apply (client_byte_static _ _ rq 24)|].
    destruct (decide (Exists (fun d => d ≤ x < d + 16) q)) as [He|Hne].
    + apply Exists_exists in He as (d & Hd & Hx'). apply (client_byte_owned _ _ d sizeof_Process); [apply Ho; by left|unfold sizeof_Process; lia].
    + destruct Hx. apply F; [lia|]. intros d Hd Hx'. apply Hne, Exists_exists. by exists d.
  - eapply list_rep_ext; [| |exact Rp].
    + intros x Hx. apply (Hs procs 24); [done|unfold apart in *; lia|done].
    + intros d x Hd Hx. apply (Hk d); [by right|unfold off_procs, sizeof_Process in *; lia].
Qed.

End Exit.

(** ** Example: the only process, on the heap, ends; [main_proc] runs *)

Definition demo_exit_mem : mem :=
  let m := wr64 (demo_block_mem 3) (demo_object + off_stack) (MMAP_KERNEL_STACKS_END - 8) in
  let m := LL_init m 0x300000 off_queue in
  let m := LL_enqueue (LL_init m 0x301000 off_procs) 0x301000 demo_object in
  match PROC_save_context 0x302000 demo_cpu m with Ok m => m | _ => ∅ end.

Definition demo_exit : sched :=
  mkS demo_exit_mem (mkK (k_vm demo_source) (mkIrqs (replicate 256 (0x77, 0)) 0 true [])) demo_object demo_object 0 [].

Lemma demo_process_owned : owned (demo_block_heap 3) demo_object sizeof_Process.
Proof. split; [done|]. left. exists 3%nat. split; [exact (demo_block_live 3)|]. vm_compute. congruence. Qed.

Lemma demo_exit_inv :
  proc_inv 0x300000 0x301000 demo_pools demo_exit (demo_block_heap 3) [(MMAP_KERNEL_HEAP_START, 4)] [] [demo_object] ∧
  context_in demo_exit_mem 0x302000 demo_cpu ∧ rd64 demo_exit_mem (demo_object + off_stack) = MMAP_KERNEL_STACKS_END - 8.
Proof.
  assert (S1 : static demo_pools 0x300000 24) by (apply demo_static; vm_compute; congruence).
  assert (S2 : static demo_pools 0x301000 24) by (apply demo_static; vm_compute; congruence).
  assert (S3 : static demo_pools 0x302000 sizeof_Process) by (apply demo_static; vm_compute; congruence).
  pose proof demo_process_owned as Ow. set (m0 := wr64 (demo_block_mem 3) (demo_object + off_stack) (MMAP_KERNEL_STACKS_END - 8)).
  assert (R0 : heap_rep demo_pools m0 demo_source (demo_block_heap 3) [(MMAP_KERNEL_HEAP_START, 4)]).
  { eapply heap_rep_write; [apply (demo_block_rep 3); lia|left; exact Ow|]. intros x Hx. unfold m0, wr64. apply rd8_wr_le_out.
    unfold off_stack, sizeof_Process in *. cbn. lia. }
  assert (V0 : rd64 m0 (demo_object + off_stack) = MMAP_KERNEL_STACKS_END - 8) by (unfold m0; rewrite rd64_wr64_eq; by vm_compute).
  destruct (LL_init_rep m0 0x300000 off_queue) as [R1 O1]; [unfold valid_hdr; lia|unfold off_queue; lia|].
  destruct (LL_init_rep (LL_init m0 0x300000 off_queue) 0x301000 off_procs) as [R2 O2]; [unfold valid_hdr; lia|unfold off_procs; lia|].
  set (m2 := LL_init (LL_init m0 0x300000 off_queue) 0x301000 off_procs) in *.
  assert (H2 : heap_rep demo_pools m2 demo_source (demo_block_heap 3) [(MMAP_KERNEL_HEAP_START, 4)]).
  { eapply heap_rep_write; [|right; exact S2|exact O2]. eapply heap_rep_write; [exact R0|right; exact S1|exact O1]. }
  destruct (enqueue_object demo_pools m2 demo_source (demo_block_heap 3) _ 0x301000 off_procs sizeof_Process [] demo_object H2 R2) as (L3 & H3 & K3 & _);
    [by intros e ->%list_elem_of_singleton|apply not_elem_of_nil|done|done|].
  set (m3 := LL_enqueue m2 0x301000 demo_object) in *.
  destruct (PROC_save_context_ok 0x302000 demo_cpu m3) as (m4 & E4 & X4 & F4); [done|].
  assert (Em : demo_exit_mem = m4) by (unfold demo_exit_mem; change (LL_enqueue _ 0x301000 demo_object) with m3; by rewrite E4).
  unfold demo_exit. rewrite Em.
  assert (Hob : 0x400000 ≤ demo_object) by (vm_compute; congruence).
  assert (K : ∀ x, (0x302000 + 240 ≤ x → x < demo_object + 16 ∨ demo_object + 32 ≤ x) → x < 0x301000 ∨ 0x302000 + 240 ≤ x → rd8 m4 x = rd8 m2 x).
  { intros x X1 X2. rewrite F4 by lia. apply K3; [|lia]. intros e ->%list_elem_of_singleton. unfold off_procs. lia. }
  split; [|split; [done|]].
  - split; cbn [s_mem s_k].
    + apply (heap_rep_kvm demo_pools m4 demo_source); [done|]. eapply heap_rep_write; [exact H3|right; exact S3|].
      intros x Hx. apply F4. unfold sizeof_Process in Hx. lia.
    + eapply list_rep_ext; [| |exact R1]; [|by intros e x He%elem_of_nil]. intros x Hx. rewrite K by lia. apply O2. lia.
    + eapply list_rep_ext; [| |exact L3]; [intros x Hx; apply F4; lia|]. intros e x ->%list_elem_of_singleton Hx. apply F4. unfold off_procs in *. lia.
    + intros e [He|He]; [by apply elem_of_nil in He|]. by apply list_elem_of_singleton in He as ->.
    + unfold apart, demo_pools. lia.
  - rewrite <- V0. apply rd_le_ext. intros x Hx. unfold off_stack in Hx. cbn in Hx. rewrite K by lia. rewrite O2, O1 by lia. done.
Qed.

