(* ===== verification/Vga.v ===== *)
(** * The text display (src/src/vga.c)

    The cursor and the 80x25 text buffer at 0xb8000, refined to a screen that
    scrolls. *)

From S2P Require Import Prelude Memory CString Machine Irq.

(** ** The code *)

Definition X86_VGA_ADDR : Z := 0xb8000.
Definition disp_width : Z := 80.
Definition disp_height : Z := 25.
Definition disp_len : Z := 80 * 25.
Definition disp_char_bytes : Z := 2.

(** The fields of [disp] that change, the memory and the interrupt state. *)
Record vga := mkVga { disp_x : Z; disp_y : Z; v_mem : mem; v_irqs : irqs }.

Definition scroll (m : mem) : mem :=
  let m := (memcpy m X86_VGA_ADDR (X86_VGA_ADDR + 2 * disp_width)
              ((disp_len - disp_width) * disp_char_bytes)).1 in
  (memset m (X86_VGA_ADDR + 2 * (disp_len - disp_width)) 0 (disp_width * disp_char_bytes)).1.

Definition VGA_clear (v : vga) : vga :=
  mkVga 0 0 (memset (v_mem v) X86_VGA_ADDR 0 (disp_len * disp_char_bytes)).1 (v_irqs v).

(** [(disp.y*disp.width) + disp.x], in unsigned ints. *)
Definition disp_index (v : vga) : Z := u32 (u32 (disp_y v * disp_width) + disp_x v).

(** Lines 46-49. *)
Definition vga_scroll_if_full (v : vga) : vga :=
  if disp_index v =? disp_len
  then mkVga (disp_x v) (u32 (disp_y v - 1)) (scroll (v_mem v)) (v_irqs v) else v.

(** Lines 51-59. *)
Definition vga_put (c : Z) (v : vga) : vga :=
  if i8 c =? 10 then mkVga 0 (u32 (disp_y v + (1 + disp_x v / disp_width))) (v_mem v) (v_irqs v)
  else if i8 c =? 13 then mkVga 0 (disp_y v) (v_mem v) (v_irqs v)
  else mkVga (u32 (disp_x v + 1)) (disp_y v)
         (wr16 (v_mem v) (X86_VGA_ADDR + 2 * disp_index v) (Z.lor 0x0f00 (i8 c))) (v_irqs v).

Definition VGA_display_char (c : Z) (v : vga) : vga :=
  let v := mkVga (disp_x v) (disp_y v) (v_mem v) (IRQ_disable (v_irqs v)) in
  let v := vga_put c (vga_scroll_if_full v) in
  mkVga (disp_x v) (disp_y v) (v_mem v) (IRQ_enable (v_irqs v)).

Fixpoint VGA_display_str (fuel : nat) (cur : Z) (v : vga) : outcome vga :=
  match fuel with
  | O => Hang
  | S fuel =>
      let c := rd8 (v_mem v) cur in
      if truth c then VGA_display_str fuel (cur + 1) (VGA_display_char c v) else Ok v
  end.

(** ** The specification: a screen of 2000 cells and a position on it *)

Definition glyph (c : Z) : Z := u16 (Z.lor 0x0f00 (i8 c)).

Definition scr_scroll (s : list Z * Z) : list Z * Z :=
  if s.2 =? 2000 then (drop 80 s.1 ++ replicate 80 0, 1920) else s.

Definition scr_put (s : list Z * Z) (c : Z) : list Z * Z :=
  let s := scr_scroll s in
  if c =? 10 then (s.1, 80 * (s.2 / 80 + 1))
  else (<[Z.to_nat s.2 := glyph c]> s.1, s.2 + 1).

(** The buffer shows [cells], and the cursor is at position [p].  The column
    runs past 80 when a line wraps, and the row, an unsigned int, wraps below
    zero when such a line scrolls. *)
Record vga_rep (v : vga) (cells : list Z) (p : Z) : Prop := {
  vr_len : length cells = Z.to_nat 2000;
  vr_cells i : 0 ≤ i < 2000 → cells !! Z.to_nat i = Some (rd16 (v_mem v) (X86_VGA_ADDR + 2 * i));
  vr_pos : 0 ≤ p ≤ 2000;
  vr_x : 0 ≤ disp_x v < 4294967296;
  vr_y : ∃ Y, disp_y v = u32 Y ∧ p = 80 * Y + disp_x v
}.

Lemma disp_index_rep v cells p : vga_rep v cells p → disp_index v = p.
Proof.
  intros [_ _ Hp Hx (Y & Hy & ->)]. unfold disp_index, disp_width, u32 in *. rewrite Hy.
  rewrite Z.mul_mod_idemp_l, Zplus_mod_idemp_l by lia. rewrite Z.mod_small; lia.
Qed.

Lemma rd16_bytes m m' a a' :
  rd8 m a = rd8 m' a' → rd8 m (a + 1) = rd8 m' (a' + 1) → rd16 m a = rd16 m' a'.
Proof. intros H1 H2. unfold rd16. cbn [rd_le]. by rewrite H1, H2. Qed.

Lemma scroll_rd8 m b :
  rd8 (scroll m) b =
    if decide (X86_VGA_ADDR + 3840 ≤ b < X86_VGA_ADDR + 4000) then 0
    else if decide (X86_VGA_ADDR ≤ b < X86_VGA_ADDR + 3840) then rd8 m (b + 160) else rd8 m b.
Proof.
  unfold scroll, disp_width, disp_len, disp_char_bytes.
  change (80 * 25 - 80) with 1920. change (1920 * 2) with 3840. change (2 * 1920) with 3840.
  change (2 * 80) with 160. change (80 * 2) with 160.
  rewrite memset_rd8 by lia. unfold memcpy. cbn [fst].
  rewrite memcpy_loop_rd8 by (left; lia). rewrite Z2Nat.id by lia.
  repeat case_decide; try lia; try done. f_equal. lia.
Qed.

Lemma scroll_rep v cells p :
  vga_rep v cells p →
  let s := scr_scroll (cells, p) in
  vga_rep (vga_scroll_if_full v) s.1 s.2 ∧ s.2 < 2000 ∧
  disp_x (vga_scroll_if_full v) = disp_x v ∧ v_irqs (vga_scroll_if_full v) = v_irqs v ∧
  only_in X86_VGA_ADDR 4000 (v_mem v) (v_mem (vga_scroll_if_full v)).
Proof.
  intros R. unfold vga_scroll_if_full, scr_scroll. rewrite (disp_index_rep _ _ _ R).
  change disp_len with 2000. cbn [fst snd]. destruct R as [Hl Hc Hp Hx (Y & Hy & Hpy)].
  destruct (Z.eqb_spec p 2000) as [->|Hne]; [|split; [by split; eauto|]; cbn [fst snd]; split; [lia|done]].
  cbn [fst snd]. split; [|split; [lia|split; [done|split; [done|]]]].
  - split; cbn [v_mem disp_x disp_y].
    + rewrite length_app, length_drop, length_replicate, Hl. lia.
    + intros i Hi. destruct (decide (i < 1920)) as [Hs|Hs].
      * rewrite lookup_app_l by (rewrite length_drop, Hl; lia). rewrite lookup_drop.
        replace (80 + Z.to_nat i)%nat with (Z.to_nat (i + 80)) by lia. rewrite Hc by lia. f_equal.
        apply rd16_bytes; rewrite scroll_rd8; rewrite decide_False, decide_True by lia; f_equal; lia.
      * rewrite lookup_app_r by (rewrite length_drop, Hl; lia). rewrite length_drop, Hl.
        rewrite lookup_replicate_2 by lia. f_equal. symmetry. apply rd_le_zero. intros b Hb. cbn in Hb.
        rewrite scroll_rd8. by rewrite decide_True by lia.
    + lia.
    + done.
    + exists (Y - 1). split; [|lia]. rewrite Hy. unfold u32. by rewrite Zminus_mod_idemp_l.
  - intros b Hb. cbn [v_mem]. rewrite scroll_rd8. by rewrite !decide_False by lia.
Qed.

Lemma i8_eq_iff c d : 0 ≤ c < 256 → 0 ≤ d < 128 → (i8 c =? d) = (c =? d).
Proof.
  intros Hc Hd. replace d with (i8 d) at 1.
  - destruct (Z.eqb_spec c d) as [->|Hne]; [apply Z.eqb_refl|]. apply Z.eqb_neq.
    intros E. apply Hne, i8_inj; [done|lia|done].
  - unfold i8, signed. change (2 ^ 8) with 256. change (2 ^ (8 - 1)) with 128.
    rewrite Z.mod_small by lia. by rewrite (proj2 (Z.ltb_lt _ _)) by lia.
Qed.

Lemma vga_put_rep c v cells p :
  vga_rep v cells p → p < 2000 → 0 ≤ c < 256 → c ≠ 13 → disp_x v < 4294967295 →
  let s := if c =? 10 then (cells, 80 * (p / 80 + 1)) else (<[Z.to_nat p := glyph c]> cells, p + 1) in
  vga_rep (vga_put c v) s.1 s.2 ∧ 0 ≤ disp_x (vga_put c v) ≤ disp_x v + 1 ∧
  v_irqs (vga_put c v) = v_irqs v ∧ only_in X86_VGA_ADDR 4000 (v_mem v) (v_mem (vga_put c v)).
Proof.
  intros R Hp2 Hc H13 Hxb. pose proof (disp_index_rep _ _ _ R) as Hix.
  destruct R as [Hl Hcell Hp Hx (Y & Hy & Hpy)]. unfold vga_put.
  rewrite !i8_eq_iff by lia. rewrite (proj2 (Z.eqb_neq c 13)) by done. rewrite Hix.
  destruct (Z.eqb_spec c 10) as [->|Hn]; cbn [fst snd disp_x v_irqs v_mem].
  - split; [|split; [lia|done]]. split; cbn [v_mem disp_x disp_y]; [done|done| |lia|].
    + assert (p / 80 < 25) by (apply Z.div_lt_upper_bound; lia).
      assert (0 ≤ p / 80) by (apply Z.div_pos; lia). lia.
    + exists (p / 80 + 1). split; [|lia]. unfold disp_width. rewrite Hy. unfold u32.
      rewrite Zplus_mod_idemp_l. f_equal. rewrite Hpy.
      replace (80 * Y + disp_x v) with (disp_x v + Y * 80) by lia. rewrite Z.div_add by lia. lia.
  - rewrite u32_small by lia. split; [|split; [lia|split; [done|]]].
    + split; cbn [v_mem disp_x disp_y].
      * by rewrite length_insert.
      * intros i Hi. destruct (decide (i = p)) as [->|Hne].
        -- rewrite list_lookup_insert_eq by (rewrite Hl; lia). f_equal. symmetry. apply (rd_le_wr_le 2).
        -- rewrite list_lookup_insert_ne by lia. rewrite Hcell by done. f_equal. symmetry.
           apply (rd_le_wr_le_apart 2 2). unfold apart. lia.
      * lia.
      * lia.
      * exists Y. split; [done|lia].
    + eapply only_in_weaken; [apply (wr_le_only_in 2)|lia|lia].
Qed.

Lemma VGA_display_char_handlers c v : handlers (v_irqs (VGA_display_char c v)) = handlers (v_irqs v).
Proof.
  unfold VGA_display_char, vga_put, vga_scroll_if_full. cbn [v_irqs]. rewrite IRQ_enable_handlers.
  repeat case_match; cbn [v_irqs]; apply IRQ_disable_handlers.
Qed.

Lemma VGA_display_str_handlers fuel : ∀ a v v', VGA_display_str fuel a v = Ok v' → handlers (v_irqs v') = handlers (v_irqs v).
Proof.
  induction fuel as [|fuel IH]; intros a v v'; cbn [VGA_display_str]; [done|]. destruct (truth _); [|by intros [= <-]].
  intros E. by rewrite (IH _ _ _ E), VGA_display_char_handlers.
Qed.

Lemma VGA_display_char_rep c v cells p n :
  vga_rep v cells p → 0 ≤ c < 256 → c ≠ 13 → disp_x v < 4294967295 →
  irq_at n (v_irqs v) → Z.of_nat n < 4294967295 →
  let v' := VGA_display_char c v in
  vga_rep v' (scr_put (cells, p) c).1 (scr_put (cells, p) c).2 ∧ 0 ≤ disp_x v' ≤ disp_x v + 1 ∧
  irq_at n (v_irqs v') ∧ only_in X86_VGA_ADDR 4000 (v_mem v) (v_mem v').
Proof.
  intros R Hc H13 Hx Hi Hn. unfold VGA_display_char, scr_put.
  set (v0 := mkVga _ _ _ (IRQ_disable _)).
  destruct (IRQ_disable_at n _ Hi Hn) as (I1 & _).
  assert (R0 : vga_rep v0 cells p) by (by destruct R; split).
  destruct (scroll_rep v0 cells p R0) as (R1 & P1 & X1 & Q1 & M1).
  set (s1 := scr_scroll (cells, p)) in *. set (v1 := vga_scroll_if_full v0) in *.
  destruct (vga_put_rep c v1 s1.1 s1.2 R1) as (R2 & X2 & Q2 & M2); [done..|rewrite X1; done|].
  destruct (IRQ_enable_at (S n) (v_irqs (vga_put c v1))) as (I2 & _); [by rewrite Q2, Q1|lia|].
  cbn zeta in *. split; [destruct R2; split; [done..|]; done|].
  split; [cbn [disp_x]; rewrite X1 in X2; exact X2|].
  split; [exact I2|]. cbn [v_mem]. by eapply only_in_trans.
Qed.

Lemma VGA_display_str_ok (s : list Z) : ∀ (v : vga) (cells : list Z) (p : Z) (n : nat) (str : Z) (fuel : nat),
  vga_rep v cells p → irq_at n (v_irqs v) → Z.of_nat n < 4294967295 →
  cstr (v_mem v) str s → 13 ∉ s → disp_x v + Z.of_nat (length s) < 4294967296 →
  apart str (Z.of_nat (length s) + 1) X86_VGA_ADDR 4000 → (length s < fuel)%nat →
  ∃ v', VGA_display_str fuel str v = Ok v' ∧
    vga_rep v' (fold_left scr_put s (cells, p)).1 (fold_left scr_put s (cells, p)).2 ∧
    irq_at n (v_irqs v') ∧ only_in X86_VGA_ADDR 4000 (v_mem v) (v_mem v') ∧
    0 ≤ disp_x v' ≤ disp_x v + Z.of_nat (length s).
Proof.
  induction s as [|c s IH]; intros v cells p n str [|fuel] R Hi Hn Hs H13 Hx Ha Hf;
    cbn [length] in *; try lia; cbn [VGA_display_str cstr] in *.
  - rewrite Hs. cbn. exists v. split; [done|]. split; [done|]. split; [done|].
    split; [by intros b _|]. destruct R. lia.
  - destruct Hs as (Hc & Hc0 & Hs). rewrite Hc. unfold truth. rewrite (proj2 (Z.eqb_neq c 0) Hc0). cbn [negb].
    apply not_elem_of_cons in H13 as [H13 H13s]. pose proof (rd8_range (v_mem v) str) as Hr. rewrite Hc in Hr.
    destruct (VGA_display_char_rep c v cells p n R) as (R1 & X1 & I1 & M1); [lia|done|lia|done|done|].
    set (v1 := VGA_display_char c v) in *. clearbody v1. destruct (scr_put (cells, p) c) as [cells1 p1] eqn:E1.
    destruct (IH v1 cells1 p1 n (str + 1) fuel R1 I1 Hn) as (v' & E & R' & I' & M' & X'); [|done|lia| |lia|].
    + eapply cstr_ext; [|exact Hs]. intros b Hb. symmetry. apply M1. unfold apart in Ha. lia.
    + unfold apart in *. lia.
    + exists v'. split; [done|]. cbn [fold_left]. rewrite E1. split; [done|]. split; [done|].
      split; [by eapply only_in_trans|lia].
Qed.

(** C9: [VGA_display_str] refines a scrolling 80x25 screen.  From any state in
    which the buffer shows [cells] with the cursor at position [p], for every
    string without carriage returns that lies outside the buffer (and shorter
    than what would wrap the 32-bit column), the display terminates, the buffer
    shows what the screen specification says after the same characters, no byte
    outside the 4000 bytes of the buffer is written, and interrupts are enabled
    or disabled as before. *)
Theorem VGA_display_str_refines (s : list Z) (v : vga) (cells : list Z) (p : Z) (n : nat) (str : Z) (fuel : nat) :
  vga_rep v cells p → irq_at n (v_irqs v) → Z.of_nat n < 4294967295 →
  cstr (v_mem v) str s → 13 ∉ s → disp_x v + Z.of_nat (length s) < 4294967296 →
  apart str (Z.of_nat (length s) + 1) X86_VGA_ADDR 4000 → (length s < fuel)%nat →
  ∃ v', VGA_display_str fuel str v = Ok v' ∧
    vga_rep v' (fold_left scr_put s (cells, p)).1 (fold_left scr_put s (cells, p)).2 ∧
    irq_at n (v_irqs v') ∧ only_in X86_VGA_ADDR 4000 (v_mem v) (v_mem v').
Proof.
  intros R Hi Hn Hs H13 Hx Ha Hf.
  destruct (VGA_display_str_ok s v cells p n str fuel R Hi Hn Hs H13 Hx Ha Hf) as (v' & E & R' & I' & M' & _).
  by exists v'.
Qed.

(** [VGA_clear] gives a blank screen. *)
Lemma VGA_clear_rep v : vga_rep (VGA_clear v) (replicate (Z.to_nat 2000) 0) 0.
Proof.
  unfold VGA_clear. change (disp_len * disp_char_bytes) with 4000.
  split; cbn [v_mem disp_x disp_y].
  - apply length_replicate.
  - intros i Hi. rewrite lookup_replicate_2 by lia. f_equal. symmetry. apply rd_le_zero. intros b Hb. cbn in Hb.
    rewrite memset_rd8 by lia. by rewrite decide_True by lia.
  - lia.
  - lia.
  - exists 0. done.
Qed.

Definition demo_vga : vga :=
  VGA_clear (mkVga 7 7 (wr8 (wr8 ∅ 0x1000 104) 0x1001 105) (mkIrqs [] 0 true [])).

Lemma VGA_display_str_refines_witness :
  ∃ v', VGA_display_str 3 0x1000 demo_vga = Ok v' ∧ irq_at 0 (v_irqs v').
Proof.
  destruct (VGA_display_str_refines [104; 105] demo_vga (replicate (Z.to_nat 2000) 0) 0 0 0x1000 3)
    as (v' & E & _ & I & _).
  - apply VGA_clear_rep.
  - by split.
  - lia.
  - unfold demo_vga, VGA_clear. cbn [v_mem cstr]. change (disp_len * disp_char_bytes) with 4000.
    rewrite !memset_rd8 by lia. rewrite !decide_False by (unfold X86_VGA_ADDR; lia). by vm_compute.
  - apply (bool_decide_unpack _). vm_compute. exact I.
  - cbn. lia.
  - unfold apart, X86_VGA_ADDR. cbn. lia.
  - cbn. lia.
  - exists v'. by split.
Defined.

Lemma char_full v c :
  disp_index v = 2000 → 0 ≤ c < 256 → c ≠ 10 → c ≠ 13 →
  disp_x (VGA_display_char c v) = u32 (disp_x v + 1) ∧ disp_y (VGA_display_char c v) = u32 (disp_y v - 1).
Proof.
  intros E Hc H10 H13. unfold VGA_display_char, vga_scroll_if_full.
  replace (disp_index _ =? disp_len) with true by (symmetry; exact (proj2 (Z.eqb_eq _ _) E)).
  unfold vga_put. rewrite !i8_eq_iff by lia. by rewrite (proj2 (Z.eqb_neq c 10)), (proj2 (Z.eqb_neq c 13)) by done.
Qed.

Lemma char_room v c :
  disp_index v ≠ 2000 →
  disp_x (VGA_display_char c v) = disp_x (vga_put c v) ∧ disp_y (VGA_display_char c v) = disp_y (vga_put c v) ∧
  v_mem (VGA_display_char c v) = v_mem (vga_put c v).
Proof.
  intros E. unfold VGA_display_char, vga_scroll_if_full.
  replace (disp_index _ =? disp_len) with false by (symmetry; exact (proj2 (Z.eqb_neq _ _) E)).
  unfold vga_put. by destruct (i8 c =? 10), (i8 c =? 13).
Qed.

(** A carriage return goes to the start of the row counter, not of the row
    the cursor is on.  After one full screen of text without a newline the row
    counter is 2^32 - 1 once the screen scrolls, so a carriage return and one
    more character are written 8 GiB above the buffer. *)
Theorem VGA_carriage_return_escapes (v : vga) (cells : list Z) (c d : Z) :
  vga_rep v cells 2000 → disp_y v = 0 →
  0 ≤ c < 256 → c ≠ 10 → c ≠ 13 → 0 ≤ d < 256 → d ≠ 10 → d ≠ 13 →
  let v' := VGA_display_char d (VGA_display_char 13 (VGA_display_char c v)) in
  rd16 (v_mem v') (X86_VGA_ADDR + 2 * (4294967296 - 80)) = glyph d.
Proof.
  intros R Hy Hc Hc10 Hc13 Hd Hd10 Hd13. cbv zeta. pose proof (disp_index_rep _ _ _ R) as Hix.
  destruct R as [_ _ _ Hx (Y & HY & Hp)]. unfold disp_index in Hix.
  assert (Hx2 : disp_x v = 2000).
  { rewrite Hy in Hix. change (u32 (0 * disp_width)) with 0 in Hix. rewrite Z.add_0_l, u32_small in Hix; lia. }
  destruct (char_full v c Hix Hc Hc10 Hc13) as [X1 Y1]. rewrite Hx2, Hy in *.
  set (v1 := VGA_display_char c v) in *. clearbody v1.
  destruct (char_room v1 13) as (X2 & Y2 & _). { unfold disp_index. rewrite X1, Y1. by vm_compute. }
  set (v2 := VGA_display_char 13 v1) in *. clearbody v2. change (disp_x (vga_put 13 v1)) with 0 in X2. change (disp_y (vga_put 13 v1)) with (disp_y v1) in Y2.
  rewrite Y1 in Y2.
  assert (E2 : disp_index v2 = 4294967296 - 80) by (unfold disp_index; rewrite X2, Y2; by vm_compute).
  destruct (char_room v2 d) as (_ & _ & ->). { by rewrite E2. }
  unfold vga_put. rewrite !i8_eq_iff by lia.
  rewrite (proj2 (Z.eqb_neq d 10)), (proj2 (Z.eqb_neq d 13)) by done.
  cbn [v_mem]. rewrite E2. apply (rd_le_wr_le 2).
Qed.

Lemma VGA_carriage_return_escapes_witness :
  let v := mkVga 2000 0 ∅ (mkIrqs [] 0 true []) in
  rd16 (v_mem (VGA_display_char 98 (VGA_display_char 13 (VGA_display_char 97 v))))
    (X86_VGA_ADDR + 2 * (4294967296 - 80)) = glyph 98.
Proof.
  apply (VGA_carriage_return_escapes (mkVga 2000 0 ∅ (mkIrqs [] 0 true [])) (replicate (Z.to_nat 2000) 0) 97 98);
    [|done..].
  split; [apply length_replicate| |done|done|by exists 0].
  intros i Hi. rewrite lookup_replicate_2 by lia. done.
Defined.
