(* ===== verification/Serial.v ===== *)
(** * The serial port (src/src/drivers/serial/x86.c, serial.c)

    The ring buffer between the writers and the transmit interrupt, refined to
    a bounded queue of characters. *)

From S2P Require Import Prelude Memory CString Machine Irq.

(** ** The code *)

Definition OUTPUT_BUFF_SIZE : Z := 1024.
Definition BUFF_POS (pos : Z) : Z :=
  Z.rem (if pos =? -1 then OUTPUT_BUFF_SIZE - 1 else pos) OUTPUT_BUFF_SIZE.

Definition COM1_PORT : Z := 0x3F8.
Definition COM1_COM3_IRQ : Z := 0x24.
Definition IE_REG_OFFSET : Z := 1.
Definition FIFO_CNTL_REG_OFFSET : Z := 2.
Definition LINE_CNTL_REG_OFFSET : Z := 3.
Definition MODEM_CNTL_REG_OFFSET : Z := 4.
Definition LINE_STATUS_REG_OFFSET : Z := 5.

(** [struct x86SerialDevice]; [write] is the only function pointer it holds. *)
Record x86SerialDevice := mkSer {
  output_buff : list Z;
  out_producer_pos : Z;
  out_consumer_pos : Z
}.

(** An array index; a negative one is out of range. *)
Definition zidx {A} (l : list A) (i : Z) : outcome A := if i <? 0 then Fault else idx l (Z.to_nat i).
Definition zupd {A} (l : list A) (i : Z) (x : A) : outcome (list A) :=
  if i <? 0 then Fault else upd l (Z.to_nat i) x.

Section Ser.
Context {D : Type} `{PortIO D}.

Definition is_transmit_empty (d : D) : bool * D :=
  let '(v, d) := inb (COM1_PORT + LINE_STATUS_REG_OFFSET) d in (truth (Z.land v 0x20), d).

Definition consumer_write_next (dev : x86SerialDevice) (d : D) : outcome (x86SerialDevice * D) :=
  if out_consumer_pos dev =? out_producer_pos dev then Ok (dev, d)
  else
    next ← zidx (output_buff dev) (out_consumer_pos dev);
    let dev := mkSer (output_buff dev) (out_producer_pos dev) (BUFF_POS (out_consumer_pos dev + 1)) in
    Ok (dev, outb COM1_PORT next d).

Definition producer_add_char (dev : x86SerialDevice) (c : Z) : outcome x86SerialDevice :=
  if out_producer_pos dev =? BUFF_POS (out_consumer_pos dev - 1) then Ok dev
  else
    b ← zupd (output_buff dev) (out_producer_pos dev) c;
    Ok (mkSer b (BUFF_POS (out_producer_pos dev + 1)) (out_consumer_pos dev)).

Definition x86_serial_isr (dev : x86SerialDevice) (d : D) : outcome (x86SerialDevice * D) :=
  let '(e, d) := is_transmit_empty d in
  if e then consumer_write_next dev d else Ok (dev, d).

Definition x86_write (c : Z) (dev : x86SerialDevice) (s : irqs) (d : D) :
    outcome (Z * (x86SerialDevice * irqs * D)) :=
  let s := IRQ_disable s in
  dev ← producer_add_char dev c;
  let '(e, d) := is_transmit_empty d in
  r ← (if e then consumer_write_next dev d else Ok (dev, d));
  Ok (0, (r.1, IRQ_enable s, r.2)).

(** The type of [dev->write]: a result, negative on failure, and the new state. *)
Abbreviation ser_writer := (Z → x86SerialDevice → irqs → D → outcome (Z * (x86SerialDevice * irqs * D))).

Definition SER_write_char (write : ser_writer) (c : Z) (dev : x86SerialDevice) (s : irqs) (d : D) :
    outcome (Z * (x86SerialDevice * irqs * D)) := write c dev s d.

Fixpoint SER_write_str (fuel : nat) (write : ser_writer) (m : mem) (curr : Z)
    (dev : x86SerialDevice) (s : irqs) (d : D) : outcome (Z * (x86SerialDevice * irqs * D)) :=
  match fuel with
  | O => Hang
  | S fuel =>
      if truth (rd8 m curr) then
        r ← write (rd8 m curr) dev s d;
        if r.1 <? 0 then Ok r
        else let '(dev, s, d) := r.2 in SER_write_str fuel write m (curr + 1) dev s d
      else Ok (0, (dev, s, d))
  end.

(** The loop of [SER_write] with [k] characters left. *)
Fixpoint ser_write_loop (k : nat) (write : ser_writer) (m : mem) (curr : Z)
    (dev : x86SerialDevice) (s : irqs) (d : D) : outcome (Z * (x86SerialDevice * irqs * D)) :=
  match k with
  | O => Ok (0, (dev, s, d))
  | S k =>
      r ← write (rd8 m curr) dev s d;
      if r.1 <? 0 then Ok r
      else let '(dev, s, d) := r.2 in ser_write_loop k write m (curr + 1) dev s d
  end.

Definition SER_write (write : ser_writer) (m : mem) (buff len : Z)
    (dev : x86SerialDevice) (s : irqs) (d : D) : outcome (Z * (x86SerialDevice * irqs * D)) :=
  ser_write_loop (Z.to_nat len) write m buff dev s d.

(** [isr] is the address of [x86_serial_isr], [gdev] that of the device. *)
Definition init_x86_serial (isr gdev : Z) (s : irqs) (d : D) : outcome (irqs * D) :=
  let d := outb (COM1_PORT + IE_REG_OFFSET) 0x00 d in
  let d := outb (COM1_PORT + LINE_CNTL_REG_OFFSET) 0x80 d in
  let d := outb COM1_PORT 0x03 d in
  let d := outb (COM1_PORT + 1) 0x00 d in
  let d := outb (COM1_PORT + LINE_CNTL_REG_OFFSET) 0x03 d in
  let d := outb (COM1_PORT + FIFO_CNTL_REG_OFFSET) 0xC7 d in
  let d := outb (COM1_PORT + MODEM_CNTL_REG_OFFSET) 0x0B d in
  s ← IRQ_set_handler COM1_COM3_IRQ isr gdev s;
  r ← IRQ_clear_mask COM1_COM3_IRQ s d;
  Ok (r.1, outb (COM1_PORT + IE_REG_OFFSET) 0x02 r.2).

(** ** The specification: a queue of at most 1023 characters *)

Definition sq_send (q : list Z) (d : D) : list Z * D :=
  let '(e, d) := is_transmit_empty d in
  if e then match q with [] => ([], d) | c :: q => (q, outb COM1_PORT c d) end else (q, d).

Definition sq_write (q : list Z) (d : D) (c : Z) : list Z * D :=
  sq_send (if Z.of_nat (length q) <? OUTPUT_BUFF_SIZE - 1 then q ++ [c] else q) d.

(** A client writes a character or the transmit interrupt arrives. *)
Inductive ser_op := SerWrite (c : Z) | SerIsr.

Definition sq_step (s : list Z * D) (o : ser_op) : list Z * D :=
  match o with SerWrite c => sq_write s.1 s.2 c | SerIsr => sq_send s.1 s.2 end.

Fixpoint ser_run (ops : list ser_op) (dev : x86SerialDevice) (s : irqs) (d : D) :
    outcome (x86SerialDevice * irqs * D) :=
  match ops with
  | [] => Ok (dev, s, d)
  | SerWrite c :: ops => r ← x86_write c dev s d; let '(dev, s, d) := r.2 in ser_run ops dev s d
  | SerIsr :: ops => r ← x86_serial_isr dev d; ser_run ops r.1 s r.2
  end.

(** The buffer holds the queue [q] from the consumer's position on. *)
Record ser_rep (dev : x86SerialDevice) (q : list Z) : Prop := {
  sr_len : length (output_buff dev) = 1024%nat;
  sr_cons : 0 ≤ out_consumer_pos dev < 1024;
  sr_qlen : Z.of_nat (length q) ≤ 1023;
  sr_prod : out_producer_pos dev = (out_consumer_pos dev + Z.of_nat (length q)) mod 1024;
  sr_at (i : nat) c : q !! i = Some c →
    output_buff dev !! Z.to_nat ((out_consumer_pos dev + Z.of_nat i) mod 1024) = Some c
}.

Lemma BUFF_POS_mod pos : -1 ≤ pos → BUFF_POS pos = pos mod 1024.
Proof.
  intros Hp. unfold BUFF_POS, OUTPUT_BUFF_SIZE. destruct (Z.eqb_spec pos (-1)) as [->|]; [done|].
  apply Z.rem_mod_nonneg; lia.
Qed.

Lemma producer_full dev q : ser_rep dev q →
  (out_producer_pos dev =? BUFF_POS (out_consumer_pos dev - 1)) = negb (Z.of_nat (length q) <? OUTPUT_BUFF_SIZE - 1).
Proof.
  intros [Hl Hc Hq Hp _]. rewrite BUFF_POS_mod by lia. rewrite Hp. unfold OUTPUT_BUFF_SIZE.
  destruct (Z.ltb_spec (Z.of_nat (length q)) (1024 - 1)) as [Hf|Hf]; cbn [negb].
  - apply Z.eqb_neq. intros E. word_lia.
  - apply Z.eqb_eq. word_lia.
Qed.

Lemma producer_add_char_rep dev q c :
  ser_rep dev q → ∃ dev', producer_add_char dev c = Ok dev' ∧
    ser_rep dev' (if Z.of_nat (length q) <? OUTPUT_BUFF_SIZE - 1 then q ++ [c] else q).
Proof.
  intros R. unfold producer_add_char. rewrite (producer_full dev q R).
  destruct (Z.ltb_spec (Z.of_nat (length q)) (OUTPUT_BUFF_SIZE - 1)) as [Hf|Hf]; cbn [negb]; [|by exists dev].
  destruct R as [Hl Hc Hq Hp Ha]. unfold OUTPUT_BUFF_SIZE in Hf.
  assert (Hpr : 0 ≤ out_producer_pos dev < 1024) by (rewrite Hp; apply Z.mod_pos_bound; lia).
  unfold zupd. rewrite (proj2 (Z.ltb_ge _ _)) by lia. rewrite upd_Ok, bind_Ok by lia.
  eexists. split; [done|]. split; cbn [output_buff out_consumer_pos out_producer_pos].
  - by rewrite length_insert.
  - done.
  - rewrite length_app. cbn. lia.
  - rewrite length_app, BUFF_POS_mod, Hp, Zplus_mod_idemp_l by lia. f_equal. cbn. lia.
  - intros i x Hi. apply lookup_app_Some in Hi as [Hi|[Hge Hi]].
    + rewrite list_lookup_insert_ne; [by apply Ha|]. rewrite Hp. apply lookup_lt_Some in Hi.
      intros E. apply Z2Nat.inj in E; [|apply Z.mod_pos_bound; lia..]. word_lia.
    + apply list_lookup_singleton_Some in Hi as [Hi ->].
      replace i with (length q) by lia. rewrite <- Hp. apply list_lookup_insert_eq. lia.
Qed.

Lemma consumer_rep dev q (d : D) :
  ser_rep dev q → ∃ dev',
    consumer_write_next dev d = Ok (dev', match q with [] => d | c :: _ => outb COM1_PORT c d end) ∧
    ser_rep dev' (tail q).
Proof using.
  intros [Hl Hc Hq Hp Ha]. unfold consumer_write_next. rewrite Hp. destruct q as [|c q].
  - cbn [length] in *. rewrite Z.add_0_r, Z.mod_small, Z.eqb_refl by lia. exists dev.
    split; [done|]. split; [done|done|done| |done]. cbn [length tail]. by rewrite Hp.
  - rewrite (proj2 (Z.eqb_neq _ _)) by (cbn [length] in *; intros E; word_lia).
    unfold zidx. rewrite (proj2 (Z.ltb_ge _ _)) by lia.
    pose proof (Ha 0%nat c eq_refl) as H0. rewrite Z.add_0_r, Z.mod_small in H0 by lia.
    rewrite (proj2 (idx_Ok _ _ _) H0), bind_Ok. eexists. split; [done|].
    rewrite BUFF_POS_mod by lia. cbn [length tail] in *.
    split; cbn [output_buff out_consumer_pos out_producer_pos].
    + done.
    + apply Z.mod_pos_bound. lia.
    + lia.
    + rewrite Zplus_mod_idemp_l. f_equal. lia.
    + intros i x Hi. rewrite Zplus_mod_idemp_l. rewrite <- (Ha (S i) x Hi). do 3 f_equal. lia.
Qed.

(** The queue after [sq_send] is what [consumer_write_next] leaves. *)
Lemma send_rep dev q d :
  ser_rep dev q → ∃ dev', (let '(e, d) := is_transmit_empty d in
      if e then consumer_write_next dev d else Ok (dev, d)) = Ok (dev', (sq_send q d).2) ∧
    ser_rep dev' (sq_send q d).1.
Proof using.
  intros R. unfold sq_send. destruct (is_transmit_empty d) as [[|] d1]; [|by exists dev].
  destruct (consumer_rep dev q d1 R) as (dev' & E & R'). exists dev'. rewrite E. by destruct q.
Qed.

Lemma x86_write_rep c dev q s d n :
  ser_rep dev q → irq_at n s → Z.of_nat n < 4294967295 →
  ∃ dev' s', x86_write c dev s d = Ok (0, (dev', s', (sq_write q d c).2)) ∧
    ser_rep dev' (sq_write q d c).1 ∧ irq_at n s' ∧ handlers s' = handlers s ∧ irq_log s' = irq_log s.
Proof using.
  intros R Hi Hn. unfold x86_write, sq_write.
  destruct (producer_add_char_rep dev q c R) as (dev1 & E1 & R1). rewrite E1, bind_Ok.
  destruct (send_rep dev1 _ d R1) as (dev2 & E2 & R2).
  destruct (IRQ_disable_at n s Hi Hn) as (I1 & I1h & I1l).
  destruct (IRQ_enable_at (S n) _ I1) as (I2 & I2h & I2l); [lia|].
  exists dev2, (IRQ_enable (IRQ_disable s)).
  destruct (is_transmit_empty d) as [e d1]. rewrite E2, bind_Ok. cbn [fst snd].
  split; [done|]. split; [done|]. split; [done|]. split; congruence.
Qed.

(** C10: the serial driver is a queue.  For every device behind the ports, every
    sequence of character writes and transmit interrupts on a buffer that holds
    the queue [q] runs without fault, drives the ports exactly as a queue of at
    most 1023 characters does (a write to a full queue is dropped, a ready
    transmitter is given the oldest character), and restores the interrupt
    depth. *)
Theorem serial_refines_queue (ops : list ser_op) : ∀ (dev : x86SerialDevice) (q : list Z) (s : irqs) (d : D) (n : nat),
  ser_rep dev q → irq_at n s → Z.of_nat n < 4294967295 →
  ∃ dev' s', ser_run ops dev s d = Ok (dev', s', (fold_left sq_step ops (q, d)).2) ∧
    ser_rep dev' (fold_left sq_step ops (q, d)).1 ∧ irq_at n s'.
Proof using.
  induction ops as [|[c|] ops IH]; intros dev q s d n R Hi Hn; cbn [ser_run fold_left].
  - exists dev, s. done.
  - destruct (x86_write_rep c dev q s d n R Hi Hn) as (dev1 & s1 & E & R1 & I1 & _ & _). rewrite E, bind_Ok.
    cbn [fst snd sq_step]. destruct (IH dev1 _ s1 (sq_write q d c).2 n R1 I1 Hn) as (dev' & s' & E' & R' & I').
    exists dev', s'. rewrite E'. by destruct (sq_write q d c).
  - destruct (send_rep dev q d R) as (dev1 & E & R1). unfold x86_serial_isr. rewrite E, bind_Ok.
    cbn [fst snd sq_step]. destruct (IH dev1 _ s (sq_send q d).2 n R1 Hi Hn) as (dev' & s' & E' & R' & I').
    exists dev', s'. rewrite E'. by destruct (sq_send q d).
Qed.
End Ser.

(** The initial device: a zeroed buffer and an empty queue. *)
Definition gdev : x86SerialDevice := mkSer (replicate 1024 0) 0 0.

Lemma gdev_rep : ser_rep gdev [].
Proof.
  split; [apply length_replicate|done|done|done|]. intros i c Hi. by rewrite lookup_nil in Hi.
Qed.

(** Three characters while the transmitter is busy, then two interrupts. *)
Lemma serial_refines_queue_witness :
  ∃ dev' s', ser_run [SerWrite 97; SerWrite 98; SerWrite 99; SerIsr; SerIsr] gdev (mkIrqs [] 0 true [])
    (mkDev [0; 0; 0; 0x20; 0x20] []) = Ok (dev', s', mkDev [] [(COM1_PORT, 97); (COM1_PORT, 98)]) ∧
    ser_rep dev' [99].
Proof.
  destruct (serial_refines_queue [SerWrite 97; SerWrite 98; SerWrite 99; SerIsr; SerIsr] gdev []
    (mkIrqs [] 0 true []) (mkDev [0; 0; 0; 0x20; 0x20] []) 0) as (dev' & s' & E & R & _).
  - exact gdev_rep.
  - by split.
  - lia.
  - exists dev', s'. split; [exact E|exact R].
Defined.
