(* ===== verification/Printk.v ===== *)
(** * Formatted output (src/src/printk.c)

    [printk] and the number printing macros, written against an interface for
    the console, and the console itself: the text display together with the
    serial port. *)

From S2P Require Import Prelude Memory CString Machine Irq Vga Serial.

(** ** The console *)

(** What [printk] calls of a console: its memory and the two display routines. *)
Class ConsoleOps (C : Type) := {
  con_mem : C → mem;
  con_set_mem : C → mem → C;
  con_char : Z → C → outcome C;
  con_str : nat → Z → C → outcome C
}.

(** What [printk] relies on: a relation that says that the text [t] has been
    displayed.  The bytes [con_buf] are the ones that displaying writes.  A
    console need not be able to display carriage returns, nor 2^32 characters. *)
Class Console (C : Type) `{ConsoleOps C} := {
  con_buf : Z * Z;
  con_rep : C → list Z → Prop;
  con_mem_set c m : con_mem (con_set_mem c m) = m;
  con_set_ok c t m :
    con_rep c t → (∀ x, con_buf.1 ≤ x < con_buf.1 + con_buf.2 → rd8 m x = rd8 (con_mem c) x) →
    con_rep (con_set_mem c m) t;
  con_char_ok c t x :
    con_rep c t → 0 ≤ x < 256 → x ≠ 13 → Z.of_nat (length t) + 1 < 4294967296 →
    ∃ c', con_char x c = Ok c' ∧ con_rep c' (t ++ [x]) ∧ only_in con_buf.1 con_buf.2 (con_mem c) (con_mem c');
  con_str_ok fuel c t a s :
    con_rep c t → cstr (con_mem c) a s → 13 ∉ s → apart a (Z.of_nat (length s) + 1) con_buf.1 con_buf.2 →
    Z.of_nat (length t + length s) < 4294967296 → (length s < fuel)%nat →
    ∃ c', con_str fuel a c = Ok c' ∧ con_rep c' (t ++ s) ∧ only_in con_buf.1 con_buf.2 (con_mem c) (con_mem c')
}.

(** ** The code *)

Section Code.
Context {C : Type} `{Hops : ConsoleOps C}.

(** [buf] is where the local array of the number printing functions lies,
    [lit_0x] the address of the literal 0x, [sfuel] bounds the length of the
    strings that are displayed. *)
Context (buf lit_0x : Z) (sfuel : nat).

Definition dec_char (digit : Z) : Z := digit + 48.
Definition hex_char (bc digit : Z) : Z := if digit <? 10 then digit + 48 else digit - 10 + bc.

(** The loop of the macros: the digits of [d] are written downwards from [cur]. *)
Fixpoint disp_loop (k : nat) (base : Z) (digit : Z → Z) (d cur : Z) (m : mem) : outcome (Z * mem) :=
  match k with
  | O => Hang
  | S k =>
      if d =? 0 then Ok (cur, m)
      else disp_loop k base digit (d / base) (cur - 1) (wr8 m cur (digit (d mod base)))
  end.

(** [DISP_UNSIGNED_VAL_DEC] and [DISP_UNSIGNED_VAL_HEX]: the array has 64
    bytes, and the terminator goes to the byte after it. *)
Definition disp_unsigned (base : Z) (digit : Z → Z) (d : Z) (c : C) : outcome C :=
  let c := con_set_mem c (wr8 (con_mem c) (buf + 64) 0) in
  if d =? 0 then con_char 48 c
  else
    r ← disp_loop 65 base digit d (buf + 63) (con_mem c);
    con_str 65 (r.1 + 1) (con_set_mem c r.2).

Definition DISP_UNSIGNED_VAL_DEC (d : Z) (c : C) : outcome C := disp_unsigned 10 dec_char d c.
Definition DISP_UNSIGNED_VAL_HEX (bc d : Z) (c : C) : outcome C := disp_unsigned 16 (hex_char bc) d c.

(** [d *= -1] in a signed type of [w] bits: a [short] is negated as an [int]
    and cut back; the least [int] or [long] has no negation. *)
Definition negate (w d : Z) : outcome Z :=
  if w =? 16 then Ok (signed 16 (- d))
  else if - d <? 2 ^ (w - 1) then Ok (- d) else Fault.

Definition DISP_SIGNED_VAL_DEC (w d : Z) (c : C) : outcome C :=
  if d <? 0 then
    c ← con_char 45 c;
    d ← negate w d;
    DISP_UNSIGNED_VAL_DEC (d mod 2 ^ w) c
  else DISP_UNSIGNED_VAL_DEC (d mod 2 ^ w) c.

(** [HANDLE_FORMAT_SPECIFIER], for the type of [w] bits that the argument is
    passed to. *)
Definition handle_format_specifier (w arg specifier : Z) (c : C) : outcome C :=
  if specifier =? 117 then DISP_UNSIGNED_VAL_DEC (arg mod 2 ^ w) c
  else if specifier =? 100 then DISP_SIGNED_VAL_DEC w (signed w arg) c
  else if specifier =? 120 then DISP_UNSIGNED_VAL_HEX 97 (arg mod 2 ^ w) c
  else if specifier =? 88 then DISP_UNSIGNED_VAL_HEX 65 (arg mod 2 ^ w) c
  else Ok c.

(** The arguments are 64-bit slots; reading past the last one is undefined. *)
Definition va_arg (args : list Z) : outcome (Z * list Z) :=
  match args with [] => Fault | a :: args => Ok (a, args) end.

(** Lines 110-160: the conversion at [cur], which holds a '%'.  The result is
    the value of [cur] at the end of the switch. *)
Definition printk_conversion (cur : Z) (args : list Z) (c : C) : outcome (Z * list Z * C) :=
  let k := rd8 (con_mem c) (cur + 1) in
  let long w := (a ← va_arg args;
                 c ← handle_format_specifier w a.1 (rd8 (con_mem c) (cur + 2)) c;
                 Ok (cur + 1, a.2, c)) in
  if k =? 115 then a ← va_arg args; c ← con_str sfuel a.1 c; Ok (cur, a.2, c)
  else if k =? 99 then a ← va_arg args; c ← con_char (u8 a.1) c; Ok (cur, a.2, c)
  else if k =? 112 then
    a ← va_arg args; c ← con_str sfuel lit_0x c; c ← DISP_UNSIGNED_VAL_HEX 97 (u64 a.1) c; Ok (cur, a.2, c)
  else if k =? 108 then long 64
  else if k =? 104 then long 16
  else if k =? 113 then long 64
  else if (k =? 100) || (k =? 117) || (k =? 120) || (k =? 88) then
    a ← va_arg args; c ← handle_format_specifier 32 a.1 k c; Ok (cur, a.2, c)
  else if k =? 37 then c ← con_char 37 c; Ok (cur, args, c)
  else Ok (cur, args, c).

Fixpoint printk_loop (fuel : nat) (cur : Z) (args : list Z) (c : C) : outcome C :=
  match fuel with
  | O => Hang
  | S fuel =>
      let x := rd8 (con_mem c) cur in
      if x =? 0 then Ok c
      else if x =? 37 then
        r ← printk_conversion cur args c;
        let '(cur, args, c) := r in printk_loop fuel (cur + 2) args c
      else c ← con_char x c; printk_loop fuel (cur + 1) args c
  end.

Definition printk (fuel : nat) (fmt : Z) (args : list Z) (c : C) : outcome (Z * C) :=
  c ← printk_loop fuel fmt args c; Ok (0, c).
End Code.

(** ** Numerals *)

Fixpoint numeral_of (k : nat) (base : Z) (digit : Z → Z) (d : Z) : list Z :=
  match k with
  | O => []
  | S k => if d =? 0 then [] else numeral_of k base digit (d / base) ++ [digit (d mod base)]
  end.

Definition numeral (base : Z) (digit : Z → Z) (d : Z) : list Z :=
  if d =? 0 then [48] else numeral_of 64 base digit d.

(** The value of a numeral, and of a digit of either case. *)
Definition numeral_value (base : Z) (undigit : Z → Z) (s : list Z) : Z :=
  fold_left (fun acc x => base * acc + undigit x) s 0.

Definition undigit (x : Z) : Z :=
  if x <? 58 then x - 48 else if x <? 91 then x - 55 else x - 87.

Lemma numeral_value_app base u s x :
  numeral_value base u (s ++ [x]) = base * numeral_value base u s + u x.
Proof. unfold numeral_value. by rewrite fold_left_app. Qed.

Lemma numeral_of_value k base digit d :
  2 ≤ base → (∀ i, 0 ≤ i < base → undigit (digit i) = i) → 0 ≤ d < 2 ^ Z.of_nat k →
  numeral_value base undigit (numeral_of k base digit d) = d.
Proof.
  intros Hb Hu. revert d. induction k as [|k IH]; intros d Hd; cbn [numeral_of].
  { cbn in *. lia. }
  destruct (Z.eqb_spec d 0) as [->|Hn]; [done|].
  rewrite Nat2Z.inj_succ, Z.pow_succ_r in Hd by lia.
  rewrite numeral_value_app, IH, Hu.
  - symmetry. rewrite <- Z.div_mod by lia. done.
  - apply Z.mod_pos_bound. lia.
  - split; [apply Z.div_pos; lia|]. apply Z.div_lt_upper_bound; [lia|]. nia.
Qed.

Lemma numeral_of_length k base digit d : (length (numeral_of k base digit d) ≤ k)%nat.
Proof.
  revert d. induction k as [|k IH]; intros d; cbn [numeral_of]; [done|].
  destruct (d =? 0); [cbn; lia|]. rewrite length_app. cbn. specialize (IH (d / base)). lia.
Qed.

Lemma numeral_of_all k base digit d (P : Z → Prop) :
  0 < base → (∀ i, 0 ≤ i < base → P (digit i)) → ∀ x, x ∈ numeral_of k base digit d → P x.
Proof.
  intros Hb Hd. revert d. induction k as [|k IH]; intros d x Hx; cbn [numeral_of] in Hx; [by apply elem_of_nil in Hx|].
  destruct (d =? 0); [by apply elem_of_nil in Hx|].
  apply elem_of_app in Hx as [Hx| ->%list_elem_of_singleton]; [by eapply IH|]. apply Hd, Z.mod_pos_bound. lia.
Qed.

(** The loop stores exactly the numeral, ending just above [cur]. *)
Lemma disp_loop_ok base digit : 2 ≤ base → (∀ i, 0 ≤ i < base → 0 < digit i < 256) → ∀ k d cur m s,
  0 ≤ d < 2 ^ Z.of_nat k → cstr m (cur + 1) s →
  ∃ m', disp_loop (S k) base digit d cur m = Ok (cur - Z.of_nat (length (numeral_of k base digit d)), m') ∧
    cstr m' (cur - Z.of_nat (length (numeral_of k base digit d)) + 1) (numeral_of k base digit d ++ s) ∧
    only_in (cur - Z.of_nat (length (numeral_of k base digit d)) + 1) (Z.of_nat (length (numeral_of k base digit d))) m m'.
Proof.
  intros Hb Hdg. induction k as [|k IH]; intros d cur m s Hd Hs.
  - assert (d = 0) as -> by (cbn in Hd; lia). exists m. cbn [numeral_of length app].
    change (Z.of_nat 0) with 0. rewrite Z.sub_0_r. split; [done|]. split; [done|]. by intros ? _.
  - rewrite Nat2Z.inj_succ, Z.pow_succ_r in Hd by lia.
    cbn [numeral_of disp_loop]. destruct (Z.eqb_spec d 0) as [->|Hn].
    { exists m. cbn [length app]. change (Z.of_nat 0) with 0. rewrite Z.sub_0_r. split; [done|]. split; [done|]. by intros ? _. }
    pose proof (Z.mod_pos_bound d base ltac:(lia)) as Hmod. pose proof (Hdg _ Hmod) as Hdig.
    destruct (IH (d / base) (cur - 1) (wr8 m cur (digit (d mod base))) (digit (d mod base) :: s)) as (m' & E & Hc & Ho).
    { split; [apply Z.div_pos; lia|]. apply Z.div_lt_upper_bound; [lia|]. nia. }
    { cbn [cstr]. replace (cur - 1 + 1) with cur by lia. rewrite rd8_wr8_eq, u8_small by lia.
      split; [done|]. split; [lia|]. eapply cstr_ext; [|exact Hs]. intros b Hbb. by rewrite rd8_wr8_ne by lia. }
    cbn [disp_loop] in E. exists m'. rewrite length_app. cbn [length].
    set (l := numeral_of k base digit (d / base)) in *.
    replace (cur - Z.of_nat (length l + 1)) with (cur - 1 - Z.of_nat (length l)) by lia.
    split; [exact E|]. rewrite <- app_assoc. split; [exact Hc|].
    intros b Hbb. rewrite Ho by lia. apply rd8_wr8_ne. lia.
Qed.

(** ** The specification of [printk] *)

Definition signed_numeral (w d : Z) : option (list Z) :=
  if d <? 0 then
    if negb (w =? 16) && (d =? - 2 ^ (w - 1)) then None else Some (45 :: numeral 10 dec_char (- d))
  else Some (numeral 10 dec_char d).

(** What one number prints as. *)
Definition conv_spec (w arg specifier : Z) : option (list Z) :=
  if specifier =? 117 then Some (numeral 10 dec_char (arg mod 2 ^ w))
  else if specifier =? 100 then signed_numeral w (signed w arg)
  else if specifier =? 120 then Some (numeral 16 (hex_char 97) (arg mod 2 ^ w))
  else if specifier =? 88 then Some (numeral 16 (hex_char 65) (arg mod 2 ^ w))
  else Some [].

(** What a format prints as, when [strs] gives the strings in memory: None when
    the format ends inside a conversion, an argument is missing or is not a
    string where one is expected, or the least [int] or [long] is printed as a
    signed number. *)
Fixpoint fmt_spec (strs : Z → option (list Z)) (f : list Z) (args : list Z) : option (list Z) :=
  match f with
  | [] => Some []
  | x :: f =>
      if negb (x =? 37) then o ← fmt_spec strs f args; Some (x :: o)
      else match f with
      | [] => None
      | k :: f =>
          if k =? 115 then
            match args with
            | [] => None
            | a :: args => s ← strs a; o ← fmt_spec strs f args; Some (s ++ o)
            end
          else if k =? 99 then
            match args with [] => None | a :: args => o ← fmt_spec strs f args; Some (u8 a :: o) end
          else if k =? 112 then
            match args with
            | [] => None
            | a :: args => o ← fmt_spec strs f args; Some ([48; 120] ++ numeral 16 (hex_char 97) (u64 a) ++ o)
            end
          else if (k =? 108) || (k =? 104) || (k =? 113) then
            match f, args with
            | sp :: f, a :: args =>
                n ← conv_spec (if k =? 104 then 16 else 64) a sp;
                o ← fmt_spec strs f args; Some (n ++ o)
            | _, _ => None
            end
          else if (k =? 100) || (k =? 117) || (k =? 120) || (k =? 88) then
            match args with
            | [] => None
            | a :: args => n ← conv_spec 32 a k; o ← fmt_spec strs f args; Some (n ++ o)
            end
          else if k =? 37 then o ← fmt_spec strs f args; Some (37 :: o)
          else fmt_spec strs f args
      end
  end.

(** ** Correctness *)

Lemma not_in_app {A} (x : A) l k : x ∉ l ++ k → x ∉ l ∧ x ∉ k.
Proof. rewrite elem_of_app. tauto. Qed.

Section Correct.
Context {C : Type} `{Hops : ConsoleOps C} `{Hcon : !Console C}.
Context (buf lit_0x : Z) (sfuel : nat).
Hypothesis Hbuf : apart buf 65 con_buf.1 con_buf.2.

(** [m'] differs from [m] only in what is displayed and in the local array. *)
Definition framed (m m' : mem) : Prop :=
  ∀ x, ¬ (con_buf.1 ≤ x < con_buf.1 + con_buf.2) → ¬ (buf ≤ x < buf + 65) → rd8 m' x = rd8 m x.

Lemma framed_trans m1 m2 m3 : framed m1 m2 → framed m2 m3 → framed m1 m3.
Proof using. intros H1 H2 x Hx Hy. by rewrite H2, H1. Qed.

Lemma only_framed m m' : only_in con_buf.1 con_buf.2 m m' → framed m m'.
Proof using. intros H x Hx _. by apply H. Qed.

(** Where a string must lie to survive printing. *)
Definition clear_of (a n : Z) : Prop := apart a n con_buf.1 con_buf.2 ∧ apart a n buf 65.

Lemma cstr_framed m m' a s :
  framed m m' → clear_of a (Z.of_nat (length s) + 1) → cstr m a s → cstr m' a s.
Proof using.
  clear Hbuf. intros Hf [H1 H2]. apply cstr_ext. intros b Hb. symmetry. unfold apart in *. apply Hf; lia.
Qed.

Lemma dec_char_ok i : 0 ≤ i < 10 → 0 < dec_char i < 256 ∧ dec_char i ≠ 13.
Proof using. unfold dec_char. lia. Qed.

Lemma hex_char_ok bc i : bc = 65 ∨ bc = 97 → 0 ≤ i < 16 → 0 < hex_char bc i < 256 ∧ hex_char bc i ≠ 13.
Proof using. intros Hbc Hi. unfold hex_char. destruct (Z.ltb_spec i 10); lia. Qed.

Lemma disp_unsigned_ok base digit d c t :
  2 ≤ base → (∀ i, 0 ≤ i < base → 0 < digit i < 256 ∧ digit i ≠ 13) → 0 ≤ d < 2 ^ 64 → con_rep c t →
  Z.of_nat (length t + length (numeral base digit d)) < 4294967296 →
  ∃ c', disp_unsigned buf base digit d c = Ok c' ∧ con_rep c' (t ++ numeral base digit d) ∧
    framed (con_mem c) (con_mem c') ∧ rd8 (con_mem c') (buf + 64) = 0.
Proof using Hbuf.
  intros Hb Hdg Hd R Hlen. unfold disp_unsigned, numeral in *. set (m0 := wr8 (con_mem c) (buf + 64) 0).
  assert (Hm0 : ∀ x, x ≠ buf + 64 → rd8 m0 x = rd8 (con_mem c) x) by (intros x Hx; apply rd8_wr8_ne; lia).
  assert (R0 : con_rep (con_set_mem c m0) t).
  { apply con_set_ok; [done|]. intros x Hx. apply Hm0. unfold apart in Hbuf. lia. }
  rewrite con_mem_set. destruct (Z.eqb_spec d 0) as [->|Hn].
  - destruct (con_char_ok (con_set_mem c m0) t 48) as (c' & E & R' & O'); [done|lia|done|cbn in Hlen; lia|].
    rewrite con_mem_set in O'. exists c'. split; [done|]. split; [done|]. split.
    + intros x Hx Hy. rewrite O' by done. apply Hm0. lia.
    + rewrite O' by (unfold apart in Hbuf; lia). apply rd8_wr8_eq.
  - destruct (disp_loop_ok base digit Hb) with (k := 64%nat) (d := d) (cur := buf + 63) (m := m0) (s := []:list Z)
      as (m1 & E & Hc & Ho); [intros i Hi; by apply Hdg|exact Hd| |].
    { cbn [cstr]. replace (buf + 63 + 1) with (buf + 64) by lia. apply rd8_wr8_eq. }
    rewrite E, bind_Ok. cbn [fst snd]. rewrite app_nil_r in Hc.
    set (l := numeral_of 64 base digit d) in *.
    assert (Hl : (length l ≤ 64)%nat) by apply numeral_of_length.
    destruct (con_str_ok 65 (con_set_mem (con_set_mem c m0) m1) t (buf + 63 - Z.of_nat (length l) + 1) l)
      as (c' & E' & R' & O').
    + apply con_set_ok; [done|]. rewrite con_mem_set. intros x Hx. apply Ho. unfold apart in Hbuf. lia.
    + by rewrite con_mem_set.
    + intros Hx. eapply (numeral_of_all 64 base digit d (fun x => x ≠ 13)); [lia| |exact Hx|done].
      intros i Hi. by apply Hdg.
    + unfold apart in *. lia.
    + exact Hlen.
    + lia.
    + exists c'. rewrite con_mem_set in O'. split; [done|]. split; [done|]. split.
      * intros x Hx Hy. rewrite O', Ho by lia. apply Hm0. lia.
      * rewrite O' by (unfold apart in Hbuf; lia). rewrite Ho by lia. apply rd8_wr8_eq.
Qed.

(** The widths of the integer types that are printed. *)
Definition width (w : Z) : Prop := w = 16 ∨ w = 32 ∨ w = 64.

Lemma width_pow w : width w → 0 < 2 ^ (w - 1) ∧ 2 ^ w = 2 * 2 ^ (w - 1) ∧ 2 ^ w ≤ 2 ^ 64.
Proof using. intros [->|[->| ->]]; vm_compute; split_and!; congruence. Qed.

Lemma signed_bounds w x : width w → - 2 ^ (w - 1) ≤ signed w x < 2 ^ (w - 1).
Proof using.
  intros Hw. destruct (width_pow w Hw) as (H1 & H2 & _). unfold signed.
  pose proof (Z.mod_pos_bound x (2 ^ w) ltac:(lia)). destruct (Z.ltb_spec (x mod 2 ^ w) (2 ^ (w - 1))); lia.
Qed.

Lemma negate_ok w d :
  width w → - 2 ^ (w - 1) ≤ d < 0 → w = 16 ∨ d ≠ - 2 ^ (w - 1) →
  ∃ e, negate w d = Ok e ∧ e mod 2 ^ w = - d.
Proof using.
  intros Hw Hd Hm. destruct (width_pow w Hw) as (H1 & H2 & _). unfold negate.
  destruct (Z.eqb_spec w 16) as [->|Hn].
  - eexists. split; [done|]. unfold signed. change (2 ^ 16) with 65536 in *. change (2 ^ (16 - 1)) with 32768 in *.
    rewrite (Z.mod_small (- d)) by lia. destruct (Z.ltb_spec (- d) 32768); [by rewrite Z.mod_small by lia|].
    replace (- d - 65536) with (- d + -1 * 65536) by lia. rewrite Z.mod_add by lia. by rewrite Z.mod_small by lia.
  - rewrite (proj2 (Z.ltb_lt _ _)) by lia. eexists. split; [done|]. by rewrite Z.mod_small by lia.
Qed.

Lemma handle_format_ok w arg sp c t n :
  width w → conv_spec w arg sp = Some n → con_rep c t → Z.of_nat (length t + length n) < 4294967296 →
  ∃ c', handle_format_specifier buf w arg sp c = Ok c' ∧ con_rep c' (t ++ n) ∧ framed (con_mem c) (con_mem c').
Proof using Hbuf.
  intros Hw Hs R Hl. destruct (width_pow w Hw) as (W1 & W2 & W3).
  assert (Hu : 0 ≤ arg mod 2 ^ w < 2 ^ 64) by (pose proof (Z.mod_pos_bound arg (2 ^ w)); lia).
  assert (Hdec : ∀ d c t, 0 ≤ d < 2 ^ 64 → con_rep c t → Z.of_nat (length t + length (numeral 10 dec_char d)) < 4294967296 →
    ∃ c', DISP_UNSIGNED_VAL_DEC buf d c = Ok c' ∧ con_rep c' (t ++ numeral 10 dec_char d) ∧ framed (con_mem c) (con_mem c')).
  { intros d c1 t1 Hd R1 Hl1. destruct (disp_unsigned_ok 10 dec_char d c1 t1) as (c' & E & R' & F & _);
      [lia|apply dec_char_ok|done|done|done|]. by exists c'. }
  assert (Hhex : ∀ bc, bc = 65 ∨ bc = 97 → n = numeral 16 (hex_char bc) (arg mod 2 ^ w) →
    ∃ c', DISP_UNSIGNED_VAL_HEX buf bc (arg mod 2 ^ w) c = Ok c' ∧ con_rep c' (t ++ n) ∧ framed (con_mem c) (con_mem c')).
  { intros bc Hbc ->. destruct (disp_unsigned_ok 16 (hex_char bc) (arg mod 2 ^ w) c t) as (c' & E & R' & F & _);
      [lia|intros i Hi; by apply hex_char_ok|done|done|done|]. by exists c'. }
  unfold conv_spec in Hs. unfold handle_format_specifier.
  destruct (sp =? 117). { injection Hs as <-. by apply Hdec. }
  destruct (sp =? 100).
  { unfold signed_numeral in Hs. unfold DISP_SIGNED_VAL_DEC. pose proof (signed_bounds w arg Hw) as Hb.
    destruct (Z.ltb_spec (signed w arg) 0) as [Hneg|Hpos].
    - destruct (negb (w =? 16) && (signed w arg =? - 2 ^ (w - 1))) eqn:Em; [done|]. injection Hs as <-.
      cbn [length] in Hl.
      destruct (con_char_ok c t 45) as (c1 & E1 & R1 & O1); [done|lia|done|lia|]. rewrite E1, bind_Ok.
      destruct (negate_ok w (signed w arg)) as (e & Ee & He); [done|lia| |].
      { apply andb_false_iff in Em as [Em|Em]; [left|right]; bool_cases; [done|lia]. }
      rewrite Ee, bind_Ok, He. destruct (Hdec (- signed w arg) c1 (t ++ [45])) as (c' & E' & R' & F'); [lia|done|..].
      { rewrite length_app. cbn [length]. lia. }
      exists c'. split; [done|]. rewrite <- app_assoc in R'. split; [done|].
      eapply framed_trans; [by apply only_framed|done].
    - injection Hs as <-. rewrite Z.mod_small by lia. apply Hdec; [lia|done|done]. }
  destruct (sp =? 120). { injection Hs as <-. apply Hhex; [by right|done]. }
  destruct (sp =? 88). { injection Hs as <-. apply Hhex; [by left|done]. }
  injection Hs as <-. exists c. rewrite app_nil_r. split; [done|]. split; [done|]. by intros x _ _.
Qed.

(** The strings that the arguments and the literal refer to. *)
Context (strs : Z → option (list Z)).

Record strings_ok (m : mem) : Prop := {
  so_str a s : strs a = Some s → cstr m a s ∧ clear_of a (Z.of_nat (length s) + 1) ∧ (length s < sfuel)%nat;
  so_lit : strs lit_0x = Some [48; 120]
}.

Lemma strings_framed m m' : framed m m' → strings_ok m → strings_ok m'.
Proof using.
  clear Hbuf. intros Hf [H1 H2]. split; [|done]. intros a s Hs. destruct (H1 a s Hs) as (Hc & Hcl & Hl).
  split; [by eapply cstr_framed|done].
Qed.

Lemma show_string c t a s :
  strings_ok (con_mem c) → strs a = Some s → con_rep c t → 13 ∉ s → Z.of_nat (length t + length s) < 4294967296 →
  ∃ c', con_str sfuel a c = Ok c' ∧ con_rep c' (t ++ s) ∧ framed (con_mem c) (con_mem c').
Proof using.
  clear Hbuf. intros [H1 _] Ha R H13 Hl. destruct (H1 a s Ha) as (Hc & [Hcl _] & Hf).
  destruct (con_str_ok sfuel c t a s R Hc H13 Hcl Hl Hf) as (c' & E & R' & O').
  exists c'. split; [done|]. split; [done|]. by apply only_framed.
Qed.

Lemma show_char c t x :
  con_rep c t → 0 ≤ x < 256 → x ≠ 13 → Z.of_nat (length t) + 1 < 4294967296 →
  ∃ c', con_char x c = Ok c' ∧ con_rep c' (t ++ [x]) ∧ framed (con_mem c) (con_mem c').
Proof using.
  clear Hbuf. intros R Hx H13 Hl. destruct (con_char_ok c t x R Hx H13 Hl) as (c' & E & R' & O').
  exists c'. split; [done|]. split; [done|]. by apply only_framed.
Qed.

(** The result of a conversion: it prints [n], and what is left of the format,
    at [cur' + 2], is [f']. *)
Definition converted (cur : Z) (f : list Z) (args : list Z) (c : C) (t out : list Z) (cur' : Z) (args' : list Z) (c' : C) : Prop :=
  ∃ n o f', out = n ++ o ∧ fmt_spec strs f' args' = Some o ∧
    (∀ m, cstr m (cur + 2) f → cstr m (cur' + 2) f') ∧ cur ≤ cur' ∧
    cur' + Z.of_nat (length f') = cur + Z.of_nat (length f) ∧
    con_rep c' (t ++ n) ∧ framed (con_mem c) (con_mem c').

(** The conversions with a length modifier take one more character. *)
Lemma long_conversion_ok w cur f args c t out :
  width w → cstr (con_mem c) (cur + 1 + 1) f →
  match f, args with
  | sp :: f, a :: args => n ← conv_spec w a sp; o ← fmt_spec strs f args; Some (n ++ o)
  | _, _ => None
  end = Some out →
  con_rep c t → Z.of_nat (length t + length out) < 4294967296 →
  ∃ cur' args' c', (a ← va_arg args;
      c1 ← handle_format_specifier buf w a.1 (rd8 (con_mem c) (cur + 2)) c;
      Ok (cur + 1, a.2, c1)) = Ok (cur', args', c') ∧ converted cur f args c t out cur' args' c'.
Proof using Hbuf.
  intros Hw Hrest Hf R Hlen. destruct f as [|sp f]; [done|]. destruct args as [|a args]; [done|].
  apply bind_Some in Hf as (n & Hn & (o & Hfs & [= <-])%bind_Some).
  destruct Hrest as (Hsp & _ & Hrest). replace (cur + 1 + 1) with (cur + 2) in Hsp by lia.
  rewrite length_app in Hlen. destruct (handle_format_ok w a sp c t n Hw Hn R) as (c' & E & R' & F'); [lia|].
  cbn [va_arg]. rewrite bind_Ok. cbn [fst snd]. rewrite Hsp, E, bind_Ok. eexists _, _, _. split; [done|].
  exists n, o, f. split_and!; try done; [|lia|cbn [length]; lia].
  intros m (_ & _ & Hm). replace (cur + 1 + 2) with (cur + 2 + 1) by lia. done.
Qed.

(** ... the others do not. *)
Lemma converted_rest cur f args c t n o args' c' :
  fmt_spec strs f args' = Some o → con_rep c' (t ++ n) → framed (con_mem c) (con_mem c') →
  converted cur f args c t (n ++ o) cur args' c'.
Proof using. intros Hfs Rc Fr. exists n, o, f. split_and!; done. Qed.

Lemma printk_conversion_ok cur k f args c t out :
  strings_ok (con_mem c) → cstr (con_mem c) cur (37 :: k :: f) → fmt_spec strs (37 :: k :: f) args = Some out →
  con_rep c t → 13 ∉ out → Z.of_nat (length t + length out) < 4294967296 →
  ∃ cur' args' c', printk_conversion buf lit_0x sfuel cur args c = Ok (cur', args', c') ∧
    converted cur f args c t out cur' args' c'.
Proof using Hbuf.
  intros Hso Hs Hf R H13 Hlen. destruct Hs as (_ & _ & Hk & _ & Hrest).
  cbn [fmt_spec] in Hf. change (37 =? 37) with true in Hf. cbn [negb] in Hf.
  unfold printk_conversion. rewrite Hk.
  destruct (k =? 115).
  { destruct args as [|a args]; [done|]. apply bind_Some in Hf as (s & Ha & (o & Hfs & [= <-])%bind_Some).
    apply not_in_app in H13 as [H13 _]. rewrite length_app in Hlen.
    destruct (show_string c t a s Hso Ha R H13) as (c' & E & R' & F'); [lia|].
    cbn [va_arg]. rewrite bind_Ok. cbn [fst snd]. rewrite E, bind_Ok. eexists _, _, _. split; [done|]. by apply converted_rest. }
  destruct (k =? 99).
  { destruct args as [|a args]; [done|]. apply bind_Some in Hf as (o & Hfs & [= <-]).
    apply not_elem_of_cons in H13 as [H13 _]. cbn [length] in Hlen.
    destruct (show_char c t (u8 a) R (u8_range a)) as (c' & E & R' & F'); [done|lia|].
    cbn [va_arg]. rewrite bind_Ok. cbn [fst snd]. rewrite E, bind_Ok. eexists _, _, _. split; [done|].
    by apply (converted_rest _ _ _ _ _ [u8 a]). }
  destruct (k =? 112).
  { destruct args as [|a args]; [done|]. apply bind_Some in Hf as (o & Hfs & [= <-]).
    cbn [length app] in Hlen. rewrite length_app in Hlen. cbn [va_arg]. rewrite bind_Ok. cbn [fst snd].
    destruct (show_string c t lit_0x [48; 120] Hso (so_lit _ Hso) R) as (c1 & E1 & R1 & F1).
    { rewrite !not_elem_of_cons. split_and!; [done|done|apply not_elem_of_nil]. } { cbn [length] in *. lia. }
    rewrite E1, bind_Ok. unfold DISP_UNSIGNED_VAL_HEX.
    destruct (disp_unsigned_ok 16 (hex_char 97) (u64 a) c1 (t ++ [48; 120])) as (c' & E' & R' & F' & _);
      [lia|intros i Hi; apply hex_char_ok; [by right|done]|pose proof (u64_range a); lia|done|
       rewrite length_app; cbn [length] in *; lia|].
    rewrite E', bind_Ok. eexists _, _, _. split; [done|].
    apply (converted_rest _ _ _ _ _ ([48; 120] ++ numeral 16 (hex_char 97) (u64 a))); [done| |by eapply framed_trans].
    by rewrite app_assoc. }
  destruct (Z.eqb_spec k 108) as [->|_]. { apply long_conversion_ok; [by right; right|done..]. }
  destruct (Z.eqb_spec k 104) as [->|_]. { apply long_conversion_ok; [by left|done..]. }
  destruct (Z.eqb_spec k 113) as [->|_]. { apply long_conversion_ok; [by right; right|done..]. }
  cbn [orb] in Hf.
  destruct ((k =? 100) || (k =? 117) || (k =? 120) || (k =? 88)).
  { destruct args as [|a args]; [done|]. apply bind_Some in Hf as (n & Hn & (o & Hfs & [= <-])%bind_Some).
    rewrite length_app in Hlen. destruct (handle_format_ok 32 a k c t n) as (c' & E & R' & F'); [by right; left|done|done|lia|].
    cbn [va_arg]. rewrite bind_Ok. cbn [fst snd]. rewrite E, bind_Ok. eexists _, _, _. split; [done|]. by apply converted_rest. }
  destruct (k =? 37).
  { apply bind_Some in Hf as (o & Hfs & [= <-]). cbn [length] in Hlen.
    destruct (show_char c t 37 R) as (c' & E & R' & F'); [lia|done|lia|].
    rewrite E, bind_Ok. eexists _, _, _. split; [done|]. by apply (converted_rest _ _ _ _ _ [37]). }
  eexists _, _, _. split; [done|]. apply (converted_rest _ _ _ _ _ []); [done|by rewrite app_nil_r|by intros ? _ _].
Qed.

Lemma printk_loop_ok : ∀ fuel f cur args c t out,
  (length f < fuel)%nat → strings_ok (con_mem c) → cstr (con_mem c) cur f →
  clear_of cur (Z.of_nat (length f) + 1) → fmt_spec strs f args = Some out →
  con_rep c t → 13 ∉ out → Z.of_nat (length t + length out) < 4294967296 →
  ∃ c', printk_loop buf lit_0x sfuel fuel cur args c = Ok c' ∧ con_rep c' (t ++ out) ∧
    framed (con_mem c) (con_mem c').
Proof using Hbuf.
  induction fuel as [|fuel IH]; intros f cur args c t out Hfu Hso Hs Hcl Hf R H13 Hlen; [lia|].
  cbn [printk_loop]. destruct f as [|x f].
  { cbn in Hs, Hf. injection Hf as <-. rewrite Hs. exists c. rewrite app_nil_r. split; [done|]. split; [done|]. by intros ? _ _. }
  destruct (id Hs) as (Hx & Hx0 & Hrest). rewrite Hx, (proj2 (Z.eqb_neq x 0) Hx0).
  destruct (Z.eqb_spec x 37) as [->|Hn].
  - destruct f as [|k f]; [done|].
    destruct (printk_conversion_ok cur k f args c t out Hso Hs Hf R H13 Hlen) as (cur' & args' & c1 & E & Hcv).
    rewrite E, bind_Ok. destruct Hcv as (n & o & f' & -> & Hfs & Hcs & Hle & Heq & R1 & F1).
    apply not_in_app in H13 as [_ H13]. rewrite length_app in Hlen. cbn [length] in Hfu, Hcl.
    destruct (IH f' (cur' + 2) args' c1 (t ++ n) o) as (c' & E' & R' & F').
    + lia.
    + by eapply strings_framed.
    + destruct Hrest as (_ & _ & Hrest). replace (cur + 1 + 1) with (cur + 2) in Hrest by lia.
      apply (cstr_framed (con_mem c)); [done| |by apply Hcs]. destruct Hcl as [C1 C2]. unfold clear_of, apart in *. lia.
    + destruct Hcl as [C1 C2]. unfold clear_of, apart in *. lia.
    + done.
    + done.
    + done.
    + rewrite length_app. lia.
    + exists c'. split; [done|]. rewrite <- app_assoc in R'. split; [done|]. by eapply framed_trans.
  - cbn [fmt_spec] in Hf. rewrite (proj2 (Z.eqb_neq x 37) Hn) in Hf. cbn [negb] in Hf.
    apply bind_Some in Hf as (o & Hfs & [= <-]). apply not_elem_of_cons in H13 as [H13 H13o].
    cbn [length] in Hlen, Hfu, Hcl. pose proof (rd8_range (con_mem c) cur) as Hr. rewrite Hx in Hr.
    destruct (show_char c t x R Hr) as (c1 & E1 & R1 & F1); [done|lia|]. rewrite E1, bind_Ok.
    destruct (IH f (cur + 1) args c1 (t ++ [x]) o) as (c' & E' & R' & F').
    + lia.
    + by eapply strings_framed.
    + apply (cstr_framed (con_mem c)); [done| |done]. destruct Hcl as [C1 C2]. unfold clear_of, apart in *. lia.
    + destruct Hcl as [C1 C2]. unfold clear_of, apart in *. lia.
    + done.
    + done.
    + done.
    + rewrite length_app. cbn [length]. lia.
    + exists c'. split; [done|]. rewrite <- app_assoc in R'. split; [done|]. by eapply framed_trans.
Qed.

(** C8: [printk] prints what its format says.  On any console, for a format and
    string arguments that lie outside the display memory and the local array,
    [printk] terminates, returns 0 and extends the displayed text by exactly the
    text the specification [fmt_spec] gives, and writes no other memory. *)
Theorem printk_formats (fuel : nat) (fmt : Z) (f args : list Z) (c : C) (t out : list Z) :
  (length f < fuel)%nat → strings_ok (con_mem c) → cstr (con_mem c) fmt f →
  clear_of fmt (Z.of_nat (length f) + 1) → fmt_spec strs f args = Some out →
  con_rep c t → 13 ∉ out → Z.of_nat (length t + length out) < 4294967296 →
  ∃ c', printk buf lit_0x sfuel fuel fmt args c = Ok (0, c') ∧ con_rep c' (t ++ out) ∧
    framed (con_mem c) (con_mem c').
Proof using Hbuf.
  intros Hfu Hso Hs Hcl Hf R H13 Hlen. unfold printk.
  destruct (printk_loop_ok fuel f fmt args c t out) as (c' & E & R' & F'); [done..|].
  rewrite E, bind_Ok. eauto.
Qed.

(** C38: printed numbers can be read back, and printing overruns its array.  For
    every 64-bit [d], decimal and hexadecimal printing terminate and display a
    numeral whose value is [d]; on the way the byte after the 64-byte array
    [buf] is always overwritten with zero. *)
Theorem disp_unsigned_roundtrip (bc d : Z) (c : C) (t : list Z) :
  bc = 65 ∨ bc = 97 → 0 ≤ d < 2 ^ 64 → con_rep c t → Z.of_nat (length t) + 64 < 4294967296 →
  ∃ c10 c16 s10 s16,
    DISP_UNSIGNED_VAL_DEC buf d c = Ok c10 ∧ con_rep c10 (t ++ s10) ∧ numeral_value 10 undigit s10 = d ∧
    DISP_UNSIGNED_VAL_HEX buf bc d c = Ok c16 ∧ con_rep c16 (t ++ s16) ∧ numeral_value 16 undigit s16 = d ∧
    framed (con_mem c) (con_mem c10) ∧ rd8 (con_mem c10) (buf + 64) = 0 ∧
    framed (con_mem c) (con_mem c16) ∧ rd8 (con_mem c16) (buf + 64) = 0.
Proof using Hbuf.
  intros Hbc Hd R Hl.
  assert (Hnl : ∀ base digit, Z.of_nat (length t + length (numeral base digit d)) < 4294967296).
  { intros base digit. pose proof (numeral_of_length 64 base digit d). unfold numeral. destruct (d =? 0); cbn [length] in *; lia. }
  assert (Hval : ∀ base digit, 2 ≤ base → (∀ i, 0 ≤ i < base → undigit (digit i) = i) →
    numeral_value base undigit (numeral base digit d) = d).
  { intros base digit Hb Hu. unfold numeral. destruct (Z.eqb_spec d 0) as [->|]; [cbn; lia|]. by apply numeral_of_value. }
  destruct (disp_unsigned_ok 10 dec_char d c t) as (c10 & E10 & R10 & F10 & B10); [lia|apply dec_char_ok|done|done|apply Hnl|].
  destruct (disp_unsigned_ok 16 (hex_char bc) d c t) as (c16 & E16 & R16 & F16 & B16);
    [lia|intros i Hi; by apply hex_char_ok|done|done|apply Hnl|].
  exists c10, c16, (numeral 10 dec_char d), (numeral 16 (hex_char bc) d). split_and!; try done; apply Hval; try lia; intros i Hi.
  - unfold undigit, dec_char. rewrite (proj2 (Z.ltb_lt _ _)) by lia. lia.
  - unfold undigit, hex_char. repeat case_match; bool_cases; lia.
Qed.
End Correct.

(** ** The kernel's console: the text display and the serial port *)

Section Display.
Context {D : Type} `{PortIO D}.

(** [k_ser] is [main_serial_dev]; the memory and interrupt state are those of
    the display. *)
Record console := mkCon { k_vga : vga; k_ser : option x86SerialDevice; k_dev : D }.

Definition display_char (x : Z) (c : console) : outcome console :=
  let v := VGA_display_char x (k_vga c) in
  match k_ser c with
  | None => Ok (mkCon v None (k_dev c))
  | Some dev =>
      r ← SER_write_char x86_write x dev (v_irqs v) (k_dev c);
      let '(dev, s, d) := r.2 in
      Ok (mkCon (mkVga (disp_x v) (disp_y v) (v_mem v) s) (Some dev) d)
  end.

Definition display_str (fuel : nat) (a : Z) (c : console) : outcome console :=
  v ← VGA_display_str fuel a (k_vga c);
  match k_ser c with
  | None => Ok (mkCon v None (k_dev c))
  | Some dev =>
      r ← SER_write_str fuel x86_write (v_mem v) a dev (v_irqs v) (k_dev c);
      let '(dev, s, d) := r.2 in
      Ok (mkCon (mkVga (disp_x v) (disp_y v) (v_mem v) s) (Some dev) d)
  end.

Definition console_set_mem (c : console) (m : mem) : console :=
  mkCon (mkVga (disp_x (k_vga c)) (disp_y (k_vga c)) m (v_irqs (k_vga c))) (k_ser c) (k_dev c).

#[global] Instance display_ops : ConsoleOps console := {|
  con_mem c := v_mem (k_vga c);
  con_set_mem := console_set_mem;
  con_char := display_char;
  con_str := display_str
|}.

Context (d0 : D) (n : nat) (hs : list (Z * Z)).
Hypothesis Hn : Z.of_nat n < 4294967295.

Definition screen_of (t : list Z) : list Z * Z := fold_left scr_put t (replicate (Z.to_nat 2000) 0, 0).
Definition line_of (t : list Z) : list Z * D := fold_left (fun s x => sq_write s.1 s.2 x) t ([], d0).

(** The text [t] has been displayed since the display was cleared and the
    serial port, in state [d0], was set up. *)
Record shown (c : console) (t : list Z) : Prop := {
  sh_vga : vga_rep (k_vga c) (screen_of t).1 (screen_of t).2;
  sh_x : disp_x (k_vga c) ≤ Z.of_nat (length t);
  sh_irq : irq_at n (v_irqs (k_vga c));
  sh_handlers : handlers (v_irqs (k_vga c)) = hs;
  sh_ser dev : k_ser c = Some dev → ser_rep dev (line_of t).1 ∧ k_dev c = (line_of t).2
}.

Lemma screen_of_app t s : screen_of (t ++ s) = fold_left scr_put s (screen_of t).
Proof using. apply fold_left_app. Qed.

Lemma line_of_snoc t x : line_of (t ++ [x]) = sq_write (line_of t).1 (line_of t).2 x.
Proof using. unfold line_of. by rewrite fold_left_app. Qed.

Lemma SER_write_str_ok s : ∀ fuel m a dev t i,
  cstr m a s → (length s < fuel)%nat → ser_rep dev (line_of t).1 → irq_at n i →
  ∃ dev' i', SER_write_str fuel x86_write m a dev i (line_of t).2 = Ok (0, (dev', i', (line_of (t ++ s)).2)) ∧
    ser_rep dev' (line_of (t ++ s)).1 ∧ irq_at n i' ∧ handlers i' = handlers i.
Proof using Hn.
  induction s as [|x s IH]; intros [|fuel] m a dev t i Hs Hf R Hi; cbn [length] in Hf; try lia; cbn [SER_write_str cstr] in *.
  - rewrite Hs. change (truth 0) with false. cbn iota. exists dev, i. by rewrite app_nil_r.
  - destruct Hs as (Hx & Hx0 & Hs). rewrite Hx. unfold truth. rewrite (proj2 (Z.eqb_neq x 0) Hx0). cbn [negb].
    destruct (x86_write_rep x dev _ i (line_of t).2 n R Hi Hn) as (dev1 & i1 & E & R1 & I1 & H1 & _).
    rewrite E, bind_Ok. cbn [fst snd]. change (0 <? 0) with false. cbn iota.
    rewrite <- line_of_snoc in R1 |- *.
    destruct (IH fuel m (a + 1) dev1 (t ++ [x]) i1 Hs ltac:(lia) R1 I1) as (dev' & i' & E' & R' & I' & H').
    rewrite <- app_assoc in E', R'. exists dev', i'. rewrite H', H1. done.
Qed.

Lemma vga_rep_irqs v cells p i :
  vga_rep v cells p → vga_rep (mkVga (disp_x v) (disp_y v) (v_mem v) i) cells p.
Proof using. by intros []; split. Qed.

Lemma display_char_ok c t x :
  shown c t → 0 ≤ x < 256 → x ≠ 13 → Z.of_nat (length t) + 1 < 4294967296 →
  ∃ c', display_char x c = Ok c' ∧ shown c' (t ++ [x]) ∧
    only_in X86_VGA_ADDR 4000 (v_mem (k_vga c)) (v_mem (k_vga c')).
Proof using Hn.
  intros [Rv Rx Ri Rh Rs] Hx H13 Hl. unfold display_char.
  destruct (VGA_display_char_rep x (k_vga c) _ _ n Rv Hx H13) as (R1 & X1 & I1 & M1); [lia|done|done|].
  pose proof (VGA_display_char_handlers x (k_vga c)) as Hh. rewrite Rh in Hh.
  set (v := VGA_display_char x (k_vga c)) in *. clearbody v. destruct (screen_of t) as [cells p] eqn:Es.
  assert (Hlen : disp_x v ≤ Z.of_nat (length (t ++ [x]))) by (rewrite length_app; cbn; lia).
  assert (Es' : screen_of (t ++ [x]) = scr_put (cells, p) x) by (by rewrite screen_of_app, Es).
  destruct (k_ser c) as [dev|] eqn:Ed.
  - destruct (Rs dev eq_refl) as [S1 S2]. rewrite S2. unfold SER_write_char.
    destruct (x86_write_rep x dev _ (v_irqs v) (line_of t).2 n S1 I1 Hn) as (dev1 & i1 & E & R2 & I2 & H2 & _).
    rewrite E, bind_Ok. cbn [snd]. eexists. split; [done|]. split; [|exact M1].
    split; cbn [k_vga k_ser k_dev v_irqs disp_x]; [rewrite Es'; by apply vga_rep_irqs|done|done|by rewrite H2|].
    intros dev' [= <-]. rewrite line_of_snoc. done.
  - eexists. split; [done|]. split; [|exact M1]. split; cbn [k_vga k_ser]; [by rewrite Es'|done|done|done|done].
Qed.

Lemma display_str_ok fuel c t a s :
  shown c t → cstr (v_mem (k_vga c)) a s → 13 ∉ s → apart a (Z.of_nat (length s) + 1) X86_VGA_ADDR 4000 →
  Z.of_nat (length t + length s) < 4294967296 → (length s < fuel)%nat →
  ∃ c', display_str fuel a c = Ok c' ∧ shown c' (t ++ s) ∧
    only_in X86_VGA_ADDR 4000 (v_mem (k_vga c)) (v_mem (k_vga c')).
Proof using Hn.
  intros [Rv Rx Ri Rh Rs] Hs H13 Ha Hl Hf. unfold display_str.
  destruct (VGA_display_str_ok s (k_vga c) _ _ n a fuel Rv Ri Hn Hs H13 ltac:(lia) Ha Hf)
    as (v & E & R1 & I1 & M1 & X1). rewrite E, bind_Ok. pose proof (VGA_display_str_handlers _ _ _ _ E) as Hh. rewrite Rh in Hh.
  replace ((screen_of t).1, (screen_of t).2) with (screen_of t) in R1 by (by destruct (screen_of t)).
  rewrite <- screen_of_app in R1.
  assert (Hlen : disp_x v ≤ Z.of_nat (length (t ++ s))) by (rewrite length_app; lia).
  destruct (k_ser c) as [dev|] eqn:Ed.
  - destruct (Rs dev eq_refl) as [S1 S2]. rewrite S2.
    destruct (SER_write_str_ok s fuel (v_mem v) a dev t (v_irqs v)) as (dev' & i' & E' & R' & I' & H'); [|done|done|done|].
    { eapply cstr_ext; [|exact Hs]. intros b Hb. symmetry. apply M1. unfold apart in Ha. lia. }
    rewrite E', bind_Ok. cbn [snd]. eexists. split; [done|]. split; [|exact M1].
    split; cbn [k_vga k_ser k_dev v_irqs disp_x]; [by apply vga_rep_irqs|done|done|by rewrite H'|]. by intros ? [= <-].
  - eexists. split; [done|]. split; [|exact M1]. by split.
Qed.

Lemma console_set_ok c t m :
  shown c t → (∀ x, X86_VGA_ADDR ≤ x < X86_VGA_ADDR + 4000 → rd8 m x = rd8 (v_mem (k_vga c)) x) →
  shown (console_set_mem c m) t.
Proof using.
  intros [[V1 V2 V3 V4 V5] Rx Ri Rh Rs] Hm. split; [|done..]. split; [done| |done..].
  intros i Hi. rewrite V2 by done. f_equal. cbn [console_set_mem k_vga v_mem].
  apply rd_le_ext. intros b Hb. symmetry. apply Hm. cbn in Hb. lia.
Qed.

(** Display and serial port together implement the console interface. *)
Definition display_console : Console console := {|
  con_buf := (X86_VGA_ADDR, 4000);
  con_rep := shown;
  con_mem_set c m := eq_refl;
  con_set_ok := console_set_ok;
  con_char_ok := display_char_ok;
  con_str_ok := display_str_ok
|}.
End Display.

(** A cleared screen and an idle serial port; the format %d is at 0x1000. *)
Definition demo_text : mem := wr8 (wr8 (wr8 (wr8 ∅ 0x1000 37) 0x1001 100) 0x2000 48) 0x2001 120.
Definition demo_console : console (D := scripted) :=
  mkCon (VGA_clear (mkVga 0 0 demo_text (mkIrqs [] 0 true []))) (Some gdev) (mkDev [0x20; 0x20] []).

Lemma demo_n : Z.of_nat 0 < 4294967295.
Proof. lia. Qed.

#[local] Instance demo_console_ok : Console (console (D := scripted)) :=
  display_console (mkDev [0x20; 0x20] []) 0 [] demo_n.

Lemma demo_shown : con_rep demo_console [].
Proof.
  split; [apply VGA_clear_rep|done|by split|done|]. intros dev [= <-]. split; [apply gdev_rep|done].
Qed.

Definition demo_strs (a : Z) : option (list Z) := if a =? 0x2000 then Some [48; 120] else None.

Lemma demo_rd8 x : x < X86_VGA_ADDR → rd8 (con_mem demo_console) x = rd8 demo_text x.
Proof.
  intros Hx. cbn [con_mem display_ops k_vga demo_console VGA_clear v_mem].
  rewrite memset_rd8 by (vm_compute; congruence). by rewrite decide_False by lia.
Qed.

Lemma printk_formats_witness :
  ∃ c', printk (C := console (D := scripted)) 0x3000 0x2000 5 4 0x1000 [42] demo_console = Ok (0, c') ∧
    con_rep c' [52; 50].
Proof.
  destruct (printk_formats (C := console (D := scripted)) 0x3000 0x2000 5) with
    (strs := demo_strs) (fuel := 4%nat) (fmt := 0x1000) (f := [37; 100]) (args := [42]) (c := demo_console)
    (t := [] : list Z) (out := [52; 50]) as (c' & E & R & _).
  - left. vm_compute. congruence.
  - cbn. lia.
  - split; [|done]. intros a s Hs. unfold demo_strs in Hs. destruct (Z.eqb_spec a 0x2000) as [->|]; [|done].
    injection Hs as <-. split; [|split; [split; left; vm_compute; congruence|cbn; lia]].
    cbn [cstr]. rewrite !demo_rd8 by (vm_compute; congruence). by vm_compute.
  - cbn [cstr]. rewrite !demo_rd8 by (vm_compute; congruence). by vm_compute.
  - split; left; vm_compute; congruence.
  - by vm_compute.
  - exact demo_shown.
  - apply (bool_decide_unpack _). vm_compute. exact I.
  - cbn. lia.
  - exists c'. split; [exact E|exact R].
Defined.

Lemma disp_unsigned_roundtrip_witness :
  ∃ c10 s10, DISP_UNSIGNED_VAL_DEC (C := console (D := scripted)) 0x3000 42 demo_console = Ok c10 ∧
    con_rep c10 s10 ∧ numeral_value 10 undigit s10 = 42.
Proof.
  destruct (disp_unsigned_roundtrip (C := console (D := scripted)) 0x3000) with
    (bc := 97) (d := 42) (c := demo_console) (t := [] : list Z)
    as (c10 & c16 & s10 & s16 & E & R & V & _).
  - left. vm_compute. congruence.
  - by right.
  - lia.
  - exact demo_shown.
  - cbn. lia.
  - exists c10, s10. split; [exact E|]. split; [exact R|exact V].
Defined.
