(* ===== verification/Boot.v ===== *)
(** * Boot information (src/src/boot.c, elf.c)

    Parsing of the multiboot2 tags into the [struct PhysicalMMap] that the MMU
    is initialised from.  Both the tags and the map are bytes in memory. *)

From S2P Require Import Prelude Memory Machine Sort Segments.
From Stdlib Require Import Sorted.

(** ** Layout *)

Definition MULTIBOOT2_BOOTLOADER_MAGIC : Z := 0x36d76289.
Definition MULTIBOOT_TAG_TYPE_END : Z := 0.
Definition MULTIBOOT_TAG_TYPE_MMAP : Z := 6.
Definition MULTIBOOT_TAG_TYPE_ELF_SECTIONS : Z := 9.
Definition MULTIBOOT_MEMORY_AVAILABLE : Z := 1.
Definition MAX_MMAP_ENTRIES : Z := 32.
Definition MAX_KERNEL_SECTIONS : Z := 32.

(** [struct PhysicalMMap]. *)
Definition off_num_mmap : Z := 8.
Definition off_ram_sects : Z := 16.
Definition off_num_kernel_sects : Z := 528.
Definition off_kernel_sects : Z := 536.
Definition sizeof_PhysicalMMap : Z := 1304.

(** The map as the MMU component sees it. *)
Definition boot_map (m : mem) (dest : Z) : PhysicalMMap := {|
  total_ram := rd64 m dest;
  num_mmap := Z.to_nat (rd32 m (dest + off_num_mmap));
  ram_sects := elems rd_me m (dest + off_ram_sects) sizeof_MMapEntry 32;
  num_kernel_sects := Z.to_nat (rd32 m (dest + off_num_kernel_sects));
  kernel_sects := elems rd_ks m (dest + off_kernel_sects) sizeof_KernelSection 32
|}.

(** [struct MultibootMMapEntry]: 24 bytes, the type at 16. *)
Definition sizeof_MultibootMMapEntry : Z := 24.

(** [struct ELFSectionHeader]: 64 bytes. *)
Definition sizeof_ELFSectionHeader : Z := 64.
Definition eh_name (m : mem) (h : Z) : Z := rd32 m h.
Definition eh_type (m : mem) (h : Z) : Z := rd32 m (h + 4).
Definition eh_addr (m : mem) (h : Z) : Z := rd64 m (h + 16).
Definition eh_size (m : mem) (h : Z) : Z := rd64 m (h + 32).

(** ** The code *)

(** Lines 63-75 of boot.c, with [k] entries left; -1 when the map is full. *)
Fixpoint mmap_loop (k : nat) (curr dest : Z) (m : mem) (log : klogs) : outcome (Z * (mem * klogs)) :=
  match k with
  | O => Ok (0, (m, log))
  | S k =>
      if negb (rd32 m (curr + 16) =? MULTIBOOT_MEMORY_AVAILABLE) then
        mmap_loop k (curr + sizeof_MultibootMMapEntry) dest m log
      else
        let n := rd32 m (dest + off_num_mmap) in
        if n =? MAX_MMAP_ENTRIES then
          Ok (-1, (m, klog KLOG_LEVEL_EMERG "max mmap entries exceeded in multiboot info" log))
        else
          let m := wr64 m (dest + off_ram_sects + sizeof_MMapEntry * n) (rd64 m curr) in
          let m := wr64 m (dest + off_ram_sects + sizeof_MMapEntry * n + 8) (rd64 m (curr + 8)) in
          let m := wr32 m (dest + off_num_mmap) (u32 (n + 1)) in
          mmap_loop k (curr + sizeof_MultibootMMapEntry) dest m log
  end.

Definition parse_mmap (fuel : nat) (mmap dest : Z) (m : mem) (log : klogs) : outcome (Z * (mem * klogs)) :=
  if rd32 m (mmap + 8) =? 0 then Fault
  else
    let entries := i32 (rd32 m (mmap + 4) / rd32 m (mmap + 8)) in
    let m := wr32 m (dest + off_num_mmap) 0 in
    r ← mmap_loop (Z.to_nat entries) (mmap + 16) dest m log;
    if r.1 <? 0 then Ok r
    else
      let n := rd32 r.2.1 (dest + off_num_mmap) in
      m ← sort_mmap_entry_array fuel r.2.1 (dest + off_ram_sects) n;
      let last := u32 (n - 1) in
      if MAX_MMAP_ENTRIES <=? last then Fault
      else
        let e := rd_me m (dest + off_ram_sects + sizeof_MMapEntry * last) in
        Ok (0, (wr64 m dest (u64 (me_base e + me_length e)), r.2.2)).

(** Lines 34-41 of elf.c, with [k] headers left. *)
Fixpoint elf_loop (k : nat) (h str_table mmap : Z) (m : mem) : mem :=
  match k with
  | O => m
  | S k =>
      if eh_type m h =? 0 then elf_loop k (h + sizeof_ELFSectionHeader) str_table mmap m
      else
        let n := rd32 m (mmap + off_num_kernel_sects) in
        let a := mmap + off_kernel_sects + sizeof_KernelSection * n in
        let m := wr64 m a (eh_addr m h) in
        let m := wr64 m (a + 8) (eh_size m h) in
        let m := wr64 m (a + 16) (u64 (str_table + eh_name m h)) in
        let m := wr32 m (mmap + off_num_kernel_sects) (u32 (n + 1)) in
        elf_loop k (h + sizeof_ELFSectionHeader) str_table mmap m
  end.

Definition ELF_parse_section_headers (fuel : nat) (mmap start num_headers str_table_index : Z)
    (m : mem) (log : klogs) : outcome (Z * (mem * klogs)) :=
  if MAX_KERNEL_SECTIONS <? num_headers then
    Ok (-1, (m, klog KLOG_LEVEL_EMERG "max kernel sections exceeded in elf file" log))
  else
    let str_table := eh_addr m (start + sizeof_ELFSectionHeader * str_table_index) in
    let m := wr32 m (mmap + off_num_kernel_sects) 0 in
    let m := elf_loop (Z.to_nat num_headers) start str_table mmap m in
    m ← sort_kernel_section_array fuel m (mmap + off_kernel_sects) (rd32 m (mmap + off_num_kernel_sects));
    Ok (0, (m, log)).

Definition parse_elf (fuel : nat) (elf dest : Z) (m : mem) (log : klogs) : outcome (Z * (mem * klogs)) :=
  ELF_parse_section_headers fuel dest (elf + 20) (rd32 m (elf + 8)) (rd32 m (elf + 16)) m log.

(** [((tag->size + 7) & ~7)] in a [uint32_t]. *)
Definition tag_step (size : Z) : Z := Z.land (u32 (size + 7)) 0xFFFFFFF8.

(** Lines 98-114. *)
Fixpoint tag_loop (fuel : nat) (tag dest : Z) (m : mem) (log : klogs) : outcome (Z * (mem * klogs)) :=
  match fuel with
  | O => Hang
  | S fuel' =>
      let type := rd32 m tag in
      if type =? MULTIBOOT_TAG_TYPE_END then Ok (0, (m, log))
      else
        r ← (if type =? MULTIBOOT_TAG_TYPE_MMAP then parse_mmap fuel tag dest m log
             else if type =? MULTIBOOT_TAG_TYPE_ELF_SECTIONS then parse_elf fuel tag dest m log
             else Ok (0, (m, log)));
        if r.1 <? 0 then Ok (-1, r.2)
        else tag_loop fuel' (tag + tag_step (rd32 r.2.1 (tag + 4))) dest r.2.1 r.2.2
  end.

Definition BOOT_parse_multiboot (fuel : nat) (dest mb_magic mb_addr : Z) (m : mem) (log : klogs) :
    outcome (Z * (mem * klogs)) :=
  if negb (mb_magic =? MULTIBOOT2_BOOTLOADER_MAGIC) then
    Ok (-1, (m, klog KLOG_LEVEL_EMERG "OS not booted by multiboot compliant bootloader" log))
  else tag_loop fuel (u32 (mb_addr + 8)) dest m log.

(** ** The specification *)

(** The available entries among the [k] raw entries at [curr]. *)
Fixpoint avail (m : mem) (k : nat) (curr : Z) : list MMapEntry :=
  match k with
  | O => []
  | S k =>
      (if rd32 m (curr + 16) =? MULTIBOOT_MEMORY_AVAILABLE then [rd_me m curr] else []) ++
      avail m k (curr + sizeof_MultibootMMapEntry)
  end.

(** The sections in use among the [k] headers at [h]. *)
Fixpoint used_sections (m : mem) (k : nat) (h str_table : Z) : list KernelSection :=
  match k with
  | O => []
  | S k =>
      (if eh_type m h =? 0 then []
       else [{| ks_base := eh_addr m h; ks_length := eh_size m h;
                ks_name := u64 (str_table + eh_name m h) |}]) ++
      used_sections m k (h + sizeof_ELFSectionHeader) str_table
  end.

(** ** Arrays built by appending *)

Lemma elems_snoc {A} (dec : mem → Z → A) m arr el n :
  elems dec m arr el (S n) = elems dec m arr el n ++ [dec m (arr + el * Z.of_nat n)].
Proof. unfold elems. by rewrite seq_S, fmap_app. Qed.

Lemma elems_ext {A} (dec : mem → Z → A) m1 m2 arr el n :
  0 < el → (∀ a, (∀ b, a ≤ b < a + el → rd8 m1 b = rd8 m2 b) → dec m1 a = dec m2 a) →
  (∀ b, arr ≤ b < arr + el * Z.of_nat n → rd8 m1 b = rd8 m2 b) →
  elems dec m1 arr el n = elems dec m2 arr el n.
Proof.
  intros Hel Hloc Hb. apply list_fmap_ext. intros i x Hx. apply lookup_seq in Hx as [-> Hi].
  apply Hloc. intros b Hbb. apply Hb. nia.
Qed.

Lemma rd_me_local m1 m2 a :
  (∀ b, a ≤ b < a + 16 → rd8 m1 b = rd8 m2 b) → rd_me m1 a = rd_me m2 a.
Proof. intros H. unfold rd_me, rd64. f_equal; apply rd_le_ext; intros; apply H; lia. Qed.

Lemma rd32_range m a : 0 ≤ rd32 m a < 4294967296.
Proof. exact (rd_le_range 4 m a). Qed.

Lemma rd32_wr32_eq m a v : rd32 (wr32 m a v) a = u32 v.
Proof. exact (rd_le_wr_le 4 m a v). Qed.

Section Parse.
Context (dest : Z).

(** The tags are read where the map is not written. *)
Lemma rd_only n a m m' : only_in dest 1304 m m' → apart a (Z.of_nat n) dest 1304 → rd_le n m' a = rd_le n m a.
Proof. apply rd_le_only_in. Qed.

Lemma rd_me_only a m m' : only_in dest 1304 m m' → apart a 16 dest 1304 → rd_me m' a = rd_me m a.
Proof. intros Ho Ha. apply rd_me_local. intros b Hb. apply Ho. unfold apart in Ha. lia. Qed.

(** One available entry is appended. *)
Definition append_me (m : mem) (n : Z) (e : MMapEntry) : mem :=
  wr32 (wr64 (wr64 m (dest + 16 + 16 * n) (me_base e)) (dest + 16 + 16 * n + 8) (me_length e)) (dest + 8) (u32 (n + 1)).

Lemma append_me_ok m (acc : list MMapEntry) e :
  (length acc < 32)%nat → u64 (me_base e) = me_base e → u64 (me_length e) = me_length e →
  elems rd_me m (dest + 16) 16 (length acc) = acc →
  let m' := append_me m (Z.of_nat (length acc)) e in
  rd32 m' (dest + 8) = Z.of_nat (length (acc ++ [e])) ∧
  elems rd_me m' (dest + 16) 16 (length (acc ++ [e])) = acc ++ [e] ∧ only_in (dest + 8) 520 m m'.
Proof.
  intros Hn H1 H2 He m'. unfold m', append_me. rewrite length_app. cbn [length].
  set (n := Z.of_nat (length acc)) in *. split; [|split].
  - rewrite rd32_wr32_eq. rewrite !u32_small by (rewrite ?u32_small; lia). lia.
  - replace (length acc + 1)%nat with (S (length acc)) by lia. rewrite elems_snoc. f_equal.
    + rewrite <- He at 2. apply elems_ext; [lia|apply rd_me_local|]. fold n. intros b Hb.
      unfold wr32, wr64. by rewrite !rd8_wr_le_out by (cbn; lia).
    + f_equal. unfold rd_me. fold n. unfold rd64, wr32, wr64.
      rewrite !(rd_le_wr_le_apart 8 4) by (unfold apart; cbn; lia).
      rewrite (rd_le_wr_le_apart 8 8) by (unfold apart; cbn; lia).
      rewrite !rd_le_wr_le. change (256 ^ Z.of_nat 8) with 18446744073709551616.
      fold (u64 (me_base e)). fold (u64 (me_length e)). rewrite H1, H2. by destruct e.
  - intros b Hb. unfold wr32, wr64. by rewrite !rd8_wr_le_out by (cbn; lia).
Qed.

Lemma mmap_loop_ok m0 log : ∀ k curr m acc,
  only_in dest 1304 m0 m → apart curr (24 * Z.of_nat k) dest 1304 →
  rd32 m (dest + 8) = Z.of_nat (length acc) → elems rd_me m (dest + 16) 16 (length acc) = acc →
  (length (acc ++ avail m0 k curr) ≤ 32)%nat →
  ∃ m', mmap_loop k curr dest m log = Ok (0, (m', log)) ∧ only_in (dest + 8) 520 m m' ∧
    rd32 m' (dest + 8) = Z.of_nat (length (acc ++ avail m0 k curr)) ∧
    elems rd_me m' (dest + 16) 16 (length (acc ++ avail m0 k curr)) = acc ++ avail m0 k curr.
Proof.
  induction k as [|k IH]; intros curr m acc Ho Ha Hn He Hl; cbn [mmap_loop avail] in *.
  { exists m. rewrite app_nil_r in *. split; [done|]. split; [by intros ? _|]. by split. }
  unfold rd32 at 1. rewrite (rd_only 4 (curr + 16) m0 m Ho) by (unfold apart in *; cbn; lia).
  fold (rd32 m0 (curr + 16)). unfold sizeof_MultibootMMapEntry in *.
  assert (Ha' : apart (curr + 24) (24 * Z.of_nat k) dest 1304) by (unfold apart in *; lia).
  destruct (rd32 m0 (curr + 16) =? MULTIBOOT_MEMORY_AVAILABLE); cbn [negb app] in *; [|by apply IH].
  unfold off_num_mmap, off_ram_sects, sizeof_MMapEntry. rewrite Hn.
  rewrite length_app in Hl. cbn [length] in Hl.
  rewrite (proj2 (Z.eqb_neq _ MAX_MMAP_ENTRIES)) by (unfold MAX_MMAP_ENTRIES; lia).
  assert (Em : rd_me m curr = rd_me m0 curr) by (apply rd_me_only; [done|unfold apart in *; lia]).
  assert (Ew : rd64 (wr64 m (dest + 16 + 16 * Z.of_nat (length acc)) (rd64 m curr)) (curr + 8) = rd64 m (curr + 8)).
  { apply rd64_wr64_apart. unfold apart in *. lia. }
  rewrite Ew. change (rd64 m curr) with (me_base (rd_me m curr)). change (rd64 m (curr + 8)) with (me_length (rd_me m curr)).
  fold (append_me m (Z.of_nat (length acc)) (rd_me m curr)).
  destruct (append_me_ok m acc (rd_me m curr)) as (A1 & A2 & A3); [lia|apply u64_rd64..|done|].
  destruct (IH (curr + 24) (append_me m (Z.of_nat (length acc)) (rd_me m curr)) (acc ++ [rd_me m curr]))
    as (m' & E & O' & N' & E').
  - eapply only_in_trans; [exact Ho|]. eapply only_in_weaken; [exact A3|lia|lia].
  - done.
  - done.
  - done.
  - rewrite !length_app. cbn [length]. lia.
  - rewrite Em in *. rewrite <- !app_assoc in N', E'. exists m'. split; [done|]. split; [by eapply only_in_trans|]. by split.
Qed.

(** A usable memory-map tag: 24-byte entries, whose available ones are in
    order of address, at least one and at most 32. *)
Record mmap_tag_ok (m : mem) (tag : Z) (k : nat) : Prop := {
  mt_size : rd32 m (tag + 4) = 16 + 24 * Z.of_nat k;
  mt_esize : rd32 m (tag + 8) = 24;
  mt_small : Z.of_nat k < 2147483648;
  mt_apart : apart tag (16 + 24 * Z.of_nat k) dest 1304;
  mt_len : (1 ≤ length (avail m k (tag + 16)) ≤ 32)%nat;
  mt_sorted : StronglySorted (key_le me_base) (avail m k (tag + 16))
}.

(** The map at [dest] holds the entries [l]. *)
Definition holds_ram (m : mem) (l : list MMapEntry) : Prop :=
  num_mmap (boot_map m dest) = length l ∧ take (length l) (ram_sects (boot_map m dest)) = l ∧
  (∀ e, last l = Some e → total_ram (boot_map m dest) = u64 (me_base e + me_length e)).

Lemma take_elems {A} (dec : mem → Z → A) m arr el n k :
  (n ≤ k)%nat → take n (elems dec m arr el k) = elems dec m arr el n.
Proof. intros Hn. unfold elems. rewrite <- fmap_take, take_seq. do 2 f_equal. lia. Qed.

Lemma sorted_lookup {A} (key : A → Z) (l : list A) i j x y :
  StronglySorted (key_le key) l → (i < j)%nat → l !! i = Some x → l !! j = Some y → key x ≤ key y.
Proof.
  intros Hs. revert i j. induction Hs as [|z l Hs IH Hz]; intros i j Hij Hx Hy; [by rewrite lookup_nil in Hx|].
  destruct j as [|j]; [lia|]. cbn in Hy. destruct i as [|i]; cbn in Hx.
  - injection Hx as ->. rewrite Forall_forall in Hz. apply Hz, list_elem_of_lookup. eauto.
  - eapply (IH i j); [lia|done|done].
Qed.

Lemma sort_sorted_mmap fuel m l :
  (length l ≤ fuel)%nat → elems rd_me m (dest + 16) 16 (length l) = l → StronglySorted (key_le me_base) l →
  sort_mmap_entry_array fuel m (dest + 16) (Z.of_nat (length l)) = Ok m.
Proof.
  intros Hf He Hs. refine (sort_sorted sizeof_MMapEntry rd_me me_base mmap_entry_cmp mmap_entry_swp (dest + 16) (length l) fuel m Hf _).
  intros a b Hab. eapply (sorted_lookup me_base l a b); [done|lia|..].
  - rewrite <- He at 1. apply (elems_lookup sizeof_MMapEntry rd_me). lia.
  - rewrite <- He at 1. apply (elems_lookup sizeof_MMapEntry rd_me). lia.
Qed.

Lemma mmap_entries k : 0 ≤ k < 2147483648 → i32 ((16 + 24 * k) / 24) = k.
Proof.
  intros Hk. replace ((16 + 24 * k) / 24) with k by (Z.to_euclidean_division_equations; lia).
  unfold i32, signed. change (2 ^ 32) with 4294967296. change (2 ^ (32 - 1)) with 2147483648.
  rewrite Z.mod_small by lia. by rewrite (proj2 (Z.ltb_lt _ _)) by lia.
Qed.

Lemma holds_ram_ext m m' l :
  (length l ≤ 32)%nat → only_in (dest + 528) 776 m m' → holds_ram m l → holds_ram m' l.
Proof.
  intros Hl Ho (H1 & H2 & H3). unfold holds_ram, boot_map in *. cbn [num_mmap ram_sects total_ram] in *.
  unfold off_num_mmap, off_ram_sects, rd32, rd64 in *. split; [|split].
  - rewrite <- H1. f_equal. eapply (rd_le_only_in 4); [exact Ho|unfold apart; cbn; lia].
  - rewrite <- H2 at 2. f_equal. apply elems_ext; [done|apply rd_me_local|]. intros b Hb.
    apply Ho. unfold sizeof_MMapEntry in Hb. lia.
  - intros e He. rewrite <- (H3 e He). eapply (rd_le_only_in 8); [exact Ho|unfold apart; cbn; lia].
Qed.

Lemma parse_mmap_ok fuel tag k m0 m log :
  mmap_tag_ok m0 tag k → only_in dest 1304 m0 m → (32 ≤ fuel)%nat →
  ∃ m', parse_mmap fuel tag dest m log = Ok (0, (m', log)) ∧ holds_ram m' (avail m0 k (tag + 16)) ∧ only_in dest 528 m m'.
Proof.
  intros [T1 T2 T3 T4 T5 T6] Ho Hf. unfold parse_mmap.
  assert (T1' : rd32 m (tag + 4) = 16 + 24 * Z.of_nat k).
  { rewrite <- T1. apply (rd_only 4); [done|unfold apart in *; cbn; lia]. }
  assert (T2' : rd32 m (tag + 8) = 24).
  { rewrite <- T2. apply (rd_only 4); [done|unfold apart in *; cbn; lia]. }
  rewrite T1', T2'. change (24 =? 0) with false. cbn iota.
  rewrite mmap_entries by lia. rewrite Nat2Z.id. unfold off_num_mmap, off_ram_sects.
  set (m1 := wr32 m (dest + 8) 0). set (l := avail m0 k (tag + 16)) in *.
  assert (O1 : only_in (dest + 8) 4 m m1) by apply (wr_le_only_in 4).
  destruct (mmap_loop_ok m0 log k (tag + 16) m1 []) as (m2 & E2 & O2 & N2 & L2).
  { eapply only_in_trans; [exact Ho|]. eapply only_in_weaken; [exact O1|lia|lia]. }
  { unfold apart in *. lia. } { apply rd32_wr32_eq. } { done. } { cbn [app]. fold l. lia. }
  fold l in N2, L2. cbn [app] in N2, L2. rewrite E2, bind_Ok. cbn [fst snd]. change (0 <? 0) with false. cbn iota.
  rewrite N2. rewrite (sort_sorted_mmap fuel m2 l) by (done || lia). rewrite bind_Ok.
  rewrite u32_small by lia. rewrite (proj2 (Z.leb_gt _ _)) by (unfold MAX_MMAP_ENTRIES; lia).
  eexists. split; [done|]. set (t := u64 _).
  assert (O3 : only_in dest 8 m2 (wr64 m2 dest t)) by apply (wr_le_only_in 8).
  split.
  - unfold holds_ram, boot_map. cbn [num_mmap ram_sects total_ram]. unfold off_num_mmap, off_ram_sects, rd32.
    split; [|split].
    + rewrite (rd_le_only_in 4 _ _ _ _ (dest + 8) O3) by (unfold apart; cbn; lia).
      fold (rd32 m2 (dest + 8)). rewrite N2. lia.
    + rewrite take_elems by lia. rewrite <- L2 at 2. apply elems_ext; [done|apply rd_me_local|].
      intros b Hb. apply O3. lia.
    + intros e He. rewrite rd64_wr64_eq. unfold t.
      assert (Hx : rd_me m2 (dest + 16 + sizeof_MMapEntry * (Z.of_nat (length l) - 1)) = e).
      { pose proof (elems_lookup 16 rd_me (dest + 16) (length l) m2 (pred (length l)) ltac:(lia)) as Hx.
        rewrite L2 in Hx. rewrite last_lookup, Hx in He. injection He as <-. unfold sizeof_MMapEntry. do 2 f_equal. lia. }
      rewrite Hx. unfold u64. by rewrite Zmod_mod.
  - eapply only_in_trans; [eapply only_in_weaken; [exact O1|lia|lia]|].
    eapply only_in_trans; [eapply only_in_weaken; [exact O2|lia|lia]|]. eapply only_in_weaken; [exact O3|lia|lia].
Qed.

(** One section is appended. *)
Definition append_ks (m : mem) (n : Z) (e : KernelSection) : mem :=
  wr32 (wr_ks m (dest + 536 + 24 * n) e) (dest + 528) (u32 (n + 1)).

Lemma append_ks_ok m (acc : list KernelSection) e :
  (length acc < 32)%nat → ks_wf e → elems rd_ks m (dest + 536) 24 (length acc) = acc →
  let m' := append_ks m (Z.of_nat (length acc)) e in
  rd32 m' (dest + 528) = Z.of_nat (length (acc ++ [e])) ∧
  elems rd_ks m' (dest + 536) 24 (length (acc ++ [e])) = acc ++ [e] ∧ only_in (dest + 528) 776 m m'.
Proof.
  intros Hn Hw He m'. unfold m', append_ks. rewrite length_app. cbn [length].
  set (n := Z.of_nat (length acc)) in *. split; [|split].
  - rewrite rd32_wr32_eq. rewrite !u32_small by (rewrite ?u32_small; lia). lia.
  - replace (length acc + 1)%nat with (S (length acc)) by lia. rewrite elems_snoc. f_equal.
    + rewrite <- He at 2. apply elems_ext; [lia|apply rd_ks_local|]. fold n. intros b Hb.
      unfold wr32. rewrite rd8_wr_le_out by (cbn; lia). apply wr_ks_out. lia.
    + f_equal. fold n. transitivity (rd_ks (wr_ks m (dest + 536 + 24 * n) e) (dest + 536 + 24 * n)); [|by apply rd_wr_ks].
      apply rd_ks_local. intros b Hb. unfold wr32. by rewrite rd8_wr_le_out by (cbn; lia).
  - intros b Hb. unfold wr32. rewrite rd8_wr_le_out by (cbn; lia). apply wr_ks_out. lia.
Qed.

Lemma elf_loop_ok m0 str_table : ∀ k h m acc,
  only_in dest 1304 m0 m → apart h (64 * Z.of_nat k) dest 1304 →
  rd32 m (dest + 528) = Z.of_nat (length acc) → elems rd_ks m (dest + 536) 24 (length acc) = acc →
  (length acc + k ≤ 32)%nat →
  let m' := elf_loop k h str_table dest m in
  only_in (dest + 528) 776 m m' ∧
  rd32 m' (dest + 528) = Z.of_nat (length (acc ++ used_sections m0 k h str_table)) ∧
  elems rd_ks m' (dest + 536) 24 (length (acc ++ used_sections m0 k h str_table)) = acc ++ used_sections m0 k h str_table.
Proof.
  induction k as [|k IH]; intros h m acc Ho Ha Hn He Hl; cbn [elf_loop used_sections] in *.
  { rewrite app_nil_r in *. split; [by intros ? _|]. by split. }
  unfold sizeof_ELFSectionHeader in *.
  assert (Ha' : apart (h + 64) (64 * Z.of_nat k) dest 1304) by (unfold apart in *; lia).
  assert (Hr : ∀ n o m', only_in dest 1304 m0 m' → 0 ≤ o → o + Z.of_nat n ≤ 64 → rd_le n m' (h + o) = rd_le n m0 (h + o)).
  { intros n o m' Ho' H0 H1. apply rd_only; [done|]. unfold apart in *. lia. }
  assert (Et : eh_type m h = eh_type m0 h) by (apply (Hr 4%nat 4 m Ho); cbn; lia). rewrite Et.
  destruct (eh_type m0 h =? 0); [cbn [app]; apply IH; [done..|lia]|].
  set (e := {| ks_base := eh_addr m0 h; ks_length := eh_size m0 h; ks_name := u64 (str_table + eh_name m0 h) |}).
  unfold off_num_kernel_sects, off_kernel_sects, sizeof_KernelSection. rewrite Hn.
  set (n := Z.of_nat (length acc)). set (a := dest + 536 + 24 * n).
  assert (Hst : wr32 (wr64 (wr64 (wr64 m a (eh_addr m h)) (a + 8) (eh_size (wr64 m a (eh_addr m h)) h)) (a + 16)
      (u64 (str_table + eh_name (wr64 (wr64 m a (eh_addr m h)) (a + 8) (eh_size (wr64 m a (eh_addr m h)) h)) h)))
      (dest + 528) (u32 (n + 1)) = append_ks m n e).
  { unfold append_ks, wr_ks, e. cbn [ks_base ks_length ks_name].
    assert (W : ∀ m' x v, only_in dest 1304 m0 m' → dest ≤ x → x + 8 ≤ dest + 1304 → only_in dest 1304 m0 (wr64 m' x v)).
    { intros m' x v Hm' H1 H2. eapply only_in_trans; [exact Hm'|].
      eapply only_in_weaken; [apply (wr_le_only_in 8)|lia|cbn; lia]. }
    assert (E1 : eh_addr m h = eh_addr m0 h) by (apply (Hr 8%nat 16); [done|cbn; lia..]).
    rewrite E1. set (ma := wr64 m a (eh_addr m0 h)).
    assert (Oa : only_in dest 1304 m0 ma) by (apply W; [done|lia|lia]).
    assert (E2 : eh_size ma h = eh_size m0 h) by (apply (Hr 8%nat 32); [done|cbn; lia..]).
    rewrite E2. set (mb := wr64 ma (a + 8) (eh_size m0 h)).
    assert (Ob : only_in dest 1304 m0 mb) by (apply W; [done|lia|lia]).
    assert (E3 : eh_name mb h = eh_name m0 h).
    { unfold eh_name, rd32. pose proof (Hr 4%nat 0 mb Ob) as E. rewrite Z.add_0_r in E. apply E; cbn; lia. }
    by rewrite E3. }
  rewrite Hst. clear Hst.
  assert (Hw : ks_wf e).
  { unfold ks_wf, e. cbn. unfold eh_addr, eh_size. rewrite !u64_rd64. unfold u64. by rewrite Zmod_mod. }
  destruct (append_ks_ok m acc e) as (A1 & A2 & A3); [lia|done|done|]. fold n in A1, A2, A3.
  destruct (IH (h + 64) (append_ks m n e) (acc ++ [e])) as (O' & N' & E').
  - eapply only_in_trans; [exact Ho|]. eapply only_in_weaken; [exact A3|lia|lia].
  - done.
  - done.
  - done.
  - rewrite length_app. cbn. lia.
  - rewrite <- !app_assoc in N', E'. split; [by eapply only_in_trans|]. by split.
Qed.

(** A usable section tag: at most 32 headers, of which the string table is one. *)
Record elf_tag_ok (m : mem) (tag : Z) (k : nat) (shndx : Z) : Prop := {
  et_num : rd32 m (tag + 8) = Z.of_nat k;
  et_shndx : rd32 m (tag + 16) = shndx;
  et_len : (k ≤ 32)%nat;
  et_str : 0 ≤ shndx < Z.of_nat k;
  et_apart : apart tag (20 + 64 * Z.of_nat k) dest 1304
}.

Definition str_table_of (m : mem) (tag shndx : Z) : Z := eh_addr m (tag + 20 + 64 * shndx).

(** The map at [dest] holds the sections [l], in order of address. *)
Definition holds_sections (m : mem) (l : list KernelSection) : Prop :=
  num_kernel_sects (boot_map m dest) = length l ∧
  StronglySorted (key_le ks_base) (take (length l) (kernel_sects (boot_map m dest))) ∧
  Permutation (take (length l) (kernel_sects (boot_map m dest))) l.

Lemma used_length m k h st : (length (used_sections m k h st) ≤ k)%nat.
Proof.
  revert h. induction k as [|k IH]; intros h; cbn [used_sections]; [done|].
  rewrite length_app. specialize (IH (h + sizeof_ELFSectionHeader)). destruct (eh_type m h =? 0); cbn; lia.
Qed.

Lemma parse_elf_ok fuel tag k shndx m0 m log :
  elf_tag_ok m0 tag k shndx → only_in dest 1304 m0 m → (32 ≤ fuel)%nat →
  ∃ m', parse_elf fuel tag dest m log = Ok (0, (m', log)) ∧
    holds_sections m' (used_sections m0 k (tag + 20) (str_table_of m0 tag shndx)) ∧ only_in (dest + 528) 776 m m'.
Proof.
  intros [T1 T2 T3 T5 T4] Ho Hf. unfold parse_elf, ELF_parse_section_headers.
  assert (T1' : rd32 m (tag + 8) = Z.of_nat k).
  { rewrite <- T1. apply (rd_only 4); [done|unfold apart in *; cbn; lia]. }
  assert (T2' : rd32 m (tag + 16) = shndx).
  { rewrite <- T2. apply (rd_only 4); [done|unfold apart in *; cbn; lia]. }
  assert (Est : str_table_of m tag shndx = str_table_of m0 tag shndx).
  { apply (rd_only 8); [done|unfold apart in *; cbn; lia]. }
  rewrite T1', T2'.
  rewrite (proj2 (Z.ltb_ge _ _)) by (unfold MAX_KERNEL_SECTIONS; lia). cbv zeta. rewrite Nat2Z.id.
  unfold off_num_kernel_sects, off_kernel_sects, sizeof_ELFSectionHeader.
  fold (str_table_of m tag shndx). rewrite Est. set (st := str_table_of m0 tag shndx).
  set (m1 := wr32 m (dest + 528) 0). assert (O1 : only_in (dest + 528) 4 m m1) by apply (wr_le_only_in 4).
  destruct (elf_loop_ok m0 st k (tag + 20) m1 []) as (O2 & N2 & L2).
  { eapply only_in_trans; [exact Ho|]. eapply only_in_weaken; [exact O1|lia|lia]. }
  { unfold apart in *. lia. } { apply rd32_wr32_eq. } { done. } { cbn. lia. }
  cbn [app] in N2, L2. set (m2 := elf_loop k (tag + 20) st dest m1) in *. set (l := used_sections m0 k (tag + 20) st) in *.
  assert (Hl : (length l ≤ 32)%nat) by (etransitivity; [apply used_length|done]).
  rewrite N2. unfold sort_kernel_section_array.
  destruct (sort_ok sizeof_KernelSection rd_ks ks_base kernel_mmap_cmp kernel_mmap_swp (dest + 536) (length l) fuel m2)
    as (m3 & E3 & S3 & P3 & O3); [lia|]. rewrite E3, bind_Ok.
  unfold sizeof_KernelSection in *. rewrite L2 in P3.
  eexists. split; [done|]. split.
  - unfold holds_sections, boot_map. cbn [num_kernel_sects kernel_sects]. unfold off_num_kernel_sects, off_kernel_sects.
    rewrite take_elems by lia. split; [|by split].
    unfold rd32. rewrite (rd_le_only_in 4 _ _ _ _ (dest + 528) O3) by (unfold apart; cbn; lia).
    fold (rd32 m2 (dest + 528)). rewrite N2. lia.
  - eapply only_in_trans; [eapply only_in_weaken; [exact O1|lia|lia]|].
    eapply only_in_trans; [exact O2|]. eapply only_in_weaken; [exact O3|lia|lia].
Qed.

Lemma holds_sections_ext m m' l :
  (length l ≤ 32)%nat → only_in dest 528 m m' → holds_sections m l → holds_sections m' l.
Proof.
  intros Hl Ho (H1 & H2). unfold holds_sections, boot_map in *. cbn [num_kernel_sects kernel_sects] in *.
  unfold off_num_kernel_sects, off_kernel_sects in *.
  assert (E : elems rd_ks m' (dest + 536) sizeof_KernelSection 32 = elems rd_ks m (dest + 536) sizeof_KernelSection 32).
  { apply elems_ext; [done|apply rd_ks_local|]. intros b Hb. apply Ho. lia. }
  rewrite E. split; [|done]. rewrite <- H1. f_equal. eapply (rd_le_only_in 4); [exact Ho|unfold apart; cbn; lia].
Qed.

(** ** The tags *)

Inductive btag := TMMap (k : nat) | TElf (k : nat) (shndx : Z) | TOther.

Definition tag_ok (m : mem) (a : Z) (t : btag) : Prop :=
  match t with
  | TMMap k => rd32 m a = MULTIBOOT_TAG_TYPE_MMAP ∧ mmap_tag_ok m a k
  | TElf k shndx => rd32 m a = MULTIBOOT_TAG_TYPE_ELF_SECTIONS ∧ elf_tag_ok m a k shndx
  | TOther => rd32 m a ≠ MULTIBOOT_TAG_TYPE_END ∧ rd32 m a ≠ MULTIBOOT_TAG_TYPE_MMAP ∧
              rd32 m a ≠ MULTIBOOT_TAG_TYPE_ELF_SECTIONS
  end.

(** The tags at [a] with their sizes, up to the end tag. *)
Fixpoint tags_at (m : mem) (a : Z) (l : list (btag * Z)) : Prop :=
  apart a 8 dest 1304 ∧
  match l with
  | [] => rd32 m a = MULTIBOOT_TAG_TYPE_END
  | (t, size) :: l => tag_ok m a t ∧ rd32 m (a + 4) = size ∧ tags_at m (a + tag_step size) l
  end.

(** The RAM entries of the last memory-map tag and the sections of the last
    section tag. *)
Fixpoint boot_spec (m : mem) (a : Z) (l : list (btag * Z)) (r : option (list MMapEntry) * option (list KernelSection)) :
    option (list MMapEntry) * option (list KernelSection) :=
  match l with
  | [] => r
  | (t, size) :: l =>
      boot_spec m (a + tag_step size) l
        (match t with
         | TMMap k => (Some (avail m k (a + 16)), r.2)
         | TElf k shndx => (r.1, Some (used_sections m k (a + 20) (str_table_of m a shndx)))
         | TOther => r
         end)
  end.

(** The map holds what [r] says. *)
Definition boot_holds (m : mem) (r : option (list MMapEntry) * option (list KernelSection)) : Prop :=
  (∀ l, r.1 = Some l → (length l ≤ 32)%nat ∧ holds_ram m l) ∧
  (∀ l, r.2 = Some l → (length l ≤ 32)%nat ∧ holds_sections m l).

(** What parsing one tag does. *)
Lemma tag_parse fuel m0 m a t log r :
  tag_ok m0 a t → apart a 8 dest 1304 → only_in dest 1304 m0 m → boot_holds m r → (32 ≤ fuel)%nat →
  (rd32 m a =? MULTIBOOT_TAG_TYPE_END) = false ∧
  ∃ m', (if rd32 m a =? MULTIBOOT_TAG_TYPE_MMAP then parse_mmap fuel a dest m log
         else if rd32 m a =? MULTIBOOT_TAG_TYPE_ELF_SECTIONS then parse_elf fuel a dest m log
         else Ok (0, (m, log))) = Ok (0, (m', log)) ∧ only_in dest 1304 m0 m' ∧
    boot_holds m' (match t with
      | TMMap k => (Some (avail m0 k (a + 16)), r.2)
      | TElf k shndx => (r.1, Some (used_sections m0 k (a + 20) (str_table_of m0 a shndx)))
      | TOther => r
      end).
Proof.
  intros Ht Ha Ho [Hr1 Hr2] Hf.
  assert (E : rd32 m a = rd32 m0 a) by (apply (rd_only 4); [done|unfold apart in *; cbn; lia]). rewrite E.
  destruct t as [k|k shndx|]; cbn [tag_ok] in Ht.
  - destruct Ht as [-> Ht]. split; [done|].
    destruct (parse_mmap_ok fuel a k m0 m log Ht Ho Hf) as (m' & E' & H' & O'). exists m'. split; [done|]. split.
    + eapply only_in_trans; [exact Ho|]. eapply only_in_weaken; [exact O'|lia|lia].
    + split; cbn [fst snd].
      * intros l [= <-]. split; [apply (mt_len _ _ _ Ht)|done].
      * intros l Hl. destruct (Hr2 l Hl). split; [done|]. by eapply holds_sections_ext.
  - destruct Ht as [-> Ht]. split; [done|].
    destruct (parse_elf_ok fuel a k shndx m0 m log Ht Ho Hf) as (m' & E' & H' & O'). exists m'. split; [done|]. split.
    + eapply only_in_trans; [exact Ho|]. eapply only_in_weaken; [exact O'|lia|lia].
    + split; cbn [fst snd].
      * intros l Hl. destruct (Hr1 l Hl). split; [done|]. by eapply holds_ram_ext.
      * intros l [= <-]. split; [|done]. etransitivity; [apply used_length|apply (et_len _ _ _ _ Ht)].
  - destruct Ht as (H0 & H1 & H2). rewrite (proj2 (Z.eqb_neq _ _) H0), (proj2 (Z.eqb_neq _ _) H1), (proj2 (Z.eqb_neq _ _) H2).
    split; [done|]. exists m. done.
Qed.

Lemma tag_loop_ok m0 log : ∀ l fuel a m r,
  tags_at m0 a l → only_in dest 1304 m0 m → boot_holds m r → (length l + 33 ≤ fuel)%nat →
  ∃ m', tag_loop fuel a dest m log = Ok (0, (m', log)) ∧ only_in dest 1304 m0 m' ∧
    boot_holds m' (boot_spec m0 a l r).
Proof.
  induction l as [|[t size] l IH]; intros [|fuel] a m r Ht Ho Hr Hf; cbn [length] in Hf; try lia; cbn [tag_loop boot_spec].
  - destruct Ht as [Ha Ht].
    assert (E : rd32 m a = rd32 m0 a) by (apply (rd_only 4); [done|unfold apart in *; cbn; lia]).
    rewrite E, Ht. exists m. done.
  - destruct Ht as (Ha & Ht & Hs & Hl).
    destruct (tag_parse (S fuel) m0 m a t log r Ht Ha Ho Hr) as (-> & m1 & -> & O1 & H1); [lia|].
    rewrite bind_Ok. cbn [fst snd]. change (0 <? 0) with false. cbn iota.
    assert (E : rd32 m1 (a + 4) = size).
    { rewrite <- Hs. apply (rd_only 4); [done|unfold apart in *; cbn; lia]. }
    rewrite E. apply IH; [done|done|done|lia].
Qed.

Lemma BOOT_parse_multiboot_ok (fuel : nat) (mb : Z) (l : list (btag * Z)) (m : mem) (log : klogs) :
  0 ≤ mb → mb + 8 < 4294967296 → tags_at m (mb + 8) l → (length l + 33 ≤ fuel)%nat →
  (∃ m', BOOT_parse_multiboot fuel dest MULTIBOOT2_BOOTLOADER_MAGIC mb m log = Ok (0, (m', log)) ∧
    only_in dest sizeof_PhysicalMMap m m' ∧
    (∀ ram, (boot_spec m (mb + 8) l (None, None)).1 = Some ram → holds_ram m' ram) ∧
    (∀ ks, (boot_spec m (mb + 8) l (None, None)).2 = Some ks → holds_sections m' ks)) ∧
  (∀ magic, magic ≠ MULTIBOOT2_BOOTLOADER_MAGIC → ∃ log',
    BOOT_parse_multiboot fuel dest magic mb m log = Ok (-1, (m, log'))).
Proof.
  intros H0 H1 Ht Hf. unfold BOOT_parse_multiboot. split.
  - rewrite Z.eqb_refl. cbn [negb]. rewrite u32_small by lia.
    destruct (tag_loop_ok m log l fuel (mb + 8) m (None, None)) as (m' & E & O & Hr & Hk); [done|by intros ? _|done|done|].
    exists m'. split; [done|]. split; [done|]. split; [intros ram Hram; by apply Hr|intros ks Hks; by apply Hk].
  - intros magic Hm. rewrite (proj2 (Z.eqb_neq _ _) Hm). eauto.
Qed.

(** C7: [BOOT_parse_multiboot] reads the boot information.  For any sequence of
    tags that does not overlap the map at [dest], the parser terminates,
    returns 0, writes only the map, and leaves in it the available RAM entries
    of the last memory-map tag in their order, with [total_ram] the end of the
    last of them, and the sections in use of the last section tag, sorted by
    address; with any other magic number it returns -1 and writes nothing. *)
Theorem BOOT_parse_multiboot_reads (fuel : nat) (mb : Z) (l : list (btag * Z)) (m : mem) (log : klogs) :
  0 ≤ mb → mb + 8 < 4294967296 → tags_at m (mb + 8) l → (length l + 33 ≤ fuel)%nat →
  (∃ m', BOOT_parse_multiboot fuel dest MULTIBOOT2_BOOTLOADER_MAGIC mb m log = Ok (0, (m', log)) ∧
    only_in dest sizeof_PhysicalMMap m m' ∧
    (∀ ram, (boot_spec m (mb + 8) l (None, None)).1 = Some ram → holds_ram m' ram) ∧
    (∀ ks, (boot_spec m (mb + 8) l (None, None)).2 = Some ks → holds_sections m' ks)) ∧
  (∀ magic, magic ≠ MULTIBOOT2_BOOTLOADER_MAGIC → ∃ log',
    BOOT_parse_multiboot fuel dest magic mb m log = Ok (-1, (m, log'))).
Proof. apply BOOT_parse_multiboot_ok. Qed.

(** A memory map without available RAM makes the parser read [ram_sects] at
    index 2^32 - 1, for the end of memory. *)
Lemma parse_mmap_no_ram fuel tag k m log :
  rd32 m (tag + 4) = 16 + 24 * Z.of_nat k → rd32 m (tag + 8) = 24 → Z.of_nat k < 2147483648 →
  apart tag (16 + 24 * Z.of_nat k) dest 1304 → avail m k (tag + 16) = [] →
  parse_mmap fuel tag dest m log = Fault.
Proof.
  intros T1 T2 T3 T4 T5. unfold parse_mmap. rewrite T1, T2. change (24 =? 0) with false. cbn iota.
  rewrite mmap_entries by lia. rewrite Nat2Z.id. unfold off_num_mmap, off_ram_sects.
  set (m1 := wr32 m (dest + 8) 0).
  destruct (mmap_loop_ok m log k (tag + 16) m1 []) as (m2 & E2 & O2 & N2 & L2).
  { eapply only_in_weaken; [apply (wr_le_only_in 4)|lia|cbn; lia]. }
  { unfold apart in *. lia. } { apply rd32_wr32_eq. } { done. } { rewrite T5. cbn. lia. }
  rewrite E2, bind_Ok. cbn [fst snd]. change (0 <? 0) with false. cbn iota. rewrite N2, T5. done.
Qed.
End Parse.

(** Boot information with one RAM area and one kernel section. *)
Definition demo_info : mem :=
  foldr (fun p m => wr32 m p.1 p.2) ∅
    [(0x1008, 6); (0x100C, 40); (0x1010, 24); (0x1018, 0x100000); (0x1020, 0x1000000); (0x1028, 1);
     (0x1030, 9); (0x1034, 84); (0x1038, 1); (0x1048, 1); (0x1054, 0x100000); (0x1064, 0x2000)].

Lemma demo_tags : tags_at 0x4000 demo_info 0x1008 [(TMMap 1, 40); (TElf 1 0, 84)].
Proof.
  assert (T1 : mmap_tag_ok 0x4000 demo_info 0x1008 1).
  { split; [done|done|done|left; vm_compute; congruence|vm_compute; lia|]. vm_compute. repeat constructor. }
  assert (T2 : elf_tag_ok 0x4000 demo_info 0x1030 1 0).
  { split; [done|done|lia|lia|left; vm_compute; congruence]. }
  split; [left; vm_compute; congruence|]. split; [split; [done|exact T1]|]. split; [done|].
  split; [left; vm_compute; congruence|]. split; [split; [done|exact T2]|]. split; [done|].
  split; [left; vm_compute; congruence|done].
Qed.

Lemma BOOT_parse_multiboot_reads_witness :
  ∃ m', BOOT_parse_multiboot 40 0x4000 MULTIBOOT2_BOOTLOADER_MAGIC 0x1000 demo_info [] = Ok (0, (m', [])) ∧
    holds_ram 0x4000 m' [{| me_base := 0x100000; me_length := 0x1000000 |}].
Proof.
  destruct (BOOT_parse_multiboot_reads 0x4000 40 0x1000 [(TMMap 1, 40); (TElf 1 0, 84)] demo_info [])
    as [(m' & E & _ & Hr & _) _].
  - lia.
  - lia.
  - exact demo_tags.
  - cbn. lia.
  - exists m'. split; [exact E|]. apply Hr. by vm_compute.
Defined.
