(* ===== verification/Keyboard.v ===== *)
(** * The keyboard (src/src/drivers/keyboard/ps2.c, keyboard.c)

    Scan codes, the ring of typed characters that every opener reads at its own
    position, the interrupt handler, and the set-up dialogue with the PS/2
    controller. *)

From S2P Require Import Prelude Memory CString LinkedList Segments Frames Machine Irq Paging Mmu Kmalloc Sched.

(** ** Scan codes (keyboard.c) *)

Definition LEFT_SHIFT_SCAN_CODE : Z := 0x12.
Definition RIGHT_SHIFT_SCAN_CODE : Z := 0x59.
Definition RELEASED_SCAN_CODE : Z := 0xf0.

(** The cases of the switch: code, character, character with shift. *)
Definition scan_table : list (Z * (Z * Z)) :=
  [(0x1c, (97, 65)); (0x32, (98, 66)); (0x21, (99, 67)); (0x23, (100, 68)); (0x24, (101, 69));
   (0x2b, (102, 70)); (0x34, (103, 71)); (0x33, (104, 72)); (0x43, (105, 73)); (0x3b, (106, 74));
   (0x42, (107, 75)); (0x4b, (108, 76)); (0x3a, (109, 77)); (0x31, (110, 78)); (0x44, (111, 79));
   (0x4d, (112, 80)); (0x15, (113, 81)); (0x2d, (114, 82)); (0x1b, (115, 83)); (0x2c, (116, 84));
   (0x3c, (117, 85)); (0x2a, (118, 86)); (0x1d, (119, 87)); (0x22, (120, 88)); (0x35, (121, 89));
   (0x1a, (122, 90)); (0x16, (49, 33)); (0x1e, (50, 64)); (0x26, (51, 35)); (0x25, (52, 36));
   (0x2e, (53, 37)); (0x36, (54, 94)); (0x3d, (55, 38)); (0x3e, (56, 42)); (0x46, (57, 40));
   (0x45, (48, 41)); (0x4e, (45, 95)); (0x55, (61, 43)); (0x5a, (10, 10)); (0x29, (32, 32))].

Fixpoint scan_lookup (l : list (Z * (Z * Z))) (shift code : Z) : Z :=
  match l with
  | [] => 63
  | (c, (lo, up)) :: l => if code =? c then (if truth shift then up else lo) else scan_lookup l shift code
  end.

Definition translate_scan_code (shift code : Z) : Z := scan_lookup scan_table shift code.

(** ** The device *)

Definition PS2_DATA_PORT : Z := 0x60.
Definition PS2_CMD_PORT : Z := 0x64.
Definition PS2_STATUS_PORT : Z := 0x64.
Definition PS2_CMD_DISABLE_P1 : Z := 0xAD.
Definition PS2_CMD_ENABLE_P1 : Z := 0xAE.
Definition PS2_CMD_DISABLE_P2 : Z := 0xA7.
Definition PS2_CMD_READ_CNTL_CFG : Z := 0x20.
Definition PS2_CMD_WRITE_CNTL_CFG : Z := 0x60.
Definition PS2_CMD_P1_SELF_TEST : Z := 0xAA.
Definition PS2_CMD_P1_INTERFACE_TEST : Z := 0xAB.
Definition PS2_STATUS_OUTPUT : Z := 1.
Definition PS2_STATUS_INPUT : Z := 2.
Definition PS2_CNTL_CFG_MASK : Z := 0x43.
Definition PS2_CNTL_CFG_P1_INT : Z := 1.
Definition PS2_BUFF_SIZE : Z := 128.
Definition PS2_IRQ : Z := 0x21.

(** [BUFF_POS] on an [offset_t]: -1 is the largest value of the type. *)
Definition PS2_BUFF_POS (pos : Z) : Z :=
  (if pos =? 18446744073709551615 then PS2_BUFF_SIZE - 1 else pos) mod PS2_BUFF_SIZE.

(** The fields of [ps2_dev] that change; [blocked_procs] is a queue in memory. *)
Record PS2Device := mkPs2 { shift_pressed : Z; ps2_data : list Z; ps2_pos : Z; num_open : Z }.

Definition ps2_set_shift (k : PS2Device) (b : Z) : PS2Device := mkPs2 b (ps2_data k) (ps2_pos k) (num_open k).
Definition ps2_set_open (k : PS2Device) (n : Z) : PS2Device := mkPs2 (shift_pressed k) (ps2_data k) (ps2_pos k) n.

(** [struct PS2User]: the reader's position is at offset 8. *)
Definition sizeof_PS2User : Z := 16.
Definition user_pos (m : mem) (user : Z) : Z := rd64 m (user + 8).

(** [struct OFile]: the private data is at offset 16. *)
Definition off_private_data : Z := 16.

Definition consumer_read_next (k : PS2Device) (user : Z) (m : mem) : outcome (Z * mem) :=
  ret ← idx (ps2_data k) (Z.to_nat (user_pos m user));
  Ok (ret, wr64 m (user + 8) (PS2_BUFF_POS (u64 (user_pos m user + 1)))).

Definition producer_add (c : Z) (k : PS2Device) : outcome PS2Device :=
  d ← upd (ps2_data k) (Z.to_nat (ps2_pos k)) c;
  Ok (mkPs2 (shift_pressed k) d (PS2_BUFF_POS (u64 (ps2_pos k + 1))) (num_open k)).

Definition consumer_has_bytes (k : PS2Device) (user : Z) (m : mem) : bool :=
  negb (user_pos m user =? ps2_pos k).

Section Driver.
Context {D : Type} `{PortIO D}.

(** The polling loops take fuel: the controller may never answer. *)
Fixpoint ps2_wait_writable (fuel : nat) (d : D) : outcome D :=
  match fuel with
  | O => Hang
  | S fuel =>
      let '(status, d) := inb PS2_STATUS_PORT d in
      if truth (Z.land status PS2_STATUS_INPUT) then ps2_wait_writable fuel d else Ok d
  end.

Fixpoint ps2_wait_readable (fuel : nat) (d : D) : outcome D :=
  match fuel with
  | O => Hang
  | S fuel =>
      let '(status, d) := inb PS2_STATUS_PORT d in
      if truth (Z.land status PS2_STATUS_OUTPUT) then Ok d else ps2_wait_readable fuel d
  end.

Definition ps2_read_cmd (fuel : nat) (cmd : Z) (d : D) : outcome (Z * D) :=
  d ← ps2_wait_writable fuel d;
  let d := outb PS2_CMD_PORT cmd d in
  d ← ps2_wait_readable fuel d;
  Ok (inb PS2_DATA_PORT d).

Definition ps2_write_cmd (fuel : nat) (cmd val : Z) (d : D) : outcome D :=
  d ← ps2_wait_writable fuel d;
  let d := outb PS2_CMD_PORT cmd d in
  d ← ps2_wait_writable fuel d;
  Ok (outb PS2_DATA_PORT val d).

Definition ps2_write_data_p1 (fuel : nat) (val : Z) (d : D) : outcome D :=
  d ← ps2_wait_writable fuel d;
  Ok (outb PS2_DATA_PORT val d).

Definition ps2_read_data_p1 (fuel : nat) (d : D) : outcome (Z * D) :=
  d ← ps2_wait_readable fuel d;
  Ok (inb PS2_DATA_PORT d).

Definition ps2_char_avail (d : D) : bool * D :=
  let '(status, d) := inb PS2_STATUS_PORT d in (truth (Z.land status PS2_STATUS_OUTPUT), d).

Definition is_shift (scode : Z) : bool := (scode =? LEFT_SHIFT_SCAN_CODE) || (scode =? RIGHT_SHIFT_SCAN_CODE).

Definition ps2_read_char (fuel : nat) (k : PS2Device) (d : D) : outcome (Z * (PS2Device * D)) :=
  let '(a, d) := ps2_char_avail d in
  if negb a then Ok (0, (k, d))
  else
    r ← ps2_read_data_p1 fuel d;
    let '(scode, d) := r in
    if negb (is_shift scode) && negb (scode =? RELEASED_SCAN_CODE) then
      Ok (translate_scan_code (shift_pressed k) scode, (k, d))
    else
      let k := if is_shift scode then ps2_set_shift k 1 else k in
      if scode =? RELEASED_SCAN_CODE then
        r ← ps2_read_data_p1 fuel d;
        let '(scode, d) := r in
        Ok (0, (if is_shift scode then ps2_set_shift k 0 else k, d))
      else Ok (0, (k, d)).

(** [rq] is the ready queue, [bq] the queue of blocked readers. *)
Definition ps2_isr (fuel : nat) (rq bq : Z) (k : PS2Device) (s : sched) (d : D) :
    outcome (PS2Device * sched * D) :=
  r ← ps2_read_char fuel k d;
  let '(c, (k, d)) := r in
  if c =? 0 then Ok (k, s, d)
  else
    k ← producer_add c k;
    s ← PROC_unblock_all rq fuel bq s;
    Ok (k, s, d).

Definition s_lift_irq {A} (r : outcome (irqs * A)) (s : sched) : outcome (sched * A) :=
  x ← r; Ok (s_on_irq (fun _ => x.1) s, x.2).

(** [isr] is the address of [ps2_isr]. *)
Definition ps2_init (fuel : nat) (isr : Z) (s : sched) (d : D) : outcome (Z * (sched * D)) :=
  let check (bad : bool) msg s := if bad then s_klog KLOG_LEVEL_ERR msg s else s in
  let d := outb PS2_CMD_PORT PS2_CMD_DISABLE_P1 d in
  let d := outb PS2_CMD_PORT PS2_CMD_DISABLE_P2 d in
  let '(_, d) := inb PS2_DATA_PORT d in
  r ← ps2_read_cmd fuel PS2_CMD_READ_CNTL_CFG d;
  let '(cntl_cfg, d) := r in
  let cntl_cfg := Z.lor (Z.ldiff cntl_cfg PS2_CNTL_CFG_MASK) PS2_CNTL_CFG_P1_INT in
  d ← ps2_write_cmd fuel PS2_CMD_WRITE_CNTL_CFG cntl_cfg d;
  r ← ps2_read_cmd fuel PS2_CMD_P1_SELF_TEST d;
  let '(resp, d) := r in
  let s := check (negb (resp =? 0x55)) "PS2 port 1 failed self check"%string s in
  d ← ps2_write_cmd fuel PS2_CMD_WRITE_CNTL_CFG cntl_cfg d;
  r ← ps2_read_cmd fuel PS2_CMD_P1_INTERFACE_TEST d;
  let '(resp, d) := r in
  let s := check (negb (resp =? 0x00)) "PS2 port 1 interface test failed"%string s in
  let d := outb PS2_CMD_PORT PS2_CMD_ENABLE_P1 d in
  d ← ps2_write_data_p1 fuel 0xFF d;
  r ← ps2_read_data_p1 fuel d;
  let '(resp, d) := r in
  let s := check (negb (resp =? 0xFA)) "PS2 device did not reset"%string s in
  r ← ps2_read_data_p1 fuel d;
  let '(resp, d) := r in
  let s := check (negb (resp =? 0xAA)) "PS2 device did not reset"%string s in
  i ← IRQ_set_handler PS2_IRQ isr NULL (k_irq (s_k s));
  r ← s_lift_irq (IRQ_clear_mask PS2_IRQ i d) s;
  Ok (0, r).

Definition ps2_cleanup (s : sched) (d : D) : outcome (sched * D) :=
  s_lift_irq (IRQ_set_mask PS2_IRQ (k_irq (s_k s)) d) s.

Definition ps2_open (fuel : nat) (pools isr file : Z) (k : PS2Device) (s : sched) (d : D) :
    outcome (Z * (PS2Device * sched * D)) :=
  r ← kmalloc pools sizeof_PS2User (s_mem s) (s_k s);
  let user := r.1 in
  let s := s_set_k (s_set_mem s r.2.1) r.2.2 in
  if user =? NULL then Ok (-1, (k, s, d))
  else
    let s := s_set_mem s (wr64 (s_mem s) (file + off_private_data) user) in
    let s := s_on_irq IRQ_disable s in
    r ← (if num_open k =? 0 then x ← ps2_init fuel isr s d; Ok x.2 else Ok (s, d));
    let '(s, d) := r in
    let k := ps2_set_open k (num_open k + 1) in
    let s := s_set_mem s (wr64 (s_mem s) (user + 8) (ps2_pos k)) in
    Ok (0, (k, s_on_irq IRQ_enable s, d)).

(** Lines 277-278, with [n] bytes of room left. *)
Fixpoint ps2_copy (n : nat) (user : Z) (curr : Z) (k : PS2Device) (m : mem) : outcome (Z * mem) :=
  match n with
  | O => Ok (curr, m)
  | S n =>
      if consumer_has_bytes k user m then
        r ← consumer_read_next k user m;
        ps2_copy n user (curr + 1) k (wr8 r.2 curr r.1)
      else Ok (curr, m)
  end.

(** [ps2_read] either has bytes to return, or blocks: then the processor
    switches away, and the loop of lines 272-275 begins again when the process
    runs next. *)
Inductive ps2_result := ReadDone (n : Z) (s : sched) | ReadBlocked (c : cpu) (s : sched) (d : D).

Definition ps2_read (main_proc rq bq file dest len : Z) (k : PS2Device) (c : cpu) (s : sched) (d : D) :
    outcome ps2_result :=
  let user := rd64 (s_mem s) (file + off_private_data) in
  let s := s_on_irq IRQ_disable s in
  if negb (consumer_has_bytes k user (s_mem s)) then
    r ← PROC_block_on main_proc rq bq true c s d;
    let '(c, s, d) := r in Ok (ReadBlocked c s d)
  else
    r ← ps2_copy (Z.to_nat len) user dest k (s_mem s);
    Ok (ReadDone (r.1 - dest) (s_on_irq IRQ_enable (s_set_mem s r.2))).

(** [ps2_close] casts the file, not its private data, to the user record. *)
Definition ps2_close (file : Z) (k : PS2Device) (s : sched) (d : D) : outcome (Z * (PS2Device * sched * D)) :=
  r ← kfree file (s_mem s) (s_k s);
  let s := s_on_irq IRQ_disable (s_set_k (s_set_mem s r.1) r.2) in
  let k := ps2_set_open k (num_open k - 1) in
  r ← (if num_open k =? 0 then ps2_cleanup s d else Ok (s, d));
  Ok (0, (k, s_on_irq IRQ_enable r.1, r.2)).
End Driver.

(** ** The specification *)

(** What the driver relies on of the PS/2 controller: the status port says
    whether scan codes wait and does not consume any, the data port delivers the
    oldest one. *)
Class Ps2Controller (D : Type) `{PortIO D} := {
  kb_codes : D → list Z;
  kb_status d : kb_codes (inb PS2_STATUS_PORT d).2 = kb_codes d ∧
    truth (Z.land (inb PS2_STATUS_PORT d).1 PS2_STATUS_OUTPUT) = negb (bool_decide (kb_codes d = []));
  kb_next d c r : kb_codes d = c :: r → (inb PS2_DATA_PORT d).1 = c ∧ kb_codes (inb PS2_DATA_PORT d).2 = r
}.

(** Keys are pressed and released; a release is announced by a prefix. *)
Inductive kevent := KDown (x : Z) | KUp (x : Z).

Definition encode (e : kevent) : list Z :=
  match e with KDown x => [x] | KUp x => [RELEASED_SCAN_CODE; x] end.

Definition kevent_ok (e : kevent) : Prop := match e with KDown x => x ≠ RELEASED_SCAN_CODE | KUp _ => True end.

(** The state of shift after an event, and what the event types. *)
Definition shift_after (shift : Z) (e : kevent) : Z :=
  match e with
  | KDown x => if is_shift x then 1 else shift
  | KUp x => if is_shift x then 0 else shift
  end.

Definition typed_by (shift : Z) (e : kevent) : list Z :=
  match e with
  | KDown x => if is_shift x then [] else [translate_scan_code shift x]
  | KUp _ => []
  end.

Fixpoint typed (shift : Z) (evs : list kevent) : list Z :=
  match evs with [] => [] | e :: evs => typed_by shift e ++ typed (shift_after shift e) evs end.

(** A reader at position [u] has the characters [q] before it.  The ring keeps
    no count, so that a reader 128 characters behind has none. *)
Record ring (k : PS2Device) (u : Z) (q : list Z) : Prop := {
  rg_len : length (ps2_data k) = 128%nat;
  rg_u : 0 ≤ u < 128;
  rg_q : Z.of_nat (length q) ≤ 127;
  rg_pos : ps2_pos k = (u + Z.of_nat (length q)) mod 128;
  rg_at (i : nat) c : q !! i = Some c → ps2_data k !! Z.to_nat ((u + Z.of_nat i) mod 128) = Some c
}.

Definition pend_add (q : list Z) (c : Z) : list Z := if (length q =? 127)%nat then [] else q ++ [c].

Lemma PS2_BUFF_POS_mod x : 0 ≤ x < 128 → PS2_BUFF_POS (u64 (x + 1)) = (x + 1) mod 128.
Proof.
  intros Hx. unfold PS2_BUFF_POS, PS2_BUFF_SIZE. rewrite u64_small by lia.
  by rewrite (proj2 (Z.eqb_neq _ _)) by lia.
Qed.

Lemma producer_add_ring k u q c :
  ring k u q → ∃ k', producer_add c k = Ok k' ∧ ring k' u (pend_add q c) ∧
    shift_pressed k' = shift_pressed k ∧ num_open k' = num_open k.
Proof.
  intros [Hl Hu Hq Hp Ha]. unfold producer_add, pend_add.
  assert (Hpr : 0 ≤ ps2_pos k < 128) by (rewrite Hp; apply Z.mod_pos_bound; lia).
  rewrite upd_Ok, bind_Ok by lia. rewrite PS2_BUFF_POS_mod by done.
  eexists. split; [done|]. split; [|done].
  destruct (Nat.eqb_spec (length q) 127) as [E|E]; split; cbn [ps2_data ps2_pos]; try done.
  - by rewrite length_insert.
  - rewrite Hp, Zplus_mod_idemp_l, E. cbn [length]. word_lia.
  - by rewrite length_insert.
  - rewrite length_app. cbn. lia.
  - rewrite length_app, Hp, Zplus_mod_idemp_l. f_equal. cbn. lia.
  - intros i x Hi. apply lookup_app_Some in Hi as [Hi|[Hge Hi]].
    + rewrite list_lookup_insert_ne; [by apply Ha|]. rewrite Hp. apply lookup_lt_Some in Hi.
      intros E'. apply Z2Nat.inj in E'; [|apply Z.mod_pos_bound; lia..]. word_lia.
    + apply list_lookup_singleton_Some in Hi as [Hi ->].
      replace i with (length q) by lia. rewrite <- Hp. apply list_lookup_insert_eq. lia.
Qed.

(** ** Reading *)

Lemma has_bytes_ring k user m q :
  ring k (user_pos m user) q → consumer_has_bytes k user m = negb (bool_decide (q = [])).
Proof.
  intros [Hl Hu Hq Hp Ha]. unfold consumer_has_bytes. rewrite Hp. f_equal. destruct q as [|c q]; cbn [length] in *.
  - rewrite bool_decide_true by done. apply Z.eqb_eq. rewrite Z.add_0_r, Z.mod_small; lia.
  - rewrite bool_decide_false by done. apply Z.eqb_neq. intros E. word_lia.
Qed.

Lemma ps2_copy_ok k user : ∀ n curr m q,
  ring k (user_pos m user) q → apart curr (Z.of_nat n) (user + 8) 8 → Forall (fun c => 0 ≤ c < 256) q →
  ∃ m', ps2_copy n user curr k m = Ok (curr + Z.of_nat (length (take n q)), m') ∧
    (∀ i c, take n q !! i = Some c → rd8 m' (curr + Z.of_nat i) = c) ∧
    ring k (user_pos m' user) (drop n q) ∧
    (∀ x, ¬ (curr ≤ x < curr + Z.of_nat n) → ¬ (user + 8 ≤ x < user + 16) → rd8 m' x = rd8 m x).
Proof.
  induction n as [|n IH]; intros curr m q R Ha Hb; cbn [ps2_copy].
  { exists m. rewrite take_0, drop_0, Z.add_0_r. by split_and!. }
  rewrite (has_bytes_ring k user m q R). destruct q as [|c q].
  { rewrite bool_decide_true by done. cbn [negb]. exists m. rewrite take_nil, drop_nil, Z.add_0_r. by split_and!. }
  rewrite bool_decide_false by done. cbn [negb]. unfold consumer_read_next.
  destruct (id R) as [Hl Hu Hq Hp Hat]. pose proof (Hat 0%nat c eq_refl) as H0.
  rewrite Z.add_0_r, Z.mod_small in H0 by lia. rewrite (proj2 (idx_Ok _ _ _) H0), !bind_Ok. cbn [fst snd].
  rewrite PS2_BUFF_POS_mod by done. set (u := user_pos m user) in *. set (m1 := wr8 _ curr c).
  assert (Hu1 : user_pos m1 user = (u + 1) mod 128).
  { unfold user_pos, m1. transitivity (rd64 (wr64 m (user + 8) ((u + 1) mod 128)) (user + 8)).
    - apply rd_le_ext. intros b Hbb. apply rd8_wr8_ne. unfold apart in Ha. cbn in Hbb. lia.
    - rewrite rd64_wr64_eq. apply u64_small. pose proof (Z.mod_pos_bound (u + 1) 128). lia. }
  assert (R1 : ring k (user_pos m1 user) q).
  { rewrite Hu1. split; [done|apply Z.mod_pos_bound; lia|cbn [length] in Hq; lia| |].
    - rewrite Hp, Zplus_mod_idemp_l. f_equal. cbn [length]. lia.
    - intros i x Hi. rewrite Zplus_mod_idemp_l. rewrite <- (Hat (S i) x Hi). do 3 f_equal. lia. }
  apply Forall_cons in Hb as [Hc Hb].
  destruct (IH (curr + 1) m1 q R1) as (m' & E & H1 & H2 & H3); [unfold apart in *; lia|done|].
  rewrite E. exists m'. cbn [take drop length]. split; [do 2 f_equal; lia|]. split_and!; [|done|].
  - intros [|i] x Hi; cbn in Hi.
    + injection Hi as ->. rewrite Z.add_0_r, H3 by (unfold apart in *; lia). unfold m1. by rewrite rd8_wr8_eq, u8_small.
    + replace (curr + Z.of_nat (S i)) with (curr + 1 + Z.of_nat i) by lia. by apply H1.
  - intros x X1 X2. rewrite H3 by lia. unfold m1. rewrite rd8_wr8_ne by lia. unfold wr64. apply rd8_wr_le_out. cbn. lia.
Qed.

(** ** Typing *)

Lemma scan_lookup_range l shift code :
  Forall (fun e => 0 < e.2.1 < 128 ∧ 0 < e.2.2 < 128) l → 0 < scan_lookup l shift code < 128.
Proof.
  induction 1 as [|[c [lo up]] l Hc _ IH]; cbn [scan_lookup]; [lia|].
  destruct (code =? c); [|done]. cbn in Hc. destruct (truth shift); lia.
Qed.

Lemma translate_range shift code : 0 < translate_scan_code shift code < 128.
Proof. apply scan_lookup_range. apply (bool_decide_unpack _). vm_compute. exact I. Qed.

Lemma typed_range shift evs : Forall (fun c => 0 ≤ c < 256) (typed shift evs).
Proof.
  revert shift. induction evs as [|[x|x] evs IH]; intros shift; cbn [typed typed_by app]; [done| |apply IH].
  destruct (is_shift x); cbn [app]; [apply IH|]. constructor; [|apply IH].
  pose proof (translate_range shift x). lia.
Qed.

Lemma pend_adds l q : (length q + length l ≤ 127)%nat → fold_left pend_add l q = q ++ l.
Proof.
  revert q. induction l as [|c l IH]; intros q Hl; cbn [fold_left length] in *; [by rewrite app_nil_r|].
  assert (E : pend_add q c = q ++ [c]) by (unfold pend_add; by rewrite (proj2 (Nat.eqb_neq _ _)) by lia).
  rewrite E, IH by (rewrite length_app; cbn; lia). by rewrite <- app_assoc.
Qed.

Section Typing.
Context {D : Type} `{Hport : PortIO D} `{Hkb : !Ps2Controller D}.
Context (rq bq : Z) (U : list Z).
Hypothesis HU : universe rq U.
Hypothesis HB : universe bq U.
Hypothesis Hqq : apart rq 24 bq 24.

(** The interrupt handler, [n] times. *)
Fixpoint isr_run (n : nat) (fuel : nat) (k : PS2Device) (s : sched) (d : D) : outcome (PS2Device * sched * D) :=
  match n with
  | O => Ok (k, s, d)
  | S n => r ← ps2_isr fuel rq bq k s d; let '(k, s, d) := r in isr_run n fuel k s d
  end.

Lemma read_data_ok fuel (d : D) c r :
  kb_codes d = c :: r → ∃ d', ps2_read_data_p1 (S fuel) d = Ok (c, d') ∧ kb_codes d' = r.
Proof using.
  intros Hc. unfold ps2_read_data_p1. cbn [ps2_wait_readable]. destruct (kb_status d) as [S1 S2].
  destruct (inb PS2_STATUS_PORT d) as [v d1]. cbn [fst snd] in *. rewrite S2, Hc. cbn. 
  destruct (kb_next d1 c r) as [N1 N2]; [congruence|]. destruct (inb PS2_DATA_PORT d1) as [w d2]. cbn [fst snd] in *.
  subst w. by exists d2.
Qed.

Lemma ps2_read_char_ok fuel k (d : D) e rest :
  kevent_ok e → kb_codes d = encode e ++ rest →
  ∃ d', ps2_read_char (S fuel) k d =
      Ok (hd 0 (typed_by (shift_pressed k) e), (ps2_set_shift k (shift_after (shift_pressed k) e), d')) ∧
    kb_codes d' = rest.
Proof using.
  intros He Hc. unfold ps2_read_char, ps2_char_avail. destruct (kb_status d) as [S1 S2].
  destruct (inb PS2_STATUS_PORT d) as [v d0]. cbn [fst snd] in *. rewrite S2, Hc.
  assert (Hk : ps2_set_shift k (shift_pressed k) = k) by (by destruct k).
  destruct e as [x|x]; cbn [encode app] in *.
  - rewrite bool_decide_false by done. cbn [negb].
    destruct (read_data_ok fuel d0 x rest) as (d1 & E & C1); [congruence|]. rewrite E, bind_Ok.
    cbn [kevent_ok] in He. rewrite (proj2 (Z.eqb_neq x RELEASED_SCAN_CODE) He), andb_true_r.
    cbn [shift_after typed_by]. exists d1. split; [|done].
    destruct (is_shift x); cbn [negb hd]; [done|by rewrite Hk].
  - rewrite bool_decide_false by done. cbn [negb].
    destruct (read_data_ok fuel d0 RELEASED_SCAN_CODE (x :: rest)) as (d1 & E & C1); [congruence|]. rewrite E, bind_Ok.
    change (is_shift RELEASED_SCAN_CODE) with false. change (RELEASED_SCAN_CODE =? RELEASED_SCAN_CODE) with true.
    cbn [negb andb]. destruct (read_data_ok fuel d1 x rest C1) as (d2 & E2 & C2). rewrite E2, bind_Ok.
    exists d2. split; [|done]. cbn [typed_by hd shift_after]. destruct (is_shift x); [done|by rewrite Hk].
Qed.

Lemma ps2_isr_ok fuel k s (d : D) e rest u pend q bs n :
  kevent_ok e → kb_codes d = encode e ++ rest → ring k u pend →
  blocked rq bq U s q bs n → Z.of_nat n < 4294967295 → (length bs ≤ fuel)%nat →
  ∃ k' s' d' q' bs', ps2_isr (S fuel) rq bq k s d = Ok (k', s', d') ∧ kb_codes d' = rest ∧
    ring k' u (fold_left pend_add (typed_by (shift_pressed k) e) pend) ∧
    shift_pressed k' = shift_after (shift_pressed k) e ∧ blocked rq bq U s' q' bs' n ∧ q' ++ bs' = q ++ bs ∧
    (length bs' ≤ length bs)%nat ∧ (typed_by (shift_pressed k) e ≠ [] → bs' = []) ∧
    only_two_queues rq bq U (s_mem s) (s_mem s').
Proof using HU HB Hqq.
  intros He Hc R Hb Hn Hf. unfold ps2_isr.
  destruct (ps2_read_char_ok fuel k d e rest He Hc) as (d' & E & Cd). rewrite E, bind_Ok. clear E.
  set (k1 := ps2_set_shift k _).
  assert (R1 : ring k1 u pend) by (destruct R; by split).
  assert (Hno : typed_by (shift_pressed k) e = [] ∨ ∃ x, typed_by (shift_pressed k) e = [translate_scan_code (shift_pressed k) x]).
  { destruct e as [x|x]; cbn [typed_by]; [|by left]. destruct (is_shift x); [by left|right; by exists x]. }
  destruct Hno as [Et|[x Et]]; rewrite Et; cbn [hd fold_left].
  - exists k1, s, d', q, bs. split_and!; try done.
  - pose proof (translate_range (shift_pressed k) x) as Hr. rewrite (proj2 (Z.eqb_neq _ 0)) by lia.
    destruct (producer_add_ring k1 u pend (translate_scan_code (shift_pressed k) x) R1) as (k2 & E2 & R2 & Sh & _).
    rewrite E2, bind_Ok.
    destruct (PROC_unblock_all_ok rq bq U HU HB Hqq s q bs n (S fuel) Hb Hn) as (s' & E3 & B3 & _ & _ & M3); [lia|].
    rewrite E3, bind_Ok. exists k2, s', d', (q ++ bs), []. split_and!; try done; try (by rewrite app_nil_r); cbn; lia.
Qed.

Lemma isr_run_ok fuel evs : ∀ k s (d : D) u pend q bs n,
  Forall kevent_ok evs → kb_codes d = concat (encode <$> evs) → ring k u pend →
  blocked rq bq U s q bs n → Z.of_nat n < 4294967295 → (length bs ≤ fuel)%nat →
  ∃ k' s' d' q' bs', isr_run (length evs) (S fuel) k s d = Ok (k', s', d') ∧ kb_codes d' = [] ∧
    ring k' u (fold_left pend_add (typed (shift_pressed k) evs) pend) ∧ blocked rq bq U s' q' bs' n ∧
    q' ++ bs' = q ++ bs ∧ (length bs' ≤ length bs)%nat ∧ (typed (shift_pressed k) evs ≠ [] → bs' = []) ∧
    only_two_queues rq bq U (s_mem s) (s_mem s').
Proof using HU HB Hqq.
  induction evs as [|e evs IH]; intros k s d u pend q bs n He Hc R Hb Hn Hf; cbn [length isr_run typed].
  { exists k, s, d, q, bs. split_and!; try done. }
  apply Forall_cons in He as [He Hes]. cbn [fmap list_fmap concat] in Hc.
  destruct (ps2_isr_ok fuel k s d e _ u pend q bs n He Hc R Hb Hn Hf)
    as (k1 & s1 & d1 & q1 & bs1 & E1 & C1 & R1 & Sh1 & B1 & Q1 & L1 & T1 & M1). rewrite E1, bind_Ok.
  destruct (IH k1 s1 d1 u _ q1 bs1 n Hes C1 R1 B1 Hn) as (k' & s' & d' & q' & bs' & E' & C' & R' & B' & Q' & L' & T' & M'); [lia|].
  rewrite Sh1 in R', T'. exists k', s', d', q', bs'. split; [done|]. split; [done|].
  split; [by rewrite fold_left_app|]. split; [done|]. split; [congruence|]. split; [lia|]. split.
  - intros Ht. destruct (decide (typed (shift_after (shift_pressed k) e) evs = [])) as [E|E]; [|by apply T'].
    rewrite E, app_nil_r in Ht. rewrite (T1 Ht) in L'. by destruct bs'; [|cbn in L'; lia].
  - intros x X1 X2 X3. by rewrite M', M1.
Qed.

(** What is typed is what is read.  A process has the keyboard open and has
    read everything; then the controller delivers the scan codes of any sequence
    of key presses and releases (shift included) and the interrupt handler runs
    once per key event.  It terminates, wakes every process that waits for the
    keyboard, and the next read returns exactly the text typed, up to the length
    asked for, provided it is at most 127 characters long. *)
Theorem keyboard_delivers (fuel : nat) (evs : list kevent) (k : PS2Device) (s : sched) (d : D) (q bs : list Z) (n : nat)
    (main_proc file user dest len : Z) (c : cpu) :
  Forall kevent_ok evs → kb_codes d = concat (encode <$> evs) →
  blocked rq bq U s q bs n → Z.of_nat n < 4294967295 → (length bs ≤ fuel)%nat →
  rd64 (s_mem s) (file + off_private_data) = user → ring k (user_pos (s_mem s) user) [] →
  (∀ x, (file + 16 ≤ x < file + 24) ∨ (user + 8 ≤ x < user + 16) →
    ¬ (rq ≤ x < rq + 16) ∧ ¬ (bq ≤ x < bq + 16) ∧ ∀ p, p ∈ U → ¬ (p ≤ x < p + 16)) →
  apart dest len (user + 8) 8 →
  let text := typed (shift_pressed k) evs in
  text ≠ [] → (length text ≤ 127)%nat → 0 < len →
  ∃ k' s' d' q' s'', isr_run (length evs) (S fuel) k s d = Ok (k', s', d') ∧ kb_codes d' = [] ∧
    blocked rq bq U s' q' [] n ∧ q' = q ++ bs ∧
    ps2_read main_proc rq bq file dest len k' c s' d' = Ok (ReadDone (Z.min len (Z.of_nat (length text))) s'') ∧
    (∀ i x, i < Z.to_nat len → text !! i = Some x → rd8 (s_mem s'') (dest + Z.of_nat i) = x)%nat.
Proof using HU HB Hqq.
  intros He Hc Hb Hn Hf Hfile R Hsafe Ha text Ht0 Ht Hlen.
  destruct (isr_run_ok fuel evs k s d _ [] q bs n He Hc R Hb Hn Hf)
    as (k' & s' & d' & q' & bs' & E & C' & R' & B' & Q' & _ & T' & M'). fold text in R', T'.
  rewrite (pend_adds text []) in R' by done. cbn [app] in R'. rewrite (T' Ht0) in *. rewrite app_nil_r in Q'.
  assert (Hfile' : rd64 (s_mem s') (file + off_private_data) = user).
  { rewrite <- Hfile. apply rd_le_ext. intros b Hbb. unfold off_private_data in Hbb. cbn in Hbb.
    destruct (Hsafe b) as (X1 & X2 & X3); [left; lia|]. by apply M'. }
  assert (Hpos : user_pos (s_mem s') user = user_pos (s_mem s) user).
  { apply rd_le_ext. intros b Hbb. cbn in Hbb. destruct (Hsafe b) as (X1 & X2 & X3); [right; lia|]. by apply M'. }
  exists k', s', d', q'. unfold ps2_read. rewrite Hfile'. set (s1 := s_on_irq IRQ_disable s').
  rewrite (has_bytes_ring k' user (s_mem s1) text) by (by rewrite <- Hpos in R').
  rewrite bool_decide_false by done. cbn [negb].
  destruct (ps2_copy_ok k' user (Z.to_nat len) dest (s_mem s1) text) as (m' & E' & H1 & _).
  { by rewrite <- Hpos in R'. } { rewrite Z2Nat.id by lia. done. } { apply typed_range. }
  rewrite E', bind_Ok. cbn [fst snd]. eexists. split; [done|]. split; [done|]. split; [done|].
  split; [done|]. split.
  - do 2 f_equal. rewrite length_take. lia.
  - intros i x Hi Hx. apply H1. by rewrite lookup_take_lt.
Qed.
End Typing.

(** ** Any controller *)

(** The types of the driver's fields: the buffer has 128 ASCII characters, the
    positions are inside it, shift is a boolean. *)
Record kb_typed (k : PS2Device) (u : Z) : Prop := {
  kt_len : length (ps2_data k) = 128%nat;
  kt_chars : Forall (fun c => 0 ≤ c < 128) (ps2_data k);
  kt_pos : 0 ≤ ps2_pos k < 128;
  kt_shift : shift_pressed k = 0 ∨ shift_pressed k = 1;
  kt_user : 0 ≤ u < 128
}.

(** The interrupt arrives, or the process copies at most [len] characters. *)
Inductive kb_op := KIsr | KCopy (dest len : Z).

Section Anything.
Context {D : Type} `{Hport : PortIO D}.
Context (rq bq : Z) (U : list Z).
Hypothesis HU : universe rq U.
Hypothesis HB : universe bq U.
Hypothesis Hqq : apart rq 24 bq 24.

(** With the texts that are copied. *)
Fixpoint kb_run (fuel : nat) (user : Z) (ops : list kb_op) (k : PS2Device) (s : sched) (d : D) :
    outcome (list (list Z) * (PS2Device * sched * D)) :=
  match ops with
  | [] => Ok ([], (k, s, d))
  | KIsr :: ops => r ← ps2_isr fuel rq bq k s d; let '(k, s, d) := r in kb_run fuel user ops k s d
  | KCopy dest len :: ops =>
      r ← ps2_copy (Z.to_nat len) user dest k (s_mem s);
      rest ← kb_run fuel user ops k (s_set_mem s r.2) d;
      Ok (((fun i => rd8 r.2 (dest + i)) <$> seqZ 0 (r.1 - dest)) :: rest.1, rest.2)
  end.

Lemma producer_add_typed c k u : kb_typed k u → 0 ≤ c < 128 → ∃ k', producer_add c k = Ok k' ∧ kb_typed k' u.
Proof using.
  clear. intros [Hl Hc Hp Hs Hu] Hr. unfold producer_add. rewrite upd_Ok, bind_Ok by lia. eexists. split; [done|].
  split; cbn [ps2_data ps2_pos shift_pressed]; [by rewrite length_insert|by apply Forall_insert| |done|done].
  rewrite PS2_BUFF_POS_mod by done. apply Z.mod_pos_bound. lia.
Qed.

Lemma read_char_typed fuel k u (d : D) : kb_typed k u →
  match ps2_read_char fuel k d with Ok (c, (k', _)) => 0 ≤ c < 128 ∧ kb_typed k' u | Hang => True | Fault => False end.
Proof using.
  clear. intros T.
  assert (Hw : ∀ f (d : D), match ps2_wait_readable f d with Fault => False | _ => True end).
  { induction f as [|f IH]; intros d0; cbn [ps2_wait_readable]; [done|]. destruct (inb PS2_STATUS_PORT d0) as [v d1].
    destruct (truth _); [done|apply IH]. }
  assert (Hr : ∀ (d : D), match ps2_read_data_p1 fuel d with Fault => False | _ => True end).
  { intros d0. unfold ps2_read_data_p1. specialize (Hw fuel d0). by destruct (ps2_wait_readable fuel d0). }
  assert (Hset : ∀ b, b = 0 ∨ b = 1 → kb_typed (ps2_set_shift k b) u) by (intros b Hb; destruct T; by split).
  unfold ps2_read_char. destruct (ps2_char_avail d) as [[|] d1]; cbn [negb]; [|by split].
  pose proof (Hr d1) as H1. destruct (ps2_read_data_p1 fuel d1) as [[x d2]| |]; [rewrite bind_Ok|done|done].
  destruct (negb (is_shift x) && negb (x =? RELEASED_SCAN_CODE)).
  { split; [|done]. pose proof (translate_range (shift_pressed k) x). lia. }
  destruct (x =? RELEASED_SCAN_CODE).
  - pose proof (Hr d2) as H2. destruct (ps2_read_data_p1 fuel d2) as [[y d3]| |]; [rewrite bind_Ok|done|done]. split; [lia|].
    destruct (is_shift x), (is_shift y); try done; apply Hset; lia.
  - split; [lia|]. destruct (is_shift x); [apply Hset; lia|done].
Qed.

Lemma ps2_copy_typed k user : ∀ n curr m,
  kb_typed k (user_pos m user) → apart curr (Z.of_nat n) (user + 8) 8 →
  ∃ r m', ps2_copy n user curr k m = Ok (r, m') ∧ curr ≤ r ≤ curr + Z.of_nat n ∧ kb_typed k (user_pos m' user) ∧
    (∀ x, curr ≤ x < r → 0 ≤ rd8 m' x < 128) ∧
    (∀ x, ¬ (curr ≤ x < curr + Z.of_nat n) → ¬ (user + 8 ≤ x < user + 16) → rd8 m' x = rd8 m x).
Proof using.
  clear. induction n as [|n IH]; intros curr m T Ha; cbn [ps2_copy]; [exists curr, m; split_and!; try done; lia|].
  destruct (consumer_has_bytes k user m); [|exists curr, m; split_and!; try done; lia].
  pose proof T as [Hl Hc Hp Hs Hu]. unfold consumer_read_next.
  destruct (lookup_lt_is_Some_2 (ps2_data k) (Z.to_nat (user_pos m user))) as [c Ec]; [lia|].
  rewrite (proj2 (idx_Ok _ _ _) Ec), !bind_Ok. cbn [fst snd]. rewrite PS2_BUFF_POS_mod by done.
  pose proof (Forall_lookup_1 _ _ _ _ Hc Ec) as Hcc. cbn beta in Hcc. set (u := user_pos m user) in *. set (m1 := wr8 _ curr c).
  pose proof (Z.mod_pos_bound (u + 1) 128 ltac:(lia)) as Hu'.
  assert (Hu1 : user_pos m1 user = (u + 1) mod 128).
  { unfold user_pos, m1. transitivity (rd64 (wr64 m (user + 8) ((u + 1) mod 128)) (user + 8)).
    - apply rd_le_ext. intros b Hbb. apply rd8_wr8_ne. unfold apart in Ha. cbn in Hbb. lia.
    - rewrite rd64_wr64_eq. apply u64_small. lia. }
  destruct (IH (curr + 1) m1) as (r & m' & E & H1 & H2 & H3 & H4); [rewrite Hu1; by split|unfold apart in *; lia|].
  exists r, m'. split; [done|]. split; [lia|]. split; [done|]. split.
  - intros x Hx. destruct (decide (x = curr)) as [->|]; [|apply H3; lia].
    rewrite H4 by (unfold apart in *; lia). unfold m1. rewrite rd8_wr8_eq, u8_small; lia.
  - intros x X1 X2. rewrite H4 by lia. unfold m1. rewrite rd8_wr8_ne by lia. unfold wr64. apply rd8_wr_le_out. cbn. lia.
Qed.

(** The queues' memory. *)
Definition queue_byte (x : Z) : Prop := rq ≤ x < rq + 24 ∨ bq ≤ x < bq + 24 ∨ ∃ p, p ∈ U ∧ p ≤ x < p + 16.

Lemma blocked_mem s q bs n m' :
  (∀ x, queue_byte x → rd8 m' x = rd8 (s_mem s) x) → blocked rq bq U s q bs n → blocked rq bq U (s_set_mem s m') q bs n.
Proof using.
  clear. intros Hm [[Rl Ru Ri] Bl Bu Nd]. split; [split; [|done|done]| |done|done]; cbn [s_set_mem s_mem].
  - eapply list_rep_ext; [| |exact Rl].
    + intros x Hx. apply Hm. left. lia.
    + intros p x Hp Hx. apply Hm. right. right. exists p. split; [by apply Ru|unfold off_queue in Hx; lia].
  - eapply list_rep_ext; [| |exact Bl].
    + intros x Hx. apply Hm. right. left. lia.
    + intros p x Hp Hx. apply Hm. right. right. exists p. split; [by apply Bu|unfold off_queue in Hx; lia].
Qed.

(** C18: the keyboard driver is type safe against any controller.  Whatever bytes
    the ports deliver and however interrupts and reads alternate, no access
    leaves the ring buffer, the positions and the shift flag keep their ranges,
    every byte given to a reader is an ASCII character and no read returns more
    than was asked for.  The only thing a controller can do is to let the
    handler poll without end. *)
Theorem keyboard_type_safe (fuel : nat) (user : Z) (ops : list kb_op) : ∀ (k : PS2Device) (s : sched) (d : D) (q bs : list Z) (n : nat),
  kb_typed k (user_pos (s_mem s) user) → blocked rq bq U s q bs n → Z.of_nat n < 4294967295 → (length bs < fuel)%nat →
  (∀ x, user + 8 ≤ x < user + 16 → ¬ queue_byte x) →
  Forall (fun o => match o with
    | KIsr => True
    | KCopy dest len => 0 ≤ len ∧ apart dest len (user + 8) 8 ∧ ∀ x, dest ≤ x < dest + len → ¬ queue_byte x
    end) ops →
  match kb_run fuel user ops k s d with
  | Ok (out, (k', s', _)) =>
      kb_typed k' (user_pos (s_mem s') user) ∧ (∃ q' bs', blocked rq bq U s' q' bs' n) ∧
      Forall (Forall (fun c => 0 ≤ c < 128)) out ∧
      Forall2 (fun o l => Z.of_nat (length l) ≤ o) (omap (fun o => match o with KIsr => None | KCopy _ len => Some len end) ops) out
  | Hang => True
  | Fault => False
  end.
Proof using HU HB Hqq.
  induction ops as [|[|dest len] ops IH]; intros k s d q bs n T B Hn Hf Hu Ho; cbn [kb_run omap list_omap].
  - split; [done|]. split; [by exists q, bs|]. by split.
  - apply Forall_cons in Ho as [_ Ho]. unfold ps2_isr. pose proof (read_char_typed fuel k _ d T) as Hr.
    destruct (ps2_read_char fuel k d) as [[c [k1 d1]]| |]; [rewrite bind_Ok|done|done]. destruct Hr as [Hc T1].
    destruct (c =? 0); [rewrite bind_Ok; by apply (IH k1 s d1 q bs n)|].
    destruct (producer_add_typed c k1 _ T1 Hc) as (k2 & E2 & T2). rewrite E2, bind_Ok.
    destruct (PROC_unblock_all_ok rq bq U HU HB Hqq s q bs n fuel B Hn Hf) as (s' & E3 & B3 & _ & _ & M3). rewrite E3, !bind_Ok.
    apply (IH k2 s' d1 (q ++ bs) [] n); try done; [|cbn; lia].
    assert (Hp : user_pos (s_mem s') user = user_pos (s_mem s) user); [|by rewrite Hp].
    apply rd_le_ext. intros x Hx. cbn in Hx. specialize (Hu x ltac:(lia)).
    apply M3; [intros Hx'; apply Hu; left; lia|intros Hx'; apply Hu; right; left; lia|intros p Hp Hx'; apply Hu; right; right; by exists p].
  - apply Forall_cons in Ho as [(Hl & Ha & Hd) Ho].
    destruct (ps2_copy_typed k user (Z.to_nat len) dest (s_mem s) T) as (r & m' & E & H1 & H2 & H3 & H4); [by rewrite Z2Nat.id|].
    rewrite E, bind_Ok. cbn [fst snd]. rewrite Z2Nat.id in * by done.
    specialize (IH k (s_set_mem s m') d q bs n H2). destruct (kb_run fuel user ops k (s_set_mem s m') d) as [[out [[k' s'] d']]| |]; [rewrite bind_Ok| |].
    + destruct IH as (I1 & I2 & I3 & I4); try done.
      { apply blocked_mem; [|done]. intros x Hx. apply H4; intros Hx'; [by apply (Hd x)|by apply (Hu x)]. }
      split; [done|]. split; [done|]. cbn [fst]. split; [constructor; [|done]|constructor; [|done]].
      * apply Forall_forall. intros c (i & -> & Hi%elem_of_seqZ)%list_elem_of_fmap. apply H3. lia.
      * rewrite length_fmap, length_seqZ. lia.
    + apply IH; try done. apply blocked_mem; [|done]. intros x Hx. apply H4; intros Hx'; [by apply (Hd x)|by apply (Hu x)].
    + done.
Qed.
End Anything.

(** A controller that holds a list of scan codes. *)
#[export] Instance code_ports : PortIO (list Z) := {|
  port_in _ p d := if p =? PS2_STATUS_PORT then (match d with [] => 0 | _ => 1 end, d)
                   else match d with [] => (0, []) | c :: d => (c, d) end;
  port_out _ _ _ d := d
|}.

#[export] Instance code_controller : Ps2Controller (list Z).
Proof.
  refine {| kb_codes d := u8 <$> d |}.
  - intros [|c d]; by vm_compute.
  - intros [|x d] c r [= <- <-]. by split.
Defined.

(** The process 0x2000 waits for the keyboard, opened as the file at 0x5000. *)
Definition demo_reader : sched := s_set_mem demo_blocked (wr64 (s_mem demo_blocked) 0x5010 0x6000).

Lemma demo_reader_ok : blocked 0x200 0x100 [0x1000; 0x2000] demo_reader [] [0x2000] 0.
Proof.
  destruct demo_blocked_ok as [[Rl Ru Ri] Bl Bu Nd].
  assert (Hm : ∀ x, x < 0x5010 → rd8 (s_mem demo_reader) x = rd8 (s_mem demo_blocked) x).
  { intros x Hx. cbn [demo_reader s_set_mem s_mem]. unfold wr64. apply rd8_wr_le_out. lia. }
  split; [split; [|done|exact Ri]| |done|done].
  - eapply list_rep_ext; [| |exact Rl]; intros; [apply Hm; lia|by match goal with H : _ ∈ [] |- _ => apply elem_of_nil in H end].
  - eapply list_rep_ext; [| |exact Bl].
    + intros x Hx. apply Hm. lia.
    + intros p x ->%list_elem_of_singleton Hx. apply Hm. unfold off_queue in Hx. lia.
Qed.

(** Shift down, a, shift up, b: the reader gets Ab. *)
Lemma keyboard_delivers_witness :
  ∃ k' s' d' s'', isr_run 0x200 0x100 5 2 (mkPs2 0 (replicate 128 0) 0 1) demo_reader
      [0x12; 0x1c; 0xf0; 0x12; 0x32; 0xf0; 0x32] = Ok (k', s', d') ∧
    ps2_read 0 0x200 0x100 0x5000 0x7000 10 k' demo_cpu s' d' = Ok (ReadDone 2 s'') ∧
    rd8 (s_mem s'') 0x7000 = 65 ∧ rd8 (s_mem s'') 0x7001 = 98.
Proof.
  destruct (keyboard_delivers 0x200 0x100 [0x1000; 0x2000] demo_universe2 demo_universe) with
    (fuel := 1%nat) (evs := [KDown 0x12; KDown 0x1c; KUp 0x12; KDown 0x32; KUp 0x32])
    (k := mkPs2 0 (replicate 128 0) 0 1) (s := demo_reader) (d := [0x12; 0x1c; 0xf0; 0x12; 0x32; 0xf0; 0x32])
    (q := [] : list Z) (bs := [0x2000]) (n := 0%nat) (main_proc := 0) (file := 0x5000) (user := 0x6000)
    (dest := 0x7000) (len := 10) (c := demo_cpu)
    as (k' & s' & d' & q' & s'' & E & _ & _ & _ & E' & H).
  - unfold apart. lia.
  - repeat constructor; vm_compute; congruence.
  - done.
  - exact demo_reader_ok.
  - lia.
  - cbn. lia.
  - cbn [demo_reader s_set_mem s_mem]. unfold off_private_data. rewrite rd64_wr64_eq. done.
  - replace (user_pos (s_mem demo_reader) 0x6000) with 0 by (by vm_compute).
    split; [apply length_replicate|lia|cbn; lia|done|]. intros i x Hi. by rewrite lookup_nil in Hi.
  - intros x Hx. split; [lia|]. split; [lia|]. intros p Hp. rewrite !elem_of_cons, elem_of_nil in Hp. lia.
  - unfold apart. lia.
  - vm_compute. congruence.
  - vm_compute. lia.
  - lia.
  - exists k', s', d', s''. split; [exact E|]. split; [exact E'|]. split.
    + apply (H 0%nat 65); [lia|by vm_compute].
    + apply (H 1%nat 98); [lia|by vm_compute].
Defined.

Lemma demo_typed : kb_typed (mkPs2 0 (replicate 128 0) 0 1) (user_pos (s_mem demo_reader) 0x6000).
Proof.
  assert (E : user_pos (s_mem demo_reader) 0x6000 = 0) by (vm_compute; reflexivity). rewrite E.
  split; cbn [ps2_data ps2_pos shift_pressed]; [done|apply Forall_replicate; lia|lia|by left|lia].
Qed.

(** A controller that types garbage: a stray release prefix and unknown codes. *)
Lemma keyboard_type_safe_witness :
  ∃ out k' s' d', kb_run 0x200 0x100 2 0x6000 [KIsr; KIsr; KIsr; KCopy 0x7000 10] (mkPs2 0 (replicate 128 0) 0 1) demo_reader [0xff; 0xf0; 0x99; 0x00] =
      Ok (out, (k', s', d')) ∧ out = [[63; 63]] ∧ kb_typed k' (user_pos (s_mem s') 0x6000).
Proof.
  pose proof (keyboard_type_safe 0x200 0x100 [0x1000; 0x2000] demo_universe2 demo_universe ltac:(unfold apart; lia) 2 0x6000
    [KIsr; KIsr; KIsr; KCopy 0x7000 10] (mkPs2 0 (replicate 128 0) 0 1) demo_reader [0xff; 0xf0; 0x99; 0x00] [] [0x2000] 0) as H.
  assert (Hq : ∀ x, 0x6000 ≤ x → ¬ queue_byte 0x200 0x100 [0x1000; 0x2000] x).
  { intros x Hx [?|[?|(p & Hp & ?)]]; [lia|lia|]. rewrite !elem_of_cons, elem_of_nil in Hp. lia. }
  specialize (H demo_typed demo_reader_ok ltac:(lia) ltac:(cbn; lia)).
  specialize (H ltac:(intros x Hx; apply Hq; lia)).
  specialize (H ltac:(constructor; [done|]; constructor; [done|]; constructor; [done|]; constructor; [|constructor]; unfold apart;
    split; [lia|]; split; [lia|]; intros x Hx; apply Hq; lia)).
  assert (E : match kb_run 0x200 0x100 2 0x6000 [KIsr; KIsr; KIsr; KCopy 0x7000 10] (mkPs2 0 (replicate 128 0) 0 1) demo_reader [0xff; 0xf0; 0x99; 0x00] with
    Ok (o, _) => Some o | _ => None end = Some [[63; 63]]) by (vm_compute; reflexivity).
  destruct (kb_run 0x200 0x100 2 0x6000 _ _ _ _) as [[out [[k' s'] d']]| |]; [|discriminate E|discriminate E].
  injection E as ->. exists [[63; 63]], k', s', d'. split; [reflexivity|]. split; [reflexivity|exact (proj1 H)].
Defined.
