(* ===== verification/Fs.v ===== *)
(** * Files and block devices (src/src/fs.c, fs.h)

    Registration of devices on intrusive lists, opening by name, and the
    partitions of a master boot record. *)

From S2P Require Import Prelude Memory CString LinkedList Segments Machine Kmalloc.

(** ** Layout *)

(** [struct CharDev], [struct BlockDev], [struct PartBlockDev]. *)
Definition off_cdev_inode : Z := 8.
Definition off_cdev_list : Z := 16.
Definition sizeof_CharDev : Z := 32.
Definition off_blk_size : Z := 8.
Definition off_total_len : Z := 16.
Definition off_bdev_name : Z := 24.
Definition off_bdev_type : Z := 32.
Definition off_fs_type : Z := 36.
Definition off_bdev_list : Z := 40.
Definition off_phys_dev : Z := 56.
Definition off_sect_start : Z := 64.
Definition sizeof_PartBlockDev : Z := 72.
Definition PARTITION : Z := 1.

(** [struct INode], [struct OFile], [struct FileOps]. *)
Definition off_inode_type : Z := 8.
Definition off_inode_dev : Z := 16.
Definition off_inode_name : Z := 24.
Definition off_inode_list : Z := 32.
Definition sizeof_INode : Z := 56.
Definition off_ofile_fops : Z := 8.
Definition off_fops_close : Z := 8.
Definition off_fops_read : Z := 16.
Definition FILE_TYPE_CHAR_DEVICE : Z := 99.

(** [struct MasterBootRecord]: partition [i], its fields, and the signature. *)
Definition mbr_part (mbr i : Z) : Z := mbr + 446 + 16 * i.
Definition mbr_sig (m : mem) (mbr : Z) : Z := rd16 m (mbr + 510).
Definition part_type (m : mem) (p : Z) : Z := rd8 m (p + 4).
Definition part_start (m : mem) (p : Z) : Z := rd32 m (p + 8).
Definition part_sectors (m : mem) (p : Z) : Z := rd32 m (p + 12).

Definition FS_TYPE_FAT32 : Z := 0x0C.

(** [struct Files]: three lists. *)
Definition f_inodes (files : Z) : Z := files.
Definition f_blocks (files : Z) : Z := files + 24.
Definition f_chars (files : Z) : Z := files + 48.

(** [LINKED_LIST_INIT]: the head points at the head of the list named, which
    for [chars] is that of [blocks]. *)
Definition linked_list_init (m : mem) (list named off : Z) : mem :=
  wr64 (set_prv (set_nxt m list named) list named) (list + 16) off.

Definition files_init (m : mem) (files : Z) : mem :=
  let m := linked_list_init m (f_inodes files) (f_inodes files) off_inode_list in
  let m := linked_list_init m (f_blocks files) (f_blocks files) off_bdev_list in
  linked_list_init m (f_chars files) (f_blocks files) off_cdev_list.

(** ** The code *)

Section Code.
Context {PS : Type} `{Hps : PageSource PS}.

(** Memory, the page source behind [kmalloc], and the log. *)
Record fss := mkFs { fs_mem : mem; fs_ps : PS; fs_log : klogs }.

Definition fs_klog (lvl : Z) (msg : string) (s : fss) : fss := mkFs (fs_mem s) (fs_ps s) (klog lvl msg (fs_log s)).
Definition fs_set_mem (s : fss) (m : mem) : fss := mkFs m (fs_ps s) (fs_log s).

(** [files], the pools of kmalloc.c, and the code of [part_read_block]. *)
Context (files pools part_read_block_addr : Z).

Definition fs_kmalloc (size : Z) (s : fss) : outcome (Z * fss) :=
  r ← kmalloc pools size (fs_mem s) (fs_ps s); Ok (r.1, mkFs r.2.1 r.2.2 (fs_log s)).

Definition fs_kfree (p : Z) (s : fss) : outcome fss :=
  r ← kfree p (fs_mem s) (fs_ps s); Ok (mkFs r.1 r.2 (fs_log s)).

(** [read_block] calls the function at a pointer: device, block, destination. *)
Definition part_read_block (read_block : Z → Z → Z → Z → fss → outcome (Z * fss)) (dev blk_num dst : Z) (s : fss) :
    outcome (Z * fss) :=
  let phys := rd64 (fs_mem s) (dev + off_phys_dev) in
  read_block (rd64 (fs_mem s) phys) phys (u64 (blk_num + rd64 (fs_mem s) (dev + off_sect_start))) dst s.

Definition FS_cdev_init (cdev fops : Z) (s : fss) : fss :=
  fs_set_mem s (wr64 (memset (fs_mem s) cdev 0 sizeof_CharDev).1 cdev fops).

Definition FS_register_cdev (cdev name : Z) (s : fss) : outcome (Z * fss) :=
  r ← fs_kmalloc sizeof_INode s;
  let '(new, s) := r in
  if new =? NULL then Ok (-1, s)
  else
    let m := fs_mem s in
    let m := wr64 m new (rd64 m cdev) in
    let m := wr64 m (new + off_inode_dev) cdev in
    let m := wr64 m (new + off_inode_name) name in
    let m := wr32 m (new + off_inode_type) FILE_TYPE_CHAR_DEVICE in
    let m := wr64 m (cdev + off_cdev_inode) new in
    let m := LL_enqueue m (f_inodes files) new in
    let m := LL_enqueue m (f_chars files) cdev in
    Ok (0, fs_set_mem s m).

Definition BLK_register (bdev : Z) (s : fss) : fss :=
  fs_set_mem s (LL_enqueue (fs_mem s) (f_blocks files) bdev).

(** The loop of [BLK_open] and [FS_open]: the first element of the list [L]
    whose name, at offset [off], is [name]. *)
Fixpoint find_by_name (fuel sfuel : nat) (m : mem) (L off curr name : Z) : outcome Z :=
  match fuel with
  | O => Hang
  | S fuel =>
      if LL_nhead m L curr =? L then Ok NULL
      else
        r ← strcmp sfuel m name (rd64 m (curr + off));
        if r =? 0 then Ok curr
        else find_by_name fuel sfuel m L off (LL_ndata m L (nxt m (LL_nhead m L curr))) name
  end.

Definition BLK_open (fuel sfuel : nat) (name : Z) (s : fss) : outcome (Z * fss) :=
  let m := fs_mem s in
  r ← find_by_name fuel sfuel m (f_blocks files) off_bdev_name (LL_ndata m (f_blocks files) (nxt m (f_blocks files))) name;
  if r =? NULL then Ok (NULL, fs_klog KLOG_LEVEL_DEBUG "failed to open block device %s" s)
  else Ok (r, s).

(** A device's own functions work on the whole machine [W], of which the file
    layer sees memory, page source and log; [R] is what such a call leads to. *)
Context {W : Type} (w_fs : W → fss) (w_set_fs : W → fss → W).

(** [call_open] calls the function at a pointer with an inode and a file. *)
Definition FS_open (call_open : Z → Z → Z → W → outcome (Z * W)) (fuel sfuel : nat) (name : Z) (w : W) :
    outcome (Z * W) :=
  let s := w_fs w in
  let m := fs_mem s in
  curr ← find_by_name fuel sfuel m (f_inodes files) off_inode_name (LL_ndata m (f_inodes files) (nxt m (f_inodes files))) name;
  let failed w := w_set_fs w (fs_klog KLOG_LEVEL_DEBUG "failed to open file %s" (w_fs w)) in
  if curr =? NULL then Ok (NULL, failed w)
  else
    r ← fs_kmalloc sizeof_INode s;
    let '(new, s) := r in
    if new =? NULL then Ok (NULL, failed (w_set_fs w s))
    else
      let m := wr64 (fs_mem s) new curr in
      let m := wr64 m (new + off_ofile_fops) (rd64 m curr) in
      r ← call_open (rd64 m (rd64 m curr)) curr new (w_set_fs w (fs_set_mem s m));
      Ok (new, if r.1 <? 0 then failed r.2 else r.2).

Definition FS_read {R} (call : Z → Z → Z → Z → W → outcome R) (file buff len : Z) (w : W) : outcome R :=
  let m := fs_mem (w_fs w) in
  call (rd64 m (rd64 m (file + off_ofile_fops) + off_fops_read)) file buff len w.

Definition FS_close {R} (call : Z → Z → W → outcome R) (file : Z) (w : W) : outcome R :=
  let m := fs_mem (w_fs w) in
  call (rd64 m (rd64 m (file + off_ofile_fops) + off_fops_close)) file w.

(** Lines 44-50: the fields of the partition [new] from the table entry [p]. *)
Definition part_fill (new dev p : Z) (m : mem) : mem :=
  let m := wr64 m (new + off_phys_dev) dev in
  let m := wr64 m (new + off_sect_start) (part_start m p) in
  let m := wr64 m (new + off_blk_size) (rd64 m (dev + off_blk_size)) in
  let m := wr64 m (new + off_total_len) (u64 (part_sectors m p * rd64 m (dev + off_blk_size))) in
  let m := wr32 m (new + off_bdev_type) PARTITION in
  let m := wr8 m (new + off_fs_type) (part_type m p) in
  wr64 m new part_read_block_addr.

(** Lines 56-60: the name of the disk, an underscore and the number. *)
Definition part_name (sfuel : nat) (i dev nm : Z) (m : mem) : outcome mem :=
  name ← strlen sfuel m (rd64 m (dev + off_bdev_name));
  r ← strcpy sfuel m nm (rd64 m (dev + off_bdev_name));
  let m := wr8 r.1 (nm + i32 name) 95 in
  let m := wr8 m (nm + i32 name + 1) (49 + i) in
  Ok (wr8 m (nm + i32 name + 2) 0).

(** Lines 41-63 for the entry [i]: false where the code returns -1. *)
Definition add_partition (sfuel : nat) (i dev mbr : Z) (s : fss) : outcome (bool * fss) :=
  r ← fs_kmalloc sizeof_PartBlockDev s;
  let '(new, s) := r in
  if new =? NULL then Ok (false, s)
  else
    r ← fs_kmalloc 20 (fs_set_mem s (part_fill new dev (mbr_part mbr i) (fs_mem s)));
    let '(nm, s) := r in
    let s := fs_set_mem s (wr64 (fs_mem s) (new + off_bdev_name) nm) in
    if nm =? NULL then s ← fs_kfree new s; Ok (false, s)
    else
      m ← part_name sfuel i dev nm (fs_mem s);
      let s := fs_klog KLOG_LEVEL_INFO "partition %s with fs type 0x%X at sector 0x%lX with size %ld detected" (fs_set_mem s m) in
      Ok (true, BLK_register new s).

(** Lines 37-64: the partitions from [i] on, of which [k] are left. *)
Fixpoint mbr_loop (k : nat) (i : Z) (sfuel : nat) (dev mbr : Z) (s : fss) : outcome (Z * fss) :=
  match k with
  | O => Ok (0, s)
  | S k =>
      if part_start (fs_mem s) (mbr_part mbr i) =? 0 then mbr_loop k (i + 1) sfuel dev mbr s
      else
        r ← add_partition sfuel i dev mbr s;
        let '(ok, s) := r in
        if (ok : bool) then mbr_loop k (i + 1) sfuel dev mbr s else Ok (-1, s)
  end.

Definition FS_process_mbr (sfuel : nat) (dev mbr : Z) (s : fss) : outcome (Z * fss) :=
  if negb (mbr_sig (fs_mem s) mbr =? 0xaa55) then
    Ok (-1, fs_klog KLOG_LEVEL_WARN "%s device does not have valid MBR signature" s)
  else mbr_loop 4 0 sfuel dev mbr s.

(** [register_fat32] stands for the FAT component. *)
Definition FS_register_fs (register_fat32 : Z → fss → outcome (Z * fss)) (blk : Z) (s : fss) : outcome (Z * fss) :=
  if rd8 (fs_mem s) (blk + off_fs_type) =? FS_TYPE_FAT32 then register_fat32 blk s
  else Ok (-1, fs_klog KLOG_LEVEL_WARN "partition type %x not supported" s).
End Code.
Arguments fss : clear implicits.
Arguments mkFs {PS}.

(** ** Opening by name *)

(** The first device of the list whose name is [s]. *)
Definition first_named (nm : Z → list Z) (s : list Z) (ds : list Z) : Z :=
  default NULL (head (filter (fun d => nm d = s) ds)).

Lemma filter_none {A} (P : A → Prop) `{!∀ x, Decision (P x)} l : (∀ x, x ∈ l → ¬ P x) → filter P l = [].
Proof.
  induction l as [|x l IH]; intros Hl; [done|].
  rewrite filter_cons_False by (apply Hl; left). apply IH. intros y Hy. apply Hl. by right.
Qed.

Lemma first_named_last nm ds d : (∀ e, e ∈ ds → nm e ≠ nm d) → first_named nm (nm d) (ds ++ [d]) = d.
Proof.
  intros Hne. unfold first_named. rewrite filter_app.
  replace (filter (fun e => nm e = nm d) ds) with ([] : list Z).
  - cbn [app]. by rewrite filter_cons_True.
  - symmetry. by apply filter_none.
Qed.

Lemma first_named_none nm s ds : s ∉ (nm <$> ds) → first_named nm s ds = NULL.
Proof.
  intros Hno. unfold first_named. replace (filter (fun d => nm d = s) ds) with ([] : list Z); [done|].
  symmetry. apply filter_none. intros d Hd E. apply Hno, list_elem_of_fmap. by exists d.
Qed.

Lemma strcmp_cases sfuel m a b s t :
  cstr m a s → cstr m b t → (length s < sfuel)%nat → ∃ r, strcmp sfuel m a b = Ok r ∧ (r =? 0) = bool_decide (s = t).
Proof.
  intros Hs Ht Hf. destruct (strcmp_ok sfuel m a b s t Hs Ht Hf) as (r & E & Hr). exists r. split; [done|].
  case_bool_decide; [by apply Z.eqb_eq, Hr|]. apply Z.eqb_neq. by rewrite Hr.
Qed.

Lemma find_by_name_ok sfuel m L off name s nm : cstr m name s → (length s < sfuel)%nat → ∀ fuel curr ds,
  LL_for_each_from fuel m L curr = Ok ds → (∀ d, d ∈ ds → cstr m (rd64 m (d + off)) (nm d)) →
  find_by_name fuel sfuel m L off curr name = Ok (first_named nm s ds).
Proof.
  intros Hs Hsf. induction fuel as [|fuel IH]; intros curr ds Hf Hn; [done|].
  cbn [LL_for_each_from find_by_name] in *. destruct (LL_nhead m L curr =? L); [by injection Hf as <-|].
  set (nx := LL_ndata m L (nxt m (LL_nhead m L curr))) in *.
  destruct (LL_for_each_from fuel m L nx) as [rest| |] eqn:E; [|done|done]. rewrite bind_Ok in Hf. injection Hf as <-.
  destruct (strcmp_cases sfuel m name (rd64 m (curr + off)) s (nm curr) Hs) as (r & Er & Hr); [apply Hn; left|done|].
  rewrite Er, bind_Ok, Hr. unfold first_named in *. case_bool_decide as Hd.
  - rewrite filter_cons_True by done. done.
  - rewrite filter_cons_False by congruence. apply IH; [done|]. intros d Hd'. apply Hn. by right.
Qed.

Section Named.
Context {PS : Type} `{Hps : PageSource PS} (files : Z).

Lemma BLK_open_ok ds nm s fuel sfuel name (st : fss PS) :
  list_rep (fs_mem st) (f_blocks files) off_bdev_list ds →
  (∀ d, d ∈ ds → cstr (fs_mem st) (rd64 (fs_mem st) (d + off_bdev_name)) (nm d)) →
  cstr (fs_mem st) name s → (length s < sfuel)%nat → (length ds < fuel)%nat →
  BLK_open files fuel sfuel name st = Ok (first_named nm s ds, st).
Proof using.
  intros R Hn Hs Hsf Hf. unfold BLK_open.
  assert (Hl : LL_for_each_from fuel (fs_mem st) (f_blocks files)
     (LL_ndata (fs_mem st) (f_blocks files) (nxt (fs_mem st) (f_blocks files))) = Ok ds).
  { rewrite (list_rep_hd _ _ _ _ R). rewrite <- (LL_for_each_from_rep _ _ _ [] ds fuel R Hf). by destruct ds. }
  rewrite (find_by_name_ok sfuel _ _ _ name s nm Hs Hsf fuel _ ds Hl Hn), bind_Ok.
  destruct (Z.eqb_spec (first_named nm s ds) NULL) as [->|]; [|done].
  unfold fs_klog, klog. change (KLOG_MIN_LOG_LEVEL <? KLOG_LEVEL_DEBUG) with false. by destruct st.
Qed.

(** Registering and opening block devices.  When the devices [ds] are
    registered and a new one is added whose name differs from theirs,
    [BLK_open] of any name finds the oldest device of that name, the new one
    under its own name, and NULL for a name nobody has. *)
Theorem BLK_register_open (ds : list Z) (bdev : Z) (nm : Z → list Z) (s : list Z) (fuel sfuel : nat) (name : Z) (st : fss PS) :
  list_rep (fs_mem st) (f_blocks files) off_bdev_list ds →
  linkable (f_blocks files) off_bdev_list ds bdev →
  (∀ d, d ∈ ds ++ [bdev] →
     cstr (fs_mem st) (rd64 (fs_mem st) (d + off_bdev_name)) (nm d) ∧
     (∀ h, h ∈ f_blocks files :: hdrs off_bdev_list (ds ++ [bdev]) →
        apart (d + off_bdev_name) 8 h 16 ∧
        apart (rd64 (fs_mem st) (d + off_bdev_name)) (Z.of_nat (length (nm d)) + 1) h 16 ∧
        apart name (Z.of_nat (length s) + 1) h 16)) →
  cstr (fs_mem st) name s → (length s < sfuel)%nat → (length ds + 1 < fuel)%nat →
  (∀ d, d ∈ ds → nm d ≠ nm bdev) →
  ∃ st', BLK_register files bdev st = st' ∧
    list_rep (fs_mem st') (f_blocks files) off_bdev_list (ds ++ [bdev]) ∧
    BLK_open files fuel sfuel name st' = Ok (first_named nm s (ds ++ [bdev]), st') ∧
    (s = nm bdev → BLK_open files fuel sfuel name st' = Ok (bdev, st')) ∧
    (s ∉ (nm <$> ds ++ [bdev]) → BLK_open files fuel sfuel name st' = Ok (NULL, st')).
Proof using.
  intros R Hl Hn Hs Hsf Hf Hne. eexists. split; [done|]. unfold BLK_register. cbn [fs_set_mem fs_mem].
  destruct (LL_append_rep _ _ _ ds bdev R Hl) as [R' O']. unfold LL_enqueue.
  set (m' := LL_append (fs_mem st) (f_blocks files) bdev) in *. split; [done|].
  assert (Hkeep : ∀ a n, (∀ h, h ∈ f_blocks files :: hdrs off_bdev_list (ds ++ [bdev]) → apart a n h 16) →
    ∀ b, a ≤ b < a + n → rd8 m' b = rd8 (fs_mem st) b).
  { intros a n Ha b Hb. apply O'. intros h Hh. specialize (Ha h Hh). unfold apart in Ha. lia. }
  assert (Hs' : cstr m' name s).
  { eapply cstr_ext; [|exact Hs]. intros b Hb. symmetry.
    apply (Hkeep name (Z.of_nat (length s) + 1)); [|lia]. intros h Hh.
    destruct (Hn bdev) as [_ Hb']; [apply elem_of_app; right; left|]. apply Hb', Hh. }
  assert (Hn' : ∀ d, d ∈ ds ++ [bdev] → cstr m' (rd64 m' (d + off_bdev_name)) (nm d)).
  { intros d Hd. destruct (Hn d Hd) as [Hc Ha].
    assert (E : rd64 m' (d + off_bdev_name) = rd64 (fs_mem st) (d + off_bdev_name)).
    { apply rd_le_ext. intros b Hb. apply (Hkeep (d + off_bdev_name) 8); [|cbn in Hb; lia]. intros h Hh. by apply Ha. }
    rewrite E. eapply cstr_ext; [|exact Hc]. intros b Hb. symmetry.
    apply (Hkeep (rd64 (fs_mem st) (d + off_bdev_name)) (Z.of_nat (length (nm d)) + 1)); [|lia]. intros h Hh. by apply Ha. }
  assert (Hop : BLK_open files fuel sfuel name (mkFs m' (fs_ps st) (fs_log st)) =
    Ok (first_named nm s (ds ++ [bdev]), mkFs m' (fs_ps st) (fs_log st))).
  { apply (BLK_open_ok (ds ++ [bdev]) nm s); [done|done|done|done|]. rewrite length_app. cbn. lia. }
  split; [exact Hop|]. split.
  - intros ->. etransitivity; [exact Hop|]. by rewrite first_named_last.
  - intros Hno. etransitivity; [exact Hop|]. by rewrite first_named_none.
Qed.
End Named.

(** A disk named "ata", registered first. *)
Definition demo_ata : list Z := [97; 116; 97].

Definition demo_files : Z := 0x100.

Definition demo_disk_mem : mem :=
  let m := LL_init ∅ (f_blocks demo_files) off_bdev_list in
  let m := wr64 m (0x1000 + off_bdev_name) 0x2000 in
  let m := wr32 m 0x2000 0x617461 in
  wr32 m 0x3000 0x617461.

Lemma demo_disk_rep : list_rep demo_disk_mem (f_blocks demo_files) off_bdev_list [].
Proof.
  destruct (LL_init_rep ∅ (f_blocks demo_files) off_bdev_list) as [R _].
  { unfold valid_hdr, f_blocks, demo_files. lia. }
  { unfold off_bdev_list. lia. }
  eapply list_rep_ext; [| |exact R]; [|intros d b Hd; by apply elem_of_nil in Hd]. intros b Hb. unfold demo_disk_mem, wr64, wr32, f_blocks, demo_files, off_bdev_name in *.
  rewrite !rd8_wr_le_out by (cbn; lia). done.
Qed.

Lemma BLK_register_open_witness :
  ∃ st', BLK_register demo_files 0x1000 (mkFs demo_disk_mem tt []) = st' ∧
    list_rep (fs_mem st') (f_blocks demo_files) off_bdev_list [0x1000] ∧
    BLK_open demo_files 2 4 0x3000 st' = Ok (0x1000, st') ∧
    (demo_ata = demo_ata → BLK_open demo_files 2 4 0x3000 st' = Ok (0x1000, st')) ∧
    (demo_ata ∉ [demo_ata] → BLK_open demo_files 2 4 0x3000 st' = Ok (NULL, st')).
Proof.
  apply (BLK_register_open demo_files [] 0x1000 (fun _ => demo_ata) demo_ata 2 4 0x3000 (mkFs demo_disk_mem tt [])).
  - exact demo_disk_rep.
  - unfold linkable, valid_hdr, apart, f_blocks, demo_files, off_bdev_list. split; [lia|]. split; [lia|]. split; [lia|constructor].
  - intros d ->%list_elem_of_singleton. cbn [fs_mem].
    replace (rd64 demo_disk_mem (0x1000 + off_bdev_name)) with 0x2000 by (vm_compute; reflexivity).
    split; [apply (bool_decide_unpack _); vm_compute; exact I|].
    intros h Hh. cbn in Hh. rewrite !elem_of_cons in Hh. unfold apart, f_blocks, demo_files, off_bdev_list, off_bdev_name in *. cbn.
    destruct Hh as [->|[->|Hh]]; [lia|lia|by apply elem_of_nil in Hh].
  - apply (bool_decide_unpack _). vm_compute. exact I.
  - cbn. lia.
  - cbn. lia.
  - intros d Hd. by apply elem_of_nil in Hd.
Defined.

(** ** The list of character devices *)

(** What the initialiser leaves in the heads of [blocks] and [chars]. *)
Record files_fresh (m : mem) (files : Z) : Prop := {
  ff_inodes : nxt m (f_inodes files) = f_inodes files ∧ prv m (f_inodes files) = f_inodes files ∧
              head_offset m (f_inodes files) = off_inode_list;
  ff_blocks : nxt m (f_blocks files) = f_blocks files ∧ prv m (f_blocks files) = f_blocks files ∧
              head_offset m (f_blocks files) = off_bdev_list;
  ff_chars : nxt m (f_chars files) = f_blocks files ∧ prv m (f_chars files) = f_blocks files ∧
             head_offset m (f_chars files) = off_cdev_list
}.

(** Reads of 64-bit words through 64-bit writes at addresses that [lia] can
    compare. *)
Ltac word_mem :=
  unfold nxt, prv, set_nxt, set_prv, head_offset, f_inodes, f_blocks, f_chars in *;
  repeat first
    [ rewrite rd64_wr64_eq
    | rewrite rd64_wr64_apart by (unfold apart in *; lia) ].

Lemma files_init_fresh m files : 0 < files → files + 72 ≤ 18446744073709551616 → files_fresh (files_init m files) files.
Proof.
  intros H1 H2. unfold files_init, linked_list_init.
  split; (split; [|split]); unfold off_inode_list, off_bdev_list, off_cdev_list; word_mem; apply u64_small; lia.
Qed.

Lemma files_fresh_ext m m' files :
  (∀ x, files ≤ x < files + 72 → rd8 m' x = rd8 m x) → files_fresh m files → files_fresh m' files.
Proof.
  intros Hm [H1 H2 H3].
  assert (Hrd : ∀ o, 0 ≤ o ≤ 64 → rd64 m' (files + o) = rd64 m (files + o)).
  { intros o Ho. apply rd_le_ext. intros b Hb. cbn in Hb. apply Hm. lia. }
  assert (H0 : rd64 m' files = rd64 m files) by (specialize (Hrd 0); rewrite Z.add_0_r in Hrd; apply Hrd; lia).
  split; unfold nxt, prv, head_offset, f_inodes, f_blocks, f_chars in *;
    rewrite <- ?Z.add_assoc in *; rewrite ?H0, ?Hrd by lia; done.
Qed.

(** Walks of short lists whose elements have their header at offset 40. *)
Lemma ndata_40 x : 40 ≤ x < 18446744073709551616 → u64 (x + u64 (-1 * 40)) = x - 40.
Proof. intros Hx. word_lia. Qed.

Lemma each_one m L a :
  head_offset m L = 40 → nxt m L = a → nxt m a = L → a ≠ L →
  40 ≤ a < 18446744073709551616 → 40 ≤ L < 18446744073709551616 → LL_for_each 2 m L = Ok [a - 40].
Proof.
  intros Ho H1 H2 Hne Ha HL. unfold LL_for_each. cbn [LL_for_each_from]. unfold LL_nhead, LL_ndata.
  rewrite Ho, H1, ndata_40 by done. replace (a - 40 + 40) with a by lia. rewrite (u64_small a) by lia.
  rewrite (proj2 (Z.eqb_neq _ _) Hne), H2, ndata_40 by done. replace (L - 40 + 40) with L by lia.
  by rewrite (u64_small L), Z.eqb_refl, bind_Ok by lia.
Qed.

Lemma each_two m L a b :
  head_offset m L = 40 → nxt m L = a → nxt m a = b → nxt m b = L → a ≠ L → b ≠ L →
  40 ≤ a < 18446744073709551616 → 40 ≤ b < 18446744073709551616 → 40 ≤ L < 18446744073709551616 →
  LL_for_each 3 m L = Ok [a - 40; b - 40].
Proof.
  intros Ho H1 H2 H3 Na Nb Ha Hb HL. unfold LL_for_each. cbn [LL_for_each_from]. unfold LL_nhead, LL_ndata.
  rewrite Ho, H1, ndata_40 by done. replace (a - 40 + 40) with a by lia. rewrite (u64_small a) by lia.
  rewrite (proj2 (Z.eqb_neq _ _) Na), H2, ndata_40 by done. replace (b - 40 + 40) with b by lia.
  rewrite (u64_small b), (proj2 (Z.eqb_neq _ _) Nb), H3, ndata_40 by (done || lia). replace (L - 40 + 40) with L by lia.
  by rewrite (u64_small L), Z.eqb_refl, !bind_Ok by lia.
Qed.

Section Chars.
Context {PS : Type} `{Hps : PageSource PS} (files pools : Z).

(** Registering a character device while the initial lists are in place: [chars]
    was initialised with the head of [blocks], so the device's header is linked
    into [blocks], whose walk visits it, and the head of [chars], as if they
    were block devices.  Registering a block device afterwards cuts them out
    again. *)
Theorem FS_register_cdev_corrupts_blocks (cdev name bdev new : Z) (s s1 : fss PS) :
  fs_kmalloc pools sizeof_INode s = Ok (new, s1) → files_fresh (fs_mem s1) files →
  100 < files → files + 72 < 18446744073709551616 - 100 → 100 < cdev → cdev + 32 < 18446744073709551616 - 100 →
  0 < new → new + 56 < 18446744073709551616 - 100 → 0 < bdev → bdev + 56 < 18446744073709551616 - 100 →
  apart files 72 cdev 32 → apart files 72 new 56 → apart files 72 bdev 56 → apart cdev 32 new 56 →
  apart cdev 32 bdev 56 → apart new 56 bdev 56 →
  ∃ s', FS_register_cdev files pools cdev name s = Ok (0, s') ∧
    LL_for_each 3 (fs_mem s') (f_blocks files) = Ok [cdev - 24; files + 8] ∧
    LL_for_each 2 (fs_mem (BLK_register files bdev s')) (f_blocks files) = Ok [bdev].
Proof using.
  intros Hk Hfr Hf0 Hf1 Hc0 Hc1 Hn0 Hn1 Hb0 Hb1 A1 A2 A3 A4 A5 A6.
  unfold FS_register_cdev. rewrite Hk, bind_Ok. rewrite (proj2 (Z.eqb_neq new NULL)) by (unfold NULL; lia).
  set (m1 := wr64 _ (cdev + off_cdev_inode) new).
  assert (F1 : files_fresh m1 files).
  { eapply files_fresh_ext; [|exact Hfr]. intros x Hx. unfold m1, wr64, wr32, off_inode_dev, off_inode_name, off_inode_type, off_cdev_inode.
    unfold apart in *. by rewrite !rd8_wr_le_out by (cbn; lia). }
  clearbody m1. clear Hfr Hk. eexists. split; [done|]. cbn [fs_set_mem fs_mem]. unfold BLK_register. cbn [fs_set_mem fs_mem].
  destruct F1 as [(I1 & I2 & I3) (B1 & B2 & B3) (C1 & C2 & C3)].
  unfold off_inode_list, off_bdev_list, off_cdev_list in *.
  (* the inode goes on its own list *)
  set (m2 := LL_enqueue m1 (f_inodes files) new).
  assert (E2 : ∀ x, files + 24 ≤ x → x + 8 ≤ files + 72 → rd64 m2 x = rd64 m1 x).
  { intros x X1 X2. unfold m2, LL_enqueue, LL_append, LL_add_prev, ll_add, LL_nhead. rewrite I3, I2.
    rewrite (u64_small (new + 32)) by lia. unfold set_nxt, set_prv, f_inodes.
    rewrite !rd64_wr64_apart by (unfold apart in *; lia). done. }
  assert (B1' : nxt m2 (f_blocks files) = f_blocks files) by (unfold nxt in *; rewrite E2; [done|unfold f_blocks; lia..]).
  assert (B2' : prv m2 (f_blocks files) = f_blocks files) by (unfold prv in *; rewrite E2; [done|unfold f_blocks; lia..]).
  assert (B3' : head_offset m2 (f_blocks files) = 40) by (unfold head_offset in *; rewrite E2; [done|unfold f_blocks; lia..]).
  assert (C1' : nxt m2 (f_chars files) = f_blocks files) by (unfold nxt in *; rewrite E2; [done|unfold f_chars; lia..]).
  assert (C2' : prv m2 (f_chars files) = f_blocks files) by (unfold prv in *; rewrite E2; [done|unfold f_chars; lia..]).
  assert (C3' : head_offset m2 (f_chars files) = 16) by (unfold head_offset in *; rewrite E2; [done|unfold f_chars; lia..]).
  clearbody m2. clear E2 I1 I2 I3 B1 B2 B3 C1 C2 C3.
  set (m3 := LL_enqueue m2 (f_chars files) cdev).
  assert (E3 : m3 = ll_add m2 (cdev + 16) (files + 24) (files + 48)).
  { unfold m3, LL_enqueue, LL_append, LL_add_prev, LL_nhead. rewrite C3', C2', u64_small by lia. done. }
  assert (V1 : nxt m3 (files + 24) = cdev + 16) by (rewrite E3; unfold ll_add; word_mem; apply u64_small; lia).
  assert (V2 : nxt m3 (cdev + 16) = files + 48) by (rewrite E3; unfold ll_add; word_mem; apply u64_small; lia).
  assert (V3 : nxt m3 (files + 48) = files + 24) by (rewrite E3; unfold ll_add; word_mem; done).
  assert (V4 : head_offset m3 (files + 24) = 40) by (rewrite E3; unfold ll_add; word_mem; done).
  assert (V5 : prv m3 (files + 24) = files + 24) by (rewrite E3; unfold ll_add; word_mem; done).
  clearbody m3. clear E3 B1' B2' B3' C1' C2' C3'. unfold f_blocks.
  split.
  - rewrite (each_two m3 (files + 24) (cdev + 16) (files + 48)) by (done || (unfold apart in *; lia)).
    do 2 f_equal; [lia|]. f_equal. lia.
  - unfold LL_enqueue, LL_append, LL_add_prev, LL_nhead. rewrite V4, V5, (u64_small (bdev + 40)) by lia.
    set (m4 := ll_add m3 (bdev + 40) (files + 24) (files + 24)).
    assert (W1 : nxt m4 (files + 24) = bdev + 40) by (unfold m4, ll_add; word_mem; apply u64_small; lia).
    assert (W2 : nxt m4 (bdev + 40) = files + 24) by (unfold m4, ll_add; word_mem; apply u64_small; lia).
    assert (W3 : head_offset m4 (files + 24) = 40) by (unfold m4, ll_add; word_mem; done).
    rewrite (each_one m4 (files + 24) (bdev + 40)) by (done || (unfold apart in *; lia)).
    do 2 f_equal. lia.
Qed.
End Chars.
