(* ===== verification/HwInit.v ===== *)
(** * Descriptor tables (src/src/arch/x86_64/hw_init.c)

    The segment descriptors that [init_gdt] writes field by field, against the
    processor's reading of them, and [HW_init], which runs the set-up of
    descriptors, interrupts and serial port. *)

From S2P Require Import Prelude Memory CString Machine Irq Serial.

(** ** Bit-fields *)

(** A store to and a read of the bit-field of [w] bits at bit [lo] of the byte
    at [a]. *)
Definition set_field (m : mem) (a lo w v : Z) : mem :=
  wr8 m a (Z.lor (Z.ldiff (rd8 m a) (Z.shiftl (Z.ones w) lo)) (Z.shiftl (Z.land v (Z.ones w)) lo)).
Definition get_field (m : mem) (a lo w : Z) : Z := Z.land (Z.shiftr (rd8 m a) lo) (Z.ones w).

(** ** Layout *)

Definition GDT_LENGTH : Z := 3.
Definition GDT_USER_CODE_TYPE_EXECUTE_ONLY : Z := 0x8.
Definition GDT_SYS_TYPE_TSS : Z := 0x9.

(** [struct TSS], packed. *)
Definition sizeof_TSS : Z := 104.
Definition tss_ist (tss i : Z) : Z := tss + 36 + 8 * i.

(** [struct GDTEntry], packed; the upper half is the TSS descriptor's. *)
Definition sizeof_GDTEntry : Z := 16.
Definition gdt_at (GDT i : Z) : Z := GDT + sizeof_GDTEntry * i.
Definition off_limit_0_15 : Z := 0.
Definition off_base_0_15 : Z := 2.
Definition off_base_16_23 : Z := 4.
Definition off_access : Z := 5.    (* type: 4, user_segment: 1, dpl: 2, present: 1 *)
Definition off_flags : Z := 6.     (* limit_16_19: 4, avl: 1, l: 1, d: 1, g: 1 *)
Definition off_base_24_31 : Z := 7.
Definition off_base_32_63 : Z := 8.

(** ** The code *)

Definition gdt_user_init (gdt base limit type : Z) (m : mem) : mem :=
  let m := (memset m gdt 0 sizeof_GDTEntry).1 in
  let m := set_field m (gdt + off_access) 4 1 1 in
  let m := set_field m (gdt + off_access) 0 4 type in
  let m := set_field m (gdt + off_access) 7 1 1 in
  let m := set_field m (gdt + off_flags) 5 1 1 in
  let m := wr16 m (gdt + off_limit_0_15) (u16 limit) in
  let m := set_field m (gdt + off_flags) 0 4 (Z.land 0xF (Z.shiftr limit 16)) in
  let m := wr16 m (gdt + off_base_0_15) (u16 base) in
  let m := wr8 m (gdt + off_base_16_23) (u8 (Z.shiftr base 16)) in
  wr8 m (gdt + off_base_24_31) (u8 (Z.shiftr base 24)).

(** The upper half of the base goes to the entry [GDT[2]], whichever entry
    [gdt] points at. *)
Definition gdt_sys_init (GDT gdt base limit type : Z) (m : mem) : mem :=
  let m := gdt_user_init gdt (u32 base) limit type m in
  let m := set_field m (gdt + off_access) 4 1 0 in
  wr32 m (gdt_at GDT 2 + off_base_32_63) (u32 (Z.shiftr base 32)).

(** The registers that LGDT and LTR load. *)
Record dtables := mkDt { gdtr_limit : Z; gdtr_base : Z; task_register : Z }.

Definition lgdt (m : mem) (gdtr : Z) (t : dtables) : dtables := mkDt (rd16 m gdtr) (rd64 m (gdtr + 2)) (task_register t).
Definition ltr (sel : Z) (t : dtables) : dtables := mkDt (gdtr_limit t) (gdtr_base t) (u16 sel).

(** [stacks] are the addresses of [stack1_top] .. [stack4_top]. *)
Definition init_gdt (GDT tss GDTR : Z) (stacks : Z * Z * Z * Z) (m : mem) (t : dtables) : mem * dtables :=
  let '(stack1, stack2, stack3, stack4) := stacks in
  let m := wr16 m GDTR (sizeof_GDTEntry * GDT_LENGTH - 1) in
  let m := wr64 m (GDTR + 2) GDT in
  let m := (memset m GDT 0 (sizeof_GDTEntry * GDT_LENGTH)).1 in
  let m := (memset m tss 0 sizeof_TSS).1 in
  let m := wr64 m (tss_ist tss 0) stack1 in
  let m := wr64 m (tss_ist tss 1) stack2 in
  let m := wr64 m (tss_ist tss 2) stack3 in
  let m := wr64 m (tss_ist tss 3) stack4 in
  let m := gdt_user_init (gdt_at GDT 1) 0 0 GDT_USER_CODE_TYPE_EXECUTE_ONLY m in
  let m := gdt_sys_init GDT (gdt_at GDT 2) tss sizeof_TSS GDT_SYS_TYPE_TSS m in
  (m, ltr (2 * sizeof_GDTEntry) (lgdt m GDTR t)).

(** [main_serial_dev] becomes the address [gdev]. *)
Definition HW_init {D} `{PortIO D} (GDT tss GDTR : Z) (stacks : Z * Z * Z * Z) (idt_init : D → D)
    (syscall_handler serial_isr gdev : Z) (m : mem) (t : dtables) (s : irqs) (d : D) :
    outcome (Z * (mem * dtables * irqs * D)) :=
  let '(m, t) := init_gdt GDT tss GDTR stacks m t in
  r ← IRQ_x86_64_init idt_init syscall_handler s d;
  r ← init_x86_serial serial_isr gdev r.1 r.2;
  Ok (gdev, (m, t, r.1, r.2)).

(** ** The processor's view *)

Record seg_desc := mkSeg {
  sd_base : Z; sd_limit : Z; sd_type : Z; sd_user : Z; sd_dpl : Z; sd_present : Z;
  sd_avl : Z; sd_long : Z; sd_big : Z; sd_gran : Z
}.

(** An 8-byte code or data descriptor. *)
Definition decode_user (m : mem) (a : Z) : seg_desc :=
  mkSeg (rd16 m (a + 2) + 65536 * rd8 m (a + 4) + 16777216 * rd8 m (a + 7))
    (rd16 m a + 65536 * get_field m (a + 6) 0 4)
    (get_field m (a + 5) 0 4) (get_field m (a + 5) 4 1) (get_field m (a + 5) 5 2) (get_field m (a + 5) 7 1)
    (get_field m (a + 6) 4 1) (get_field m (a + 6) 5 1) (get_field m (a + 6) 6 1) (get_field m (a + 6) 7 1).

Definition set_base (s : seg_desc) (b : Z) : seg_desc :=
  mkSeg b (sd_limit s) (sd_type s) (sd_user s) (sd_dpl s) (sd_present s) (sd_avl s) (sd_long s) (sd_big s) (sd_gran s).

(** A 16-byte system descriptor: the base has 64 bits. *)
Definition decode_sys (m : mem) (a : Z) : seg_desc :=
  let s := decode_user m a in set_base s (sd_base s + 4294967296 * rd32 m (a + 8)).

(** ** Lemmas *)

Lemma field_in_range x v lo w :
  0 ≤ x < 256 → 0 ≤ lo → 0 ≤ w → lo + w ≤ 8 →
  0 ≤ Z.lor (Z.ldiff x (Z.shiftl (Z.ones w) lo)) (Z.shiftl (Z.land v (Z.ones w)) lo) < 256.
Proof.
  intros Hx Hlo Hw Hb.
  set (y := Z.lor _ _).
  assert (Hy : y = y mod 2 ^ 8).
  { symmetry. rewrite <- Z.land_ones by lia. apply Z.bits_inj'. intros n Hn.
    rewrite Z.land_spec, Z.testbit_ones_nonneg by lia. destruct (Z.ltb_spec n 8); [by rewrite andb_true_r|].
    rewrite andb_false_r. subst y. symmetry. rewrite Z.lor_spec, Z.ldiff_spec, !Z.shiftl_spec, Z.land_spec by lia.
    rewrite (Z.testbit_ones_nonneg w (n - lo)) by lia. rewrite (proj2 (Z.ltb_ge (n - lo) w)) by lia.
    rewrite !andb_false_r, orb_false_r, andb_true_r.
    rewrite <- (Z.mod_small x (2 ^ 8)) by lia. by apply Z.mod_pow2_bits_high. }
  rewrite Hy. apply Z.mod_pos_bound. lia.
Qed.

Lemma get_set_field m a lo w v :
  0 ≤ lo → 0 ≤ w → lo + w ≤ 8 → get_field (set_field m a lo w v) a lo w = Z.land v (Z.ones w).
Proof.
  intros Hlo Hw Hb. unfold get_field, set_field. rewrite rd8_wr8_eq, u8_small by (apply field_in_range; (apply rd8_range || lia)).
  apply Z.bits_inj'. intros n Hn.
  rewrite !Z.land_spec, Z.shiftr_spec, Z.lor_spec, Z.ldiff_spec, !Z.shiftl_spec, Z.land_spec by lia.
  replace (n + lo - lo) with n by lia. rewrite !Z.testbit_ones_nonneg by lia.
  destruct (n <? w); by rewrite ?andb_false_r, ?andb_true_r.
Qed.

Lemma get_set_field_ne m a lo w v lo' w' :
  0 ≤ lo → 0 ≤ w → lo + w ≤ 8 → 0 ≤ lo' → 0 ≤ w' → apart lo w lo' w' →
  get_field (set_field m a lo w v) a lo' w' = get_field m a lo' w'.
Proof.
  intros Hlo Hw Hb Hlo' Hw' Ha. unfold get_field, set_field.
  rewrite rd8_wr8_eq, u8_small by (apply field_in_range; (apply rd8_range || lia)).
  apply Z.bits_inj'. intros n Hn.
  rewrite !Z.land_spec, !Z.shiftr_spec, Z.lor_spec, Z.ldiff_spec by lia.
  rewrite !(Z.testbit_ones_nonneg w') by lia. destruct (Z.ltb_spec n w'); [|by rewrite !andb_false_r].
  rewrite !andb_true_r. destruct Ha as [Ha|Ha].
  - rewrite !Z.shiftl_spec, Z.land_spec, Z.testbit_ones_nonneg, (proj2 (Z.ltb_ge (n + lo' - lo) w)) by lia.
    by rewrite !andb_false_r, orb_false_r, andb_true_r.
  - rewrite !Z.shiftl_spec_low by lia. by rewrite orb_false_r, andb_true_r.
Qed.

Lemma rd8_set_field_ne m a b lo w v : a ≠ b → rd8 (set_field m a lo w v) b = rd8 m b.
Proof. intros Hne. by apply rd8_wr8_ne. Qed.

Lemma get_field_ext m m' a lo w : rd8 m' a = rd8 m a → get_field m' a lo w = get_field m a lo w.
Proof. unfold get_field. by intros ->. Qed.

Lemma get_field_wr_le n m a b lo w v : ¬ (b ≤ a < b + Z.of_nat n) → get_field (wr_le n m b v) a lo w = get_field m a lo w.
Proof. intros Hn. by apply get_field_ext, rd8_wr_le_out. Qed.

Lemma get_field_wr8 m a b lo w v : a ≠ b → get_field (wr8 m b v) a lo w = get_field m a lo w.
Proof. intros Hn. by apply get_field_ext, rd8_wr8_ne. Qed.

Lemma get_field_far m a b lo w lo' w' v : a ≠ b → get_field (set_field m b lo' w' v) a lo w = get_field m a lo w.
Proof. intros Hn. by apply get_field_ext, rd8_set_field_ne. Qed.

Lemma get_field_memset m a p n lo w : p ≤ a < p + n → get_field (memset m p 0 n).1 a lo w = 0.
Proof.
  intros Ha. unfold get_field. rewrite memset_rd8, decide_True by lia. by rewrite Z.shiftr_0_l.
Qed.

Lemma rd_le_wr8_far n m a b v : ¬ (a ≤ b < a + Z.of_nat n) → rd_le n (wr8 m b v) a = rd_le n m a.
Proof. intros Hb. apply rd_le_ext. intros c Hc. apply rd8_wr8_ne. lia. Qed.

Lemma rd_le_set_field n m a b lo w v : ¬ (a ≤ b < a + Z.of_nat n) → rd_le n (set_field m b lo w v) a = rd_le n m a.
Proof. apply rd_le_wr8_far. Qed.

Lemma rd_le_memset_far k m p c n a : 0 ≤ n → apart a (Z.of_nat k) p n → rd_le k (memset m p c n).1 a = rd_le k m a.
Proof. intros Hn Ha. eapply rd_le_only_in; [by apply memset_only_in|done]. Qed.

(** Reads through the stores of a descriptor: [lia] decides which store it is. *)
Ltac desc_read :=
  unfold wr16, wr32, wr64, rd16, rd32, rd64;
  repeat first
    [ rewrite get_set_field by lia
    | rewrite get_set_field_ne by (unfold apart; lia)
    | rewrite get_field_far by lia
    | rewrite get_field_wr8 by lia
    | rewrite get_field_wr_le by (cbn; lia)
    | rewrite get_field_memset by (unfold sizeof_GDTEntry; lia)
    | rewrite rd8_wr8_eq
    | rewrite rd8_wr8_ne by lia
    | rewrite rd8_set_field_ne by lia
    | rewrite rd8_wr_le_out by (cbn; lia)
    | rewrite rd_le_wr8_far by (cbn; lia)
    | rewrite rd_le_set_field by (cbn; lia)
    | rewrite rd_le_wr_le
    | rewrite rd_le_wr_le_apart by (unfold apart; cbn; lia) ].

Lemma base32_join base : 0 ≤ base < 4294967296 →
  u16 base mod 65536 + 65536 * u8 (u8 (Z.shiftr base 16)) + 16777216 * u8 (u8 (Z.shiftr base 24)) = base.
Proof. intros Hb. rewrite !Z.shiftr_div_pow2 by lia. change (2 ^ 16) with 65536. change (2 ^ 24) with 16777216. word_lia. Qed.

Lemma limit20_join limit : 0 ≤ limit < 4294967296 →
  u16 limit mod 65536 + 65536 * Z.land (Z.land 0xF (Z.shiftr limit 16)) (Z.ones 4) = limit mod 1048576.
Proof.
  intros Hl. rewrite (Z.land_comm 0xF), <- Z.land_assoc. change (Z.land 0xF (Z.ones 4)) with (Z.ones 4).
  rewrite Z.land_ones, Z.shiftr_div_pow2 by lia. change (2 ^ 16) with 65536. change (2 ^ 4) with 16. word_lia.
Qed.

Lemma gdt_user_init_ok gdt base limit type m :
  0 ≤ base < 4294967296 → 0 ≤ limit < 4294967296 →
  decode_user (gdt_user_init gdt base limit type m) gdt = mkSeg base (limit mod 1048576) (type mod 16) 1 0 1 0 1 0 0 ∧
  (∀ b, gdt + 8 ≤ b < gdt + 16 → rd8 (gdt_user_init gdt base limit type m) b = 0) ∧
  only_in gdt 16 m (gdt_user_init gdt base limit type m).
Proof.
  intros Hb Hl. unfold gdt_user_init, off_access, off_flags, off_limit_0_15, off_base_0_15, off_base_16_23, off_base_24_31.
  split; [|split].
  - unfold decode_user. rewrite Z.add_0_r. f_equal; desc_read.
    + change (256 ^ Z.of_nat 2) with 65536. by apply base32_join.
    + change (256 ^ Z.of_nat 2) with 65536. by apply limit20_join.
    + rewrite Z.land_ones by lia. done.
    + done.
    + done.
    + done.
    + done.
    + done.
    + done.
    + done.
  - intros b Hb'. desc_read. rewrite memset_rd8 by (unfold sizeof_GDTEntry; lia).
    by rewrite decide_True by (unfold sizeof_GDTEntry; lia).
  - intros b Hb'. desc_read. rewrite memset_rd8 by (unfold sizeof_GDTEntry; lia).
    by rewrite decide_False by (unfold sizeof_GDTEntry; lia).
Qed.

Lemma decode_user_ext m m' a : (∀ b, a ≤ b < a + 8 → rd8 m' b = rd8 m b) → decode_user m' a = decode_user m a.
Proof.
  intros Hm. unfold decode_user, get_field, rd16. rewrite !Hm by lia.
  by rewrite (rd_le_ext 2 m' m (a + 2)), (rd_le_ext 2 m' m a) by (intros b Hb; cbn in Hb; apply Hm; lia).
Qed.

(** ** Theorems *)

Definition tss_desc (base limit type : Z) : seg_desc := mkSeg base (limit mod 1048576) (type mod 16) 0 0 1 0 1 0 0.

Lemma sys_user_bit gdt base limit type m :
  0 ≤ base < 4294967296 → 0 ≤ limit < 4294967296 →
  decode_user (set_field (gdt_user_init gdt base limit type m) (gdt + off_access) 4 1 0) gdt = tss_desc base limit type.
Proof.
  intros Hb Hl. destruct (gdt_user_init_ok gdt base limit type m Hb Hl) as (E & _ & _).
  set (m' := gdt_user_init gdt base limit type m) in *. clearbody m'. unfold decode_user in *. injection E as E1 E2 E3 E4 E5 E6 E7 E8 E9 E10.
  unfold tss_desc, off_access. rewrite <- E1, <- E2, <- E3. f_equal; desc_read; done.
Qed.

Lemma gdt_sys_init_ok (GDT gdt base limit type : Z) (m : mem) :
  0 ≤ base < 18446744073709551616 → 0 ≤ limit < 4294967296 →
  gdt = gdt_at GDT 2 ∨ apart gdt 16 (gdt_at GDT 2) 16 →
  let m' := gdt_sys_init GDT gdt base limit type m in
  decode_sys m' gdt = tss_desc (if decide (gdt = gdt_at GDT 2) then base else base mod 4294967296) limit type ∧
  rd32 m' (gdt_at GDT 2 + 8) = base / 4294967296 ∧
  (∀ b, ¬ (gdt ≤ b < gdt + 16) → ¬ (gdt_at GDT 2 + 8 ≤ b < gdt_at GDT 2 + 12) → rd8 m' b = rd8 m b).
Proof.
  intros Hb Hl Hg m'. unfold m', gdt_sys_init. rewrite Z.shiftr_div_pow2 by lia. change (2 ^ 32) with 4294967296.
  assert (Hb' : 0 ≤ u32 base < 4294967296) by apply u32_range.
  destruct (gdt_user_init_ok gdt (u32 base) limit type m Hb' Hl) as (_ & E2 & E3).
  pose proof (sys_user_bit gdt (u32 base) limit type m Hb' Hl) as E1.
  set (m1 := set_field (gdt_user_init gdt (u32 base) limit type m) (gdt + off_access) 4 1 0) in *.
  assert (E2' : rd32 m1 (gdt + 8) = 0).
  { apply rd_le_zero. intros b Hb2. cbn in Hb2. unfold m1, off_access. rewrite rd8_set_field_ne by lia.
    apply E2. lia. }
  assert (E3' : only_in gdt 16 m m1).
  { intros b Hb2. unfold m1, off_access. rewrite rd8_set_field_ne by lia. by apply E3. }
  clearbody m1. clear E2 E3. unfold off_base_32_63.
  assert (Hq : u32 (u32 (base / 4294967296)) = base / 4294967296) by (rewrite !u32_small; [done| |rewrite u32_small]; word_lia).
  split; [|split].
  - unfold decode_sys. rewrite (decode_user_ext m1) by (intros b Hb2; apply rd8_wr_le_out; unfold apart in Hg; cbn; lia).
    rewrite E1. unfold set_base, tss_desc. cbn [sd_base sd_limit sd_type sd_user sd_dpl sd_present sd_avl sd_long sd_big sd_gran].
    f_equal. case_decide as Hd.
    + rewrite <- Hd. unfold rd32, wr32. rewrite rd_le_wr_le. change (_ mod 256 ^ Z.of_nat 4) with (u32 (u32 (base / 4294967296))).
      rewrite Hq. unfold u32. word_lia.
    + destruct Hg as [?|Hg]; [done|]. unfold rd32, wr32. rewrite rd_le_wr_le_apart by (unfold apart in *; cbn; lia).
      unfold rd32 in E2'. rewrite E2'. unfold u32. lia.
  - unfold rd32, wr32. rewrite rd_le_wr_le. exact Hq.
  - intros b B1 B2. unfold wr32. rewrite rd8_wr_le_out by (cbn; lia). by apply E3'.
Qed.

(** Encoding a system descriptor and reading it back.  When
    [gdt_sys_init] is given the third entry of the table, the processor reads
    back the whole 64-bit base, the limit to its 20 bits and the type, of a
    present system segment of ring 0.  Given any other entry it reads back only
    the low half of the base: the high half is written to the third entry all
    the same.  Nothing else changes. *)
Theorem gdt_sys_init_roundtrip (GDT gdt base limit type : Z) (m : mem) :
  0 ≤ base < 18446744073709551616 → 0 ≤ limit < 4294967296 →
  gdt = gdt_at GDT 2 ∨ apart gdt 16 (gdt_at GDT 2) 16 →
  let m' := gdt_sys_init GDT gdt base limit type m in
  decode_sys m' gdt = tss_desc (if decide (gdt = gdt_at GDT 2) then base else base mod 4294967296) limit type ∧
  rd32 m' (gdt_at GDT 2 + 8) = base / 4294967296 ∧
  (∀ b, ¬ (gdt ≤ b < gdt + 16) → ¬ (gdt_at GDT 2 + 8 ≤ b < gdt_at GDT 2 + 12) → rd8 m' b = rd8 m b).
Proof. intros Hb Hl Hg. by apply gdt_sys_init_ok. Qed.

Lemma gdt_sys_init_roundtrip_witness :
  decode_sys (gdt_sys_init 0x1000 0x1020 0x123456789abcdef0 104 9 ∅) 0x1020 = tss_desc 0x123456789abcdef0 104 9 ∧
  decode_sys (gdt_sys_init 0x1000 0x1010 0x123456789abcdef0 104 9 ∅) 0x1010 = tss_desc 0x9abcdef0 104 9.
Proof.
  split.
  - apply (gdt_sys_init_roundtrip 0x1000 0x1020 0x123456789abcdef0 104 9 ∅); [lia|lia|left; reflexivity].
  - apply (gdt_sys_init_roundtrip 0x1000 0x1010 0x123456789abcdef0 104 9 ∅); [lia|lia|].
    right. unfold apart, gdt_at, sizeof_GDTEntry. lia.
Defined.

(** The objects of hw_init.c do not overlap. *)
Definition tables_apart (GDT tss GDTR : Z) : Prop :=
  apart GDT 48 tss sizeof_TSS ∧ apart GDT 48 GDTR 10 ∧ apart tss sizeof_TSS GDTR 10.

(** The tables [init_gdt] loads.  The descriptor register covers exactly the
    three entries; entry 0 is null, entry 1 is a present 64-bit code segment of
    ring 0, and the entry the task register selects is a system segment at the
    address of the TSS, whose limit is one more than its last byte; the TSS has
    the four interrupt stacks and is zero elsewhere.  Nothing outside the three
    objects changes. *)
Theorem init_gdt_tables (GDT tss GDTR : Z) (s1 s2 s3 s4 : Z) (m : mem) (t : dtables) :
  0 ≤ GDT < 18446744073709551616 → 0 ≤ tss < 18446744073709551616 → tables_apart GDT tss GDTR →
  let '(m', t') := init_gdt GDT tss GDTR (s1, s2, s3, s4) m t in
  t' = mkDt 47 GDT 32 ∧
  (∀ b, GDT ≤ b < GDT + 16 → rd8 m' b = 0) ∧
  decode_user m' (GDT + 16) = mkSeg 0 0 8 1 0 1 0 1 0 0 ∧
  decode_sys m' (GDT + task_register t') = tss_desc tss sizeof_TSS GDT_SYS_TYPE_TSS ∧
  (∀ i s, [s1; s2; s3; s4] !! i = Some s → rd64 m' (tss_ist tss (Z.of_nat i)) = u64 s) ∧
  (∀ b, tss ≤ b < tss + sizeof_TSS → ¬ (tss_ist tss 0 ≤ b < tss_ist tss 4) → rd8 m' b = 0) ∧
  (∀ b, ¬ (GDT ≤ b < GDT + 48) → ¬ (tss ≤ b < tss + sizeof_TSS) → ¬ (GDTR ≤ b < GDTR + 10) → rd8 m' b = rd8 m b).
Proof.
  intros HG Ht (A1 & A2 & A3). unfold apart, sizeof_TSS in A1, A2, A3.
  unfold init_gdt. set (m1 := wr64 _ (tss_ist tss 3) s4).
  destruct (gdt_user_init_ok (gdt_at GDT 1) 0 0 GDT_USER_CODE_TYPE_EXECUTE_ONLY m1) as (U1 & _ & U3); [lia..|].
  set (m2 := gdt_user_init (gdt_at GDT 1) 0 0 GDT_USER_CODE_TYPE_EXECUTE_ONLY m1) in *.
  destruct (gdt_sys_init_ok GDT (gdt_at GDT 2) tss sizeof_TSS GDT_SYS_TYPE_TSS m2) as (S1 & _ & S3);
    [lia|unfold sizeof_TSS; lia|by left|]. rewrite decide_True in S1 by done.
  set (m3 := gdt_sys_init GDT (gdt_at GDT 2) tss sizeof_TSS GDT_SYS_TYPE_TSS m2) in *.
  unfold gdt_at, sizeof_GDTEntry in *.
  assert (K3 : ∀ b, ¬ (GDT + 32 ≤ b < GDT + 48) → rd8 m3 b = rd8 m2 b) by (intros b Hb; apply S3; lia).
  assert (K2 : ∀ b, ¬ (GDT + 16 ≤ b < GDT + 48) → rd8 m3 b = rd8 m1 b) by (intros b Hb; rewrite K3, U3 by lia; done).
  clearbody m3. clearbody m2. clear S3 U3.
  assert (R16 : rd16 m3 GDTR = 47).
  { unfold rd16. rewrite (rd_le_ext 2 m3 m1) by (intros b Hb; cbn in Hb; apply K2; lia).
    unfold m1, tss_ist. desc_read. rewrite !rd_le_memset_far by (unfold apart, sizeof_TSS, GDT_LENGTH; cbn; lia). by desc_read. }
  assert (R64 : rd64 m3 (GDTR + 2) = GDT).
  { unfold rd64. rewrite (rd_le_ext 8 m3 m1) by (intros b Hb; cbn in Hb; apply K2; lia).
    unfold m1, tss_ist. desc_read. rewrite !rd_le_memset_far by (unfold apart, sizeof_TSS, GDT_LENGTH; cbn; lia). desc_read. by apply u64_small. }
  split; [|split; [|split; [|split; [|split; [|split]]]]].
  - unfold lgdt, ltr. by rewrite R16, R64.
  - intros b Hb. rewrite K2 by lia. unfold m1, tss_ist, wr64. rewrite !rd8_wr_le_out by (cbn; lia).
    rewrite memset_rd8, decide_False by (unfold sizeof_TSS; lia). by rewrite memset_rd8, decide_True by (unfold GDT_LENGTH; lia).
  - replace (GDT + 16) with (GDT + 16 * 1) by lia. rewrite (decode_user_ext m2); [done|]. intros b Hb. apply K3. lia.
  - exact S1.
  - intros i s Hi. unfold rd64.
    assert (Hlt : (i < 4)%nat) by (apply lookup_lt_Some in Hi; exact Hi).
    rewrite (rd_le_ext 8 m3 m1) by (intros b Hb; apply K2; unfold tss_ist in Hb; cbn in Hb; lia).
    unfold m1, tss_ist. destruct i as [|[|[|[|i]]]]; [..|lia]; injection Hi as <-; by desc_read.
  - intros b Hb Hi. rewrite K2 by (unfold sizeof_TSS in *; lia). unfold m1, tss_ist, wr64 in *.
    rewrite !rd8_wr_le_out by (cbn; lia). by rewrite memset_rd8, decide_True by (unfold sizeof_TSS in *; lia).
  - intros b B1 B2 B3. rewrite K2 by lia. unfold m1, tss_ist, wr64, sizeof_TSS, GDT_LENGTH in *.
    rewrite !rd8_wr_le_out by (cbn; lia). rewrite !memset_rd8, !decide_False by lia.
    unfold wr16. by rewrite !rd8_wr_le_out by (cbn; lia).
Qed.

Lemma init_gdt_tables_witness :
  let '(m', t') := init_gdt 0x1000 0x2000 0x3000 (0x10000, 0x20000, 0x30000, 0x40000) ∅ (mkDt 0 0 0) in
  t' = mkDt 47 0x1000 32 ∧ decode_sys m' (0x1000 + task_register t') = tss_desc 0x2000 sizeof_TSS GDT_SYS_TYPE_TSS.
Proof.
  pose proof (init_gdt_tables 0x1000 0x2000 0x3000 0x10000 0x20000 0x30000 0x40000 ∅ (mkDt 0 0 0)) as H.
  specialize (H ltac:(lia) ltac:(lia) ltac:(unfold tables_apart, apart, sizeof_TSS; lia)).
  destruct (init_gdt _ _ _ _ _ _) as [m' t']. destruct H as (H1 & _ & _ & H2 & _). by split.
Defined.
