(* ===== verification/Pci.v ===== *)
(** * The PCI bus (src/src/drivers/pci.c, pci.h)

    Reading configuration space through the address and data ports, the list
    of devices that the enumeration builds on the kernel heap, and the matching
    of drivers. *)

From S2P Require Import Prelude Memory CString LinkedList Segments Frames Machine Irq Paging Mmu Kmalloc Objects Fs.

(** ** Layout *)

Definition PCI_CONFIG_ADDR : Z := 0xCF8.
Definition PCI_CONFIG_DATA : Z := 0xCFC.

(** [struct PCIDevId]: vendor_id, device_id, class, sub_class. *)
Definition off_id_device : Z := 2.
Definition off_id_class : Z := 4.
Definition off_id_sub_class : Z := 5.

(** [struct PCIConfigHeader], packed. *)
Definition hdr_vendor (m : mem) (hdr : Z) : Z := rd16 m hdr.
Definition hdr_device (m : mem) (hdr : Z) : Z := rd16 m (hdr + 2).
Definition hdr_sub_class (m : mem) (hdr : Z) : Z := rd8 m (hdr + 10).
Definition hdr_class (m : mem) (hdr : Z) : Z := rd8 m (hdr + 11).
Definition hdr_type (m : mem) (hdr : Z) : Z := rd8 m (hdr + 14).
Definition sizeof_PCIConfigHeader : Z := 16.

(** [struct PCIDevice]: the list header first, the packed [hdr] at byte 25. *)
Definition off_pci_id : Z := 16.
Definition off_pci_bus : Z := 22.
Definition off_pci_slot : Z := 23.
Definition off_pci_func : Z := 24.
Definition off_pci_hdr : Z := 25.
Definition sizeof_PCIDevice : Z := 48.

(** [struct PCIDriver]: the id, then [probe]. *)
Definition off_probe : Z := 8.

(** ** The code *)

Section Config.
Context {D : Type} `{PortIO D}.

Definition pci_address (bus slot func offset : Z) : Z :=
  u32 (Z.lor (Z.lor (Z.lor (Z.lor (Z.shiftl bus 16) (Z.shiftl slot 11)) (Z.shiftl func 8)) (Z.land offset 0xfc)) 0x80000000).

Definition pci_read_config (bus slot func offset : Z) (d : D) : Z * D :=
  inl PCI_CONFIG_DATA (outl PCI_CONFIG_ADDR (pci_address bus slot func offset) d).

Definition pci_read_config_vendor (bus slot func : Z) (d : D) : Z * D :=
  let '(tmp, d) := pci_read_config bus slot func 0 d in (u16 (Z.land tmp 0xffff), d).

(** Lines 43-44: [k] words from index [offset] on. *)
Fixpoint read_words (k : nat) (offset rhdr bus slot func : Z) (m : mem) (d : D) : mem * D :=
  match k with
  | O => (m, d)
  | S k =>
      let '(v, d) := pci_read_config bus slot func (u8 (offset * 4)) d in
      read_words k (offset + 1) rhdr bus slot func (wr32 m (rhdr + 4 * offset) v) d
  end.

Definition pci_read_config_header (hdr bus slot func : Z) (m : mem) (d : D) : mem * D :=
  read_words 4 0 hdr bus slot func m d.
End Config.

(** Lines 59-60. *)
Fixpoint read_bars {D} `{PortIO D} (k : nat) (offset rhdr dev : Z) (m : mem) (d : D) : mem * D :=
  match k with
  | O => (m, d)
  | S k =>
      let '(v, d) := pci_read_config (rd8 m (dev + off_pci_bus)) (rd8 m (dev + off_pci_slot))
                       (rd8 m (dev + off_pci_func)) (u8 (offset * 4)) d in
      read_bars k (offset + 1) rhdr dev (wr32 m (rhdr + 4 * offset) v) d
  end.

Section Code.
Context {PS : Type} `{Hps : PageSource PS} {D : Type} `{Hport : PortIO D}.

(** [devs] is [pci_state.pci_dev_list], [pools] the heap's descriptors. *)
Context (devs pools : Z).

Definition pci_state_init (m : mem) : mem := linked_list_init m devs devs 0.

Definition PCI_read_config_header_0 (dev hdr : Z) (s : fss PS) (d : D) : Z * (fss PS * D) :=
  let m := fs_mem s in
  if negb (hdr_type m (dev + off_pci_hdr) =? 0) then
    (-1, (fs_klog KLOG_LEVEL_WARN "attempting to read pci config header of incorrect type" s, d))
  else
    let m := (memcpy m hdr (dev + off_pci_hdr) sizeof_PCIConfigHeader).1 in
    let '(m, d) := read_bars 6 4 hdr dev m d in
    (0, (fs_set_mem s m, d)).

(** Lines 80-88: the fields of a new device, from the header at [hdr]. *)
Definition pci_fill (new hdr bus slot func : Z) (m : mem) : mem :=
  let m := (memset m new 0 sizeof_PCIDevice).1 in
  let m := wr8 m (new + off_pci_bus) bus in
  let m := wr8 m (new + off_pci_slot) slot in
  let m := wr8 m (new + off_pci_func) func in
  let m := (memcpy m (new + off_pci_hdr) hdr sizeof_PCIConfigHeader).1 in
  let m := wr8 m (new + off_pci_id + off_id_class) (hdr_class m hdr) in
  let m := wr8 m (new + off_pci_id + off_id_sub_class) (hdr_sub_class m hdr) in
  let m := wr16 m (new + off_pci_id + off_id_device) (hdr_device m hdr) in
  wr16 m (new + off_pci_id) (hdr_vendor m hdr).

(** Lines 73-94, from [func] on with [k] functions left; [hdr] is the address
    of the local header. *)
Fixpoint enum_funcs (k : nat) (func hdr bus slot : Z) (s : fss PS) (d : D) : outcome (Z * (fss PS * D)) :=
  match k with
  | O => Ok (1, (s, d))
  | S k =>
      let '(m, d) := pci_read_config_header hdr bus slot func (fs_mem s) d in
      let s := fs_set_mem s m in
      if hdr_vendor m hdr =? 0xffff then Ok (1, (s, d))
      else
        r ← fs_kmalloc pools sizeof_PCIDevice s;
        let '(new, s) := r in
        if new =? NULL then Ok (-1, (s, d))
        else
          let m := LL_enqueue (pci_fill new hdr bus slot func (fs_mem s)) devs new in
          let s := fs_klog KLOG_LEVEL_INFO "enumerated PCI device with class 0x%X on bus %d slot %d func %d" (fs_set_mem s m) in
          enum_funcs k (func + 1) hdr bus slot s d
  end.

Definition pci_enum_device (hdr bus slot : Z) (s : fss PS) (d : D) : outcome (Z * (fss PS * D)) :=
  let '(v, d) := pci_read_config_vendor bus slot 0 d in
  if v =? 0xffff then Ok (0, (s, d)) else enum_funcs 4 0 hdr bus slot s d.

(** The two loops of [PCI_enum], over (bus, slot) pairs in order. *)
Fixpoint enum_slots (bss : list (Z * Z)) (hdr : Z) (s : fss PS) (d : D) : outcome (fss PS * D) :=
  match bss with
  | [] => Ok (s, d)
  | (bus, slot) :: bss => r ← pci_enum_device hdr (u8 bus) slot s d; enum_slots bss hdr r.2.1 r.2.2
  end.

Definition all_slots : list (Z * Z) := bus ← seqZ 0 256; slot ← seqZ 0 32; [(bus, slot)].

Definition PCI_enum (hdr : Z) (s : fss PS) (d : D) : outcome (Z * (fss PS * D)) :=
  r ← enum_slots all_slots hdr s d; Ok (0, r).

(** [probe] calls the function at a pointer with a device. *)
Context {W : Type} (w_mem : W → mem) (probe : Z → Z → W → outcome W).

Definition pci_matches (m : mem) (dev driver : Z) : bool :=
  (rd8 m (dev + off_pci_id + off_id_class) =? rd8 m (driver + off_id_class)) &&
  (rd8 m (dev + off_pci_id + off_id_sub_class) =? rd8 m (driver + off_id_sub_class)).

Fixpoint register_loop (fuel : nat) (curr driver : Z) (w : W) : outcome W :=
  match fuel with
  | O => Hang
  | S fuel =>
      if LL_nhead (w_mem w) devs curr =? devs then Ok w
      else
        w ← (if pci_matches (w_mem w) curr driver then probe (rd64 (w_mem w) (driver + off_probe)) curr w else Ok w);
        let m := w_mem w in
        register_loop fuel (LL_ndata m devs (nxt m (LL_nhead m devs curr))) driver w
  end.

Definition PCI_register (fuel : nat) (driver : Z) (w : W) : outcome (Z * W) :=
  let m := w_mem w in
  w ← register_loop fuel (LL_ndata m devs (nxt m devs)) driver w; Ok (0, w).
End Code.

(** ** Configuration space *)

Definition bits (x lo w : Z) : Z := Z.land (Z.shiftr x lo) (Z.ones w).

(** What the code relies on of the host bridge: the address port latches, the
    data port reads the word that the latched address selects, and neither
    changes configuration space. *)
Class PciHost (D : Type) `{PortIO D} := {
  cfg : D → Z → Z → Z → Z → Z;         (* bus, slot, function, word *)
  latch : D → Z;
  host_latch a d : latch (outl PCI_CONFIG_ADDR a d) = u32 a ∧ cfg (outl PCI_CONFIG_ADDR a d) = cfg d;
  host_data d : Z.testbit (latch d) 31 = true →
    (inl PCI_CONFIG_DATA d).1 = cfg d (bits (latch d) 16 8) (bits (latch d) 11 5) (bits (latch d) 8 3) (bits (latch d) 2 6) ∧
    cfg (inl PCI_CONFIG_DATA d).2 = cfg d
}.

Lemma lor_add k x y : 0 ≤ k → x mod 2 ^ k = 0 → 0 ≤ y < 2 ^ k → Z.lor x y = x + y.
Proof.
  intros Hk Hx Hy. assert (E : Z.land x y = 0).
  { apply Z.bits_inj'. intros n Hn. rewrite Z.land_spec, Z.bits_0. destruct (Z.lt_ge_cases n k) as [Hlt|Hge].
    - rewrite <- (Z.mod_pow2_bits_low x k n) by lia. by rewrite Hx, Z.bits_0.
    - rewrite <- (Z.mod_small y (2 ^ k)) by lia. by rewrite (Z.mod_pow2_bits_high y k n), andb_false_r by lia. }
  pose proof (Z.add_lor_land x y). lia.
Qed.

Lemma pci_address_sum bus slot func w :
  0 ≤ bus < 256 → 0 ≤ slot < 32 → 0 ≤ func < 8 → 0 ≤ w < 64 →
  pci_address bus slot func (4 * w) = 2147483648 + bus * 65536 + slot * 2048 + func * 256 + 4 * w.
Proof.
  intros Hb Hs Hf Hw. unfold pci_address. rewrite !Z.shiftl_mul_pow2 by lia.
  change (2 ^ 16) with 65536. change (2 ^ 11) with 2048. change (2 ^ 8) with 256.
  assert (El : Z.land (4 * w) 0xfc = 4 * w).
  { change 0xfc with (Z.ldiff (Z.ones 8) (Z.ones 2)). apply Z.bits_inj'. intros n Hn.
    rewrite Z.land_spec, Z.ldiff_spec, !Z.testbit_ones_nonneg by lia.
    replace (4 * w) with (w * 2 ^ 2) by lia. destruct (Z.ltb_spec n 2).
    - rewrite Z.mul_pow2_bits_low by lia. done.
    - destruct (Z.ltb_spec n 8); [by rewrite andb_true_r|].
      rewrite Z.mul_pow2_bits by lia. rewrite <- (Z.mod_small w (2 ^ 6)) by lia.
      by rewrite Z.mod_pow2_bits_high by lia. }
  rewrite El. rewrite (lor_add 16 (bus * 65536) (slot * 2048)) by (change (2 ^ 16) with 65536; lia || by apply Z.mod_mul).
  rewrite (lor_add 11 _ (func * 256)) by (change (2 ^ 11) with 2048; word_lia).
  rewrite (lor_add 8 _ (4 * w)) by (change (2 ^ 8) with 256; word_lia).
  rewrite Z.lor_comm, (lor_add 31 0x80000000) by (change (2 ^ 31) with 2147483648; done || lia).
  rewrite u32_small by lia. lia.
Qed.

Lemma bits_div x lo w : 0 ≤ lo → 0 ≤ w → bits x lo w = (x / 2 ^ lo) mod 2 ^ w.
Proof. intros Hl Hw. unfold bits. by rewrite Z.shiftr_div_pow2, Z.land_ones by lia. Qed.

Section Host.
Context {D : Type} `{Hport : PortIO D} `{Hhost : !PciHost D}.

Lemma pci_read_config_ok bus slot func w d :
  0 ≤ bus < 256 → 0 ≤ slot < 32 → 0 ≤ func < 8 → 0 ≤ w < 64 →
  (pci_read_config bus slot func (4 * w) d).1 = cfg d bus slot func w ∧
  cfg (pci_read_config bus slot func (4 * w) d).2 = cfg d.
Proof using.
  intros Hb Hs Hf Hw. unfold pci_read_config. rewrite pci_address_sum by done.
  set (a := 2147483648 + bus * 65536 + slot * 2048 + func * 256 + 4 * w).
  destruct (host_latch a d) as [E1 E2]. rewrite u32_small in E1 by (subst a; lia).
  destruct (host_data (outl PCI_CONFIG_ADDR a d)) as [E3 E4].
  - rewrite E1. apply Z.testbit_true; [lia|]. change (2 ^ 31) with 2147483648. subst a. word_lia.
  - rewrite E3, E4, E1, E2. split; [|done]. rewrite !bits_div by lia.
    change (2 ^ 16) with 65536. change (2 ^ 11) with 2048. change (2 ^ 8) with 256. change (2 ^ 5) with 32.
    change (2 ^ 3) with 8. change (2 ^ 2) with 4. change (2 ^ 6) with 64. subst a.
    f_equal; word_lia.
Qed.

Lemma pci_read_config_u32 bus slot func off d : 0 ≤ (pci_read_config bus slot func off d).1 < 4294967296.
Proof using.
  unfold pci_read_config, inl. destruct (port_in _ _ _) as [v d']. cbn [fst]. apply u32_range.
Qed.

Lemma read_words_ok hdr bus slot func : 0 ≤ bus < 256 → 0 ≤ slot < 32 → 0 ≤ func < 8 → ∀ k off m d,
  0 ≤ off → off + Z.of_nat k ≤ 63 →
  let r := read_words k off hdr bus slot func m d in
  cfg r.2 = cfg d ∧ (∀ i, off ≤ i < off + Z.of_nat k → rd32 r.1 (hdr + 4 * i) = cfg d bus slot func i) ∧
  only_in (hdr + 4 * off) (4 * Z.of_nat k) m r.1.
Proof using.
  intros Hb Hs Hf. induction k as [|k IH]; intros off m d Ho Hk; cbv zeta.
  { split; [done|]. split; [intros i Hi; lia|by intros b _]. }
  cbn [read_words]. rewrite (Z.mul_comm off 4), u8_small by lia.
  destruct (pci_read_config_ok bus slot func off d) as [E1 E2]; [done..|lia|].
  pose proof (pci_read_config_u32 bus slot func (4 * off) d) as Hv.
  destruct (pci_read_config bus slot func (4 * off) d) as [v d1]. cbn [fst snd] in *. subst v.
  destruct (IH (off + 1) (wr32 m (hdr + 4 * off) (cfg d bus slot func off)) d1) as (I1 & I2 & I3); [lia|lia|].
  split; [by rewrite I1|]. split.
  - intros i Hi. destruct (decide (i = off)) as [->|].
    + unfold rd32. rewrite (rd_le_only_in 4 _ _ _ _ _ I3) by (unfold apart; cbn; lia).
      unfold wr32. rewrite rd_le_wr_le. by apply Z.mod_small.
    + rewrite I2 by lia. by rewrite E2.
  - intros b Hb'. rewrite I3 by lia. apply rd8_wr_le_out. cbn. lia.
Qed.
End Host.

(** The fields of a header in terms of its words. *)
Lemma rd16_low m a : rd16 m a = rd32 m a mod 65536.
Proof.
  unfold rd16, rd32. change (rd_le 4 m a) with (rd_le (2 + 2) m a). rewrite (rd_le_app 2 2 m a). pose proof (rd_le_range 2 m a) as H. change (256 ^ Z.of_nat 2) with 65536 in *. word_lia.
Qed.

Lemma rd16_high m a : rd16 m (a + 2) = rd32 m a / 65536.
Proof.
  unfold rd16, rd32. change (rd_le 4 m a) with (rd_le (2 + 2) m a). rewrite (rd_le_app 2 2 m a). pose proof (rd_le_range 2 m a) as H. change (256 ^ Z.of_nat 2) with 65536 in *.
  replace (a + Z.of_nat 2) with (a + 2) by lia. word_lia.
Qed.

Lemma rd8_third m a : rd8 m (a + 2) = rd32 m a / 65536 mod 256.
Proof. rewrite <- rd16_high. unfold rd16. cbn [rd_le]. pose proof (rd8_range m (a + 2)). word_lia. Qed.

Lemma rd8_fourth m a : rd8 m (a + 3) = rd32 m a / 16777216.
Proof.
  replace (rd32 m a / 16777216) with (rd32 m a / 65536 / 256) by (rewrite Z.div_div by lia; done).
  rewrite <- rd16_high. unfold rd16. cbn [rd_le]. pose proof (rd8_range m (a + 2)). replace (a + 2 + 1) with (a + 3) by lia. word_lia.
Qed.

(** ** What is enumerated *)

(** The device object at [d] describes function [func] of a slot whose
    configuration words are [c]. *)
Record pci_dev (m : mem) (c : Z → Z → Z → Z → Z) (d : Z) (at_ : Z * Z * Z) : Prop := {
  pd_bus : rd8 m (d + off_pci_bus) = at_.1.1;
  pd_slot : rd8 m (d + off_pci_slot) = at_.1.2;
  pd_func : rd8 m (d + off_pci_func) = at_.2;
  pd_hdr i : 0 ≤ i < 4 → rd32 m (d + off_pci_hdr + 4 * i) = c at_.1.1 at_.1.2 at_.2 i;
  pd_vendor : rd16 m (d + off_pci_id) = c at_.1.1 at_.1.2 at_.2 0 mod 65536;
  pd_device : rd16 m (d + off_pci_id + off_id_device) = c at_.1.1 at_.1.2 at_.2 0 / 65536;
  pd_class : rd8 m (d + off_pci_id + off_id_class) = c at_.1.1 at_.1.2 at_.2 2 / 16777216;
  pd_sub_class : rd8 m (d + off_pci_id + off_id_sub_class) = c at_.1.1 at_.1.2 at_.2 2 / 65536 mod 256
}.

Definition present (c : Z → Z → Z → Z → Z) (bus slot func : Z) : bool := negb (c bus slot func 0 mod 65536 =? 0xffff).

(** The functions a slot is seen to have: those before the first gap, of the
    first four. *)
Fixpoint functions (c : Z → Z → Z → Z → Z) (k : nat) (func bus slot : Z) : list (Z * Z * Z) :=
  match k with
  | O => []
  | S k => if present c bus slot func then (bus, slot, func) :: functions c k (func + 1) bus slot else []
  end.

Lemma pci_dev_ext m m' c d i : (∀ x, d + 16 ≤ x < d + 48 → rd8 m' x = rd8 m x) → pci_dev m c d i → pci_dev m' c d i.
Proof.
  intros Hm [P1 P2 P3 P4 P5 P6 P7 P8].
  assert (Hw : ∀ n a, d + 16 ≤ a → a + Z.of_nat n ≤ d + 48 → rd_le n m' a = rd_le n m a).
  { intros n a H1 H2. apply rd_le_ext. intros b Hb. apply Hm. lia. }
  unfold off_pci_bus, off_pci_slot, off_pci_func, off_pci_hdr, off_pci_id, off_id_device, off_id_class, off_id_sub_class in *.
  split; unfold off_pci_bus, off_pci_slot, off_pci_func, off_pci_hdr, off_pci_id, off_id_device, off_id_class, off_id_sub_class;
    rewrite ?Hm by lia; try done.
  - intros j Hj. unfold rd32. rewrite Hw by (cbn; lia). by apply P4.
  - unfold rd16. rewrite Hw by (cbn; lia). done.
  - unfold rd16. rewrite Hw by (cbn; lia). done.
Qed.

(** The id fields of a header whose words are [w]. *)
Lemma header_fields m w hdr :
  (∀ i, 0 ≤ i < 4 → rd32 m (hdr + 4 * i) = w i) →
  hdr_vendor m hdr = w 0 mod 65536 ∧ hdr_device m hdr = w 0 / 65536 ∧
  hdr_class m hdr = w 2 / 16777216 ∧ hdr_sub_class m hdr = w 2 / 65536 mod 256.
Proof.
  intros Hw. pose proof (Hw 0 ltac:(lia)) as H0. rewrite Z.add_0_r in H0. pose proof (Hw 2 ltac:(lia)) as H2.
  unfold hdr_vendor, hdr_device, hdr_class, hdr_sub_class. rewrite rd16_low, rd16_high, H0.
  replace (hdr + 11) with (hdr + 4 * 2 + 3) by lia. replace (hdr + 10) with (hdr + 4 * 2 + 2) by lia.
  by rewrite rd8_fourth, rd8_third, H2.
Qed.

Lemma words_ext m m' a n w hdr :
  only_in a n m m' → apart hdr 16 a n →
  (∀ i, 0 ≤ i < 4 → rd32 m (hdr + 4 * i) = w i) → ∀ i, 0 ≤ i < 4 → rd32 m' (hdr + 4 * i) = w i.
Proof.
  intros Hm Ha Hw i Hi. rewrite <- Hw by done. apply (rd_le_only_in 4 a n); [done|]. unfold apart in *. cbn. lia.
Qed.

(** Copying sixteen bytes copies four words. *)
Lemma words_copied m m' w dst src :
  (∀ x, 0 ≤ x < 16 → rd8 m' (dst + x) = rd8 m (src + x)) →
  (∀ i, 0 ≤ i < 4 → rd32 m (src + 4 * i) = w i) → ∀ i, 0 ≤ i < 4 → rd32 m' (dst + 4 * i) = w i.
Proof.
  intros Hc Hw i Hi. rewrite <- Hw by done. unfold rd32. cbn [rd_le].
  rewrite <- !Z.add_assoc. rewrite !Hc by lia. done.
Qed.

(** The first half of [pci_fill]: the cleared object has its address, and the
    header's four words. *)
Lemma pci_copy_ok m c new hdr bus slot func :
  0 ≤ bus < 256 → 0 ≤ slot < 256 → 0 ≤ func < 256 → apart hdr 16 new 48 →
  (∀ i, 0 ≤ i < 4 → rd32 m (hdr + 4 * i) = c bus slot func i) →
  let m1 := wr8 (wr8 (wr8 (memset m new 0 sizeof_PCIDevice).1 (new + 22) bus) (new + 23) slot) (new + 24) func in
  let m2 := (memcpy m1 (new + 25) hdr 16).1 in
  only_in new 48 m m2 ∧ (∀ i, 0 ≤ i < 4 → rd32 m2 (new + 25 + 4 * i) = c bus slot func i) ∧
  rd8 m2 (new + 22) = bus ∧ rd8 m2 (new + 23) = slot ∧ rd8 m2 (new + 24) = func.
Proof.
  intros Hb Hs Hf Ha Hh m1.
  assert (O1 : only_in new 48 m m1).
  { intros b Hb'. unfold m1. rewrite !rd8_wr8_ne by lia. rewrite memset_rd8, decide_False by (unfold sizeof_PCIDevice; lia). done. }
  assert (B1 : rd8 m1 (new + 22) = bus ∧ rd8 m1 (new + 23) = slot ∧ rd8 m1 (new + 24) = func).
  { unfold m1. rewrite rd8_wr8_ne, rd8_wr8_ne, rd8_wr8_eq by lia. rewrite rd8_wr8_ne, rd8_wr8_eq, rd8_wr8_eq by lia.
    by rewrite !u8_small by lia. }
  clearbody m1. intros m2.
  assert (C2 : ∀ b, rd8 m2 b = if decide (new + 25 ≤ b < new + 41) then rd8 m1 (hdr + (b - (new + 25))) else rd8 m1 b).
  { intros b. unfold m2, memcpy. cbn [fst]. rewrite memcpy_loop_rd8 by (unfold apart in Ha; cbn; lia).
    repeat case_decide; try done; cbn in *; lia. }
  clearbody m2.
  assert (O2 : only_in new 48 m m2) by (intros b Hb'; rewrite C2, decide_False by lia; by apply O1).
  assert (H2 : ∀ i, 0 ≤ i < 4 → rd32 m2 (new + 25 + 4 * i) = c bus slot func i).
  { apply (words_copied m m2 _ (new + 25) hdr); [|done]. intros x Hx. rewrite C2, decide_True by lia.
    rewrite O1 by (unfold apart in Ha; lia). f_equal. lia. }
  assert (B2 : rd8 m2 (new + 22) = bus ∧ rd8 m2 (new + 23) = slot ∧ rd8 m2 (new + 24) = func)
    by (rewrite !C2, !decide_False by lia; done).
  done.
Qed.

(** The memory that [pci_fill] writes describes the function whose header it
    copies. *)
Lemma pci_fill_ok m c new hdr bus slot func :
  0 ≤ bus < 256 → 0 ≤ slot < 256 → 0 ≤ func < 256 → apart hdr 16 new 48 →
  (∀ i, 0 ≤ i < 4 → rd32 m (hdr + 4 * i) = c bus slot func i) →
  pci_dev (pci_fill new hdr bus slot func m) c new (bus, slot, func) ∧ only_in new 48 m (pci_fill new hdr bus slot func m).
Proof.
  intros Hb Hs Hf Ha Hh. destruct (pci_copy_ok m c new hdr bus slot func Hb Hs Hf Ha Hh) as (O2 & H2 & B2). unfold pci_fill.
  unfold off_pci_bus, off_pci_slot, off_pci_func, off_pci_hdr, off_pci_id, off_id_device, off_id_class, off_id_sub_class,
    sizeof_PCIConfigHeader in *.
  set (m2 := (memcpy _ _ _ _).1) in *. clearbody m2.
  assert (HF : ∀ m', only_in new 48 m m' → hdr_vendor m' hdr = c bus slot func 0 mod 65536 ∧ hdr_device m' hdr = c bus slot func 0 / 65536 ∧
    hdr_class m' hdr = c bus slot func 2 / 16777216 ∧ hdr_sub_class m' hdr = c bus slot func 2 / 65536 mod 256).
  { intros m' Hm'. apply (header_fields m' (c bus slot func)). by eapply words_ext. }
  destruct (HF m2 O2) as (_ & _ & -> & _). set (m3 := wr8 m2 _ _).
  assert (O3 : only_in new 48 m m3) by (intros b Hb'; unfold m3; rewrite rd8_wr8_ne by lia; by apply O2).
  destruct (HF m3 O3) as (_ & _ & _ & ->). set (m4 := wr8 m3 _ _).
  assert (O4 : only_in new 48 m m4) by (intros b Hb'; unfold m4; rewrite rd8_wr8_ne by lia; by apply O3).
  destruct (HF m4 O4) as (_ & -> & _). set (m5 := wr16 m4 _ _).
  assert (O5 : only_in new 48 m m5) by (intros b Hb'; unfold m5, wr16; rewrite rd8_wr_le_out by (cbn; lia); by apply O4).
  destruct (HF m5 O5) as (-> & _).
  assert (O6 : only_in new 48 m (wr16 m5 (new + 16) (c bus slot func 0 mod 65536)))
    by (intros b Hb'; unfold wr16; rewrite rd8_wr_le_out by (cbn; lia); by apply O5).
  split; [|done].
  assert (R0 : 0 ≤ c bus slot func 0 < 4294967296) by (rewrite <- Hh by lia; apply (rd_le_range 4)).
  assert (R2 : 0 ≤ c bus slot func 2 < 4294967296) by (rewrite <- Hh by lia; apply (rd_le_range 4)).
  clear HF O2 O3 O4 O5 O6. destruct B2 as (E1 & E2 & E3). unfold m5, m4, m3, wr16.
  split; cbn [fst snd]; unfold off_pci_bus, off_pci_slot, off_pci_func, off_pci_hdr, off_pci_id, off_id_device, off_id_class, off_id_sub_class, rd16, rd32;
    rewrite ?rd8_wr_le_out, ?rd8_wr8_ne by (cbn; lia); try done.
  - intros i Hi. rewrite !rd_le_wr_le_apart by (unfold apart; cbn; lia). etransitivity; [|exact (H2 i Hi)].
    apply rd_le_ext. intros b Hb'. cbn in Hb'. by rewrite !rd8_wr8_ne by lia.
  - rewrite rd_le_wr_le. change (256 ^ Z.of_nat 2) with 65536. word_lia.
  - rewrite rd_le_wr_le_apart, rd_le_wr_le by (unfold apart; cbn; lia). change (256 ^ Z.of_nat 2) with 65536. word_lia.
  - rewrite rd8_wr8_eq. apply u8_small. word_lia.
  - rewrite rd8_wr8_eq. apply u8_small. word_lia.
Qed.

(** ** The enumeration *)

Section Enum.
Context {PS : Type} `{Hps : PageSource PS} {D : Type} `{Hport : PortIO D} `{Hhost : !PciHost D}.
Context (devs pools hdr : Z).

(** The list holds the device objects [ds], which describe the functions [fns];
    they and the list are clear of the heap's own memory. *)
Record pci_inv (s : fss PS) (c : Z → Z → Z → Z → Z) (H : heap) (L : list (Z * Z)) (ds : list Z) (fns : list (Z * Z * Z)) : Prop := {
  pi_heap : heap_rep pools (fs_mem s) (fs_ps s) H L;
  pi_list : list_rep (fs_mem s) devs 0 ds;
  pi_devs : Forall2 (pci_dev (fs_mem s) c) ds fns;
  pi_own d : d ∈ ds → owned H d 48;
  pi_static : static pools devs 24 ∧ static pools hdr 16 ∧ apart hdr 16 devs 24
}.

(** Reading a header changes only the local copy. *)
Lemma pci_inv_hdr s c H L ds fns m' : pci_inv s c H L ds fns → only_in hdr 16 (fs_mem s) m' → pci_inv (fs_set_mem s m') c H L ds fns.
Proof using.
  intros [P1 P2 P3 P4 (P5 & P6 & P7)] Hm. split; cbn [fs_set_mem fs_mem fs_ps].
  - eapply heap_rep_write; [exact P1|right; exact P6|done].
  - eapply list_rep_ext; [| |exact P2].
    + intros x Hx. apply Hm. unfold apart in P7. lia.
    + intros d x Hd Hx. apply Hm. pose proof (owned_static _ _ _ _ _ _ _ _ _ P1 (P4 d Hd) P6) as Ha. unfold apart in Ha. lia.
  - eapply Forall2_elem_impl; [exact P3|]. intros d i Hd. apply pci_dev_ext. intros x Hx. apply Hm.
    pose proof (owned_static _ _ _ _ _ _ _ _ _ P1 (P4 d Hd) P6) as Ha. unfold apart in Ha. lia.
  - done.
  - done.
Qed.

(** Lines 77-91: a new object is filled in and appended. *)
Lemma pci_inv_add s c H L ds fns bus slot func s1 new H' L' :
  pci_inv s c H L ds fns → 0 ≤ bus < 256 → 0 ≤ slot < 256 → 0 ≤ func < 256 →
  (∀ i, 0 ≤ i < 4 → rd32 (fs_mem s) (hdr + 4 * i) = c bus slot func i) →
  heap_rep pools (fs_mem s1) (fs_ps s1) H' L' → new_object pools H H' (fs_mem s) (fs_mem s1) new 48 →
  pci_inv (fs_set_mem s1 (LL_enqueue (pci_fill new hdr bus slot func (fs_mem s1)) devs new)) c H' L' (ds ++ [new]) (fns ++ [(bus, slot, func)]).
Proof using.
  intros [P1 P2 P3 P4 (P5 & P6 & P7)] Hb Hs Hf Hw R' (N1 & N2 & N3).
  assert (Anew : ∀ d, d ∈ ds → apart d 48 new 48).
  { intros d Hd. destruct (N2 d 48 (P4 d Hd)) as (Od & Hne & _). apply (owned_apart _ _ _ _ _ _ _ _ _ R' Od N1). congruence. }
  pose proof (owned_static _ _ _ _ _ _ _ _ _ R' N1 P6) as Ahdr. pose proof (owned_static _ _ _ _ _ _ _ _ _ R' N1 P5) as Adev.
  pose proof (owned_range _ _ _ _ _ _ _ R' N1) as (G1 & _ & _ & _ & G2 & _).
  assert (Hw1 : ∀ i, 0 ≤ i < 4 → rd32 (fs_mem s1) (hdr + 4 * i) = c bus slot func i).
  { intros i Hi. rewrite <- Hw by done. apply (rd_le_ext 4). intros x Hx. cbn in Hx. apply (N3 hdr 16); [done|lia]. }
  destruct (pci_fill_ok (fs_mem s1) c new hdr bus slot func Hb Hs Hf) as [F1 F2]; [unfold apart in *; lia|done|].
  set (m2 := pci_fill new hdr bus slot func (fs_mem s1)) in *. clearbody m2.
  assert (K2 : ∀ d x, d ∈ ds → d ≤ x < d + 48 → rd8 m2 x = rd8 (fs_mem s) x).
  { intros d x Hd Hx. rewrite F2 by (pose proof (Anew d Hd) as A; unfold apart in A; lia). by apply (N2 d 48 (P4 d Hd)). }
  assert (R2 : list_rep m2 devs 0 ds).
  { eapply list_rep_ext; [| |exact P2].
    - intros x Hx. rewrite F2 by (unfold apart in Adev; lia). by apply (N3 devs 24).
    - intros d x Hd Hx. apply (K2 d); [done|lia]. }
  assert (Hown : ∀ d, d ∈ ds ++ [new] → owned H' d 48)
    by (intros d [Hd| ->%list_elem_of_singleton]%elem_of_app; [by apply N2, P4|done]).
  assert (Hnew : new ∉ ds) by (intros Hd; specialize (Anew new Hd); unfold apart in Anew; lia).
  assert (RH : heap_rep pools m2 (fs_ps s1) H' L') by (eapply heap_rep_write; [exact R'|left; exact N1|done]).
  destruct (enqueue_object pools m2 (fs_ps s1) H' L' devs 0 48 ds new RH R2 Hown Hnew) as (E1 & E2 & _ & E4); [lia|done|].
  split; cbn [fs_set_mem fs_mem fs_ps]; [done|done| |done|done].
  apply Forall2_app.
  - eapply Forall2_elem_impl; [exact P3|]. intros d i Hd. apply pci_dev_ext. intros x Hx.
    rewrite (E4 d x) by (lia || (apply elem_of_app; by left)). apply (K2 d); [done|lia].
  - constructor; [|constructor]. eapply pci_dev_ext; [|exact F1]. intros x Hx.
    apply (E4 new x); [apply elem_of_app; right; left|lia|lia].
Qed.

Lemma pci_inv_log s c H L ds fns lvl msg : pci_inv s c H L ds fns → pci_inv (fs_klog lvl msg s) c H L ds fns.
Proof using. intros [P1 P2 P3 P4 P5]. by split. Qed.

(** The outcome of enumerating: [got] is registered on top of [fns], all of
    [want] unless the heap ran out of pages. *)
Definition enumerated (c : Z → Z → Z → Z → Z) (ds : list Z) (fns want : list (Z * Z * Z)) (r ok : Z) (s : fss PS) (d : D) : Prop :=
  cfg d = c ∧ ∃ H L new got, pci_inv s c H L (ds ++ new) (fns ++ got) ∧ got `prefix_of` want ∧
    ((r = ok ∧ got = want) ∨ (r = -1 ∧ ∃ np s0, ps_alloc np s0 = Ok (NULL, fs_ps s))).

Lemma enum_funcs_ok bus slot : 0 ≤ bus < 256 → 0 ≤ slot < 32 → ∀ k func s d H L ds fns,
  pci_inv s (cfg d) H L ds fns → 0 ≤ func → func + Z.of_nat k ≤ 8 →
  ∃ r s' d', enum_funcs devs pools k func hdr bus slot s d = Ok (r, (s', d')) ∧
    enumerated (cfg d) ds fns (functions (cfg d) k func bus slot) r 1 s' d'.
Proof using.
  intros Hb Hs. induction k as [|k IH]; intros func s d H L ds fns P Hf Hk; cbn [enum_funcs functions].
  { eexists _, _, _. split; [done|]. split; [done|]. exists H, L, [], []. rewrite !app_nil_r. split; [done|]. split; [done|]. by left. }
  unfold pci_read_config_header.
  destruct (read_words_ok hdr bus slot func Hb Hs ltac:(lia) 4 0 (fs_mem s) d) as (W1 & W2 & W3); [lia|lia|].
  destruct (read_words 4 0 hdr bus slot func (fs_mem s) d) as [m1 d1]. cbn [fst snd] in *.
  rewrite Z.mul_0_r, Z.add_0_r in W3. change (4 * Z.of_nat 4) with 16 in W3.
  assert (W2' : ∀ i, 0 ≤ i < 4 → rd32 m1 (hdr + 4 * i) = cfg d bus slot func i) by (intros i Hi; apply W2; lia).
  destruct (header_fields m1 (cfg d bus slot func) hdr W2') as (V & _). rewrite V.
  pose proof (pci_inv_hdr s (cfg d) H L ds fns m1 P W3) as P1. unfold present.
  destruct (Z.eqb_spec (cfg d bus slot func 0 mod 65536) 0xffff) as [E|E]; cbn [negb].
  { eexists _, _, _. split; [done|]. split; [done|]. exists H, L, [], []. rewrite !app_nil_r. split; [done|]. split; [done|]. by left. }
  unfold fs_kmalloc. destruct (kmalloc_small_object pools m1 (fs_ps s) H L sizeof_PCIDevice (pi_heap _ _ _ _ _ _ P1)) as
    (new & m2 & ps2 & H2 & L2 & Ek & R2 & Hc); [done|]. cbn [fs_set_mem fs_mem fs_ps fs_log]. rewrite Ek, !bind_Ok. cbn [fst snd].
  destruct Hc as [(-> & -> & -> & Hn)|(Hn & Hobj)].
  { cbn [Z.eqb NULL]. eexists _, _, _. split; [done|]. split; [done|]. exists H, L2, [], []. rewrite !app_nil_r.
    split; [|split; [apply prefix_nil|right; split; [done|]; destruct Hn as [np Hn]; by exists np, (fs_ps s)]]. by destruct P1; split. }
  rewrite (proj2 (Z.eqb_neq new NULL)) by done.
  pose proof (pci_inv_add (fs_set_mem s m1) (cfg d) H L ds fns bus slot func (mkFs m2 ps2 (fs_log s)) new H2 L2 P1 Hb
    ltac:(lia) ltac:(lia) W2' R2 Hobj) as P2. cbn [fs_set_mem fs_mem fs_ps fs_log] in P2.
  apply (pci_inv_log _ _ _ _ _ _ KLOG_LEVEL_INFO "enumerated PCI device with class 0x%X on bus %d slot %d func %d") in P2.
  rewrite <- W1 in P2. destruct (IH (func + 1) _ d1 _ _ _ _ P2) as (r & s' & d' & E' & C' & H3 & L3 & nw & got & I3 & Hp & Hr); [lia|lia|].
  rewrite W1 in *. exists r, s', d'. split; [exact E'|]. split; [done|]. exists H3, L3, (new :: nw), ((bus, slot, func) :: got).
  split; [by rewrite <- !app_assoc in I3|]. split; [by apply prefix_cons|].
  destruct Hr as [[-> ->]|?]; [by left|by right].
Qed.

Lemma pci_read_config_vendor_ok bus slot d : 0 ≤ bus < 256 → 0 ≤ slot < 32 →
  (pci_read_config_vendor bus slot 0 d).1 = cfg d bus slot 0 0 mod 65536 ∧ cfg (pci_read_config_vendor bus slot 0 d).2 = cfg d.
Proof using.
  intros Hb Hs. unfold pci_read_config_vendor. destruct (pci_read_config_ok bus slot 0 0 d Hb Hs) as [E1 E2]; [lia|lia|].
  rewrite Z.mul_0_r in *. destruct (pci_read_config bus slot 0 0 d) as [v d1]. cbn [fst snd] in *. subst v. split; [|done].
  change 0xffff with (Z.ones 16). rewrite Z.land_ones by lia. change (2 ^ 16) with 65536. unfold u16. by rewrite Z.mod_mod.
Qed.

Lemma pci_enum_device_ok bus slot s d H L ds fns :
  0 ≤ bus < 256 → 0 ≤ slot < 32 → pci_inv s (cfg d) H L ds fns →
  ∃ r s' d', pci_enum_device devs pools hdr bus slot s d = Ok (r, (s', d')) ∧
    enumerated (cfg d) ds fns (functions (cfg d) 4 0 bus slot) r (b2z (present (cfg d) bus slot 0)) s' d'.
Proof using.
  intros Hb Hs P. unfold pci_enum_device. destruct (pci_read_config_vendor_ok bus slot d Hb Hs) as [E1 E2].
  destruct (pci_read_config_vendor bus slot 0 d) as [v d1]. cbn [fst snd] in *. subst v.
  assert (Hp : present (cfg d) bus slot 0 = negb (cfg d bus slot 0 0 mod 65536 =? 0xffff)) by done. rewrite Hp.
  destruct (Z.eqb_spec (cfg d bus slot 0 0 mod 65536) 0xffff) as [E|E]; cbn [negb b2z] in *.
  - eexists _, _, _. split; [done|]. split; [done|]. exists H, L, [], []. rewrite !app_nil_r. cbn [functions]. rewrite Hp.
    split; [done|]. split; [done|]. by left.
  - rewrite <- E2 in P. destruct (enum_funcs_ok bus slot Hb Hs 4 0 s d1 H L ds fns P) as (r & s' & d' & E' & Hen); [lia|lia|].
    rewrite E2 in *. by exists r, s', d'.
Qed.

(** The functions of the slots [bss], with what was registered of each. *)
Definition registered (c : Z → Z → Z → Z → Z) (bss : list (Z * Z)) (gots : list (list (Z * Z * Z))) : Prop :=
  Forall2 (fun bs got => got `prefix_of` functions c 4 0 bs.1 bs.2) bss gots.

Lemma enum_slots_ok bss : Forall (fun bs => 0 ≤ bs.1 < 256 ∧ 0 ≤ bs.2 < 32) bss → ∀ s d H L ds fns,
  pci_inv s (cfg d) H L ds fns →
  ∃ s' d' H' L' new gots, enum_slots devs pools bss hdr s d = Ok (s', d') ∧ cfg d' = cfg d ∧
    pci_inv s' (cfg d) H' L' (ds ++ new) (fns ++ concat gots) ∧ registered (cfg d) bss gots.
Proof using.
  induction 1 as [|[bus slot] bss [Hb Hs] _ IH]; intros s d H L ds fns P; cbn [enum_slots].
  { exists s, d, H, L, [], []. cbn. rewrite !app_nil_r. split; [done|]. split; [done|]. split; [done|]. constructor. }
  cbn [fst snd] in *. rewrite u8_small by done.
  destruct (pci_enum_device_ok bus slot s d H L ds fns Hb Hs P) as (r & s1 & d1 & E & C1 & H1 & L1 & nw & got & P1 & Hp & _).
  rewrite E, bind_Ok. cbn [fst snd]. rewrite <- C1 in P1.
  destruct (IH s1 d1 _ _ _ _ P1) as (s' & d' & H' & L' & new & gots & E' & C' & P' & Hr). rewrite C1 in *.
  exists s', d', H', L', (nw ++ new), (got :: gots). split; [done|]. split; [done|]. cbn [concat]. rewrite !app_assoc in *.
  split; [done|]. by constructor.
Qed.

Lemma all_slots_range : Forall (fun bs => 0 ≤ bs.1 < 256 ∧ 0 ≤ bs.2 < 32) all_slots.
Proof using. apply (bool_decide_unpack _). vm_compute. exact I. Qed.


(** One slot.  [pci_enum_device] returns 0 for an empty slot; otherwise it
    registers exactly the functions before the first gap among functions 0 to 3
    and returns 1, unless the heap's page source ran out, when it returns -1
    with a beginning of them registered. *)
Theorem pci_enum_device_exact (bus slot : Z) (s : fss PS) (d : D) (H : heap) (L : list (Z * Z)) (ds : list Z) (fns : list (Z * Z * Z)) :
  0 ≤ bus < 256 → 0 ≤ slot < 32 → pci_inv s (cfg d) H L ds fns →
  ∃ r s' d', pci_enum_device devs pools hdr bus slot s d = Ok (r, (s', d')) ∧
    enumerated (cfg d) ds fns (functions (cfg d) 4 0 bus slot) r (b2z (present (cfg d) bus slot 0)) s' d'.
Proof using. intros Hb Hs P. by apply (pci_enum_device_ok bus slot s d H L). Qed.
End Enum.

(** ** Registering a driver *)

Section Register.
Context (devs : Z) {W : Type} (w_mem : W → mem) (probe : Z → Z → W → outcome W).

(** The driver's [probe] on each of the devices in turn. *)
Fixpoint probe_all (fn : Z) (ds : list Z) (w : W) : outcome W :=
  match ds with
  | [] => Ok w
  | d :: ds => w ← probe fn d w; probe_all fn ds w
  end.

(** The list, the ids and the driver stay as they are while devices are probed. *)
Context (Inv : W → Prop) (ds : list Z) (mt : Z → bool) (driver fn : Z).
Hypothesis Inv_list : ∀ w, Inv w → list_rep (w_mem w) devs 0 ds.
Hypothesis Inv_ids : ∀ w d, Inv w → d ∈ ds → pci_matches (w_mem w) d driver = mt d.
Hypothesis Inv_fn : ∀ w, Inv w → rd64 (w_mem w) (driver + off_probe) = fn.
Hypothesis probe_ok : ∀ w d, Inv w → d ∈ ds → mt d = true → ∃ w', probe fn d w = Ok w' ∧ Inv w'.

Lemma register_loop_ok fuel : ∀ w pre post, Inv w → ds = pre ++ post → (length post < fuel)%nat →
  ∃ w', register_loop devs w_mem probe fuel (LL_ndata (w_mem w) devs (hd devs (hdrs 0 post))) driver w = Ok w' ∧
    probe_all fn (filter (fun d => mt d = true) post) w = Ok w' ∧ Inv w'.
Proof using Inv_list Inv_ids Inv_fn probe_ok.
  induction fuel as [|fuel IH]; intros w pre post Hi Hds Hf; [lia|]. cbn [register_loop].
  pose proof (Inv_list w Hi) as R. destruct post as [|d post].
  { cbn [hd fmap list_fmap]. rewrite (LL_cursor_end _ _ _ _ R), Z.eqb_refl. by exists w. }
  assert (Hd : d ∈ ds) by (rewrite Hds; apply elem_of_app; right; left).
  destruct (list_rep_valid _ _ _ _ d R Hd) as [Hv Hp]. cbn [hd fmap list_fmap].
  rewrite (LL_ndata_rep _ _ _ ds), (LL_nhead_rep _ _ _ ds) by done.
  rewrite (proj2 (Z.eqb_neq _ _) (list_rep_ne _ _ _ _ d R Hd)), (Inv_ids w d Hi Hd), (Inv_fn w Hi).
  assert (Hstep : ∃ w1, (if mt d then probe fn d w else Ok w) = Ok w1 ∧ Inv w1 ∧
    (∀ w', probe_all fn (filter (fun d => mt d = true) post) w1 = Ok w' →
           probe_all fn (filter (fun d => mt d = true) (d :: post)) w = Ok w')).
  { destruct (mt d) eqn:Em.
    - destruct (probe_ok w d Hi Hd Em) as (w1 & E1 & I1). exists w1. split; [done|]. split; [done|].
      intros w' E'. rewrite filter_cons_True by done. cbn [probe_all]. by rewrite E1, bind_Ok.
    - exists w. split; [done|]. split; [done|]. intros w' E'. by rewrite filter_cons_False by congruence. }
  destruct Hstep as (w1 & E1 & I1 & Hall). rewrite E1, bind_Ok. cbv zeta.
  pose proof (Inv_list w1 I1) as R1. rewrite (LL_nhead_rep _ _ _ ds d R1) by done.
  rewrite Hds in R1. rewrite (LL_cursor_next _ _ _ pre d post R1).
  destruct (IH w1 (pre ++ [d]) post I1) as (w' & E' & A' & I'); [by rewrite <- app_assoc|cbn in Hf; lia|].
  exists w'. split; [done|]. split; [by apply Hall|done].
Qed.

End Register.

(** ** An example: a bus with one disk controller *)

Definition demo_cfg (bus slot func w : Z) : Z :=
  if (bus =? 0) && (slot =? 1) && (func =? 0) then nth (Z.to_nat w) [0x70108086; 0; 0x01018000; 0] 0 else 0xffffffff.

(** The address latch; configuration space does not change. *)
Record demo_host := mkHost { host_latched : Z }.

#[export] Instance demo_host_ports : PortIO demo_host := {|
  port_in _ _ d := let a := host_latched d in (u32 (demo_cfg (bits a 16 8) (bits a 11 5) (bits a 8 3) (bits a 2 6)), d);
  port_out _ _ v d := mkHost v
|}.

#[export] Instance demo_host_pci : PciHost demo_host.
Proof.
  refine {| cfg d bus slot func w := u32 (demo_cfg bus slot func w); latch := host_latched |}.
  - intros a d. split; [|done]. cbn. done.
  - intros d _. split; [|done]. unfold inl. cbn. apply u32_small, u32_range.
Defined.

Definition demo_devs : Z := 0x300000.
Definition demo_pci : fss kstate := mkFs (LL_init demo_heap_mem demo_devs 0) demo_source [].

Lemma demo_pci_inv d : pci_inv demo_devs demo_pools 0x301000 demo_pci (cfg d) demo_heap [(MMAP_KERNEL_HEAP_START, 4)] [] [].
Proof.
  assert (S1 : static demo_pools demo_devs 24) by (apply demo_static; vm_compute; congruence).
  destruct (LL_init_rep demo_heap_mem demo_devs 0) as [R1 O1]; [unfold valid_hdr, demo_devs; lia|lia|].
  split; cbn [demo_pci fs_mem fs_ps].
  - eapply heap_rep_write; [exact demo_heap_rep|right; exact S1|exact O1].
  - exact R1.
  - constructor.
  - intros d' Hd. by apply elem_of_nil in Hd.
  - split; [exact S1|]. split; [apply demo_static; vm_compute; congruence|]. unfold apart, demo_devs. lia.
Qed.

Lemma pci_enum_device_exact_witness :
  ∃ r s' d', pci_enum_device demo_devs demo_pools 0x301000 0 1 demo_pci (mkHost 0) = Ok (r, (s', d')) ∧
    enumerated demo_devs demo_pools 0x301000 (cfg (mkHost 0)) [] [] [(0, 1, 0)] r 1 s' d'.
Proof. apply (pci_enum_device_exact demo_devs demo_pools 0x301000 0 1 demo_pci (mkHost 0) _ _ [] [] ltac:(lia) ltac:(lia) (demo_pci_inv _)). Defined.


(** Two devices, of which the second matches the driver at 0x9000; the probe
    records the devices it is called on. *)
Definition demo_register_mem : mem :=
  wr8 (wr8 (LL_append (LL_append (LL_init ∅ 4096 0) 4096 8192) 4096 8256) (8256 + 20) 1) (0x9000 + 4) 1.

Lemma demo_register_list : list_rep demo_register_mem 4096 0 [8192; 8256].
Proof.
  assert (R : list_rep (LL_append (LL_append (LL_init ∅ 4096 0) 4096 8192) 4096 8256) 4096 0 [8192; 8256]).
  { apply (LL_append_rep _ 4096 0 [8192]).
    - apply (LL_append_rep _ 4096 0 []); [apply LL_init_rep; [unfold valid_hdr; lia|lia]|].
      repeat split; try lia; [unfold apart; lia|constructor].
    - repeat split; try lia; [unfold apart; lia|]. constructor; [unfold sep16, apart; lia|constructor]. }
  unfold demo_register_mem. set (m := LL_append _ 4096 8256) in *. clearbody m.
  eapply list_rep_ext; [| |exact R].
  - intros x Hx. by rewrite !rd8_wr8_ne by lia.
  - intros d x Hd Hx. rewrite !elem_of_cons in Hd. destruct Hd as [->|[->|Hd]]; [..|by apply elem_of_nil in Hd];
      by rewrite !rd8_wr8_ne by lia.
Qed.

