(* ===== verification/Ata.v ===== *)
(** * The ATA disk (src/src/drivers/disk/ata.c)

    The register protocol of 48-bit reads, the queue of requests that the
    readers share, the interrupt handler, and the probing of a controller. *)

From S2P Require Import Prelude Memory CString LinkedList Segments Frames Machine Irq Paging Mmu Kmalloc Objects Sched Fs Pci.

(** ** Constants and layout *)

Definition ATA_LEGACY_PRIMARY_BASE : Z := 0x1F0.
Definition ATA_LEGACY_PRIMARY_CNTL : Z := 0x3F6.
Definition ATA_PRIMARY_IRQ : Z := 0x20 + 14.
Definition DATA_REG_OFF : Z := 0.
Definition ERR_REG_OFF : Z := 1.
Definition SECT_CNT_REG_OFF : Z := 2.
Definition LBA_LOW_OFF : Z := 3.
Definition LBA_MID_OFF : Z := 4.
Definition LBA_HIGH_OFF : Z := 5.
Definition DRIVE_REG_OFF : Z := 6.
Definition STATUS_REG_OFF : Z := 7.
Definition CMD_REG_OFF : Z := 7.
Definition ATA_SELECT_MASTER : Z := 0xE0.
Definition ATA_SR_BSY : Z := 0x80.
Definition ATA_SR_DRQ : Z := 0x08.
Definition ATA_SR_ERR : Z := 0x01.
Definition ATA_CMD_READ_PIO_EXT : Z := 0x24.
Definition ATA_CMD_IDENTIFY : Z := 0xEC.
Definition ATA_BLOCK_SIZE : Z := 512.

(** [struct ATARequest]: the list header, the block, the direction. *)
Definition off_req_lba : Z := 16.
Definition off_req_read : Z := 24.
Definition sizeof_ATARequest : Z := 32.

(** [struct ATADevice]: the block device first. *)
Definition off_base : Z := 72.
Definition off_cntl_base : Z := 76.
Definition off_master : Z := 80.
Definition off_irq : Z := 84.
Definition off_slave : Z := 85.
Definition off_blocked : Z := 88.
Definition off_requests : Z := 112.
Definition sizeof_ATADevice : Z := 136.

Definition ata_base (m : mem) (ata : Z) : Z := rd32 m (ata + off_base).
Definition ata_cntl (m : mem) (ata : Z) : Z := rd32 m (ata + off_cntl_base).

(** ** Registers *)

Section Registers.
Context {D : Type} `{PortIO D}.

Definition ata_400ns_delay (base : Z) (d : D) : D :=
  let d := (inb (base + STATUS_REG_OFF) d).2 in
  let d := (inb (base + STATUS_REG_OFF) d).2 in
  let d := (inb (base + STATUS_REG_OFF) d).2 in
  (inb (base + STATUS_REG_OFF) d).2.

(** The polling loops take fuel: the drive may never answer. *)
Fixpoint ata_wait_not_busy (fuel : nat) (cntl : Z) (d : D) : outcome D :=
  match fuel with
  | O => Hang
  | S fuel => let '(v, d) := inb cntl d in if truth (Z.land v ATA_SR_BSY) then ata_wait_not_busy fuel cntl d else Ok d
  end.

Definition ata_check_err (cntl : Z) (d : D) : bool * D :=
  let '(v, d) := inb cntl d in (truth (Z.land v ATA_SR_ERR), d).

Definition ata_check_data (cntl : Z) (d : D) : bool * D :=
  let '(v, d) := inb cntl d in (truth (Z.land v ATA_SR_DRQ), d).

Fixpoint ata_wait_data_ready (fuel : nat) (cntl : Z) (d : D) : outcome D :=
  match fuel with
  | O => Hang
  | S fuel => let '(v, d) := inb cntl d in if truth (Z.land v ATA_SR_DRQ) then Ok d else ata_wait_data_ready fuel cntl d
  end.

(** Lines 126-127, from index [i] on with [k] words left; the base is read
    from the device each time. *)
Fixpoint ata_read_words (k : nat) (i : Z) (ata buff : Z) (m : mem) (d : D) : mem * D :=
  match k with
  | O => (m, d)
  | S k => let '(w, d) := inw (ata_base m ata + DATA_REG_OFF) d in ata_read_words k (i + 1) ata buff (wr16 m (buff + 2 * i) w) d
  end.

Definition ata_read (fuel : nat) (ata buff : Z) (m : mem) (d : D) : outcome (mem * D) :=
  d ← ata_wait_data_ready fuel (ata_cntl m ata) d;
  Ok (ata_read_words (Z.to_nat (ATA_BLOCK_SIZE / 2)) 0 ata buff m d).

Definition ata_write_lba (base lba sectorcount : Z) (d : D) : D :=
  let d := outb (base + SECT_CNT_REG_OFF) (Z.land (Z.shiftr sectorcount 8) 0xff) d in
  let d := outb (base + LBA_LOW_OFF) (Z.land (Z.shiftr lba 24) 0xff) d in
  let d := outb (base + LBA_MID_OFF) (Z.land (Z.shiftr lba 32) 0xff) d in
  let d := outb (base + LBA_HIGH_OFF) (Z.land (Z.shiftr lba 40) 0xff) d in
  let d := outb (base + SECT_CNT_REG_OFF) (Z.land sectorcount 0xff) d in
  let d := outb (base + LBA_LOW_OFF) (Z.land (Z.shiftr lba 0) 0xff) d in
  let d := outb (base + LBA_MID_OFF) (Z.land (Z.shiftr lba 8) 0xff) d in
  outb (base + LBA_HIGH_OFF) (Z.land (Z.shiftr lba 16) 0xff) d.

(** Lines 169-170 and 186-187. *)
Definition ata_issue (base lba : Z) (d : D) : D :=
  outb (base + CMD_REG_OFF) ATA_CMD_READ_PIO_EXT (ata_write_lba base lba 1 d).
End Registers.

(** ** Reading a block *)

Section Driver.
Context {D : Type} `{PortIO D}.

(** [main_proc] and [ready_queue] of the scheduler, [files] and [pools] of the
    file layer and the heap, and the addresses of the code and of the name. *)
Context (main_proc ready_queue files pools ata_read_block_addr ata_isr_addr ata_name : Z).

(** [irq] and [err] are not used. *)
Definition ata_isr (arg : Z) (s : sched) (d : D) : sched * D :=
  let m := s_mem s in
  let s := s_klog KLOG_LEVEL_DEBUG "ata interrupt" s in
  let d := (inb (ata_base m arg + STATUS_REG_OFF) d).2 in
  let '(e, d) := ata_check_err (ata_cntl m arg) d in
  let '(bad, d) := if e then (true, d) else let '(r, d) := ata_check_data (ata_cntl m arg) d in (negb r, d) in
  if bad then
    let d := (inb (ata_base m arg + ERR_REG_OFF) d).2 in
    (s_klog KLOG_LEVEL_WARN "ata error detected: 0x%x" s, d)
  else (PROC_unblock_head ready_queue (arg + off_blocked) s, d).

(** Lines 164-172 of [ata_read_block]: the request at [req], on the reader's
    stack, is queued, and sent to the drive when it is the only one. *)
Definition ata_submit (ata blk_num req : Z) (s : sched) (d : D) : sched * D :=
  let m := wr64 (s_mem s) (req + off_req_lba) blk_num in
  let m := wr32 m (req + off_req_read) 1 in
  let s := s_on_irq IRQ_disable (s_set_mem s m) in
  let d := if LL_empty m (ata + off_requests) then ata_issue (ata_base m ata) (rd64 m (req + off_req_lba)) d else d in
  (s_set_mem s (LL_enqueue m (ata + off_requests) req), d).

(** Up to line 173, where the reader is switched away. *)
Definition ata_read_begin (ata blk_num req : Z) (c : cpu) (s : sched) (d : D) : outcome (cpu * sched * D) :=
  let '(s, d) := ata_submit ata blk_num req s d in
  PROC_block_on main_proc ready_queue (ata + off_blocked) true c s d.

(** From line 176, when the reader runs again. *)
Definition ata_read_finish (fuel : nat) (ata dst : Z) (s : sched) (d : D) : outcome (Z * (sched * D)) :=
  let m := s_mem s in
  let '(r, d) := ata_check_data (ata_cntl m ata) d in
  if negb r then Ok (-1, (s_klog KLOG_LEVEL_WARN "ata read failed" s, d))
  else
    let m := (LL_dequeue m (ata + off_requests)).1 in
    x ← ata_read fuel ata dst m d;
    let '(m, d) := x in
    let next := LL_head m (ata + off_requests) in
    let d := if negb (next =? NULL) then ata_issue (ata_base m ata) (rd64 m (next + off_req_lba)) d else d in
    Ok (0, (s_set_mem s m, d)).

(** ** Probing *)

Definition s_fs (s : sched) : fss kstate := mkFs (s_mem s) (s_k s) (s_log s).
Definition s_from_fs (s : sched) (f : fss kstate) : sched :=
  mkS (fs_mem f) (fs_ps f) (curr_proc s) (next_proc s) (sleep_curr s) (fs_log f).

Definition bar_or (bar legacy : Z) : Z := if (bar =? 0) || (bar =? 1) then legacy else bar.

Definition ata_fail (msg : string) (ata : Z) (s : sched) (d : D) : outcome (Z * (sched * D)) :=
  f ← fs_kfree ata (s_fs (s_klog KLOG_LEVEL_WARN msg s));
  Ok (-1, (s_from_fs s f, d)).

(** Lines 242-258: the drive answered the IDENTIFY command with the block at
    [iden]. *)
Definition ata_attach (ata hdr iden : Z) (s : sched) (d : D) : outcome (Z * (sched * D)) :=
  let m := s_mem s in
  let m := wr64 m (ata + off_total_len) (u64 (ATA_BLOCK_SIZE * rd64 m (iden + 200))) in
  let m := wr64 m (ata + off_blk_size) ATA_BLOCK_SIZE in
  let m := wr32 m (ata + off_bdev_type) 0 in
  let m := wr64 m ata ata_read_block_addr in
  let m := wr64 m (ata + off_bdev_name) ata_name in
  let m := wr8 m (ata + off_irq) ATA_PRIMARY_IRQ in
  let m := wr32 m (ata + off_master) (rd32 m (hdr + 32)) in
  let m := wr8 m (ata + off_slave) 0 in
  i ← IRQ_set_handler (rd8 m (ata + off_irq)) ata_isr_addr ata (k_irq (s_k s));
  r ← IRQ_clear_mask (rd8 m (ata + off_irq)) i d;
  let s := s_on_irq (fun _ => r.1) (s_set_mem s m) in
  let d := outb (ata_cntl m ata) 0x00 r.2 in
  Ok (0, (s_from_fs s (BLK_register files ata (s_fs s)), d)).

(** Lines 217-240: identify the drive; [iden] is the local array. *)
Definition ata_identify (fuel : nat) (ata hdr iden : Z) (s : sched) (d : D) : outcome (Z * (sched * D)) :=
  let base := ata_base (s_mem s) ata in
  let cntl := ata_cntl (s_mem s) ata in
  let d := outb (base + DRIVE_REG_OFF) ATA_SELECT_MASTER d in
  let d := ata_400ns_delay base d in
  let d := ata_write_lba base 0 1 d in
  let d := outb (base + CMD_REG_OFF) ATA_CMD_IDENTIFY d in
  let '(st, d) := inb (base + STATUS_REG_OFF) d in
  if negb (truth st) then ata_fail "ata device not found" ata s d
  else
    d ← ata_wait_not_busy fuel cntl d;
    let '(e, d) := ata_check_err cntl d in
    if e then ata_fail "ata device uses unsupported ATAPI interface" ata s d
    else
      r ← ata_read fuel ata iden (s_mem s) d;
      let '(m, d) := r in
      let s := s_set_mem s m in
      if negb (truth (Z.land (rd16 m (iden + 166)) (Z.shiftl 1 10))) then
        ata_fail "ata uses unsupported 28-bit LBA" ata s d
      else ata_attach ata hdr iden s d.

Definition ata_probe (fuel : nat) (dev hdr iden : Z) (s : sched) (d : D) : outcome (Z * (sched * D)) :=
  k ← fs_kmalloc pools sizeof_ATADevice (s_fs s);
  let ata := k.1 in
  let s := s_from_fs s k.2 in
  if ata =? NULL then Ok (-1, (s, d))
  else
    let s := s_set_mem s (LL_init (s_mem s) (ata + off_requests) 0) in
    let s := PROC_queue_init (ata + off_blocked) s in
    let '(f, d) := (PCI_read_config_header_0 dev hdr (s_fs s) d).2 in
    let s := s_from_fs s f in
    let m := s_mem s in
    let m := wr32 m (ata + off_base) (bar_or (rd32 m (hdr + 16)) ATA_LEGACY_PRIMARY_BASE) in
    let m := wr32 m (ata + off_cntl_base) (bar_or (rd32 m (hdr + 20)) ATA_LEGACY_PRIMARY_CNTL) in
    ata_identify fuel ata hdr iden (s_set_mem s m) d.

(** [ata_pci_driver] is at [driver]; its probe function is [ata_probe]. *)
Definition ata_init_module (devs driver : Z) (lfuel fuel : nat) (hdr iden : Z) (s : sched) (d : D) :
    outcome (Z * (sched * D)) :=
  r ← PCI_register devs (fun w : sched * D => s_mem w.1)
        (fun _ dev w => x ← ata_probe fuel dev hdr iden w.1 w.2; Ok x.2) lfuel driver (s, d);
  Ok (0, r.2).
End Driver.

(** ** The drive *)

(** What the driver relies on of an ATA drive with 48-bit addresses at the
    ports [base] and [cntl]: each address register keeps the last two bytes
    written, a read command takes the address they form, the drive in its own
    time ([drive_step]) offers the block as 256 words at the data port, and the
    alternate status says whether words wait. *)
Class AtaDrive (D : Type) `{PortIO D} (base cntl : Z) := {
  disk : D → Z → list Z;
  command : D → option Z;
  words : D → list Z;
  drive_step : D → D;
  disk_block d lba : length (disk d lba) = 256%nat ∧ Forall (fun w => 0 ≤ w < 65536) (disk d lba);
  drive_issue d l0 l1 l2 l3 l4 l5 : Forall (fun b => 0 ≤ b < 256) [l0; l1; l2; l3; l4; l5] →
    let d' := outb (base + 7) 0x24
      (outb (base + 5) l2 (outb (base + 4) l1 (outb (base + 3) l0 (outb (base + 2) 1
        (outb (base + 5) l5 (outb (base + 4) l4 (outb (base + 3) l3 (outb (base + 2) 0 d)))))))) in
    command d' = Some (l0 + 256 * (l1 + 256 * (l2 + 256 * (l3 + 256 * (l4 + 256 * l5))))) ∧ disk d' = disk d;
  drive_ready d lba : command d = Some lba → words (drive_step d) = disk d lba ∧ disk (drive_step d) = disk d;
  drive_status d : truth (Z.land (inb cntl d).1 ATA_SR_DRQ) = negb (bool_decide (words d = [])) ∧
    words (inb cntl d).2 = words d ∧ disk (inb cntl d).2 = disk d;
  drive_data d w ws : words d = w :: ws →
    (inw (base + DATA_REG_OFF) d).1 = w ∧ words (inw (base + DATA_REG_OFF) d).2 = ws ∧ disk (inw (base + DATA_REG_OFF) d).2 = disk d
}.

(** The block at a buffer. *)
Definition block_at (m : mem) (buff : Z) : list Z := (fun i => rd16 m (buff + 2 * i)) <$> seqZ 0 256.

Lemma byte_of lba k : 0 ≤ k → Z.land (Z.shiftr lba k) 0xff = lba / 2 ^ k mod 256.
Proof. intros Hk. change 0xff with (Z.ones 8). by rewrite Z.land_ones, Z.shiftr_div_pow2 by lia. Qed.

Section Drive.
Context {D : Type} `{Hport : PortIO D} (base cntl : Z) `{Hdrive : !AtaDrive D base cntl}.

(** The eight register writes carry the 48-bit address. *)
Lemma ata_issue_ok lba d : 0 ≤ lba < 281474976710656 →
  command (ata_issue base lba d) = Some lba ∧ disk (ata_issue base lba d) = disk d.
Proof using.
  intros Hl. unfold ata_issue, ata_write_lba.
  change (Z.land (Z.shiftr 1 8) 0xff) with 0. change (Z.land 1 0xff) with 1. rewrite !byte_of by lia.
  unfold CMD_REG_OFF, SECT_CNT_REG_OFF, LBA_LOW_OFF, LBA_MID_OFF, LBA_HIGH_OFF, ATA_CMD_READ_PIO_EXT.
  change (2 ^ 0) with 1. change (2 ^ 8) with 256. change (2 ^ 16) with 65536. change (2 ^ 24) with 16777216.
  change (2 ^ 32) with 4294967296. change (2 ^ 40) with 1099511627776.
  destruct (drive_issue d (lba / 1 mod 256) (lba / 256 mod 256) (lba / 65536 mod 256) (lba / 16777216 mod 256)
    (lba / 4294967296 mod 256) (lba / 1099511627776 mod 256)) as [E1 E2].
  { repeat constructor; apply Z.mod_pos_bound; lia. }
  cbv zeta in E1, E2. rewrite E1, E2. split; [|done]. f_equal. rewrite Z.div_1_r.
  replace (lba / 65536) with (lba / 256 / 256) by (rewrite Z.div_div by lia; done).
  replace (lba / 16777216) with (lba / 256 / 256 / 256) by (rewrite !Z.div_div by lia; done).
  replace (lba / 4294967296) with (lba / 256 / 256 / 256 / 256) by (rewrite !Z.div_div by lia; done).
  replace (lba / 1099511627776) with (lba / 256 / 256 / 256 / 256 / 256) by (rewrite !Z.div_div by lia; done).
  word_lia.
Qed.

Lemma ata_wait_data_ready_ok fuel d : (0 < fuel)%nat → words d ≠ [] →
  ∃ d', ata_wait_data_ready fuel cntl d = Ok d' ∧ words d' = words d ∧ disk d' = disk d.
Proof using.
  intros Hf Hw. destruct fuel as [|fuel]; [lia|]. cbn [ata_wait_data_ready].
  destruct (drive_status d) as (E1 & E2 & E3). destruct (inb cntl d) as [v d']. cbn [fst snd] in *.
  rewrite E1, bool_decide_false by done. cbn [negb]. by exists d'.
Qed.

Lemma ata_read_words_ok ata buff : ∀ k i m d, ata_base m ata = base → apart buff (2 * (i + Z.of_nat k)) ata 136 →
  0 ≤ i → length (words d) = k → Forall (fun w => 0 ≤ w < 65536) (words d) →
  let r := ata_read_words k i ata buff m d in
  (∀ j w, words d !! j = Some w → rd16 r.1 (buff + 2 * (i + Z.of_nat j)) = w) ∧
  only_in (buff + 2 * i) (2 * Z.of_nat k) m r.1 ∧ words r.2 = [] ∧ disk r.2 = disk d.
Proof using.
  induction k as [|k IH]; intros i m d Hb Ha Hi Hl Hr; cbv zeta.
  { apply nil_length_inv in Hl. cbn [ata_read_words fst snd]. rewrite Hl. split; [by intros j w Hj|]. by split. }
  destruct (words d) as [|w ws] eqn:Ew; [done|]. cbn [length] in Hl. apply Forall_cons in Hr as [Hw Hr].
  destruct (drive_data d w ws Ew) as (E1 & E2 & E3). cbn [ata_read_words]. rewrite Hb.
  destruct (inw (base + DATA_REG_OFF) d) as [w' d']. cbn [fst snd] in *. subst w'.
  destruct (IH (i + 1) (wr16 m (buff + 2 * i) w) d') as (I1 & I2 & I3 & I4).
  - unfold ata_base, wr16, rd32 in *. rewrite <- Hb. apply rd_le_wr_le_apart. unfold apart, off_base in *. cbn. lia.
  - unfold apart in *. lia.
  - lia.
  - rewrite E2. lia.
  - by rewrite E2.
  - rewrite E2 in *. split; [|split; [|split; [done|by rewrite I4]]].
    + intros [|j] v Hj; cbn in Hj.
      * injection Hj as <-. unfold rd16. rewrite (rd_le_only_in 2 _ _ _ _ _ I2) by (unfold apart; cbn; lia).
        replace (buff + 2 * (i + Z.of_nat 0)) with (buff + 2 * i) by lia. unfold wr16. rewrite rd_le_wr_le. by apply Z.mod_small.
      * specialize (I1 j v Hj). rewrite <- I1. f_equal. lia.
    + intros x Hx. rewrite I2 by lia. apply rd8_wr_le_out. cbn. lia.
Qed.

Lemma ata_read_ok fuel ata buff m d :
  (0 < fuel)%nat → ata_base m ata = base → ata_cntl m ata = cntl → apart buff 512 ata 136 →
  length (words d) = 256%nat → Forall (fun w => 0 ≤ w < 65536) (words d) →
  ∃ m' d', ata_read fuel ata buff m d = Ok (m', d') ∧ block_at m' buff = words d ∧ only_in buff 512 m m' ∧ disk d' = disk d.
Proof using.
  intros Hf Hb Hc Ha Hl Hr. unfold ata_read. rewrite Hc.
  destruct (ata_wait_data_ready_ok fuel d Hf) as (d1 & E & W1 & D1); [by destruct (words d)|]. rewrite E, bind_Ok.
  destruct (ata_read_words_ok ata buff 256 0 m d1 Hb) as (I1 & I2 & I3 & I4); [unfold apart in *; lia|lia|by rewrite W1|by rewrite W1|].
  change (Z.to_nat (ATA_BLOCK_SIZE / 2)) with 256%nat. rewrite W1 in I1.
  destruct (ata_read_words 256 0 ata buff m d1) as [m' d']. cbn [fst snd] in *.
  exists m', d'. split; [done|]. split; [|split; [|by rewrite I4]].
  - unfold block_at. apply list_eq_same_length with (n := 256%nat); [done|by rewrite length_fmap, length_seqZ|].
    intros j x y Hj Hx Hy. rewrite list_lookup_fmap, lookup_seqZ_lt in Hx by lia. cbn in Hx. injection Hx as <-.
    rewrite <- (I1 j y Hy). done.
  - by rewrite Z.mul_0_r, Z.add_0_r in I2.
Qed.
End Drive.

(** ** The request queue *)

(** Readers submit requests, whose objects are on their stacks, and complete
    them when the drive has made its data ready. *)
Inductive ata_op := Submit (req lba : Z) | Complete (dst : Z).

Section Queue.
Context {D : Type} `{Hport : PortIO D} (base cntl : Z) `{Hdrive : !AtaDrive D base cntl}.
Context (ata : Z).

(** The driver's two halves, in the order of [ops], with what each completion
    returns and leaves in its buffer. *)
Fixpoint ata_run (fuel : nat) (ops : list ata_op) (s : sched) (d : D) : outcome (list (Z * list Z)) :=
  match ops with
  | [] => Ok []
  | Submit req lba :: ops => let '(s, d) := ata_submit ata lba req s d in ata_run fuel ops s d
  | Complete dst :: ops =>
      r ← ata_read_finish fuel ata dst s (drive_step d);
      rest ← ata_run fuel ops r.2.1 r.2.2;
      Ok ((r.1, block_at (s_mem r.2.1) dst) :: rest)
  end.

(** The specification: a queue of (request, block) pairs. *)
Fixpoint fifo_out (dk : Z → list Z) (ops : list ata_op) (q : list (Z * Z)) : list (Z * list Z) :=
  match ops with
  | [] => []
  | Submit req lba :: ops => fifo_out dk ops (q ++ [(req, lba)])
  | Complete dst :: ops =>
      match q with
      | [] => []
      | (_, lba) :: q => (0, dk lba) :: fifo_out dk ops q
      end
  end.

(** Requests do not overlap while they are pending, buffers overlap neither
    requests nor the device, and nothing is completed that is not pending. *)
Definition req_ok (req : Z) (q : list (Z * Z)) : Prop :=
  0 < req ∧ req + 32 ≤ 18446744073709551584 ∧ apart req 32 ata sizeof_ATADevice ∧ Forall (fun p => apart req 32 p.1 32) q.

Fixpoint ops_ok (ops : list ata_op) (q : list (Z * Z)) : Prop :=
  match ops with
  | [] => True
  | Submit req lba :: ops => req_ok req q ∧ 0 ≤ lba < 281474976710656 ∧ ops_ok ops (q ++ [(req, lba)])
  | Complete dst :: ops =>
      apart dst 512 ata sizeof_ATADevice ∧ Forall (fun p => apart dst 512 p.1 32) q ∧
      match q with [] => False | _ :: q => ops_ok ops q end
  end.

(** The requests [q] are linked in the device and the registers are known. *)
Record ata_mem (m : mem) (q : list (Z * Z)) : Prop := {
  ai_base : ata_base m ata = base;
  ai_cntl : ata_cntl m ata = cntl;
  ai_list : list_rep m (ata + off_requests) 0 q.*1;
  ai_reqs : Forall (fun p => rd64 m (p.1 + off_req_lba) = p.2 ∧ 0 ≤ p.2 < 281474976710656 ∧ apart p.1 32 ata sizeof_ATADevice) q;
  ai_apart : ∀ i j p r, q !! i = Some p → q !! j = Some r → i ≠ j → apart p.1 32 r.1 32
}.

(** The drive works on the first request. *)
Definition ata_inv (m : mem) (d : D) (q : list (Z * Z)) : Prop :=
  ata_mem m q ∧ match q with [] => True | p :: _ => command d = Some p.2 end.

(** What the driver writes of its own: the links of the requests. *)
Definition ata_links (q : list (Z * Z)) (x : Z) : Prop :=
  ata + off_requests ≤ x < ata + off_requests + 16 ∨ ∃ p, p ∈ q ∧ p.1 ≤ x < p.1 + 32.

Lemma base_ext m m' : (∀ x, ata + off_base ≤ x < ata + off_base + 8 → rd8 m' x = rd8 m x) →
  ata_base m' ata = ata_base m ata ∧ ata_cntl m' ata = ata_cntl m ata.
Proof using.
  intros Hm. unfold ata_base, ata_cntl, off_base, off_cntl_base in *.
  split; apply (rd_le_ext 4); intros b Hb; cbn in Hb; apply Hm; lia.
Qed.

(** The requests [q] by themselves: their fields, and that they do not overlap. *)
Definition reqs (m : mem) (q : list (Z * Z)) : Prop :=
  Forall (fun p => rd64 m (p.1 + off_req_lba) = p.2 ∧ 0 ≤ p.2 < 281474976710656 ∧ apart p.1 32 ata sizeof_ATADevice) q ∧
  ∀ i j p r, q !! i = Some p → q !! j = Some r → i ≠ j → apart p.1 32 r.1 32.

Lemma reqs_apart m q p r : reqs m q → p ∈ q → r ∈ q → p ≠ r → apart p.1 32 r.1 32.
Proof using.
  intros [_ H] [i Hi]%list_elem_of_lookup [j Hj]%list_elem_of_lookup Hne. apply (H i j); [done|done|congruence].
Qed.

(** Links of the list and of the requests are changed, nothing else. *)
Definition links_only (q : list (Z * Z)) (m m' : mem) : Prop :=
  ∀ x, ¬ (ata + off_requests ≤ x < ata + off_requests + 16) → (∀ r, r ∈ q → ¬ (r.1 ≤ x < r.1 + 16)) → rd8 m' x = rd8 m x.

Lemma links_fields q m m' : reqs m q → links_only q m m' →
  reqs m' q ∧ ata_base m' ata = ata_base m ata ∧ ata_cntl m' ata = ata_cntl m ata.
Proof using.
  intros R Hm. pose proof R as [Hf Hp]. rewrite Forall_forall in Hf. split.
  - split; [|done]. apply Forall_forall. intros p Hin. destruct (Hf p Hin) as (J1 & J2 & J3). split; [|done]. rewrite <- J1.
    apply rd_le_ext. intros x Hx. cbn in Hx. unfold off_req_lba in Hx. apply Hm; [unfold apart, sizeof_ATADevice, off_requests in *; lia|].
    intros r Hr. destruct (decide (p = r)) as [->|Hne]; [lia|]. pose proof (reqs_apart m q p r R Hin Hr Hne). unfold apart in *. lia.
  - apply base_ext. intros x Hx. apply Hm; [unfold off_base, off_requests in *; lia|]. intros r Hr. destruct (Hf r Hr) as (_ & _ & J).
    unfold apart, sizeof_ATADevice, off_base in *. lia.
Qed.

(** A store elsewhere. *)
Lemma store_fields q m m' a n : only_in a n m m' → apart a n ata sizeof_ATADevice → Forall (fun p => apart a n p.1 32) q →
  (reqs m q → reqs m' q) ∧ ata_base m' ata = ata_base m ata ∧ ata_cntl m' ata = ata_cntl m ata ∧
  (list_rep m (ata + off_requests) 0 q.*1 → list_rep m' (ata + off_requests) 0 q.*1).
Proof using.
  intros Hm Ha Hq. rewrite Forall_forall in Hq.
  destruct (base_ext m m') as [B1 B2]; [intros x Hx; apply Hm; unfold apart, sizeof_ATADevice, off_base in *; lia|]. split_and!; [|done|done|].
  - intros [Hf Hp]. split; [|done]. rewrite Forall_forall in *. intros p Hin. destruct (Hf p Hin) as (J1 & J2 & J3). split; [|done].
    rewrite <- J1. apply (rd_le_only_in 8 _ _ _ _ _ Hm). specialize (Hq p Hin). unfold apart, off_req_lba in *. cbn. lia.
  - intros R. eapply list_rep_ext; [| |exact R].
    + intros x Hx. apply Hm. unfold apart, sizeof_ATADevice, off_requests in *. lia.
    + intros p x (r & -> & Hr)%list_elem_of_fmap Hx. apply Hm. specialize (Hq r Hr). unfold apart in Hq. lia.
Qed.

Lemma reqs_snoc m q req lba : reqs m q → req_ok req q → rd64 m (req + off_req_lba) = lba → 0 ≤ lba < 281474976710656 →
  reqs m (q ++ [(req, lba)]).
Proof using.
  intros [Hf Hp] (_ & _ & Q3 & Q4) V Hl. split; [apply Forall_app; split; [done|by constructor]|]. rewrite Forall_forall in Q4.
  intros a b p r Ha Hb Hne. apply lookup_snoc_Some in Ha, Hb. destruct Ha as [[_ Ha]|[-> <-]], Hb as [[_ Hb]|[-> <-]]; [by apply (Hp a b)| | |done].
  - apply list_elem_of_lookup_2, Q4 in Ha. unfold apart in *. cbn. lia.
  - apply list_elem_of_lookup_2, Q4 in Hb. by cbn.
Qed.

Lemma ata_submit_mem req lba s d q :
  ata_mem (s_mem s) q → req_ok req q → 0 ≤ lba < 281474976710656 →
  ∃ m', ata_submit ata lba req s d =
      (s_set_mem (s_on_irq IRQ_disable s) m', if bool_decide (q.*1 = []) then ata_issue base lba d else d) ∧
    ata_mem m' (q ++ [(req, lba)]) ∧ (∀ x, ¬ ata_links (q ++ [(req, lba)]) x → rd8 m' x = rd8 (s_mem s) x).
Proof using.
  intros [I1 I2 I3 I4 I5] Hr Hl. pose proof Hr as (Q1 & Q2 & Q3 & Q4). unfold ata_submit.
  set (m1 := wr32 (wr64 (s_mem s) (req + off_req_lba) lba) (req + off_req_read) 1).
  assert (O1 : only_in req 32 (s_mem s) m1).
  { intros b Hb. unfold m1, wr32, wr64, off_req_lba, off_req_read. by rewrite !rd8_wr_le_out by (cbn; lia). }
  assert (V1 : rd64 m1 (req + off_req_lba) = lba).
  { unfold m1, rd64, wr32. rewrite rd_le_wr_le_apart by (unfold apart, off_req_lba, off_req_read; cbn; lia).
    fold rd64. fold (rd64 (wr64 (s_mem s) (req + off_req_lba) lba) (req + off_req_lba)). rewrite rd64_wr64_eq. apply u64_small. lia. }
  clearbody m1. destruct (store_fields q (s_mem s) m1 req 32 O1 Q3 Q4) as (Rq & B1 & B2 & Lq). specialize (Lq I3).
  pose proof (reqs_snoc m1 q req lba (Rq (conj I4 I5)) Hr V1 Hl) as R1.
  assert (Hk : linkable (ata + off_requests) 0 q.*1 req).
  { split; [lia|]. split; [unfold valid_hdr; lia|]. split; [unfold apart, sizeof_ATADevice, off_requests in *; lia|].
    apply Forall_forall. intros p Hp. apply list_elem_of_fmap in Hp as (pr & -> & Hp). rewrite Forall_forall in Q4.
    specialize (Q4 pr Hp). unfold sep16, apart in *. lia. }
  destruct (LL_append_rep m1 _ 0 _ req Lq Hk) as [L2 O2]. fold (LL_enqueue m1 (ata + off_requests) req) in L2, O2.
  rewrite (LL_empty_rep _ _ _ _ Lq), V1, B1, I1. set (m2 := LL_enqueue m1 (ata + off_requests) req) in *.
  assert (K : links_only (q ++ [(req, lba)]) m1 m2).
  { intros x X1 X2. apply O2. intros h [->|(p & -> & Hp)%list_elem_of_fmap]%elem_of_cons; [done|]. rewrite Z.add_0_r.
    change [req] with ([(req, lba)].*1) in Hp. rewrite <- fmap_app in Hp. apply list_elem_of_fmap in Hp as (pr & -> & Hp). by apply X2. }
  destruct (links_fields _ _ _ R1 K) as ([R2 R3] & B3 & B4). exists m2. split; [done|]. split.
  - split; [by rewrite B3, B1|by rewrite B4, B2|by rewrite fmap_app|done|done].
  - intros x Hx. rewrite K, O1; [done| | |].
    + intros Hx'. apply Hx. right. exists (req, lba). split; [apply elem_of_app; right; left|cbn; lia].
    + intros Hx'. apply Hx. left. lia.
    + intros r Hin Hx'. apply Hx. right. exists r. split; [done|lia].
Qed.

Lemma ata_submit_ok req lba s d q :
  ata_inv (s_mem s) d q → req_ok req q → 0 ≤ lba < 281474976710656 →
  let r := ata_submit ata lba req s d in
  ata_inv (s_mem r.1) r.2 (q ++ [(req, lba)]) ∧ disk r.2 = disk d.
Proof using.
  intros [Im Ic] Hr Hl r. destruct (ata_submit_mem req lba s d q Im Hr Hl) as (m' & E & Im' & _). unfold r. rewrite E. cbn [fst snd].
  destruct q as [|p q]; cbn [fmap list_fmap app]; [|by split; [split|]]. rewrite bool_decide_true by done.
  destruct (ata_issue_ok base cntl lba d Hl) as [C1 D1]. split; [|done]. by split.
Qed.

(** The next request, if there is one, is sent to the drive. *)
Lemma issue_next m q d2 :
  list_rep m (ata + off_requests) 0 q.*1 → reqs m q →
  let next := hd NULL q.*1 in
  let d' := if negb (next =? NULL) then ata_issue base (rd64 m (next + off_req_lba)) d2 else d2 in
  match q with [] => True | r :: _ => command d' = Some r.2 end ∧ disk d' = disk d2.
Proof using.
  intros L [R _]. destruct q as [|r q]; cbn [fmap list_fmap hd]; [done|].
  destruct (list_rep_valid _ _ _ _ r.1 L ltac:(left)) as [_ Hr0]. rewrite (proj2 (Z.eqb_neq _ _)) by (unfold NULL; lia).
  apply Forall_cons in R as [(J1 & J2 & _) _]. cbn [negb]. rewrite J1. by destruct (ata_issue_ok base cntl r.2 d2 J2) as [-> ->].
Qed.

Lemma ata_read_finish_mem fuel dst s d p q :
  (0 < fuel)%nat → ata_mem (s_mem s) (p :: q) → words d = disk d p.2 →
  apart dst 512 ata sizeof_ATADevice → Forall (fun p => apart dst 512 p.1 32) (p :: q) →
  ∃ m' d', ata_read_finish fuel ata dst s d = Ok (0, (s_set_mem s m', d')) ∧
    block_at m' dst = disk d p.2 ∧ ata_inv m' d' q ∧ disk d' = disk d ∧
    (∀ x, ¬ ata_links (p :: q) x → ¬ (dst ≤ x < dst + 512) → rd8 m' x = rd8 (s_mem s) x).
Proof using.
  intros Hf [I1 I2 I3 I4 I5] W1 Ha Hq. unfold ata_read_finish, ata_check_data. rewrite I2. destruct (disk_block d p.2) as [Bl Br].
  destruct (drive_status d) as (S1 & S2 & S3). destruct (inb cntl d) as [v d1]. cbn [fst snd] in *.
  rewrite S1, bool_decide_false by (rewrite W1; by destruct (disk d p.2)). cbn [negb].
  rewrite fmap_cons in I3. destruct (LL_dequeue_rep _ _ _ _ _ I3) as (E & L1 & O1). rewrite E. cbn [fst].
  set (m1 := LL_del (s_mem s) (p.1 + 0)) in *. clearbody m1.
  assert (K1 : links_only (p :: q) (s_mem s) m1).
  { intros x X1 X2. apply O1. intros h [->|(a & -> & Hp)%list_elem_of_fmap]%elem_of_cons; [done|].
    change (p.1 :: q.*1) with ((p :: q).*1) in Hp. apply list_elem_of_fmap in Hp as (r & -> & Hp). rewrite Z.add_0_r. by apply X2. }
  destruct (links_fields _ _ _ (conj I4 I5) K1) as ([R1 R1'] & B1 & B2). apply Forall_cons in R1 as [_ R1].
  destruct (ata_read_ok base cntl fuel ata dst m1 d1 Hf) as (m2 & d2 & E2 & V2 & O2 & D2);
    [by rewrite B1|by rewrite B2|done|by rewrite S2, W1|by rewrite S2, W1|].
  rewrite E2, bind_Ok. pose proof Hq as [_ Hq']%Forall_cons. destruct (store_fields q m1 m2 dst 512 O2 Ha Hq') as (Rq & B3 & B4 & Lq).
  specialize (Lq L1). assert (R2 : reqs m2 q).
  { apply Rq. split; [done|]. intros a b r r' Hr Hr' Hne. apply (R1' (S a) (S b)); [done|done|lia]. }
  rewrite (LL_head_rep _ _ _ _ Lq), B3, B1, I1. eexists m2, _. split; [done|]. split; [by rewrite V2, S2, W1|].
  destruct (issue_next m2 q d2 Lq R2) as [Hc1 Hc2]. destruct R2 as [R2 R2']. split; [split; [|exact Hc1]|split; [by rewrite Hc2, D2, S3|]].
  - split; [by rewrite B3, B1|by rewrite B4, B2|done|done|done].
  - intros x Hx Hd. rewrite O2, K1; [done| | |lia].
    + intros Hx'. apply Hx. left. lia.
    + intros r Hr Hx'. apply Hx. right. exists r. split; [done|lia].
Qed.

Lemma ata_read_finish_ok fuel dst s d p q :
  (0 < fuel)%nat → ata_inv (s_mem s) d (p :: q) →
  apart dst 512 ata sizeof_ATADevice → Forall (fun p => apart dst 512 p.1 32) (p :: q) →
  ∃ s' d', ata_read_finish fuel ata dst s (drive_step d) = Ok (0, (s', d')) ∧
    block_at (s_mem s') dst = disk d p.2 ∧ ata_inv (s_mem s') d' q ∧ disk d' = disk d.
Proof using.
  intros Hf [Im Ic] Ha Hq. destruct (drive_ready d p.2 Ic) as [W1 D1]. rewrite <- D1 in W1.
  destruct (ata_read_finish_mem fuel dst s (drive_step d) p q Hf Im W1 Ha Hq) as (m' & d' & E & V & I' & D' & _).
  exists (s_set_mem s m'), d'. rewrite D1 in V, D'. by split.
Qed.

(** The request queue of the disk.  For any sequence of requests and
    completions by readers whose request objects and buffers do not overlap, in
    which only pending requests are completed, the n-th completion returns 0
    and leaves in its buffer exactly the disk block that the n-th request asked
    for: the driver behaves as a queue in front of the drive, with 48-bit block
    numbers, and sends the drive the next request each time. *)
Theorem ata_serves_in_order (fuel : nat) (ops : list ata_op) : ∀ (s : sched) (d : D) (q : list (Z * Z)),
  (0 < fuel)%nat → ata_inv (s_mem s) d q → ops_ok ops q → ata_run fuel ops s d = Ok (fifo_out (disk d) ops q).
Proof using.
  induction ops as [|op ops IH]; intros s d q Hf Hi Ho; [done|]. destruct op as [req lba|dst]; cbn [ata_run fifo_out ops_ok] in *.
  - destruct Ho as (H1 & H2 & H3). destruct (ata_submit_ok req lba s d q Hi H1 H2) as [I1 D1].
    destruct (ata_submit ata lba req s d) as [s1 d1]. cbn [fst snd] in *. rewrite <- D1. by apply IH.
  - destruct Ho as (H1 & H2 & H3). destruct q as [|p q]; [done|].
    destruct (ata_read_finish_ok fuel dst s d p q Hf Hi H1 H2) as (s' & d' & E & V & I' & D'). rewrite E, bind_Ok. cbn [fst snd].
    rewrite (IH s' d' q Hf I' H3), bind_Ok, V, D'. by destruct p.
Qed.
End Queue.

(** ** An example: a small drive at the legacy ports *)

Record demo_drive := mkDrive { dr_lo : Z * Z; dr_mid : Z * Z; dr_hi : Z * Z; dr_cmd : option Z; dr_words : list Z }.

Definition demo_disk (lba : Z) : list Z := replicate 256 (lba mod 65536).

(** The address registers keep (last, previous). *)
#[export] Instance demo_drive_ports : PortIO demo_drive := {|
  port_in w p d :=
    if p =? 0x1F0 then (hd 0 (dr_words d), mkDrive (dr_lo d) (dr_mid d) (dr_hi d) (dr_cmd d) (tl (dr_words d)))
    else (match dr_words d with [] => 0x50 | _ => 0x58 end, d);
  port_out w p v d :=
    if p =? 0x1F3 then mkDrive (v, (dr_lo d).1) (dr_mid d) (dr_hi d) (dr_cmd d) (dr_words d)
    else if p =? 0x1F4 then mkDrive (dr_lo d) (v, (dr_mid d).1) (dr_hi d) (dr_cmd d) (dr_words d)
    else if p =? 0x1F5 then mkDrive (dr_lo d) (dr_mid d) (v, (dr_hi d).1) (dr_cmd d) (dr_words d)
    else if p =? 0x1F7 then
      mkDrive (dr_lo d) (dr_mid d) (dr_hi d)
        (Some ((dr_lo d).1 + 256 * ((dr_mid d).1 + 256 * ((dr_hi d).1 + 256 * ((dr_lo d).2 + 256 * ((dr_mid d).2 + 256 * (dr_hi d).2)))))) []
    else d
|}.

Lemma demo_out_cnt v lo mid hi c ws : outb (0x1F0 + 2) v (mkDrive lo mid hi c ws) = mkDrive lo mid hi c ws.
Proof. reflexivity. Qed.
Lemma demo_out_lo v lo mid hi c ws : outb (0x1F0 + 3) v (mkDrive lo mid hi c ws) = mkDrive (u8 v, lo.1) mid hi c ws.
Proof. reflexivity. Qed.
Lemma demo_out_mid v lo mid hi c ws : outb (0x1F0 + 4) v (mkDrive lo mid hi c ws) = mkDrive lo (u8 v, mid.1) hi c ws.
Proof. reflexivity. Qed.
Lemma demo_out_hi v lo mid hi c ws : outb (0x1F0 + 5) v (mkDrive lo mid hi c ws) = mkDrive lo mid (u8 v, hi.1) c ws.
Proof. reflexivity. Qed.

#[export] Instance demo_drive_ata : AtaDrive demo_drive 0x1F0 0x3F6.
Proof.
  refine {| disk _ := demo_disk; command := dr_cmd; words d := u16 <$> dr_words d;
    drive_step d := mkDrive (dr_lo d) (dr_mid d) (dr_hi d) (dr_cmd d)
      (match dr_cmd d with Some lba => demo_disk lba | None => dr_words d end) |}.
  - intros _ lba. unfold demo_disk. rewrite length_replicate. split; [done|]. apply Forall_replicate, Z.mod_pos_bound. lia.
  - intros [lo mid hi c ws] l0 l1 l2 l3 l4 l5 Hl. rewrite !Forall_cons in Hl. destruct Hl as (H0 & H1 & H2 & H3 & H4 & H5 & _).
    cbv zeta. rewrite demo_out_cnt, demo_out_lo, demo_out_mid, demo_out_hi, demo_out_cnt, demo_out_lo, demo_out_mid, demo_out_hi.
    cbn [fst snd]. rewrite !u8_small by done. split; reflexivity.
  - intros d lba E. cbn [dr_words]. rewrite E. split; [|done]. unfold demo_disk. rewrite fmap_replicate. f_equal.
    unfold u16. by rewrite Z.mod_mod.
  - intros [lo mid hi c [|w ws]]; split; done.
  - intros [lo mid hi c [|w' ws']] w ws E; [done|]. cbn [dr_words fmap list_fmap] in E. injection E as <- <-. split; done.
Defined.

(** Two overlapping reads: both are submitted before the first completes. *)
Definition demo_ata_mem : mem :=
  wr32 (wr32 (LL_init ∅ (0x4000 + off_requests) 0) (0x4000 + off_base) 0x1F0) (0x4000 + off_cntl_base) 0x3F6.
Definition demo_ata : sched := s_set_mem demo_sched demo_ata_mem.
Definition demo_ata_ops : list ata_op :=
  [Submit 0x5000 7; Submit 0x5100 300; Complete 0x8000; Submit 0x5000 9; Complete 0x8000; Complete 0x9000].

Lemma demo_ata_inv d : ata_inv 0x1F0 0x3F6 0x4000 demo_ata_mem d [].
Proof.
  split; [|done]. split; [vm_compute; reflexivity|vm_compute; reflexivity| |constructor|by intros i j p r ?].
  destruct (LL_init_rep ∅ (0x4000 + off_requests) 0) as [R _]; [unfold valid_hdr, off_requests; lia|lia|].
  eapply list_rep_ext; [| |exact R]; [|intros d' x Hd; by apply elem_of_nil in Hd].
  intros x Hx. unfold demo_ata_mem, wr32, off_base, off_cntl_base, off_requests in *. by rewrite !rd8_wr_le_out by (cbn; lia).
Qed.

Lemma ata_serves_in_order_witness :
  ata_run 0x1F0 0x3F6 0x4000 1 demo_ata_ops demo_ata (mkDrive (0, 0) (0, 0) (0, 0) None []) =
    Ok [(0, replicate 256 7); (0, replicate 256 300); (0, replicate 256 9)].
Proof.
  etransitivity; [apply (ata_serves_in_order 0x1F0 0x3F6 0x4000 1 demo_ata_ops demo_ata (mkDrive (0, 0) (0, 0) (0, 0) None []) [])|vm_compute; reflexivity].
  - lia.
  - apply demo_ata_inv.
  - cbn [demo_ata_ops ops_ok app]. unfold req_ok, apart, sizeof_ATADevice.
    repeat match goal with |- _ ∧ _ => split | |- Forall _ _ => constructor | |- True => exact I end; cbn; lia.
Defined.
