(* ===== verification/Fat.v ===== *)
(** * The FAT 32 file system (src/src/fs/fat.c)

    Reading the boot sector and the allocation table of a partition, following
    clusters and reading them.  Arithmetic on [int] that leaves the range of
    the type is undefined and faults. *)

From S2P Require Import Prelude Memory CString LinkedList Segments Frames Machine Irq Paging Mmu Kmalloc Objects Fs.

(** ** Signed arithmetic *)

Definition int_range (z : Z) : bool := (-2147483648 <=? z) && (z <? 2147483648).
Definition as_int (z : Z) : outcome Z := if int_range z then Ok z else Fault.
Definition rdi (m : mem) (a : Z) : Z := i32 (rd32 m a).

Lemma as_int_ok z : 0 ≤ z < 2147483648 → as_int z = Ok z.
Proof.
  intros Hz. unfold as_int, int_range. rewrite (proj2 (Z.leb_le _ _)), (proj2 (Z.ltb_lt _ _)) by lia. done.
Qed.

Lemma i32_small z : 0 ≤ z < 2147483648 → i32 z = z.
Proof.
  intros Hz. unfold i32, signed. change (2 ^ 32) with 4294967296. change (2 ^ (32 - 1)) with 2147483648.
  rewrite Z.mod_small by lia. by rewrite (proj2 (Z.ltb_lt _ _)) by lia.
Qed.

(** ** Layout *)

(** [struct FAT]: the partition, eight [int]s, two pointers. *)
Definition off_sects_per_clust : Z := 8.
Definition off_rsvd_sects : Z := 12.
Definition off_root_clust : Z := 16.
Definition off_num_fats : Z := 20.
Definition off_tot_sects : Z := 24.
Definition off_sects_per_fat : Z := 28.
Definition off_sect_size : Z := 32.
Definition off_num_fat_entires : Z := 36.
Definition off_table : Z := 40.
Definition off_clust_buff : Z := 48.
Definition sizeof_FAT : Z := 56.

(** [struct FATDir] and [struct FATLongDirEnt]. *)
Definition off_start_clust : Z := 8.
Definition sizeof_FATDir : Z := 16.
Definition off_first : Z := 1.

(** [struct FAT32], the boot sector, packed. *)
Definition bpb_sectors_per_cluster (m : mem) (f : Z) : Z := rd8 m (f + 13).
Definition bpb_reserved_sectors (m : mem) (f : Z) : Z := rd16 m (f + 14).
Definition bpb_num_fats (m : mem) (f : Z) : Z := rd8 m (f + 16).
Definition bpb_tot_sectors (m : mem) (f : Z) : Z := rd16 m (f + 19).
Definition bpb_sectors_per_fat (m : mem) (f : Z) : Z := rd16 m (f + 22).
Definition bpb_large_sector_count (m : mem) (f : Z) : Z := rd32 m (f + 32).
Definition fat_sectors_per_fat (m : mem) (f : Z) : Z := rd32 m (f + 36).
Definition fat_root_cluster (m : mem) (f : Z) : Z := rd32 m (f + 44).
Definition fat_signature (m : mem) (f : Z) : Z := rd8 m (f + 66).

(** ** The code *)

(** Lines 86-89, with [k] entries left; [clust] is compared as unsigned. *)
Fixpoint next_loop (k : nat) (i : Z) (table clust : Z) (m : mem) : Z :=
  match k with
  | O => 0
  | S k => if rd32 m (table + 4 * i) =? u32 clust then rd32 m (table + 4 * (i + 1)) else next_loop k (i + 1) table clust m
  end.

Definition fat32_next_cluster (fat clust : Z) (m : mem) : Z :=
  next_loop (Z.to_nat (rdi m (fat + off_num_fat_entires))) 0 (rd64 m (fat + off_table)) clust m.

Section Code.
Context {PS : Type} `{Hps : PageSource PS}.

(** [read_block] calls the function at a pointer: device, block, destination;
    [print] is [printk("%s", p)]. *)
Context (pools : Z) (read_block : Z → Z → Z → Z → fss PS → outcome (Z * fss PS)) (print : Z → fss PS → outcome (fss PS)).

(** A block number of type [int] becomes a [sect_t]. *)
Definition dev_read (dev blk dst : Z) (s : fss PS) : outcome (Z * fss PS) :=
  read_block (rd64 (fs_mem s) dev) dev (u64 blk) dst s.

(** Lines 101-104, from sector [i] on; the bound is read again each time. *)
Fixpoint clust_loop (fuel : nat) (i : Z) (fat : Z) (s : fss PS) : outcome (fss PS) :=
  match fuel with
  | O => Hang
  | S fuel =>
      let m := fs_mem s in
      if i <? rdi m (fat + off_sects_per_clust) then
        o ← as_int (i * rdi m (fat + off_sect_size));
        r ← dev_read (rd64 m fat) i (u64 (rd64 m (fat + off_clust_buff) + o)) s;
        clust_loop fuel (i + 1) fat r.2
      else Ok s
  end.

Definition fat32_read_clust (fuel : nat) (fat clust : Z) (s : fss PS) : outcome (Z * fss PS) :=
  let m := fs_mem s in
  a ← as_int (rdi m (fat + off_num_fats) * rdi m (fat + off_sects_per_fat));
  a ← as_int (rdi m (fat + off_rsvd_sects) + a);
  b ← as_int (clust - 2);
  b ← as_int (b * rdi m (fat + off_sects_per_clust));
  start_sect ← as_int (a + b);
  s ← clust_loop fuel start_sect fat s;
  Ok (0, s).

(** [new] is not used. *)
Definition fat32_parse_dir (fuel : nat) (fat dir_clust : Z) (s : fss PS) : outcome (Z * fss PS) :=
  r ← fs_kmalloc pools sizeof_FATDir s;
  let '(dir, s) := r in
  if dir =? NULL then Ok (-1, s)
  else
    let s := fs_set_mem s (wr32 (fs_mem s) (dir + off_start_clust) dir_clust) in
    r ← fat32_read_clust fuel fat dir_clust s;
    let s := r.2 in
    let ent := rd64 (fs_mem s) (fat + off_clust_buff) in
    let s := fs_set_mem s (wr8 (fs_mem s) (ent + off_first + 8) 0) in
    s ← print (ent + off_first) s;
    Ok (0, s).

(** Lines 175-178, from sector [i] of the table on. *)
Fixpoint table_loop (fuel : nat) (i : Z) (part tbl : Z) (s : fss PS) : outcome (fss PS) :=
  match fuel with
  | O => Hang
  | S fuel =>
      let m := fs_mem s in
      b ← as_int (rdi m (tbl + off_num_fats) * rdi m (tbl + off_sects_per_fat));
      if i <? b then
        n ← as_int (1 + rdi m (tbl + off_rsvd_sects));
        n ← as_int (i + n);
        e ← as_int (i * Z.quot (rdi m (tbl + off_sect_size)) 4);
        r ← dev_read part n (u64 (rd64 m (tbl + off_table) + 4 * e)) s;
        table_loop fuel (i + 1) part tbl r.2
      else Ok s
  end.

(** Lines 158-165: the fields of [tbl] from the boot sector at [fat]. *)
Definition fat_fill (part fat tbl : Z) (m : mem) : outcome mem :=
  let m := wr32 m (tbl + off_rsvd_sects) (bpb_reserved_sectors m fat) in
  let m := wr32 m (tbl + off_num_fats) (bpb_num_fats m fat) in
  let m := wr32 m (tbl + off_sects_per_clust) (bpb_sectors_per_cluster m fat) in
  let m := wr32 m (tbl + off_tot_sects) (if truth (bpb_tot_sectors m fat) then bpb_tot_sectors m fat else bpb_large_sector_count m fat) in
  let m := wr32 m (tbl + off_sects_per_fat) (if truth (bpb_sectors_per_fat m fat) then bpb_sectors_per_fat m fat else fat_sectors_per_fat m fat) in
  let m := wr32 m (tbl + off_root_clust) (fat_root_cluster m fat) in
  let m := wr32 m (tbl + off_sect_size) (rd64 m (part + off_blk_size)) in
  n ← as_int (rdi m (tbl + off_num_fats) * rdi m (tbl + off_sects_per_fat));
  n ← as_int (n * rdi m (tbl + off_sect_size));
  Ok (wr32 m (tbl + off_num_fat_entires) (Z.quot n 4)).

(** Lines 167-186: the table and the buffer are allocated, the table is read. *)
Definition fat_load (fuel : nat) (part tbl : Z) (s : fss PS) : outcome (Z * fss PS) :=
  let m := fs_mem s in
  n ← as_int (rdi m (tbl + off_num_fats) * rdi m (tbl + off_sects_per_fat));
  sz ← as_int (n * rdi m (tbl + off_sect_size));
  r ← fs_kmalloc pools (u64 sz) s;
  let '(table, s) := r in
  let s := fs_set_mem s (wr64 (fs_mem s) (tbl + off_table) table) in
  if table =? NULL then Ok (-1, s)
  else
    let m := fs_mem s in
    c ← as_int (rdi m (tbl + off_sects_per_clust) * rdi m (tbl + off_sect_size));
    r ← fs_kmalloc pools (u64 c) s;
    let '(buff, s) := r in
    let s := fs_set_mem s (wr64 (fs_mem s) (tbl + off_clust_buff) buff) in
    if buff =? NULL then Ok (-1, s)
    else
      s ← table_loop fuel 0 part tbl s;
      r ← fs_kmalloc pools sizeof_INode s;
      Ok (if r.1 =? NULL then -1 else 0, r.2).

(** [fat] is the address of the local boot sector. *)
Definition FS_register_fat32 (fuel : nat) (fat part : Z) (s : fss PS) : outcome (Z * fss PS) :=
  let s := fs_klog KLOG_LEVEL_WARN "FAT 32!" s in
  r ← dev_read part 0 fat s;
  let s := r.2 in
  if r.1 <? 0 then Ok (-1, fs_klog KLOG_LEVEL_WARN "failed to read from FAT 32 filesystem" s)
  else if negb (fat_signature (fs_mem s) fat =? 0x28) && negb (fat_signature (fs_mem s) fat =? 0x29) then
    Ok (-1, fs_klog KLOG_LEVEL_WARN "FAT 32 filesystem on part %s invalid" s)
  else
    r ← fs_kmalloc pools sizeof_FAT s;
    let '(tbl, s) := r in
    if tbl =? NULL then Ok (-1, s)
    else
      m ← fat_fill part fat tbl (fs_mem s);
      fat_load fuel part tbl (fs_set_mem s m).
End Code.

(** ** Following clusters *)

(** The entries of the table in memory. *)
Definition entry (m : mem) (table i : Z) : Z := rd32 m (table + 4 * i).

Lemma next_loop_none table clust m : ∀ k i,
  (∀ j, i ≤ j < i + Z.of_nat k → entry m table j ≠ u32 clust) → next_loop k i table clust m = 0.
Proof.
  induction k as [|k IH]; intros i Hj; cbn [next_loop]; [done|]. fold (entry m table i).
  rewrite (proj2 (Z.eqb_neq _ _)) by (apply Hj; lia). apply IH. intros j Hj'. apply Hj. lia.
Qed.

Lemma next_loop_first table clust m j : ∀ k i,
  i ≤ j < i + Z.of_nat k → entry m table j = u32 clust → (∀ l, i ≤ l < j → entry m table l ≠ u32 clust) →
  next_loop k i table clust m = entry m table (j + 1).
Proof.
  induction k as [|k IH]; intros i Hj He Hl; [lia|]. cbn [next_loop]. fold (entry m table i).
  destruct (decide (i = j)) as [->|Hne]; [by rewrite He, Z.eqb_refl|].
  rewrite (proj2 (Z.eqb_neq _ _)) by (apply Hl; lia). apply IH; [lia|done|]. intros l Hl'. apply Hl. lia.
Qed.

(** [fat32_next_cluster] does not follow the chain.  The successor of a
    cluster is the entry it indexes; the code instead looks for the first entry
    that holds the cluster's number, that is for a predecessor, and returns the
    entry after that one, which for the last entry lies outside the table; it
    returns 0 when no entry holds the number. *)
Theorem fat32_next_cluster_searches (fat clust : Z) (m : mem) :
  let table := rd64 m (fat + off_table) in
  let n := rdi m (fat + off_num_fat_entires) in
  (∀ j, 0 ≤ j < n → entry m table j = u32 clust → (∀ l, 0 ≤ l < j → entry m table l ≠ u32 clust) →
     fat32_next_cluster fat clust m = entry m table (j + 1)) ∧
  ((∀ j, 0 ≤ j < n → entry m table j ≠ u32 clust) → fat32_next_cluster fat clust m = 0).
Proof.
  intros table n. unfold fat32_next_cluster. split.
  - intros j Hj He Hl. apply next_loop_first; [fold n; lia|done|done].
  - intros Hn. apply next_loop_none. intros j Hj. apply Hn. fold n in Hj. lia.
Qed.

(** ** Reading a cluster *)

Section Clusters.
Context {PS : Type} `{Hps : PageSource PS} (read_block : Z → Z → Z → Z → fss PS → outcome (Z * fss PS)).

(** [fat32_read_clust] reads nothing.  Its loop runs from the first sector
    of the cluster up to the number of sectors per cluster, a count: for every
    cluster whose first sector lies at or after that count, which is every
    cluster of a volume whose reserved and table sectors outnumber the sectors
    of a cluster, it returns 0 without reading any sector. *)
Theorem fat32_read_clust_reads_nothing (fuel : nat) (fat clust : Z) (s : fss PS) :
  let m := fs_mem s in
  let spc := rdi m (fat + off_sects_per_clust) in
  let rsvd := rdi m (fat + off_rsvd_sects) in
  let fats := rdi m (fat + off_num_fats) * rdi m (fat + off_sects_per_fat) in
  (0 < fuel)%nat → 0 < spc → 0 ≤ rsvd → 0 ≤ fats → spc ≤ rsvd + fats → 2 ≤ clust →
  rsvd + fats + (clust - 2) * spc < 2147483648 →
  fat32_read_clust read_block fuel fat clust s = Ok (0, s).
Proof using.
  intros m spc rsvd fats Hf H1 H2 H3 H4 H5 H6. unfold fat32_read_clust. fold m.
  assert (Hq : 0 ≤ (clust - 2) * spc) by nia. assert (Hc : clust - 2 ≤ (clust - 2) * spc) by nia.
  fold fats rsvd spc. rewrite (as_int_ok fats), bind_Ok by lia. rewrite (as_int_ok (rsvd + fats)), bind_Ok by lia.
  rewrite (as_int_ok (clust - 2)), bind_Ok by lia. rewrite (as_int_ok ((clust - 2) * spc)), bind_Ok by lia.
  rewrite (as_int_ok (rsvd + fats + (clust - 2) * spc)), bind_Ok by lia.
  destruct fuel as [|fuel]; [lia|]. cbn [clust_loop]. fold m spc.
  by rewrite (proj2 (Z.ltb_ge _ _)), bind_Ok by lia.
Qed.
End Clusters.

(** ** Registering a file system *)

(** Little-endian numbers on the disk. *)
Fixpoint le (n : nat) (dk : Z → Z) (o : Z) : Z :=
  match n with O => 0 | S n => dk o + 256 * le n dk (o + 1) end.

Lemma rd_le_disk n dk m : ∀ a o, (∀ j, 0 ≤ j < Z.of_nat n → rd8 m (a + j) = dk (o + j)) → rd_le n m a = le n dk o.
Proof.
  induction n as [|n IH]; intros a o Hj; [done|]. cbn [rd_le le].
  pose proof (Hj 0 ltac:(lia)) as H0. rewrite !Z.add_0_r in H0. rewrite H0. f_equal. f_equal.
  apply IH. intros j Hj'. rewrite <- !Z.add_assoc. apply Hj. lia.
Qed.

Lemma rdi_wr32 m a v : 0 ≤ v < 2147483648 → rdi (wr32 m a v) a = v.
Proof.
  intros Hv. unfold rdi, rd32, wr32. rewrite rd_le_wr_le. change (256 ^ Z.of_nat 4) with 4294967296.
  rewrite Z.mod_small by lia. by apply i32_small.
Qed.

Lemma rdi_wr32_ne m a b v : apart a 4 b 4 → rdi (wr32 m b v) a = rdi m a.
Proof. intros Ha. unfold rdi, rd32, wr32. by rewrite rd_le_wr_le_apart. Qed.

Lemma rdi_ext m m' a : (∀ x, a ≤ x < a + 4 → rd8 m' x = rd8 m x) → rdi m' a = rdi m a.
Proof. intros Hm. unfold rdi, rd32. f_equal. apply rd_le_ext. intros b Hb. apply Hm. cbn in Hb. lia. Qed.

Section Register.
Context {PS : Type} `{Hps : PageSource PS}.
Context (pools : Z) (read_block : Z → Z → Z → Z → fss PS → outcome (Z * fss PS)).
Context (part fat : Z) (dk : Z → Z) (ready : mem → Prop) (watched : list (Z * Z)).

(** The contents of the objects [watched], the partition among them, are
    unchanged. *)
Definition unwatched (m m' : mem) : Prop := ∀ w x, w ∈ watched → w.1 ≤ x < w.1 + w.2 → rd8 m' x = rd8 m x.

(** While these objects are as they were set up, the partition delivers the
    512-byte blocks of the disk [dk]. *)
Hypothesis part_watched : (part, 72) ∈ watched.
Hypothesis ready_ext : ∀ m m', unwatched m m' → ready m → ready m'.
Hypothesis read_ok : ∀ b dst s, ready (fs_mem s) → 0 ≤ b < 2147483648 →
  ∃ m', read_block (rd64 (fs_mem s) part) part b dst s = Ok (0, fs_set_mem s m') ∧
    (∀ j, 0 ≤ j < 512 → rd8 m' (dst + j) = dk (512 * b + j)) ∧ only_in dst 512 (fs_mem s) m'.

(** [p] points at none of them. *)
Definition clear_of (p n : Z) : Prop := ∀ w, w ∈ watched → apart p n w.1 w.2.

Lemma clear_unwatched p n m m' : clear_of p n → only_in p n m m' → unwatched m m'.
Proof using. intros Hc Hm w x Hw Hx. apply Hm. specialize (Hc w Hw). unfold apart in Hc. lia. Qed.

Lemma owned_clear m s H L p n : heap_rep pools m s H L → (∀ w, w ∈ watched → owned H w.1 w.2) → owned H p n →
  (∀ w, w ∈ watched → p ≠ w.1) → clear_of p n.
Proof using. intros R Hw Hp Hne w Hin. apply (owned_apart _ _ _ _ _ _ _ _ _ R Hp (Hw w Hin)). by apply Hne. Qed.

(** The geometry in the boot sector. *)
Definition dk_spc : Z := le 1 dk 13.
Definition dk_rsvd : Z := le 2 dk 14.
Definition dk_nf : Z := le 1 dk 16.
Definition dk_spf : Z := if truth (le 2 dk 22) then le 2 dk 22 else le 4 dk 36.

Record geometry_ok : Prop := {
  go_sign : dk 66 = 0x28 ∨ dk 66 = 0x29;
  go_table : 0 < dk_nf * dk_spf * 512 < 2147483648 ∧ request_ok (dk_nf * dk_spf * 512);
  go_buff : request_ok (dk_spc * 512);
  go_byte o : 0 ≤ dk o < 256
}.

(** The fields of the [struct FAT] at [tbl]. *)
Record fat_fields (m : mem) (tbl : Z) : Prop := {
  ff_rsvd : rdi m (tbl + off_rsvd_sects) = dk_rsvd;
  ff_nf : rdi m (tbl + off_num_fats) = dk_nf;
  ff_spc : rdi m (tbl + off_sects_per_clust) = dk_spc;
  ff_spf : rdi m (tbl + off_sects_per_fat) = dk_spf;
  ff_size : rdi m (tbl + off_sect_size) = 512
}.

Lemma fat_fields_ext m m' tbl : (∀ x, tbl ≤ x < tbl + 40 → rd8 m' x = rd8 m x) → fat_fields m tbl → fat_fields m' tbl.
Proof using.
  intros Hm [F1 F2 F3 F4 F5].
  split; unfold off_rsvd_sects, off_num_fats, off_sects_per_clust, off_sects_per_fat, off_sect_size in *;
    rewrite (rdi_ext m) by (intros x Hx; apply Hm; lia); done.
Qed.

Lemma dev_read_ok b dst s : ready (fs_mem s) → 0 ≤ b < 2147483648 →
  ∃ m', dev_read read_block part b dst s = Ok (0, fs_set_mem s m') ∧
    (∀ j, 0 ≤ j < 512 → rd8 m' (dst + j) = dk (512 * b + j)) ∧ only_in dst 512 (fs_mem s) m'.
Proof using ready_ext read_ok part_watched.
  intros Hf Hb. unfold dev_read. rewrite u64_small by lia. by apply read_ok.
Qed.

Lemma le_range n o : (∀ o, 0 ≤ dk o < 256) → 0 ≤ le n dk o < 256 ^ Z.of_nat n.
Proof using.
  intros Hd. revert o. induction n as [|n IH]; intros o; cbn [le]; [done|].
  rewrite Nat2Z.inj_succ, Z.pow_succ_r by lia. pose proof (Hd o). specialize (IH (o + 1)). lia.
Qed.

(** The boot sector as [fat_fill] reads it. *)
Lemma boot_fields m : (∀ j, 0 ≤ j < 512 → rd8 m (fat + j) = dk j) →
  bpb_reserved_sectors m fat = dk_rsvd ∧ bpb_num_fats m fat = dk_nf ∧ bpb_sectors_per_cluster m fat = dk_spc ∧
  (if truth (bpb_sectors_per_fat m fat) then bpb_sectors_per_fat m fat else fat_sectors_per_fat m fat) = dk_spf ∧
  fat_signature m fat = dk 66.
Proof using.
  intros Hb.
  assert (Hle : ∀ n o, 0 ≤ o → o + Z.of_nat n ≤ 512 → rd_le n m (fat + o) = le n dk o).
  { intros n o H1 H2. apply rd_le_disk. intros j Hj. rewrite <- Z.add_assoc. apply Hb. lia. }
  unfold bpb_reserved_sectors, bpb_num_fats, bpb_sectors_per_cluster, bpb_sectors_per_fat, fat_sectors_per_fat, fat_signature,
    dk_rsvd, dk_nf, dk_spc, dk_spf, rd16, rd32. rewrite !Hle by (cbn; lia). cbn [le]. rewrite !Z.mul_0_r, !Z.add_0_r, !Hb by lia. done.
Qed.

Lemma only_in_wr32 tbl m m' o v : only_in tbl 40 m m' → 0 ≤ o ≤ 36 → only_in tbl 40 m (wr32 m' (tbl + o) v).
Proof using. intros Hm Ho b Hb. unfold wr32. rewrite rd8_wr_le_out by (cbn; lia). by apply Hm. Qed.

Lemma geometry_ranges : geometry_ok →
  0 ≤ dk_rsvd < 65536 ∧ 0 < dk_nf < 256 ∧ 0 ≤ dk_spc < 256 ∧ 0 < dk_spf < 4194304 ∧ 0 < dk_nf * dk_spf < 4194304.
Proof using.
  intros [_ [G1 _] _ Gb]. pose proof (le_range 2 14 Gb) as R1. pose proof (le_range 1 16 Gb) as R2. pose proof (le_range 1 13 Gb) as R3.
  change (256 ^ Z.of_nat 2) with 65536 in R1. change (256 ^ Z.of_nat 1) with 256 in *.
  assert (R4 : 0 ≤ dk_spf). { unfold dk_spf. destruct (truth _); [apply (le_range 2 22 Gb)|apply (le_range 4 36 Gb)]. }
  unfold dk_rsvd, dk_spc. fold dk_nf in R2. split; [done|]. assert (0 < dk_nf) by nia. assert (0 < dk_spf) by nia. nia.
Qed.

Lemma fat_fill_ok tbl m :
  geometry_ok → (∀ j, 0 ≤ j < 512 → rd8 m (fat + j) = dk j) → rd64 m (part + off_blk_size) = 512 →
  apart fat 512 tbl 40 → apart part 72 tbl 40 →
  ∃ m', fat_fill part fat tbl m = Ok m' ∧ fat_fields m' tbl ∧ only_in tbl 40 m m'.
Proof using.
  intros G Hb Hsz Af Ap. destruct (geometry_ranges G) as (G1 & G2 & G3 & G4 & G5). destruct G as [_ [Gt _] _ _].
  assert (Hbf : ∀ m', only_in tbl 40 m m' → bpb_reserved_sectors m' fat = dk_rsvd ∧ bpb_num_fats m' fat = dk_nf ∧
    bpb_sectors_per_cluster m' fat = dk_spc ∧
    (if truth (bpb_sectors_per_fat m' fat) then bpb_sectors_per_fat m' fat else fat_sectors_per_fat m' fat) = dk_spf).
  { intros m' Hm. destruct (boot_fields m') as (B1 & B2 & B3 & B4 & _); [|done].
    intros j Hj. rewrite Hm by (unfold apart in Af; lia). by apply Hb. }
  unfold fat_fill. set (m1 := wr32 m (tbl + off_rsvd_sects) _).
  assert (O1 : only_in tbl 40 m m1) by (apply only_in_wr32; [done|unfold off_rsvd_sects; lia]).
  set (m2 := wr32 m1 (tbl + off_num_fats) _). assert (O2 : only_in tbl 40 m m2) by (apply only_in_wr32; [done|unfold off_num_fats; lia]).
  set (m3 := wr32 m2 (tbl + off_sects_per_clust) _). assert (O3 : only_in tbl 40 m m3) by (apply only_in_wr32; [done|unfold off_sects_per_clust; lia]).
  set (m4 := wr32 m3 (tbl + off_tot_sects) _). assert (O4 : only_in tbl 40 m m4) by (apply only_in_wr32; [done|unfold off_tot_sects; lia]).
  set (m5 := wr32 m4 (tbl + off_sects_per_fat) _). assert (O5 : only_in tbl 40 m m5) by (apply only_in_wr32; [done|unfold off_sects_per_fat; lia]).
  set (m6 := wr32 m5 (tbl + off_root_clust) _). assert (O6 : only_in tbl 40 m m6) by (apply only_in_wr32; [done|unfold off_root_clust; lia]).
  set (m7 := wr32 m6 (tbl + off_sect_size) _). assert (O7 : only_in tbl 40 m m7) by (apply only_in_wr32; [done|unfold off_sect_size; lia]).
  assert (Hsz6 : rd64 m6 (part + off_blk_size) = 512).
  { rewrite <- Hsz. apply (rd_le_only_in 8 _ _ _ _ _ O6). unfold apart, off_blk_size in *. cbn. lia. }
  assert (F : fat_fields m7 tbl).
  { unfold off_rsvd_sects, off_num_fats, off_sects_per_clust, off_tot_sects, off_sects_per_fat, off_root_clust, off_sect_size in *.
    destruct (Hbf m ltac:(done)) as (B1 & _). destruct (Hbf m1 O1) as (_ & B2 & _). destruct (Hbf m2 O2) as (_ & _ & B3 & _).
    destruct (Hbf m4 O4) as (_ & _ & _ & B5).
    split; unfold off_rsvd_sects, off_num_fats, off_sects_per_clust, off_sects_per_fat, off_sect_size.
    - unfold m7, m6, m5, m4, m3, m2. rewrite !rdi_wr32_ne by (unfold apart; lia). unfold m1. rewrite B1. apply rdi_wr32. lia.
    - unfold m7, m6, m5, m4, m3. rewrite !rdi_wr32_ne by (unfold apart; lia). unfold m2. rewrite B2. apply rdi_wr32. lia.
    - unfold m7, m6, m5, m4. rewrite !rdi_wr32_ne by (unfold apart; lia). unfold m3. rewrite B3. apply rdi_wr32. lia.
    - unfold m7, m6. rewrite !rdi_wr32_ne by (unfold apart; lia). unfold m5. rewrite B5. apply rdi_wr32. lia.
    - unfold m7. rewrite Hsz6. apply rdi_wr32. lia. }
  clearbody m7. rewrite (ff_nf _ _ F), (ff_spf _ _ F), (ff_size _ _ F).
  rewrite (as_int_ok (dk_nf * dk_spf)), bind_Ok by lia. rewrite (as_int_ok (dk_nf * dk_spf * 512)), bind_Ok by lia.
  eexists. split; [done|]. split; [|apply only_in_wr32; [done|unfold off_num_fat_entires; lia]].
  destruct F as [F1 F2 F3 F4 F5]. unfold off_rsvd_sects, off_num_fats, off_sects_per_clust, off_sects_per_fat, off_sect_size in *.
  split; unfold off_num_fat_entires, off_rsvd_sects, off_num_fats, off_sects_per_clust, off_sects_per_fat, off_sect_size;
    rewrite rdi_wr32_ne by (unfold apart; lia); done.
Qed.

(** The table from sector [i] of it on. *)
Lemma table_loop_ok tbl table : geometry_ok →
  0 ≤ table → table + dk_nf * dk_spf * 512 < 18446744073709551616 →
  apart table (dk_nf * dk_spf * 512) tbl 56 → clear_of table (dk_nf * dk_spf * 512) →
  ∀ fuel i s, 0 ≤ i ≤ dk_nf * dk_spf → (Z.to_nat (dk_nf * dk_spf - i) < fuel)%nat →
  fat_fields (fs_mem s) tbl → rd64 (fs_mem s) (tbl + off_table) = table → ready (fs_mem s) →
  ∃ m', table_loop read_block fuel i part tbl s = Ok (fs_set_mem s m') ∧
    (∀ x, 512 * i ≤ x < dk_nf * dk_spf * 512 → rd8 m' (table + x) = dk (512 * (1 + dk_rsvd) + x)) ∧
    only_in (table + 512 * i) (dk_nf * dk_spf * 512 - 512 * i) (fs_mem s) m'.
Proof using ready_ext read_ok part_watched.
  intros G T1 T2 At Ap. destruct (geometry_ranges G) as (G1 & G2 & _ & G4 & G5). set (N := dk_nf * dk_spf) in *.
  induction fuel as [|fuel IH]; intros i s Hi Hf F Ht Hp; [lia|]. cbn [table_loop].
  destruct F as [F1 F2 F3 F4 F5]. rewrite F1, F2, F4, F5, Ht. fold N. rewrite (as_int_ok N), bind_Ok by lia.
  destruct (Z.ltb_spec i N) as [Hlt|Hge].
  - rewrite (as_int_ok (1 + dk_rsvd)), bind_Ok by lia. rewrite (as_int_ok (i + (1 + dk_rsvd))), bind_Ok by lia.
    change (Z.quot 512 4) with 128. rewrite (as_int_ok (i * 128)), bind_Ok by lia.
    replace (table + 4 * (i * 128)) with (table + 512 * i) by lia. rewrite u64_small by lia.
    destruct (dev_read_ok (i + (1 + dk_rsvd)) (table + 512 * i) s Hp) as (m1 & E1 & V1 & O1); [lia|]. rewrite E1, bind_Ok. cbn [snd].
    destruct (IH (i + 1) (fs_set_mem s m1)) as (m' & E' & V' & O'); [lia|lia| | | |].
    + apply (fat_fields_ext (fs_mem s)); [|by split]. intros x Hx. apply O1. unfold apart in At. lia.
    + rewrite <- Ht. apply rd_le_ext. intros x Hx. cbn in Hx. apply O1. unfold apart, off_table in *. lia.
    + eapply ready_ext; [|exact Hp]. eapply clear_unwatched; [exact Ap|]. intros x Hx. apply O1. lia.
    + exists m'. split; [done|]. cbn [fs_set_mem fs_mem] in O'. split.
      * intros x Hx. destruct (decide (512 * (i + 1) ≤ x)) as [Hx'|Hx']; [apply V'; lia|].
        rewrite O' by lia. replace (table + x) with (table + 512 * i + (x - 512 * i)) by lia. rewrite V1 by lia. f_equal. lia.
      * intros x Hx. rewrite O', O1 by lia. done.
  - exists (fs_mem s). destruct s as [m ps lg]. split; [done|]. split; [intros x Hx; lia|done].
Qed.

(** Between the steps of [FS_register_fat32]. *)
Record stage (s : fss PS) (H : heap) (L : list (Z * Z)) (tbl : Z) : Prop := {
  st_heap : heap_rep pools (fs_mem s) (fs_ps s) H L;
  st_part : (∀ w, w ∈ watched → owned H w.1 w.2) ∧ ready (fs_mem s);
  st_tbl : owned H tbl 56 ∧ fat_fields (fs_mem s) tbl;
  st_ne w : w ∈ watched → w.1 ≠ tbl
}.

Lemma stage_kmalloc s H L tbl size : stage s H L tbl → request_ok size →
  ∃ p s' H' L', fs_kmalloc pools size s = Ok (p, s') ∧ stage s' H' L' tbl ∧
    ((p = NULL ∧ ∃ np s0, ps_alloc np s0 = Ok (NULL, fs_ps s')) ∨
     (p ≠ NULL ∧ new_object pools H H' (fs_mem s) (fs_mem s') p size)).
Proof using ready_ext.
  intros [R [P1 P2] [T1 T2] Hne] Hs. unfold fs_kmalloc.
  destruct (kmalloc_object pools (fs_mem s) (fs_ps s) H L size R Hs) as (p & m' & ps' & H' & L' & E & R' & Hc).
  rewrite E, bind_Ok. cbn [fst snd]. exists p, (mkFs m' ps' (fs_log s)), H', L'. split; [done|]. cbn [fs_mem fs_ps].
  destruct Hc as [(-> & -> & -> & np & Hn)|(Hp & N)].
  - split; [by split|]. left. split; [done|]. by exists np, (fs_ps s).
  - split; [|by right]. destruct N as (_ & N2 & _).
    destruct (N2 tbl 56 T1) as (T1' & _ & Kt).
    split; cbn [fs_mem fs_ps]; [done| | |done].
    + split; [intros w Hw; by apply N2, P1|]. eapply ready_ext; [|exact P2]. intros w x Hw Hx. by apply (N2 w.1 w.2 (P1 w Hw)).
    + split; [done|]. eapply fat_fields_ext; [|exact T2]. intros x Hx. apply Kt. lia.
Qed.

(** A store to the object [q] that touches neither what is watched nor the
    fields of [tbl]. *)
Lemma stage_store s H L tbl q n m' : stage s H L tbl → owned H q n → only_in q n (fs_mem s) m' →
  clear_of q n → apart q n tbl 40 → stage (fs_set_mem s m') H L tbl.
Proof using ready_ext.
  intros [R [P1 P2] [T1 T2] Hne] Hq Hm A1 A2. split; cbn [fs_set_mem fs_mem fs_ps]; [| | |done].
  - eapply heap_rep_write; [exact R|left; exact Hq|done].
  - split; [done|]. eapply ready_ext; [|exact P2]. by apply (clear_unwatched q n).
  - split; [done|]. eapply fat_fields_ext; [|exact T2]. intros x Hx. apply Hm. unfold apart in A2. lia.
Qed.

Lemma stage_ptr s H L tbl o v : stage s H L tbl → 40 ≤ o ≤ 48 → stage (fs_set_mem s (wr64 (fs_mem s) (tbl + o) v)) H L tbl.
Proof using ready_ext.
  intros St Ho. pose proof St as [R [P1 P2] [T1 T2] Hne].
  assert (A : clear_of tbl 56) by (apply (owned_clear _ _ _ _ _ _ R P1 T1); intros w Hw; symmetry; by apply Hne).
  assert (Ow : only_in tbl 56 (fs_mem s) (wr64 (fs_mem s) (tbl + o) v))
    by (intros x Hx; unfold wr64; rewrite rd8_wr_le_out by (cbn; lia); done).
  split; cbn [fs_set_mem fs_mem fs_ps]; [| | |done].
  - eapply heap_rep_write; [exact R|left; exact T1|done].
  - split; [done|]. eapply ready_ext; [|exact P2]. by apply (clear_unwatched tbl 56).
  - split; [done|]. eapply fat_fields_ext; [|exact T2]. intros x Hx. unfold wr64. by rewrite rd8_wr_le_out by (cbn; lia).
Qed.

(** What [FS_register_fat32] leaves behind. *)
Definition fat_loaded (r : Z) (s : fss PS) : Prop :=
  (r = -1 ∧ ∃ np s0, ps_alloc np s0 = Ok (NULL, fs_ps s)) ∨
  (r = 0 ∧ ∃ H L tbl table, heap_rep pools (fs_mem s) (fs_ps s) H L ∧ owned H tbl sizeof_FAT ∧ fat_fields (fs_mem s) tbl ∧
     rd64 (fs_mem s) (tbl + off_table) = table ∧ owned H table (dk_nf * dk_spf * 512) ∧
     ∀ x, 0 ≤ x < dk_nf * dk_spf * 512 → rd8 (fs_mem s) (table + x) = dk (512 * (1 + dk_rsvd) + x)).

(** From the filled-in [struct FAT] to the end. *)
Lemma fat_load_ok fuel s H L tbl : geometry_ok → stage s H L tbl → (Z.to_nat (dk_nf * dk_spf) < fuel)%nat →
  ∃ r s', fat_load pools read_block fuel part tbl s = Ok (r, s') ∧ fat_loaded r s'.
Proof using ready_ext read_ok part_watched.
  intros G St Hf. destruct (geometry_ranges G) as (G1 & G2 & G3 & G4 & G5). pose proof G as [_ [Gt Gr] Gb _]. unfold fat_load.
  pose proof (st_tbl _ _ _ _ St) as [_ [F1 F2 F3 F4 F5]]. rewrite F2, F4, F5.
  rewrite (as_int_ok (dk_nf * dk_spf)), bind_Ok by lia. rewrite (as_int_ok (dk_nf * dk_spf * 512)), bind_Ok by lia. rewrite u64_small by lia.
  destruct (stage_kmalloc s H L tbl _ St Gr) as (table & s1 & H1 & L1 & E1 & St1 & C1). rewrite E1, bind_Ok.
  pose proof (stage_ptr s1 H1 L1 tbl off_table table St1 ltac:(unfold off_table; lia)) as St1'.
  destruct C1 as [(-> & Hn)|(Ht & N1)].
  { cbn [Z.eqb NULL]. eexists _, _. split; [done|]. left. by split. }
  rewrite (proj2 (Z.eqb_neq table NULL)) by done. cbv zeta.
  pose proof (st_tbl _ _ _ _ St1') as [_ [F1' F2' F3' F4' F5']]. rewrite F3', F5'.
  rewrite (as_int_ok (dk_spc * 512)), bind_Ok by lia. rewrite u64_small by lia.
  destruct (stage_kmalloc _ H1 L1 tbl _ St1' Gb) as (buff & s2 & H2 & L2 & E2 & St2 & C2). rewrite E2, bind_Ok.
  pose proof (stage_ptr s2 H2 L2 tbl off_clust_buff buff St2 ltac:(unfold off_clust_buff; lia)) as St2'.
  destruct C2 as [(-> & Hn)|(Hbf & N2)].
  { cbn [Z.eqb NULL]. eexists _, _. split; [done|]. left. by split. }
  rewrite (proj2 (Z.eqb_neq buff NULL)) by done.
  set (s2' := fs_set_mem s2 _) in *.
  (* the table object and its pointer *)
  destruct N1 as (Ow1 & K1 & _). destruct N2 as (_ & K2 & _). destruct (K2 table _ Ow1) as (Ow2 & _ & _).
  pose proof St1 as [R1 [Q1 _] [T1 _] _]. pose proof St2' as [R2 [Q2 Qf] [T2 TF] _].
  pose proof (st_tbl _ _ _ _ St) as [T0 _]. pose proof (st_part _ _ _ _ St) as [Q0 _].
  destruct (K1 tbl 56 T0) as (_ & Hnt & _). 
  pose proof (owned_apart _ _ _ _ _ _ _ _ _ R2 Ow2 T2 Hnt) as At. 
  assert (Ap : clear_of table (dk_nf * dk_spf * 512)) by (apply (owned_clear _ _ _ _ _ _ R2 Q2 Ow2); intros w Hw; by apply (K1 w.1 w.2 (Q0 w Hw))).
  pose proof (owned_range _ _ _ _ _ _ _ R2 Ow2) as (G6 & _ & _ & _ & G7 & _).
  assert (Hptr : rd64 (fs_mem s2') (tbl + off_table) = table).
  { unfold s2'. cbn [fs_set_mem fs_mem]. rewrite rd64_wr64_apart by (unfold apart, off_table, off_clust_buff; lia).
    destruct (K2 tbl 56 T1) as (_ & _ & Kt). cbn [fs_set_mem fs_mem] in Kt.
    transitivity (rd64 (wr64 (fs_mem s1) (tbl + off_table) table) (tbl + off_table)); [|rewrite rd64_wr64_eq; apply u64_small; lia].
    apply rd_le_ext. intros x Hx. apply Kt. unfold off_table in *. cbn in Hx. lia. }
  destruct (table_loop_ok tbl table G ltac:(lia) ltac:(lia) At Ap fuel 0 s2' ltac:(lia) ltac:(rewrite Z.sub_0_r; lia) TF Hptr Qf) as (m3 & E3 & V3 & O3).
  rewrite E3, bind_Ok. rewrite Z.mul_0_r, Z.add_0_r, Z.sub_0_r in O3.
  pose proof (stage_store s2' H2 L2 tbl table _ m3 St2' Ow2 O3 Ap ltac:(unfold apart in *; lia)) as St3.
  destruct (stage_kmalloc _ H2 L2 tbl sizeof_INode St3) as (ino & s4 & H4 & L4 & E4 & St4 & C4); [left; done|].
  rewrite E4, bind_Ok. cbn [fst snd]. eexists _, _. split; [done|]. destruct C4 as [(-> & Hn)|(Hi & N4)]; [left; by split|].
  right. rewrite (proj2 (Z.eqb_neq ino NULL)) by done. split; [done|]. destruct N4 as (_ & K4 & _).
  pose proof St4 as [R4 _ [T4 TF4] _]. destruct (K4 table _ Ow2) as (Ow4 & _ & Kt4). destruct (K4 tbl 56 T2) as (_ & _ & Kb4).
  exists H4, L4, tbl, table. split; [done|]. split; [done|]. split; [done|]. cbn [fs_set_mem fs_mem] in Kt4, Kb4. split; [|split; [done|]].
  - transitivity (rd64 m3 (tbl + off_table)).
    + apply rd_le_ext. intros x Hx. apply Kb4. unfold off_table in *. cbn in Hx. lia.
    + transitivity (rd64 (fs_mem s2') (tbl + off_table)); [|exact Hptr]. apply (rd_le_only_in 8 _ _ _ _ _ O3).
      change (Z.of_nat 8) with 8. unfold apart, off_table in *. lia.
  - intros x Hx. rewrite Kt4 by lia. apply V3. lia.
Qed.

Lemma FS_register_fat32_ok (fuel : nat) (s : fss PS) (H : heap) (L : list (Z * Z)) :
  geometry_ok → heap_rep pools (fs_mem s) (fs_ps s) H L →
  (∀ w, w ∈ watched → owned H w.1 w.2) → static pools fat 512 →
  ready (fs_mem s) → rd64 (fs_mem s) (part + off_blk_size) = 512 → (Z.to_nat (dk_nf * dk_spf) < fuel)%nat →
  ∃ r s', FS_register_fat32 pools read_block fuel fat part s = Ok (r, s') ∧ fat_loaded r s'.
Proof using ready_ext read_ok part_watched.
  intros G R Ow Sf Hfn Hsz Hf. pose proof (Ow _ part_watched) as Op. cbn [fst snd] in Op. unfold FS_register_fat32.
  destruct (dev_read_ok 0 fat (fs_klog KLOG_LEVEL_WARN "FAT 32!" s) Hfn) as (m1 & E1 & V1 & O1); [lia|].
  rewrite E1, bind_Ok. cbn [fst snd fs_set_mem fs_klog fs_mem fs_ps fs_log] in *. change (0 <? 0) with false. cbn iota.
  pose proof (owned_static _ _ _ _ _ _ _ _ _ R Op Sf) as Apf.
  assert (R1 : heap_rep pools m1 (fs_ps s) H L) by (eapply heap_rep_write; [exact R|right; exact Sf|exact O1]).
  assert (V1' : ∀ j, 0 ≤ j < 512 → rd8 m1 (fat + j) = dk j) by (intros j Hj; rewrite V1 by done; f_equal; lia).
  destruct (boot_fields m1 V1') as (_ & _ & _ & _ & Hsig). rewrite Hsig.
  replace (negb (dk 66 =? 40) && negb (dk 66 =? 41)) with false by (destruct (go_sign G) as [->| ->]; done).
  unfold fs_kmalloc. cbn [fs_mem fs_ps fs_log fs_set_mem fs_klog].
  destruct (kmalloc_small_object pools m1 (fs_ps s) H L sizeof_FAT R1) as (tbl & m2 & ps2 & H2 & L2 & E2 & R2 & C2); [done|].
  rewrite E2, !bind_Ok. cbn [fst snd]. destruct C2 as [(-> & -> & -> & np & Hn)|(Ht & N2)].
  { cbn [Z.eqb NULL]. eexists _, _. split; [done|]. left. split; [done|]. by exists np, (fs_ps s). }
  rewrite (proj2 (Z.eqb_neq tbl NULL)) by done. cbn [fs_mem fs_set_mem fs_ps fs_log].
  destruct N2 as (Ot & K2 & S2). destruct (K2 part 72 Op) as (Op2 & Hne & Kp).
  pose proof (owned_static _ _ _ _ _ _ _ _ _ R2 Ot Sf) as Atf. pose proof (owned_apart _ _ _ _ _ _ _ _ _ R2 Op2 Ot ltac:(congruence)) as Apt.
  destruct (fat_fill_ok tbl m2 G) as (m3 & E3 & F3 & O3).
  - intros j Hj. rewrite (S2 fat 512) by (done || lia). by apply V1'.
  - rewrite <- Hsz. apply rd_le_ext. intros x Hx. unfold off_blk_size in Hx. cbn in Hx. rewrite Kp, O1 by (unfold apart in *; lia). done.
  - unfold apart, sizeof_FAT in *. lia.
  - unfold apart, sizeof_FAT in *. lia.
  - rewrite E3, bind_Ok. apply (fat_load_ok fuel _ H2 L2 tbl G); [|done]. split; cbn [fs_mem fs_ps].
    + eapply heap_rep_write; [exact R2|left; exact Ot|]. intros x Hx. apply O3. unfold sizeof_FAT in Hx. lia.
    + split; [intros w Hw; by apply K2, Ow|]. eapply ready_ext; [|exact Hfn]. intros w x Hw Hx.
      pose proof (owned_static _ _ _ _ _ _ _ _ _ R (Ow w Hw) Sf). destruct (K2 w.1 w.2 (Ow w Hw)) as (Ow2 & Hnw & Kw).
      pose proof (owned_apart _ _ _ _ _ _ _ _ _ R2 Ot Ow2 Hnw). rewrite O3, Kw, O1 by (unfold apart, sizeof_FAT in *; lia). done.
    + by split.
    + intros w Hw. symmetry. by apply (K2 w.1 w.2 (Ow w Hw)).
Qed.

End Register.

(** ** Examples *)

(** A table of four entries with the chain 2, 3, end. *)
Definition demo_table : mem :=
  wr32 (wr32 (wr32 (wr32 (wr64 (wr32 ∅ (0x100 + off_num_fat_entires) 4) (0x100 + off_table) 0x200) 0x200 0xffffff8) 0x204 0xfffffff) 0x208 3) 0x20c 0xffffff8.

Lemma fat32_next_cluster_searches_witness :
  fat32_next_cluster 0x100 2 demo_table = 0 ∧ fat32_next_cluster 0x100 3 demo_table = 0xffffff8.
Proof.
  destruct (fat32_next_cluster_searches 0x100 2 demo_table) as [_ H2]. destruct (fat32_next_cluster_searches 0x100 3 demo_table) as [H3 _].
  assert (E0 : entry demo_table 0x200 0 = 0xffffff8) by (vm_compute; reflexivity).
  assert (E1 : entry demo_table 0x200 1 = 0xfffffff) by (vm_compute; reflexivity).
  assert (E2 : entry demo_table 0x200 2 = 3) by (vm_compute; reflexivity).
  assert (E3 : entry demo_table 0x200 3 = 0xffffff8) by (vm_compute; reflexivity).
  change (rd64 demo_table (0x100 + off_table)) with 0x200 in *. change (rdi demo_table (0x100 + off_num_fat_entires)) with 4 in *.
  split.
  - apply H2. intros j Hj. assert (Hc : j = 0 ∨ j = 1 ∨ j = 2 ∨ j = 3) by lia.
    destruct Hc as [->|[->|[->| ->]]]; rewrite ?E0, ?E1, ?E2, ?E3; vm_compute; congruence.
  - rewrite (H3 2); [exact E3|lia|exact E2|]. intros l Hl. assert (Hc : l = 0 ∨ l = 1) by lia.
    destruct Hc as [->| ->]; rewrite ?E0, ?E1; vm_compute; congruence.
Defined.

(** 32 reserved sectors, two tables of 64 sectors, 8 sectors per cluster. *)
Definition demo_volume : mem :=
  wr32 (wr32 (wr32 (wr32 ∅ (0x100 + off_sects_per_clust) 8) (0x100 + off_rsvd_sects) 32) (0x100 + off_num_fats) 2) (0x100 + off_sects_per_fat) 64.

Lemma fat32_read_clust_reads_nothing_witness :
  fat32_read_clust (fun _ _ _ _ _ => Fault) 1 0x100 2 (mkFs demo_volume tt []) = Ok (0, mkFs demo_volume tt []).
Proof.
  apply (fat32_read_clust_reads_nothing (fun _ _ _ _ _ => Fault) 1 0x100 2 (mkFs demo_volume tt []));
    first [apply Nat.ltb_lt; vm_compute; reflexivity | apply Z.ltb_lt; vm_compute; reflexivity | apply Z.leb_le; vm_compute; reflexivity].
Defined.

(** A disk of one reserved sector and one table of one sector, whose bytes
    after the boot sector are their own positions. *)
Definition demo_bytes (o : Z) : Z :=
  if o =? 13 then 1 else if o =? 14 then 1 else if o =? 15 then 0 else if o =? 16 then 1 else if o =? 22 then 1 else if o =? 23 then 0
  else if o =? 66 then 0x29 else o mod 256.

Fixpoint wr_bytes (k : nat) (dk : Z → Z) (dst o : Z) (m : mem) : mem :=
  match k with O => m | S k => wr_bytes k dk (dst + 1) (o + 1) (wr8 m dst (dk o)) end.

Lemma wr_bytes_ok dk : (∀ o, 0 ≤ dk o < 256) → ∀ k dst o m,
  (∀ j, 0 ≤ j < Z.of_nat k → rd8 (wr_bytes k dk dst o m) (dst + j) = dk (o + j)) ∧ only_in dst (Z.of_nat k) m (wr_bytes k dk dst o m).
Proof.
  intros Hd. induction k as [|k IH]; intros dst o m; cbn [wr_bytes]; [split; [intros j Hj; lia|by intros b _]|].
  destruct (IH (dst + 1) (o + 1) (wr8 m dst (dk o))) as [I1 I2]. split.
  - intros j Hj. destruct (decide (j = 0)) as [->|].
    + rewrite !Z.add_0_r, I2, rd8_wr8_eq by lia. by apply u8_small.
    + replace (dst + j) with (dst + 1 + (j - 1)) by lia. rewrite I1 by lia. f_equal. lia.
  - intros b Hb. rewrite I2 by lia. apply rd8_wr8_ne. lia.
Qed.

Lemma demo_bytes_range o : 0 ≤ demo_bytes o < 256.
Proof. unfold demo_bytes. repeat case_match; try lia. all: apply Z.mod_pos_bound; lia. Qed.

Definition demo_reader (fn dev b dst : Z) (s : fss kstate) : outcome (Z * fss kstate) :=
  Ok (0, fs_set_mem s (wr_bytes 512 demo_bytes dst (512 * b) (fs_mem s))).

Definition demo_part : fss kstate :=
  mkFs (wr64 (wr64 demo_object_mem demo_object 0x7000) (demo_object + off_blk_size) 512) demo_source [].

