(* ===== verification/Mount.v ===== *)
(** * From the boot record to a file system (src/src/fs.c, src/src/procs/fs.c)

    [FS_process_mbr] turns the entries of a boot record into partition devices,
    and [filesystem_init], the process that does so at start-up, opens the disk,
    registers its partitions and hands the first one to the FAT component.  The
    theorems here compose the heap, the lists, the strings and the FAT code. *)

From S2P Require Import Prelude Memory CString LinkedList Segments Frames Machine Irq Paging Mmu Kmalloc Objects Fs Fat.

(** ** The code *)

Section Code.
Context {PS : Type} `{Hps : PageSource PS}.
(** [files], the pools, the address of [part_read_block], and the drivers'
    read functions by address. *)
Context (files pools prb : Z) (disk_read : Z → Z → Z → Z → fss PS → outcome (Z * fss PS)).

(** Calling through a [read_block] pointer; a partition calls its disk, which
    may be a partition itself, [depth] deep. *)
Fixpoint call_read_block (depth : nat) (fn dev blk dst : Z) (s : fss PS) : outcome (Z * fss PS) :=
  match depth with
  | O => Hang
  | S depth => if fn =? prb then part_read_block (call_read_block depth) dev blk dst s else disk_read fn dev blk dst s
  end.

(** [ata] and [ata_1] are the addresses of the two string literals, [mbr] and
    [fat] those of the buffers on the stack.  The result says whether the
    process goes on to yield for ever (true) or has returned. *)
Definition filesystem_init (depth fuel sfuel tfuel : nat) (ata ata_1 mbr fat : Z) (s : fss PS) : outcome (bool * fss PS) :=
  r ← BLK_open files fuel sfuel ata s;
  let '(blk, s) := r in
  if blk =? NULL then Ok (false, fs_klog KLOG_LEVEL_WARN "failed to create block device" s)
  else
    r ← call_read_block depth (rd64 (fs_mem s) blk) blk 0 mbr s;
    r ← FS_process_mbr files pools prb sfuel blk mbr r.2;
    r ← BLK_open files fuel sfuel ata_1 r.2;
    let '(part, s) := r in
    if part =? NULL then Ok (false, fs_klog KLOG_LEVEL_WARN "failed to create block device" s)
    else
      r ← FS_register_fs (FS_register_fat32 pools (call_read_block depth) tfuel fat) part s;
      Ok (true, r.2).
End Code.

(** ** Registered block devices *)

(** What a block device is to its clients; [b_part] of a partition is its disk,
    first sector, number of sectors and type. *)
Record bdesc := mkB { b_name : list Z; b_size : Z; b_fn : Z; b_part : option (Z * Z * Z * Z) }.

(** The size of the device's object. *)
Definition b_len (b : bdesc) : Z := match b_part b with None => 56 | Some _ => 72 end.

Lemma cstr_intro m a s : (∀ i c, s !! i = Some c → rd8 m (a + Z.of_nat i) = c ∧ c ≠ 0) →
  rd8 m (a + Z.of_nat (length s)) = 0 → cstr m a s.
Proof.
  revert a. induction s as [|c s IH]; intros a Hs H0; cbn [cstr].
  - by rewrite Z.add_0_r in H0.
  - destruct (Hs 0%nat c eq_refl) as [H1 H2]. rewrite Z.add_0_r in H1. split; [done|]. split; [done|]. apply IH.
    + intros i d Hi. replace (a + 1 + Z.of_nat i) with (a + Z.of_nat (S i)) by lia. by apply Hs.
    + rewrite <- H0. f_equal. cbn [length]. lia.
Qed.

Lemma cstr_inj m a s t : cstr m a s → cstr m a t → s = t.
Proof.
  revert a t. induction s as [|c s IH]; intros a [|d t]; cbn [cstr]; [done| | |].
  - intros E (E' & ? & _). congruence.
  - intros (E' & ? & _) E. congruence.
  - intros (E1 & _ & H1) (E2 & _ & H2). f_equal; [congruence|by apply (IH (a + 1))].
Qed.

Section Blocks.
Context {PS : Type} `{Hps : PageSource PS} (files pools prb : Z).

(** A name is in an object of the heap or in static memory. *)
Definition name_at (m : mem) (H : heap) (p : Z) (s : list Z) : Prop :=
  let n := Z.of_nat (length s) + 1 in
  cstr m p s ∧ (owned H p n ∨ static pools p n ∧ apart p n (f_blocks files) 24).

Record dev_is (m : mem) (H : heap) (d : Z) (b : bdesc) : Prop := {
  di_own : owned H d (b_len b);
  di_name : name_at m H (rd64 m (d + off_bdev_name)) (b_name b);
  di_size : rd64 m (d + off_blk_size) = b_size b;
  di_fn : rd64 m d = b_fn b;
  di_part : match b_part b with
    | None => True
    | Some (phys, start, sectors, type) =>
        rd64 m (d + off_total_len) = u64 (sectors * b_size b) ∧ rd32 m (d + off_bdev_type) = PARTITION ∧
        rd8 m (d + off_fs_type) = type ∧ rd64 m (d + off_phys_dev) = phys ∧ rd64 m (d + off_sect_start) = start
    end
}.

(** The list of block devices holds [ds], described by [bs]. *)
Record blocks_inv (m : mem) (ps : PS) (H : heap) (L : list (Z * Z)) (ds : list Z) (bs : list bdesc) : Prop := {
  bl_heap : heap_rep pools m ps H L;
  bl_list : list_rep m (f_blocks files) off_bdev_list ds;
  bl_devs : Forall2 (dev_is m H) ds bs;
  bl_sep d e : d ∈ ds → e ∈ ds → rd64 m (d + off_bdev_name) ≠ e;
  bl_static : static pools (f_blocks files) 24
}.

Lemma dev_is_ext m m' H H' d b :
  dev_is m H d b →
  (∀ q k, owned H q k → q = d ∨ q = rd64 m (d + off_bdev_name) → owned H' q k) →
  (∀ x, d ≤ x < d + b_len b → ¬ (d + off_bdev_list ≤ x < d + off_bdev_list + 16) → rd8 m' x = rd8 m x) →
  (∀ x, rd64 m (d + off_bdev_name) ≤ x ≤ rd64 m (d + off_bdev_name) + Z.of_nat (length (b_name b)) → rd8 m' x = rd8 m x) →
  dev_is m' H' d b ∧ rd64 m' (d + off_bdev_name) = rd64 m (d + off_bdev_name).
Proof using.
  intros [D1 [D2 D3] D4 D5 D6] Ho Hd Hn.
  assert (Hl : 56 ≤ b_len b ≤ 72) by (unfold b_len; destruct (b_part b); lia).
  assert (Hrd : ∀ n o, 0 ≤ o → o + Z.of_nat n ≤ 40 → rd_le n m' (d + o) = rd_le n m (d + o)).
  { intros n o H1 H2. apply rd_le_ext. intros x Hx. apply Hd; unfold off_bdev_list; lia. }
  assert (E : rd64 m' (d + off_bdev_name) = rd64 m (d + off_bdev_name)) by (apply (Hrd 8%nat); unfold off_bdev_name; cbn; lia).
  split; [|done]. split.
  - apply Ho; [done|by left].
  - rewrite E. split; [eapply cstr_ext; [|exact D2]; intros x Hx; symmetry; by apply Hn|].
    destruct D3 as [D3|D3]; [left; apply Ho; [done|by right]|by right].
  - rewrite <- D4. apply (Hrd 8%nat); unfold off_blk_size; cbn; lia.
  - rewrite <- D5. replace d with (d + 0) by lia. apply (Hrd 8%nat); cbn; lia.
  - destruct (b_part b) as [[[[phys start] sectors] type]|] eqn:Eb; [|done]. destruct D6 as (P1 & P2 & P3 & P4 & P5).
    assert (Hlen : b_len b = 72) by (unfold b_len; by rewrite Eb). rewrite Hlen in *.
    split; [|split; [|split; [|split]]].
    + rewrite <- P1. apply (Hrd 8%nat); unfold off_total_len; cbn; lia.
    + rewrite <- P2. apply (Hrd 4%nat); unfold off_bdev_type; cbn; lia.
    + rewrite <- P3. apply Hd; unfold off_fs_type, off_bdev_list; lia.
    + rewrite <- P4. apply (rd_le_ext 8). intros x Hx. apply Hd; unfold off_phys_dev, off_bdev_list in *; cbn in Hx; lia.
    + rewrite <- P5. apply (rd_le_ext 8). intros x Hx. apply Hd; unfold off_sect_start, off_bdev_list in *; cbn in Hx; lia.
Qed.

(** [p] is neither a device nor a device's name. *)
Definition fresh (m : mem) (ds : list Z) (p : Z) : Prop := ∀ d, d ∈ ds → d ≠ p ∧ rd64 m (d + off_bdev_name) ≠ p.

Lemma blocks_dev m ps H L ds bs d : blocks_inv m ps H L ds bs → d ∈ ds → ∃ b, dev_is m H d b.
Proof using.
  intros B [i Hi]%list_elem_of_lookup. destruct (Forall2_lookup_l _ _ _ _ _ (bl_devs _ _ _ _ _ _ B) Hi) as (b & _ & Hb). by exists b.
Qed.

(** What keeps the devices' objects, their names and static memory keeps the
    invariant. *)
Lemma blocks_ext m ps H L ds bs m' ps' H' L' :
  blocks_inv m ps H L ds bs → heap_rep pools m' ps' H' L' →
  (∀ d q k, d ∈ ds → q = d ∨ q = rd64 m (d + off_bdev_name) → owned H q k →
     owned H' q k ∧ ∀ x, q ≤ x < q + k → rd8 m' x = rd8 m x) →
  (∀ x, f_blocks files ≤ x < f_blocks files + 24 → rd8 m' x = rd8 m x) →
  (∀ d b x, let p := rd64 m (d + off_bdev_name) in let n := Z.of_nat (length (b_name b)) + 1 in
     d ∈ ds → dev_is m H d b → static pools p n → p ≤ x < p + n → rd8 m' x = rd8 m x) →
  blocks_inv m' ps' H' L' ds bs ∧ ∀ d, d ∈ ds → rd64 m' (d + off_bdev_name) = rd64 m (d + off_bdev_name).
Proof using.
  intros B R' Ho Hb Hs. pose proof B as [R Rl Rd Rsep Rst].
  assert (Hdev : ∀ d b, d ∈ ds → dev_is m H d b → dev_is m' H' d b ∧ rd64 m' (d + off_bdev_name) = rd64 m (d + off_bdev_name)).
  { intros d b Hd Db. apply (dev_is_ext m m' H H' d b Db).
    - intros q k Hq Hc. by apply (Ho d q k Hd Hc).
    - intros x Hx _. by apply (Ho d d (b_len b) Hd (or_introl eq_refl) (di_own _ _ _ _ Db)).
    - intros x Hx. destruct (di_name _ _ _ _ Db) as [_ [Hn|[Hn1 Hn2]]].
      + apply (Ho d _ _ Hd (or_intror eq_refl) Hn). lia.
      + apply (Hs d b x Hd Db Hn1). lia. }
  assert (E : ∀ d, d ∈ ds → rd64 m' (d + off_bdev_name) = rd64 m (d + off_bdev_name)).
  { intros d Hd. destruct (blocks_dev _ _ _ _ _ _ _ B Hd) as (b & Db). by apply (Hdev d b). }
  split; [|done]. split; [done| | | |done].
  - eapply list_rep_ext; [| |exact Rl].
    + done.
    + intros d x Hd Hx. destruct (blocks_dev _ _ _ _ _ _ _ B Hd) as (b & Db).
      apply (Ho d d (b_len b) Hd (or_introl eq_refl) (di_own _ _ _ _ Db)).
      unfold off_bdev_list, b_len in *. destruct (b_part b); lia.
  - eapply Forall2_elem_impl; [exact Rd|]. intros d b Hd Db. by apply Hdev.
  - intros d e Hd He. rewrite E by done. by apply Rsep.
Qed.

Lemma blocks_new m ps H L ds bs m' ps' H' L' p n :
  blocks_inv m ps H L ds bs → heap_rep pools m' ps' H' L' → new_object pools H H' m m' p n →
  blocks_inv m' ps' H' L' ds bs ∧ fresh m' ds p ∧ ∀ d, d ∈ ds → rd64 m' (d + off_bdev_name) = rd64 m (d + off_bdev_name).
Proof using.
  intros B R' (N1 & N2 & N3). pose proof (bl_static _ _ _ _ _ _ B) as Sb.
  destruct (blocks_ext m ps H L ds bs m' ps' H' L' B R') as [B' E].
  - intros d q k _ _ Hq. split; [by apply N2|]. by apply (N2 q k Hq).
  - intros x Hx. by apply (N3 (f_blocks files) 24).
  - intros d b x p' n' _ _ Ha. by apply N3.
  - split; [done|]. split; [|done]. intros d Hd. rewrite E by done. destruct (blocks_dev _ _ _ _ _ _ _ B Hd) as (b & Db).
    destruct (N2 _ _ (di_own _ _ _ _ Db)) as (_ & Hne & _). split; [congruence|].
    destruct (di_name _ _ _ _ Db) as [_ [Hn|[Hn _]]].
    + destruct (N2 _ _ Hn) as (_ & Hne' & _). congruence.
    + pose proof (owned_range _ _ _ _ _ _ _ R' N1). destruct Hn as (_ & Hn & _). lia.
Qed.

Lemma blocks_store m ps H L ds bs q n m' :
  blocks_inv m ps H L ds bs → owned H q n → fresh m ds q → only_in q n m m' →
  blocks_inv m' ps H L ds bs ∧ ∀ d, d ∈ ds → rd64 m' (d + off_bdev_name) = rd64 m (d + off_bdev_name).
Proof using.
  intros B Hq Hf Hm. pose proof (bl_heap _ _ _ _ _ _ B) as R.
  apply (blocks_ext m ps H L ds bs m' ps H L B).
  - eapply heap_rep_write; [exact R|left; exact Hq|done].
  - intros d p k Hd Hp Ho. split; [done|]. intros x Hx. apply Hm.
    assert (Hne : p ≠ q) by (destruct (Hf d Hd), Hp as [->| ->]; done).
    pose proof (owned_apart _ _ _ _ _ _ _ _ _ R Ho Hq Hne). unfold apart in *. lia.
  - intros x Hx. apply Hm. pose proof (owned_static _ _ _ _ _ _ _ _ _ R Hq (bl_static _ _ _ _ _ _ B)). unfold apart in *. lia.
  - intros d b x p' n' _ _ Ha Hx. apply Hm. pose proof (owned_static _ _ _ _ _ _ _ _ _ R Hq Ha). unfold apart in *. lia.
Qed.

Lemma blocks_kfree m ps H L ds bs p i :
  blocks_inv m ps H L ds bs → live H (p - HDR) i → fresh m ds p →
  ∃ m' H', kfree p m ps = Ok (m', ps) ∧ blocks_inv m' ps H' L ds bs ∧
    (∀ q k, owned H q k → q ≠ p → owned H' q k) ∧ (∀ b j, live H' b j ↔ live H b j ∧ b ≠ p - HDR).
Proof using.
  intros B Hl Hf. destruct (kfree_object pools m ps H L p i (bl_heap _ _ _ _ _ _ B) Hl) as (m' & H' & E & R' & K1 & K2 & _ & K4).
  exists m', H'. split; [done|]. split; [|split; [intros q k Hq Hne; by apply K1|done]]. apply (blocks_ext m ps H L ds bs m' ps H' L B R').
  - intros d q k Hd Hq Ho. apply K1; [done|]. destruct (Hf d Hd), Hq as [->| ->]; done.
  - intros x Hx. apply (K2 (f_blocks files) 24); [exact (bl_static _ _ _ _ _ _ B)|done].
  - intros d b x p' n' _ _ Ha. by apply K2.
Qed.

(** [BLK_register] of a device that is not yet on the list. *)
Lemma blocks_add m ps H L ds bs new b :
  blocks_inv m ps H L ds bs → dev_is m H new b → fresh m ds new → rd64 m (new + off_bdev_name) ∉ ds ++ [new] →
  let m' := LL_enqueue m (f_blocks files) new in
  blocks_inv m' ps H L (ds ++ [new]) (bs ++ [b]) ∧
  (∀ a k x, static pools a k → apart a k (f_blocks files) 24 → a ≤ x < a + k → rd8 m' x = rd8 m x) ∧
  (∀ q k x, owned H q k → q ≤ x < q + k → (q ∈ ds ++ [new] → ¬ (q + off_bdev_list ≤ x < q + off_bdev_list + 16)) → rd8 m' x = rd8 m x).
Proof using.
  intros B Dn Hf Hnn m'. pose proof B as [R Rl Rd Rsep Rst].
  assert (Hdev : ∀ d, d ∈ ds ++ [new] → ∃ c, dev_is m H d c).
  { intros d [Hd| ->%list_elem_of_singleton]%elem_of_app; [by apply (blocks_dev _ _ _ _ _ _ _ B)|by exists b]. }
  assert (Hown : ∀ d, d ∈ ds ++ [new] → owned H d 56).
  { intros d Hd. destruct (Hdev d Hd) as (c & Dc). eapply owned_le; [exact (di_own _ _ _ _ Dc)|]. unfold b_len. destruct (b_part c); lia. }
  assert (Hnew : new ∉ ds) by (intros Hd; by destruct (Hf new Hd)).
  destruct (enqueue_object pools m ps H L (f_blocks files) off_bdev_list 56 ds new R Rl Hown Hnew) as (E1 & E2 & E3 & _);
    [unfold off_bdev_list; lia|done|]. fold m' in E1, E2, E3.
  assert (Hsep : ∀ d e, d ∈ ds ++ [new] → e ∈ ds ++ [new] → rd64 m (d + off_bdev_name) ≠ e).
  { intros d e [Hd| ->%list_elem_of_singleton]%elem_of_app He; [|by intros <-].
    apply elem_of_app in He as [He| ->%list_elem_of_singleton]; [by apply Rsep|by apply Hf]. }
  assert (Ko : ∀ q k x, owned H q k → q ≤ x < q + k →
    (q ∈ ds ++ [new] → ¬ (q + off_bdev_list ≤ x < q + off_bdev_list + 16)) → rd8 m' x = rd8 m x).
  { intros q k x Hq Hx Hl. apply E3.
    - intros d Hd Hxd. destruct (decide (q = d)) as [->|Hne]; [by apply Hl|].
      pose proof (owned_apart _ _ _ _ _ _ _ _ _ R Hq (Hown d Hd) Hne). unfold apart, off_bdev_list in *. lia.
    - pose proof (owned_static _ _ _ _ _ _ _ _ _ R Hq Rst). unfold apart in *. lia. }
  assert (Ks : ∀ a k x, static pools a k → apart a k (f_blocks files) 24 → a ≤ x < a + k → rd8 m' x = rd8 m x).
  { intros a k x Ha Hap Hx. apply E3; [|unfold apart in Hap; lia]. intros d Hd Hxd.
    pose proof (owned_static _ _ _ _ _ _ _ _ _ R (Hown d Hd) Ha). unfold apart, off_bdev_list in *. lia. }
  assert (Kd : ∀ d c, d ∈ ds ++ [new] → dev_is m H d c → dev_is m' H d c ∧ rd64 m' (d + off_bdev_name) = rd64 m (d + off_bdev_name)).
  { intros d c Hd Dc. apply (dev_is_ext m m' H H d c Dc); [done| |].
    - intros x Hx Hl. by apply (Ko d (b_len c) x (di_own _ _ _ _ Dc)).
    - intros x Hx. destruct (di_name _ _ _ _ Dc) as [_ [Hn|[Hn1 Hn2]]].
      + apply (Ko _ _ x Hn); [lia|]. intros He. by destruct (Hsep d _ Hd He).
      + apply (Ks _ _ x Hn1 Hn2). lia. }
  split; [|done]. split; [done|done| | |done].
  - apply Forall2_app; [|constructor; [|constructor]].
    + eapply Forall2_elem_impl; [exact Rd|]. intros d c Hd Dc. apply Kd; [apply elem_of_app; by left|done].
    + apply Kd; [apply elem_of_app; right; left|done].
  - intros d e Hd He. destruct (Hdev d Hd) as (c & Dc). destruct (Kd d c Hd Dc) as [_ ->]. by apply Hsep.
Qed.
End Blocks.

(** ** One partition *)

Lemma only_in_wr_le n p k m m' o v : only_in p k m m' → 0 ≤ o → o + Z.of_nat n ≤ k → only_in p k m (wr_le n m' (p + o) v).
Proof. intros Hm Ho Hk b Hb. rewrite rd8_wr_le_out by lia. by apply Hm. Qed.

Section Partition.
Context (prb new dev p : Z) (m : mem).
Hypothesis p_apart : apart new 72 p 16.
Hypothesis dev_apart : apart new 72 (dev + off_blk_size) 8.

Lemma part_entry_kept m' : only_in new 72 m m' →
  part_start m' p = part_start m p ∧ part_sectors m' p = part_sectors m p ∧ part_type m' p = part_type m p ∧
  rd64 m' (dev + off_blk_size) = rd64 m (dev + off_blk_size).
Proof using p_apart dev_apart.
  intros Hm. unfold part_start, part_sectors, part_type, rd32, rd64.
  split; [|split; [|split]]; [apply (rd_le_only_in 4 _ _ _ _ _ Hm)|apply (rd_le_only_in 4 _ _ _ _ _ Hm)|apply Hm|
    apply (rd_le_only_in 8 _ _ _ _ _ Hm)]; unfold apart in *; cbn; lia.
Qed.

Lemma part_fill_ok :
  let m' := part_fill prb new dev p m in
  only_in new 72 m m' ∧ rd64 m' new = u64 prb ∧ rd64 m' (new + off_blk_size) = rd64 m (dev + off_blk_size) ∧
  rd64 m' (new + off_total_len) = u64 (part_sectors m p * rd64 m (dev + off_blk_size)) ∧
  rd32 m' (new + off_bdev_type) = PARTITION ∧ rd8 m' (new + off_fs_type) = part_type m p ∧
  rd64 m' (new + off_phys_dev) = u64 dev ∧ rd64 m' (new + off_sect_start) = part_start m p.
Proof using p_apart dev_apart.
  unfold part_fill. set (m1 := wr64 m (new + off_phys_dev) dev).
  assert (O1 : only_in new 72 m m1) by (apply (only_in_wr_le 8); unfold off_phys_dev; [done|cbn; lia..]).
  destruct (part_entry_kept m1 O1) as (-> & _). set (m2 := wr64 m1 (new + off_sect_start) _).
  assert (O2 : only_in new 72 m m2) by (apply (only_in_wr_le 8); unfold off_sect_start; [done|cbn; lia..]).
  destruct (part_entry_kept m2 O2) as (_ & _ & _ & ->). set (m3 := wr64 m2 (new + off_blk_size) _).
  assert (O3 : only_in new 72 m m3) by (apply (only_in_wr_le 8); unfold off_blk_size; [done|cbn; lia..]).
  destruct (part_entry_kept m3 O3) as (_ & -> & _ & ->). set (m4 := wr64 m3 (new + off_total_len) _).
  assert (O4 : only_in new 72 m m4) by (apply (only_in_wr_le 8); unfold off_total_len; [done|cbn; lia..]).
  set (m5 := wr32 m4 (new + off_bdev_type) PARTITION).
  assert (O5 : only_in new 72 m m5) by (apply (only_in_wr_le 4); unfold off_bdev_type; [done|cbn; lia..]).
  destruct (part_entry_kept m5 O5) as (_ & _ & -> & _). set (m6 := wr8 m5 (new + off_fs_type) _).
  assert (O6 : only_in new 72 m m6).
  { intros b Hb. unfold m6. rewrite rd8_wr8_ne by (unfold off_fs_type; lia). by apply O5. }
  assert (O7 : only_in new 72 m (wr64 m6 new prb)).
  { replace (wr64 m6 new prb) with (wr64 m6 (new + 0) prb) by (f_equal; lia). apply (only_in_wr_le 8); [done|cbn; lia..]. }
  cbv zeta. split; [done|].
  assert (K : ∀ n o, 8 ≤ o → rd_le n (wr64 m6 new prb) (new + o) = rd_le n m6 (new + o))
    by (intros n o Ho; unfold wr64; apply rd_le_wr_le_apart; unfold apart; cbn; lia).
  assert (K6 : ∀ n o, (o + Z.of_nat n ≤ off_fs_type ∨ off_fs_type + 1 ≤ o) → rd_le n m6 (new + o) = rd_le n m5 (new + o)).
  { intros n o Ho. apply rd_le_ext. intros x Hx. apply rd8_wr8_ne. lia. }
  assert (K5 : ∀ n o, (o + Z.of_nat n ≤ off_bdev_type ∨ off_bdev_type + 4 ≤ o) → rd_le n m5 (new + o) = rd_le n m4 (new + o))
    by (intros n o Ho; unfold m5, wr32; apply rd_le_wr_le_apart; unfold apart; cbn; lia).
  split; [apply rd64_wr64_eq|]. unfold off_blk_size, off_total_len, off_bdev_type, off_fs_type, off_phys_dev, off_sect_start in *.
  split; [|split; [|split; [|split; [|split]]]].
  - unfold rd64. rewrite K, K6, K5 by (cbn; lia). unfold m4. rewrite rd64_wr64_apart by (unfold apart; lia).
    unfold m3. rewrite rd64_wr64_eq. apply u64_rd64.
  - unfold rd64. rewrite K, K6, K5 by (cbn; lia). unfold m4. fold rd64. rewrite rd64_wr64_eq. apply u64_idem.
  - unfold rd32. rewrite K, K6 by (cbn; lia). unfold m5, wr32. by rewrite rd_le_wr_le.
  - unfold wr64. rewrite rd8_wr_le_out by (cbn; lia). unfold m6. rewrite rd8_wr8_eq. apply u8_small, rd8_range.
  - unfold rd64. rewrite K, K6, K5 by (cbn; lia). unfold m4, m3, m2. rewrite !rd64_wr64_apart by (unfold apart; lia). apply rd64_wr64_eq.
  - unfold rd64. rewrite K, K6, K5 by (cbn; lia). unfold m4, m3. rewrite !rd64_wr64_apart by (unfold apart; lia). unfold m2. rewrite rd64_wr64_eq.
    apply u64_small. pose proof (rd_le_range 4 m (p + 8)) as Hr. change (256 ^ Z.of_nat 4) with 4294967296 in Hr. unfold part_start, rd32. lia.
Qed.
End Partition.

Lemma part_name_ok sfuel i dev nm m s :
  let src := rd64 m (dev + off_bdev_name) in
  cstr m src s → s ≠ [] → (length s ≤ 17)%nat → (length s < sfuel)%nat → 0 ≤ i < 4 →
  apart nm 20 src (Z.of_nat (length s) + 1) →
  ∃ m', part_name sfuel i dev nm m = Ok m' ∧ only_in nm 20 m m' ∧ cstr m' nm (s ++ [95; 49 + i]).
Proof.
  intros src Hs Hne Hl Hsf Hi Ha. unfold part_name. fold src. rewrite (strlen_cstr sfuel m src s Hs Hsf), bind_Ok by lia.
  destruct (strcpy_ok sfuel m nm src s Hs Hne) as (m1 & E1 & V1 & O1); [lia|unfold apart in *; lia|]. rewrite E1, bind_Ok. cbn [fst].
  rewrite i32_small by lia. set (n := Z.of_nat (length s)) in *. eexists. split; [done|]. split.
  - intros b Hb. rewrite !rd8_wr8_ne by lia. apply O1. lia.
  - apply cstr_intro.
    + intros j c Hj. destruct (decide (j < length s)%nat) as [Hlt|Hge].
      * rewrite lookup_app_l in Hj by done. rewrite !rd8_wr8_ne by lia. split; [by apply V1|]. by apply (cstr_rd8 _ _ _ _ _ Hs Hj).
      * rewrite lookup_app_r in Hj by lia. destruct (j - length s)%nat as [|[|k]] eqn:Ej; cbn in Hj; [| |done]; injection Hj as <-.
        -- replace (nm + Z.of_nat j) with (nm + n) by lia. rewrite !rd8_wr8_ne by lia. rewrite rd8_wr8_eq. done.
        -- replace (nm + Z.of_nat j) with (nm + n + 1) by lia. rewrite rd8_wr8_ne by lia. rewrite rd8_wr8_eq.
           rewrite u8_small by lia. split; [done|lia].
    + rewrite length_app. cbn [length]. replace (nm + Z.of_nat (length s + 2)) with (nm + n + 2) by lia. by rewrite rd8_wr8_eq.
Qed.

(** ** The boot record *)

Section Mbr.
Context {PS : Type} `{Hps : PageSource PS} (files pools prb dev mbr : Z) (b : bdesc) (m0 : mem) (areas : list (Z * Z)).

Hypothesis prb_range : 0 ≤ prb < 18446744073709551616.
Hypothesis areas_static : ∀ w, w ∈ areas → static pools w.1 w.2 ∧ apart w.1 w.2 (f_blocks files) 24.
Hypothesis mbr_area : (mbr, 512) ∈ areas.

(** The static areas, the record among them, are as in [m0]. *)
Definition record_kept (m : mem) : Prop := ∀ w x, w ∈ areas → w.1 ≤ x < w.1 + w.2 → rd8 m x = rd8 m0 x.

(** The used entries among the [k] from [i] on, and the device each becomes. *)
Fixpoint partitions (k : nat) (i : Z) : list Z :=
  match k with
  | O => []
  | S k => if part_start m0 (mbr_part mbr i) =? 0 then partitions k (i + 1) else i :: partitions k (i + 1)
  end.

Definition part_desc (i : Z) : bdesc :=
  let p := mbr_part mbr i in
  mkB (b_name b ++ [95; 49 + i]) (b_size b) prb (Some (dev, part_start m0 p, part_sectors m0 p, part_type m0 p)).

Lemma record_entry m i : record_kept m → 0 ≤ i < 4 →
  let p := mbr_part mbr i in
  part_start m p = part_start m0 p ∧ part_sectors m p = part_sectors m0 p ∧ part_type m p = part_type m0 p.
Proof using mbr_area.
  intros Hm' Hi p. assert (Hm : ∀ x, mbr ≤ x < mbr + 512 → rd8 m x = rd8 m0 x) by (intros x Hx; by apply (Hm' (mbr, 512))). unfold p, part_start, part_sectors, part_type, mbr_part.
  split; [|split]; [apply (rd_le_ext 4)|apply (rd_le_ext 4)|apply Hm; lia]; intros x Hx; apply Hm; cbn in Hx; lia.
Qed.

Lemma record_store m m' ps H L q n : heap_rep pools m ps H L → owned H q n → only_in q n m m' → record_kept m → record_kept m'.
Proof using areas_static mbr_area.
  intros R Hq Hm Hk w x Hw Hx. rewrite Hm; [by apply (Hk w)|]. destruct (areas_static w Hw) as [Sw _].
  pose proof (owned_static _ _ _ _ _ _ _ _ _ R Hq Sw). unfold apart in *. lia.
Qed.

Lemma record_new H H' m m' p n : new_object pools H H' m m' p n → record_kept m → record_kept m'.
Proof using areas_static.
  intros (_ & _ & N) Hk w x Hw Hx. destruct (areas_static w Hw) as [Sw _]. rewrite (N w.1 w.2); [by apply (Hk w)|done|done].
Qed.

(** The fields [part_fill] writes. *)
Definition filled (m : mem) (new i : Z) : Prop :=
  let p := mbr_part mbr i in
  rd64 m new = u64 prb ∧ rd64 m (new + off_blk_size) = b_size b ∧
  rd64 m (new + off_total_len) = u64 (part_sectors m0 p * b_size b) ∧ rd32 m (new + off_bdev_type) = PARTITION ∧
  rd8 m (new + off_fs_type) = part_type m0 p ∧ rd64 m (new + off_phys_dev) = u64 dev ∧
  rd64 m (new + off_sect_start) = part_start m0 p.

Lemma dev_found m H L ps ds bs k : blocks_inv files pools m ps H L ds bs → ds !! k = Some dev → bs !! k = Some b →
  dev_is files pools m H dev b.
Proof using.
  intros B Hd Hb. destruct (Forall2_lookup_l _ _ _ _ _ (bl_devs _ _ _ _ _ _ _ _ B) Hd) as (b' & Hb' & D). by simplify_eq.
Qed.

(** A partition between the two allocations. *)
Record new_part (m : mem) (ps : PS) (H : heap) (L : list (Z * Z)) (ds : list Z) (bs : list bdesc) (new i : Z) : Prop := {
  np_inv : blocks_inv files pools m ps H L ds bs;
  np_own : owned H new 72;
  np_live : ∃ j, live H (new - HDR) j;
  np_fresh : fresh m ds new;
  np_rec : record_kept m;
  np_fill : filled m new i
}.

Lemma fill_ok m ps H L ds bs k m1 ps1 H1 L1 new i :
  blocks_inv files pools m ps H L ds bs → ds !! k = Some dev → bs !! k = Some b → record_kept m → 0 ≤ i < 4 →
  heap_rep pools m1 ps1 H1 L1 → new_object pools H H1 m m1 new 72 → (∃ j, live H1 (new - HDR) j) →
  new_part (part_fill prb new dev (mbr_part mbr i) m1) ps1 H1 L1 ds bs new i.
Proof using areas_static mbr_area.
  intros B Hd Hb Hk Hi R1 N1 Hl. assert (Hin : dev ∈ ds) by (by apply list_elem_of_lookup_2 with k).
  destruct (blocks_new files pools _ _ _ _ _ _ _ _ _ _ _ _ B R1 N1) as (B1 & Fr1 & _).
  pose proof (record_new _ _ _ _ _ _ N1 Hk) as Hk1. pose proof N1 as (On1 & _ & _).
  pose proof (dev_found _ _ _ _ _ _ _ B1 Hd Hb) as D1. pose proof (di_own _ _ _ _ _ _ D1) as Od1.
  assert (Ad : apart new 72 dev (b_len b)) by (apply (owned_apart _ _ _ _ _ _ _ _ _ R1 On1 Od1); destruct (Fr1 dev Hin); congruence).
  assert (Lb : 56 ≤ b_len b) by (unfold b_len; destruct (b_part b); lia).
  pose proof (owned_static _ _ _ _ _ _ _ _ _ R1 On1 (proj1 (areas_static _ mbr_area))) as Am. cbn [fst snd] in Am.
  destruct (part_fill_ok prb new dev (mbr_part mbr i) m1) as (O2 & F1 & F2 & F3 & F4 & F5 & F6 & F7).
  { unfold apart, mbr_part in *. lia. }
  { unfold apart, off_blk_size in *. lia. }
  destruct (record_entry m1 i Hk1 Hi) as (S1 & S2 & S3). rewrite S1 in F7. rewrite (di_size _ _ _ _ _ _ D1) in F2, F3. rewrite S2 in F3. rewrite S3 in F5.
  destruct (blocks_store files pools _ _ _ _ _ _ new 72 _ B1 On1 Fr1 O2) as [B2 Nm2].
  split; [done|done|done| |exact (record_store _ _ _ _ _ _ _ R1 On1 O2 Hk1)|done].
  intros d Hd'. rewrite Nm2 by done. by apply Fr1.
Qed.

Lemma only_in_name new mm v : only_in new 72 mm (wr64 mm (new + off_bdev_name) v).
Proof using. apply (only_in_wr_le 8); [done|unfold off_bdev_name; cbn; lia..]. Qed.

(** No memory for the name: the partition is freed. *)
Lemma unnamed_ok m ps H L ds bs new i ps' L' :
  new_part m ps H L ds bs new i → heap_rep pools m ps' H L' →
  ∃ m' H', kfree new (wr64 m (new + off_bdev_name) NULL) ps' = Ok (m', ps') ∧ record_kept m' ∧ blocks_inv files pools m' ps' H' L' ds bs.
Proof using areas_static mbr_area.
  intros [B On [j Hl] Fr Hk _] R'. assert (B' : blocks_inv files pools m ps' H L' ds bs) by (by destruct B; split).
  destruct (blocks_store files pools _ _ _ _ _ _ new 72 _ B' On Fr (only_in_name new m NULL)) as [B4 Nm4].
  destruct (blocks_kfree files pools _ _ _ _ _ _ new j B4 Hl) as (m' & H' & E' & B5 & _).
  { intros d Hd. rewrite Nm4 by done. by apply Fr. }
  exists m', H'. split; [done|]. split; [|done].
  destruct (kfree_object pools _ _ _ _ _ _ (bl_heap _ _ _ _ _ _ _ _ B4) Hl) as (m'' & H'' & E'' & _ & _ & Ks & _).
  rewrite E' in E''. injection E'' as <-. intros w x Hw Hx. rewrite (Ks w.1 w.2); [|by apply areas_static|done].
  apply (record_store m _ ps' H L' new 72 R' On (only_in_name new m NULL) Hk w x Hw Hx).
Qed.

(** The new name, two characters longer, fits in its twenty bytes. *)
Hypothesis name_length : (0 < length (b_name b) ≤ 17)%nat.

(** The partition of the entry [i] once its fields and its name are written. *)
Lemma part_dev_is m2 m5 H i new nm ps L :
  heap_rep pools m5 ps H L → owned H new 72 → owned H nm 20 → 0 ≤ dev < 281474976710656 → filled m2 new i →
  (∀ x, new ≤ x < new + 72 → ¬ (new + off_bdev_name ≤ x < new + off_bdev_name + 8) → rd8 m5 x = rd8 m2 x) →
  rd64 m5 (new + off_bdev_name) = nm → cstr m5 nm (b_name b ++ [95; 49 + i]) →
  dev_is files pools m5 H new (part_desc i).
Proof using prb_range name_length.
  intros R On Om Hd (F1 & F2 & F3 & F4 & F5 & F6 & F7) K Hn Hc.
  assert (K64 : ∀ n o, 0 ≤ o → o + Z.of_nat n ≤ 72 → (o + Z.of_nat n ≤ 24 ∨ 32 ≤ o) → rd_le n m5 (new + o) = rd_le n m2 (new + o)).
  { intros n o H1 H2 H3. apply rd_le_ext. intros x Hx. apply K; unfold off_bdev_name; lia. }
  unfold off_blk_size, off_total_len, off_bdev_type, off_fs_type, off_phys_dev, off_sect_start in *.
  split; cbn [part_desc b_name b_size b_fn b_part b_len]; unfold off_blk_size, off_total_len, off_bdev_type, off_fs_type, off_phys_dev, off_sect_start.
  - done.
  - rewrite Hn. split; [done|]. left. eapply owned_le; [exact Om|]. rewrite length_app. cbn [length]. lia.
  - rewrite <- F2. apply (K64 8%nat); cbn; lia.
  - rewrite <- (u64_small prb), <- F1 by done. replace new with (new + 0) by lia. apply (K64 8%nat); cbn; lia.
  - split; [rewrite <- F3; apply (K64 8%nat); cbn; lia|]. split; [rewrite <- F4; apply (K64 4%nat); cbn; lia|].
    split; [rewrite <- F5; apply K; unfold off_bdev_name; lia|].
    split; [rewrite <- (u64_small dev), <- F6 by lia; apply (K64 8%nat); cbn; lia|rewrite <- F7; apply (K64 8%nat); cbn; lia].
Qed.

(** Naming and registering the partition. *)
Lemma named_ok sfuel m2 ps H L ds bs k new i m3 ps3 H3 L3 nm :
  new_part m2 ps H L ds bs new i → ds !! k = Some dev → bs !! k = Some b → 0 ≤ i < 4 → (length (b_name b) < sfuel)%nat →
  heap_rep pools m3 ps3 H3 L3 → new_object pools H H3 m2 m3 nm 20 →
  ∃ m5, part_name sfuel i dev nm (wr64 m3 (new + off_bdev_name) nm) = Ok m5 ∧
    let m6 := LL_enqueue m5 (f_blocks files) new in
    record_kept m6 ∧ blocks_inv files pools m6 ps3 H3 L3 (ds ++ [new]) (bs ++ [part_desc i]).
Proof using prb_range areas_static mbr_area name_length.
  intros [B On1 _ Fr2 Hk F] Hd Hb Hi Hsf R3 N3. assert (Hin : dev ∈ ds) by (by apply list_elem_of_lookup_2 with k).
  destruct (blocks_new files pools _ _ _ _ _ _ _ _ _ _ _ _ B R3 N3) as (B3 & Fr3 & Nm3). pose proof N3 as (Om3 & Keep3 & _).
  destruct (Keep3 new 72 On1) as (On3 & Hne3 & Kn3). pose proof (record_new _ _ _ _ _ _ N3 Hk) as Hk3.
  assert (Fr3n : fresh m3 ds new) by (intros d Hd'; rewrite Nm3 by done; by apply Fr2).
  destruct (blocks_store files pools _ _ _ _ _ _ new 72 _ B3 On3 Fr3n (only_in_name new m3 nm)) as [B4 Nm4].
  pose proof (record_store _ _ _ _ _ _ _ R3 On3 (only_in_name new m3 nm) Hk3) as Hk4.
  set (m4 := wr64 m3 (new + off_bdev_name) nm) in *. pose proof (bl_heap _ _ _ _ _ _ _ _ B4) as R4.
  pose proof (dev_found _ _ _ _ _ _ _ B4 Hd Hb) as D4. destruct (di_name _ _ _ _ _ _ D4) as [Dn1 Dn2].
  pose proof (owned_range _ _ _ _ _ _ _ R4 (di_own _ _ _ _ _ _ D4)) as (G1 & _ & _ & _ & G2 & G5).
  destruct (part_name_ok sfuel i dev nm m4 (b_name b) Dn1) as (m5 & E5 & O5 & Hc5);
    [by destruct (b_name b); cbn in name_length; [lia|]|lia|done|done| |].
  { destruct Dn2 as [Dn2|[Dn2 _]]; [|exact (owned_static _ _ _ _ _ _ _ _ _ R4 Om3 Dn2)].
    apply (owned_apart _ _ _ _ _ _ _ _ _ R4 Om3 Dn2). rewrite Nm4 by done. destruct (Fr3 dev Hin). congruence. }
  exists m5. split; [done|].
  assert (Fr4 : fresh m4 ds nm) by (intros d Hd'; rewrite Nm4 by done; by apply Fr3).
  destruct (blocks_store files pools _ _ _ _ _ _ nm 20 m5 B4 Om3 Fr4 O5) as [B5 Nm5].
  pose proof (owned_apart _ _ _ _ _ _ _ _ _ R4 On3 Om3 ltac:(congruence)) as Anm.
  pose proof (owned_range _ _ _ _ _ _ _ R4 Om3) as (G3 & _ & _ & _ & G4 & _).
  assert (Hp5 : rd64 m5 (new + off_bdev_name) = nm).
  { transitivity (rd64 m4 (new + off_bdev_name)); [apply (rd_le_only_in 8 _ _ _ _ _ O5); unfold apart, off_bdev_name in *; cbn; lia|].
    unfold m4. rewrite rd64_wr64_eq. apply u64_small. lia. }
  assert (Dnew : dev_is files pools m5 H3 new (part_desc i)).
  { apply (part_dev_is m2 m5 H3 i new nm ps3 L3 (bl_heap _ _ _ _ _ _ _ _ B5)); try done; [lia|].
    intros x Hx Hno. rewrite O5 by (unfold apart in Anm; lia). unfold m4, wr64. rewrite rd8_wr_le_out by (cbn; lia). apply Kn3. lia. }
  destruct (blocks_add files pools m5 ps3 H3 L3 ds bs new (part_desc i) B5 Dnew) as (B6 & K6 & _).
  { intros d Hd'. rewrite Nm5, Nm4 by done. by apply Fr3n. }
  { rewrite Hp5. intros [Hx|Hx%list_elem_of_singleton]%elem_of_app; [by destruct (Fr3 nm Hx)|congruence]. }
  split; [|done]. intros w x Hw Hx. destruct (areas_static w Hw) as [Sw Aw]. rewrite (K6 w.1 w.2) by done.
  apply (record_store _ _ _ _ _ _ _ R4 Om3 O5 Hk4 w x Hw Hx).
Qed.

Lemma add_partition_ok sfuel i s H L ds bs k :
  blocks_inv files pools (fs_mem s) (fs_ps s) H L ds bs → ds !! k = Some dev → bs !! k = Some b →
  record_kept (fs_mem s) → 0 ≤ i < 4 → (length (b_name b) < sfuel)%nat →
  ∃ ok s' H' L', add_partition files pools prb sfuel i dev mbr s = Ok (ok, s') ∧ record_kept (fs_mem s') ∧
    ((ok = true ∧ ∃ new, blocks_inv files pools (fs_mem s') (fs_ps s') H' L' (ds ++ [new]) (bs ++ [part_desc i])) ∨
     (ok = false ∧ blocks_inv files pools (fs_mem s') (fs_ps s') H' L' ds bs ∧ ∃ np s0, ps_alloc np s0 = Ok (NULL, fs_ps s'))).
Proof using prb_range areas_static mbr_area name_length.
  intros B Hd Hb Hk Hi Hsf. unfold add_partition, fs_kmalloc, fs_kfree.
  destruct (kmalloc_small_block pools (fs_mem s) (fs_ps s) H L sizeof_PartBlockDev (bl_heap _ _ _ _ _ _ _ _ B)) as
    (new & m1 & ps1 & H1 & L1 & E1 & R1 & C1); [done|]. rewrite E1, !bind_Ok. cbn [fst snd].
  destruct C1 as [(-> & -> & -> & np & Hn)|(Hn & N1 & j1 & T1)].
  { cbn [Z.eqb NULL]. eexists _, _, H, L1. split; [done|]. split; [done|]. right. split; [done|].
    split; [by destruct B; split|]. by exists np, (fs_ps s). }
  rewrite (proj2 (Z.eqb_neq new NULL)) by done. cbn [fs_set_mem fs_mem fs_ps fs_log].
  pose proof (fill_ok _ _ _ _ _ _ _ _ _ _ _ _ i B Hd Hb Hk Hi R1 N1 (ex_intro _ j1 (proj1 T1))) as P.
  set (m2 := part_fill prb new dev (mbr_part mbr i) m1) in *. clearbody m2.
  destruct (kmalloc_small_block pools m2 ps1 H1 L1 20 (bl_heap _ _ _ _ _ _ _ _ (np_inv _ _ _ _ _ _ _ _ P))) as
    (nm & m3 & ps3 & H3 & L3 & E3 & R3 & C3); [lia|]. rewrite E3, !bind_Ok. cbn [fst snd fs_set_mem fs_mem fs_ps fs_log].
  destruct C3 as [(-> & -> & -> & np & Hnp)|(Hnm & N3 & _)].
  - destruct (unnamed_ok _ _ _ _ _ _ _ _ ps3 L3 P R3) as (m' & H' & E' & Hk' & B').
    cbn [Z.eqb NULL] in *. rewrite E', !bind_Ok. eexists _, _, H', L3. split; [done|]. split; [done|]. right. split; [done|].
    split; [done|]. by exists np, ps1.
  - rewrite (proj2 (Z.eqb_neq nm NULL)) by done.
    destruct (named_ok sfuel _ _ _ _ _ _ _ _ _ _ _ _ _ _ P Hd Hb Hi Hsf R3 N3) as (m5 & E5 & Hk6 & B6).
    rewrite E5, bind_Ok. eexists true, _, H3, L3. split; [done|]. split; [done|]. left. split; [done|]. by exists new.
Qed.

(** What the loop leaves: [got] of the entries [want] are registered, all of
    them unless the heap ran out of pages. *)
Definition mbr_done (ds : list Z) (bs : list bdesc) (want : list Z) (r : Z) (s : fss PS) : Prop :=
  record_kept (fs_mem s) ∧
  ∃ H L new got, blocks_inv files pools (fs_mem s) (fs_ps s) H L (ds ++ new) (bs ++ (part_desc <$> got)) ∧ got `prefix_of` want ∧
    ((r = 0 ∧ got = want) ∨ (r = -1 ∧ ∃ np s0, ps_alloc np s0 = Ok (NULL, fs_ps s))).

Lemma mbr_loop_ok sfuel j : (length (b_name b) < sfuel)%nat → ∀ k i s H L ds bs,
  blocks_inv files pools (fs_mem s) (fs_ps s) H L ds bs → ds !! j = Some dev → bs !! j = Some b →
  record_kept (fs_mem s) → 0 ≤ i → i + Z.of_nat k ≤ 4 →
  ∃ r s', mbr_loop files pools prb k i sfuel dev mbr s = Ok (r, s') ∧ mbr_done ds bs (partitions k i) r s'.
Proof using prb_range areas_static mbr_area name_length.
  intros Hsf. induction k as [|k IH]; intros i s H L ds bs B Hd Hb Hk Hi Hik; cbn [mbr_loop partitions].
  { eexists _, _. split; [done|]. split; [done|]. exists H, L, [], []. cbn. rewrite !app_nil_r. split; [done|]. split; [done|]. by left. }
  destruct (record_entry (fs_mem s) i Hk) as (-> & _); [lia|].
  destruct (part_start m0 (mbr_part mbr i) =? 0); [by apply (IH (i + 1) s H L); [..|lia|lia]|].
  destruct (add_partition_ok sfuel i s H L ds bs j B Hd Hb Hk) as (ok & s1 & H1 & L1 & E1 & Hk1 & C1); [lia|done|].
  rewrite E1, bind_Ok. destruct C1 as [(-> & new & B1)|(-> & B1 & Hn)].
  - destruct (IH (i + 1) s1 H1 L1 (ds ++ [new]) (bs ++ [part_desc i]) B1) as (r & s' & E' & Hk' & H' & L' & nw & got & B' & Hp & Hr);
      [by apply lookup_app_l_Some|by apply lookup_app_l_Some|done|lia|lia|].
    exists r, s'. split; [done|]. split; [done|]. exists H', L', (new :: nw), (i :: got). rewrite <- !app_assoc in B'. split; [done|].
    split; [by apply prefix_cons|]. destruct Hr as [[-> ->]|?]; [by left|by right].
  - eexists _, _. split; [done|]. split; [done|]. exists H1, L1, [], []. cbn. rewrite !app_nil_r. split; [done|]. split; [apply prefix_nil|]. by right.
Qed.

Lemma FS_process_mbr_ok (sfuel j : nat) (s : fss PS) (H : heap) (L : list (Z * Z)) (ds : list Z) (bs : list bdesc) :
  blocks_inv files pools (fs_mem s) (fs_ps s) H L ds bs → ds !! j = Some dev → bs !! j = Some b →
  record_kept (fs_mem s) → (length (b_name b) < sfuel)%nat →
  ∃ r s', FS_process_mbr files pools prb sfuel dev mbr s = Ok (r, s') ∧
    (mbr_sig m0 mbr ≠ 0xaa55 → r = -1 ∧ fs_mem s' = fs_mem s) ∧
    (mbr_sig m0 mbr = 0xaa55 → mbr_done ds bs (partitions 4 0) r s').
Proof using prb_range areas_static mbr_area name_length.
  intros B Hd Hb Hk Hsf. unfold FS_process_mbr.
  assert (E : mbr_sig (fs_mem s) mbr = mbr_sig m0 mbr)
    by (apply (rd_le_ext 2); intros x Hx; apply (Hk (mbr, 512)); [done|cbn in *; lia]).
  rewrite E. destruct (Z.eqb_spec (mbr_sig m0 mbr) 0xaa55) as [Hs|Hs]; cbn [negb].
  - destruct (mbr_loop_ok sfuel j Hsf 4 0 s H L ds bs B Hd Hb Hk) as (r & s' & E' & Hr); [lia|lia|]. exists r, s'. by split.
  - eexists _, _. split; [done|]. by split.
Qed.

(** C24: the boot record.  [FS_process_mbr] always finishes.  A record without
    the signature 0xaa55 is refused with -1 and nothing changes.  Otherwise
    every used entry becomes a new device at the end of the list of block
    devices, in order: named after the disk with an underscore and the entry's
    number, a partition of the disk with its block size, the entry's first
    sector, length and type, and read through [part_read_block]; what was
    registered before stays as it was.  When the heap runs out of pages, -1 is
    returned, a beginning of the entries is registered and the unfinished
    device is freed. *)
Theorem FS_process_mbr_registers (sfuel j : nat) (s : fss PS) (H : heap) (L : list (Z * Z)) (ds : list Z) (bs : list bdesc) :
  blocks_inv files pools (fs_mem s) (fs_ps s) H L ds bs → ds !! j = Some dev → bs !! j = Some b →
  record_kept (fs_mem s) → (length (b_name b) < sfuel)%nat →
  ∃ r s', FS_process_mbr files pools prb sfuel dev mbr s = Ok (r, s') ∧
    (mbr_sig m0 mbr ≠ 0xaa55 → r = -1 ∧ fs_mem s' = fs_mem s) ∧
    (mbr_sig m0 mbr = 0xaa55 → mbr_done ds bs (partitions 4 0) r s').
Proof using prb_range areas_static mbr_area name_length. apply FS_process_mbr_ok. Qed.
End Mbr.

(** ** Opening a device by its description *)

Fixpoint first_desc (s : list Z) (ds : list Z) (bs : list bdesc) : Z :=
  match ds, bs with
  | d :: ds, b :: bs => if decide (b_name b = s) then d else first_desc s ds bs
  | _, _ => NULL
  end.

Lemma find_by_desc sfuel m L off name s : cstr m name s → (length s < sfuel)%nat → ∀ fuel curr ds bs,
  LL_for_each_from fuel m L curr = Ok ds → Forall2 (fun d b => cstr m (rd64 m (d + off)) (b_name b)) ds bs →
  find_by_name fuel sfuel m L off curr name = Ok (first_desc s ds bs).
Proof.
  intros Hs Hsf. induction fuel as [|fuel IH]; intros curr ds bs Hf Hn; [done|].
  cbn [LL_for_each_from find_by_name] in *. destruct (LL_nhead m L curr =? L); [injection Hf as <-; by inversion Hn|].
  set (nx := LL_ndata m L (nxt m (LL_nhead m L curr))) in *.
  destruct (LL_for_each_from fuel m L nx) as [rest| |] eqn:E; [|done|done]. rewrite bind_Ok in Hf. injection Hf as <-.
  inversion Hn as [|? b ? bs' Hb Hn' E1 E2]. subst. cbn [first_desc].
  destruct (strcmp_cases sfuel m name (rd64 m (curr + off)) s (b_name b) Hs Hb Hsf) as (r & Er & Hr).
  rewrite Er, bind_Ok, Hr. case_bool_decide as Hd; [by rewrite decide_True|]. rewrite decide_False by congruence. by apply IH.
Qed.

Section Open.
Context {PS : Type} `{Hps : PageSource PS} (files pools : Z).

Lemma BLK_open_desc ds bs H L s fuel sfuel name (st : fss PS) :
  blocks_inv files pools (fs_mem st) (fs_ps st) H L ds bs → cstr (fs_mem st) name s →
  (length s < sfuel)%nat → (length ds < fuel)%nat →
  BLK_open files fuel sfuel name st = Ok (first_desc s ds bs, st).
Proof using.
  intros B Hs Hsf Hf. pose proof (bl_list _ _ _ _ _ _ _ _ B) as R. unfold BLK_open.
  assert (Hl : LL_for_each_from fuel (fs_mem st) (f_blocks files)
     (LL_ndata (fs_mem st) (f_blocks files) (nxt (fs_mem st) (f_blocks files))) = Ok ds).
  { rewrite (list_rep_hd _ _ _ _ R). rewrite <- (LL_for_each_from_rep _ _ _ [] ds fuel R Hf). by destruct ds. }
  rewrite (find_by_desc sfuel _ _ _ name s Hs Hsf fuel _ ds bs Hl), bind_Ok.
  2:{ eapply Forall2_elem_impl; [exact (bl_devs _ _ _ _ _ _ _ _ B)|]. intros d b _ D. apply (di_name _ _ _ _ _ _ D). }
  destruct (Z.eqb_spec (first_desc s ds bs) NULL) as [->|]; [|done].
  unfold fs_klog, klog. change (KLOG_MIN_LOG_LEVEL <? KLOG_LEVEL_DEBUG) with false. by destruct st.
Qed.
End Open.

(** ** Start-up *)

Lemma partitions_length mbr m k : ∀ i, (length (partitions mbr m k i) ≤ k)%nat.
Proof. induction k as [|k IH]; intros i; cbn [partitions]; [done|]. specialize (IH (i + 1)). destruct (_ =? 0); cbn [length]; lia. Qed.

Definition str_ata : list Z := [97; 116; 97].
Definition str_ata_1 : list Z := [97; 116; 97; 95; 49].

Section Init.
Context {PS : Type} `{Hps : PageSource PS} (files pools prb : Z) (disk_read : Z → Z → Z → Z → fss PS → outcome (Z * fss PS)).
Context (dev fn ata ata_1 mbr fat : Z) (dk : Z → Z).

(** The disk driver reads the 512-byte blocks of the disk [dk]. *)
Hypothesis disk_ok : ∀ blk dst s, 0 ≤ blk < 281474976710656 →
  ∃ m', disk_read fn dev blk dst s = Ok (0, fs_set_mem s m') ∧
    (∀ j, 0 ≤ j < 512 → rd8 m' (dst + j) = dk (512 * blk + j)) ∧ only_in dst 512 (fs_mem s) m'.

(** Where things are: the buffers and the literals are static memory that does
    not overlap. *)
Record layout : Prop := {
  ly_prb : 0 ≤ prb < 18446744073709551616 ∧ fn ≠ prb;
  ly_mbr : static pools mbr 512 ∧ apart mbr 512 (f_blocks files) 24;
  ly_fat : static pools fat 512;
  ly_ata : apart ata 4 mbr 512;
  ly_ata_1 : static pools ata_1 6 ∧ apart ata_1 6 (f_blocks files) 24 ∧ apart ata_1 6 mbr 512
}.

(** The disk has a boot record whose first partition is a FAT 32 volume. *)
Definition first_sector : Z := le 4 dk 454.
Definition volume (o : Z) : Z := dk (512 * first_sector + o).

Record disk_fat : Prop := {
  df_sig : le 2 dk 510 = 0xaa55;
  df_used : first_sector ≠ 0;
  df_type : dk 450 = FS_TYPE_FAT32;
  df_byte o : 0 ≤ dk o < 256;
  df_volume : geometry_ok volume
}.

Definition disk_desc : bdesc := mkB str_ata 512 fn None.

(** Reading block 0 over the buffer leaves the devices alone. *)
Lemma blocks_mbr m ps H L m' :
  layout → blocks_inv files pools m ps H L [dev] [disk_desc] → apart (rd64 m (dev + off_bdev_name)) 4 mbr 512 →
  only_in mbr 512 m m' → blocks_inv files pools m' ps H L [dev] [disk_desc].
Proof using.
  intros [_ [M1 M2] _ _ _] B Hn Hm. pose proof (bl_heap _ _ _ _ _ _ _ _ B) as R.
  apply (blocks_ext files pools m ps H L _ _ m' ps H L B).
  - eapply heap_rep_write; [exact R|right; exact M1|done].
  - intros d q k _ _ Hq. split; [done|]. intros x Hx. apply Hm. pose proof (owned_static _ _ _ _ _ _ _ _ _ R Hq M1). unfold apart in *. lia.
  - intros x Hx. apply Hm. unfold apart in M2. lia.
  - intros d b x p n ->%list_elem_of_singleton Db Hs Hx. apply Hm.
    pose proof (Forall2_cons_1 _ _ _ _ _ (bl_devs _ _ _ _ _ _ _ _ B)) as [D0 _].
    assert (E : length (b_name b) = 3%nat).
    { destruct (di_name _ _ _ _ _ _ Db) as [C1 _], (di_name _ _ _ _ _ _ D0) as [C0 _]. by rewrite (cstr_inj _ _ _ _ C1 C0). }
    unfold p, n in Hx. rewrite E in Hx. unfold apart in Hn. cbn in Hx. lia.
Qed.

(** The record as it is in the buffer. *)
Lemma record_read m : disk_fat → (∀ j, 0 ≤ j < 512 → rd8 m (mbr + j) = dk j) →
  mbr_sig m mbr = 0xaa55 ∧ part_start m (mbr_part mbr 0) = first_sector ∧ part_type m (mbr_part mbr 0) = FS_TYPE_FAT32.
Proof using.
  intros [F1 _ F3 _ _] Hm. unfold mbr_sig, part_start, part_type, mbr_part, rd16, rd32.
  assert (Hle : ∀ n o, 0 ≤ o → o + Z.of_nat n ≤ 512 → rd_le n m (mbr + o) = le n dk o).
  { intros n o H1 H2. apply rd_le_disk. intros j Hj. rewrite <- Z.add_assoc. apply Hm. lia. }
  split; [|split].
  - rewrite Hle by (cbn; lia). done.
  - replace (mbr + 446 + 16 * 0 + 8) with (mbr + 454) by lia. rewrite Hle by (cbn; lia). done.
  - replace (mbr + 446 + 16 * 0 + 4) with (mbr + 450) by lia. rewrite Hm by lia. done.
Qed.

(** The partition reads the volume while its object and the disk's are intact. *)
Definition part_ready (part : Z) (m : mem) : Prop :=
  rd64 m part = prb ∧ rd64 m (part + off_phys_dev) = dev ∧ rd64 m (part + off_sect_start) = first_sector ∧ rd64 m dev = fn.

Lemma part_ready_ext part m m' : unwatched [(part, 72); (dev, 56)] m m' → part_ready part m → part_ready part m'.
Proof using.
  intros Hu (P1 & P2 & P3 & P4).
  assert (Kp : ∀ o, 0 ≤ o ≤ 64 → rd64 m' (part + o) = rd64 m (part + o)).
  { intros o Ho. apply rd_le_ext. intros x Hx. apply (Hu (part, 72)); [left|cbn in *; lia]. }
  unfold part_ready, off_phys_dev, off_sect_start in *.
  split; [rewrite <- P1; replace part with (part + 0) by lia; apply Kp; lia|]. split; [rewrite <- P2; apply Kp; lia|].
  split; [rewrite <- P3; apply Kp; lia|]. rewrite <- P4. apply rd_le_ext. intros x Hx. apply (Hu (dev, 56)); [right; left|cbn in *; lia].
Qed.

Lemma part_reads depth part blk dst s : layout → disk_fat → part_ready part (fs_mem s) → 0 ≤ blk < 2147483648 →
  ∃ m', call_read_block prb disk_read (S (S depth)) (rd64 (fs_mem s) part) part blk dst s = Ok (0, fs_set_mem s m') ∧
    (∀ j, 0 ≤ j < 512 → rd8 m' (dst + j) = volume (512 * blk + j)) ∧ only_in dst 512 (fs_mem s) m'.
Proof using disk_ok.
  intros [[_ Y] _ _ _ _] [_ _ _ F4 _] (P1 & P2 & P3 & P4) Hb.
  assert (Hf : 0 ≤ first_sector < 4294967296) by (apply (le_range dk 4 454 F4)).
  cbn [call_read_block]. rewrite P1, Z.eqb_refl. unfold part_read_block. rewrite P2, P3, P4. cbn [call_read_block].
  rewrite (proj2 (Z.eqb_neq fn prb)), u64_small by (done || lia).
  destruct (disk_ok (blk + first_sector) dst s) as (m' & E & V & O); [lia|]. exists m'. split; [done|]. split; [|done].
  intros j Hj. rewrite V by done. unfold volume. f_equal. lia.
Qed.

(** Mounting the first partition once it is registered. *)
Lemma mount_ok depth tfuel part s H L ds bs d sectors :
  layout → disk_fat → (Z.to_nat (dk_nf volume * dk_spf volume) < tfuel)%nat →
  blocks_inv files pools (fs_mem s) (fs_ps s) H L (dev :: part :: ds) (disk_desc :: d :: bs) →
  b_part d = Some (dev, first_sector, sectors, FS_TYPE_FAT32) → b_size d = 512 → b_fn d = prb →
  ∃ r s', FS_register_fs (FS_register_fat32 pools (call_read_block prb disk_read (S (S depth))) tfuel fat) part s = Ok (r, s') ∧
    fat_loaded pools volume r s'.
Proof using disk_ok.
  intros Y F Hf B Hp Hs Hfn. pose proof (bl_devs _ _ _ _ _ _ _ _ B) as [Dd [Dp _]%Forall2_cons_1]%Forall2_cons_1.
  pose proof (di_part _ _ _ _ _ _ Dp) as P. rewrite Hp in P. destruct P as (_ & _ & P3 & P4 & P5).
  unfold FS_register_fs. rewrite P3, Z.eqb_refl.
  apply (FS_register_fat32_ok pools _ part fat volume (part_ready part) [(part, 72); (dev, 56)]) with (H := H) (L := L).
  - left.
  - apply part_ready_ext.
  - intros b dst t Ht Hb. by apply part_reads.
  - exact (df_volume F).
  - exact (bl_heap _ _ _ _ _ _ _ _ B).
  - intros w [->|[->|Hw%elem_of_nil]%elem_of_cons]%elem_of_cons; [|exact (di_own _ _ _ _ _ _ Dd)|done].
    pose proof (di_own _ _ _ _ _ _ Dp) as O. unfold b_len in O. by rewrite Hp in O.
  - exact (ly_fat Y).
  - split; [rewrite <- Hfn; exact (di_fn _ _ _ _ _ _ Dp)|]. split; [done|]. split; [done|]. exact (di_fn _ _ _ _ _ _ Dd).
  - rewrite <- Hs. exact (di_size _ _ _ _ _ _ Dp).
  - done.
Qed.

End Init.

(** ** Example: a disk with one FAT 32 partition at sector 1 *)

Definition demo_mount_files : Z := 0x300000.
Definition demo_mbr : Z := 0x320000.
Definition demo_image (o : Z) : Z :=
  if o <? 512 then
    if o =? 450 then 12 else if o =? 454 then 1 else if o =? 510 then 0x55 else if o =? 511 then 0xaa else 0
  else demo_bytes (o - 512).

Definition demo_disk_read (fn dev blk dst : Z) (s : fss kstate) : outcome (Z * fss kstate) :=
  Ok (0, fs_set_mem s (wr_bytes 512 demo_image dst (512 * blk) (fs_mem s))).

(** The disk object, its name, and the two literals. *)
Definition demo_mount_mem0 : mem :=
  let m := LL_init demo_object_mem (f_blocks demo_mount_files) off_bdev_list in
  let m := wr64 m demo_object 0x7000 in
  let m := wr64 m (demo_object + off_blk_size) 512 in
  let m := wr64 m (demo_object + off_bdev_name) 0x310000 in
  let m := wr32 m 0x310000 0x617461 in
  let m := wr32 m 0x340000 0x617461 in
  wr64 m 0x340010 0x315f617461.
Definition demo_mount_mem : mem := LL_enqueue demo_mount_mem0 (f_blocks demo_mount_files) demo_object.
Definition demo_runs : list (Z * Z) := [(MMAP_KERNEL_HEAP_START, 4)].

Lemma demo_image_range o : 0 ≤ demo_image o < 256.
Proof. unfold demo_image. destruct (o <? 512); [repeat case_match; lia|apply demo_bytes_range]. Qed.

Lemma demo_mount_heap : heap_rep demo_pools demo_mount_mem0 demo_source demo_object_heap demo_runs.
Proof.
  pose proof (demo_object_owned 112 ltac:(lia)) as Ow.
  assert (Hs : ∀ a n m v, 0x200060 ≤ a → a + 8 ≤ MMAP_KERNEL_HEAP_START → (n ≤ 8)%nat →
    heap_rep demo_pools m demo_source demo_object_heap demo_runs → heap_rep demo_pools (wr_le n m a v) demo_source demo_object_heap demo_runs).
  { intros a n m v H1 H2 H3 R. eapply heap_rep_write; [exact R|right; apply (demo_static a (Z.of_nat n)); lia|apply wr_le_only_in]. }
  assert (Ho : ∀ o n m v, 0 ≤ o → o + Z.of_nat n ≤ 112 →
    heap_rep demo_pools m demo_source demo_object_heap demo_runs → heap_rep demo_pools (wr_le n m (demo_object + o) v) demo_source demo_object_heap demo_runs).
  { intros o n m v H1 H2 R. eapply heap_rep_write; [exact R|left; exact Ow|]. by apply only_in_wr_le. }
  unfold demo_mount_mem0, wr64, wr32. do 3 (apply Hs; [lia|vm_compute; congruence|lia|]).
  apply Ho; [unfold off_bdev_name; lia|unfold off_bdev_name; cbn; lia|]. apply Ho; [unfold off_blk_size; lia|unfold off_blk_size; cbn; lia|].
  rewrite <- (Z.add_0_r demo_object) at 1. apply Ho; [lia|cbn; lia|].
  eapply heap_rep_write; [exact demo_object_rep|right; apply (demo_static (f_blocks demo_mount_files) 24); vm_compute; congruence|].
  destruct (LL_init_rep demo_object_mem (f_blocks demo_mount_files) off_bdev_list) as [_ O];
    [unfold valid_hdr, f_blocks, demo_mount_files; lia|unfold off_bdev_list; lia|]. exact O.
Qed.

Lemma demo_mount_blocks :
  blocks_inv demo_mount_files demo_pools demo_mount_mem demo_source demo_object_heap demo_runs [demo_object] [disk_desc 0x7000].
Proof.
  apply (blocks_add demo_mount_files demo_pools demo_mount_mem0 demo_source demo_object_heap demo_runs [] [] demo_object (disk_desc 0x7000)).
  - split; [exact demo_mount_heap| |constructor|by intros d e Hd%elem_of_nil|apply demo_static; vm_compute; congruence].
    destruct (LL_init_rep demo_object_mem (f_blocks demo_mount_files) off_bdev_list) as [R _];
      [unfold valid_hdr, f_blocks, demo_mount_files; lia|unfold off_bdev_list; lia|].
    eapply list_rep_ext; [| |exact R]; [|intros d x Hd; by apply elem_of_nil in Hd].
    intros x Hx. unfold demo_mount_mem0, wr64, wr32, f_blocks, demo_mount_files, demo_object, MMAP_KERNEL_HEAP_START, P4_PTE_ADDRESSES, HDR, off_blk_size, off_bdev_name in *.
    rewrite !rd8_wr_le_out by (cbn; lia). done.
  - split.
    + apply (demo_object_owned 56). lia.
    + replace (rd64 demo_mount_mem0 (demo_object + off_bdev_name)) with 0x310000 by (vm_compute; reflexivity).
      split; [apply (bool_decide_unpack _); vm_compute; exact I|]. right.
      split; [apply demo_static; vm_compute; congruence|vm_compute; right; congruence].
    + vm_compute. reflexivity.
    + vm_compute. reflexivity.
    + exact I.
  - by intros d Hd%elem_of_nil.
  - replace (rd64 demo_mount_mem0 (demo_object + off_bdev_name)) with 0x310000 by (vm_compute; reflexivity).
    intros Hx%list_elem_of_singleton. by vm_compute in Hx.
Qed.

Lemma demo_layout : layout demo_mount_files demo_pools 0x8000 0x7000 0x340000 0x340010 demo_mbr 0x330000.
Proof.
  split.
  - split; [lia|done].
  - split; [apply demo_static; vm_compute; congruence|vm_compute; right; congruence].
  - apply demo_static; vm_compute; congruence.
  - vm_compute. right. congruence.
  - split; [apply demo_static; vm_compute; congruence|]. split; vm_compute; right; congruence.
Qed.

Lemma demo_disk_fat : disk_fat demo_image.
Proof.
  assert (E : ∀ o, volume demo_image o = demo_image (512 + o)) by done.
  split; [vm_compute; reflexivity|vm_compute; congruence|vm_compute; reflexivity|exact demo_image_range|].
  split.
  - right. vm_compute. reflexivity.
  - split; [vm_compute; split; congruence|]. left. vm_compute. split; congruence.
  - left. vm_compute. split; congruence.
  - intros o. rewrite E. apply demo_image_range.
Qed.

Definition demo_mount : fss kstate := mkFs demo_mount_mem demo_source [].
Definition demo_mount_read : fss kstate := mkFs (wr_bytes 512 demo_image demo_mbr 0 demo_mount_mem) demo_source [].

Lemma FS_process_mbr_registers_witness :
  ∃ r s', FS_process_mbr demo_mount_files demo_pools 0x8000 4 demo_object demo_mbr demo_mount_read = Ok (r, s') ∧
    (mbr_sig (fs_mem demo_mount_read) demo_mbr ≠ 0xaa55 → r = -1 ∧ fs_mem s' = fs_mem demo_mount_read) ∧
    (mbr_sig (fs_mem demo_mount_read) demo_mbr = 0xaa55 →
     mbr_done demo_mount_files demo_pools 0x8000 demo_object demo_mbr (disk_desc 0x7000) (fs_mem demo_mount_read) [(demo_mbr, 512)]
       [demo_object] [disk_desc 0x7000] (partitions demo_mbr (fs_mem demo_mount_read) 4 0) r s').
Proof.
  apply (FS_process_mbr_registers demo_mount_files demo_pools 0x8000 demo_object demo_mbr (disk_desc 0x7000) (fs_mem demo_mount_read)
    [(demo_mbr, 512)]) with (j := 0%nat) (H := demo_object_heap) (L := demo_runs).
  - lia.
  - intros w ->%list_elem_of_singleton. exact (ly_mbr _ _ _ _ _ _ _ _ demo_layout).
  - left.
  - cbn. lia.
  - eapply (blocks_mbr demo_mount_files demo_pools 0x8000 demo_object 0x7000 0x340000 0x340010 demo_mbr 0x330000 demo_mount_mem);
      [exact demo_layout|exact demo_mount_blocks|vm_compute; left; congruence|apply (wr_bytes_ok demo_image demo_image_range 512)].
  - reflexivity.
  - reflexivity.
  - by intros w x _ _.
  - cbn. lia.
Defined.

