(* ===== verification/Kernel.v ===== *)
(** * Kernel entry (src/src/kmain.c, src/src/panic.c)

    The order in which [kmain] brings the components up.  Its first part, from
    the boot loader's information to a running MMU, is proved as one theorem
    from the components' own. *)

From Stdlib Require Import Sorted.
From S2P Require Import Prelude Memory CString LinkedList Sort Segments Frames Machine Irq Vga Paging Mmu Kmalloc Objects Sched Blocking Serial Boot Keyboard Fs HwInit Pci Ata.

(** ** The code *)

Definition k_set_log (k : kstate) (log : klogs) : kstate :=
  mkK (mkVM (v_mem (k_vm k)) (v_fa (k_vm k)) (v_cr3 (k_vm k)) log) (k_irq k).
Definition k_set_mem (k : kstate) (m : mem) : kstate :=
  mkK (mkVM m (v_fa (k_vm k)) (v_cr3 (k_vm k)) (v_log (k_vm k))) (k_irq k).
Definition k_klog (lvl : Z) (msg : string) (k : kstate) : kstate := k_set_log k (klog lvl msg (v_log (k_vm k))).

(** [panic] logs and halts until the next interrupt, after which it returns. *)
Definition panic (k : kstate) : kstate := k_klog KLOG_LEVEL_EMERG "KERNEL PANIC" k.

(** Lines 32-36; [map] is the address of the static memory map. *)
Definition kmain_memory (fuel : nat) (identity_p3 identity_p2 fault_handler map mb_magic mb_addr : Z)
    (stack : list SegmentList) (k : kstate) : outcome kstate :=
  r ← BOOT_parse_multiboot fuel map mb_magic mb_addr (v_mem (k_vm k)) (v_log (k_vm k));
  let k := k_set_log (k_set_mem k r.2.1) r.2.2 in
  let k := if r.1 <? 0 then panic k else k in
  r ← MMU_init fuel identity_p3 identity_p2 fault_handler (boot_map (v_mem (k_vm k)) map) stack k;
  Ok (if r.1 <? 0 then panic r.2 else r.2).

(** ps2.c, lines 299-304. *)
Definition ps2_init_module (files pools cdev fops name : Z) (s : sched) : outcome (Z * sched) :=
  r ← FS_register_cdev files pools cdev name (FS_cdev_init cdev fops (s_fs s));
  Ok (0, s_from_fs s r.2).

Section Main.
Context {D : Type} `{PortIO D}.

(** The addresses of the kernel's static objects, functions and literals. *)
Context (GDT tss GDTR syscall_handler serial_isr gdev : Z) (stacks : Z * Z * Z * Z) (idt_init : D → D).
Context (identity_p3 identity_p2 fault_handler map main_proc rq procs pools process_exit_addr : Z).
Context (files ps2_cdev ps2_fops str_ps2 pci_devs ata_pci_driver ata_read_block ata_isr str_ata : Z).
Context (str_keyboard_io keyboard_io str_filesystem filesystem_init : Z).
(** Local objects of the functions called: on the stack. *)
Context (pci_hdr ata_hdr ata_iden : Z) (excluded : list SegmentList).

(** fs.c, lines 171-178. *)
Definition FS_temp_dev_init (lfuel fuel : nat) (s : sched) (d : D) : outcome (sched * D) :=
  r ← ps2_init_module files pools ps2_cdev ps2_fops str_ps2 s;
  let s := s_klog KLOG_LEVEL_INFO "ps2 device driver registered" r.2 in
  r ← ata_init_module files pools ata_read_block ata_isr str_ata pci_devs ata_pci_driver lfuel fuel ata_hdr ata_iden s d;
  Ok (s_klog KLOG_LEVEL_INFO "ata device driver registered" r.2.1, r.2.2).

(** [kmain] up to its last loop, which calls [PROC_run] and halts for ever.
    Once the MMU runs, the kernel's own memory is the first gigabyte, mapped to
    itself. *)
Definition kmain (fuel lfuel : nat) (mb_magic mb_addr : Z) (t : dtables) (k : kstate) (d : D) : outcome (dtables * sched * D) :=
  let v := VGA_clear (mkVga 0 0 (v_mem (k_vm k)) (k_irq k)) in
  r ← HW_init GDT tss GDTR stacks idt_init syscall_handler serial_isr gdev (Vga.v_mem v) t (v_irqs v) d;
  let '(m, t, irq, d) := r.2 in
  let k := mkK (k_vm (k_set_mem k m)) irq in
  let k := k_klog KLOG_LEVEL_INFO "starting up kernel" k in
  k ← kmain_memory fuel identity_p3 identity_p2 fault_handler map mb_magic mb_addr excluded k;
  let s := mkS (v_mem (k_vm k)) k main_proc main_proc 0 (v_log (k_vm k)) in
  r ← PCI_enum pci_devs pools pci_hdr (s_fs s) d;
  r ← FS_temp_dev_init lfuel fuel (s_from_fs s r.2.1) r.2.2;
  let s := s_klog KLOG_LEVEL_INFO "creating threads" r.1 in
  let d := r.2 in
  r ← PROC_create_process rq procs pools process_exit_addr str_keyboard_io keyboard_io NULL s;
  r ← PROC_create_process rq procs pools process_exit_addr str_filesystem filesystem_init NULL r.2;
  Ok (t, r.2, d).

(** Lines 51-54, one turn of the last loop: [main_proc] is switched away, or
    comes back from [PROC_run] and halts until the next interrupt (true). *)
Definition kmain_loop (c : cpu) (s : sched) (d : D) : outcome (bool * (cpu * sched * D)) :=
  r ← PROC_run main_proc rq c s d;
  Ok (match r with RunDone s => (true, (c, s, d)) | RunSwitched c s d => (false, (c, s, d)) end).
End Main.

(** The processor halts exactly when no process is ready; otherwise the first
    ready one runs. *)
Lemma kmain_loop_idle {D} `{PortIO D} main rq bq U s q bs ctx n c (d : D) :
  universe rq U → universe bq U → apart rq 24 bq 24 → main ∈ U →
  system main rq bq U s (mkA main q bs) ctx n → Z.of_nat n < 4294967295 → length (c_stack c) = 15%nat →
  ∃ c' s' ctx', kmain_loop main rq c s d = Ok (bool_decide (q = []), (c', s', d)) ∧
    system main rq bq U s' (match q with [] => mkA main [] bs | p :: q => mkA p q bs end) ctx' n.
Proof.
  intros HU HB Hqq Hm Sy Hn Hc. unfold kmain_loop.
  destruct (step_run main rq bq U HU HB Hqq Hm s (mkA main q bs) (match q with [] => mkA main q bs | p :: q => mkA p q bs end) ctx n c d Sy) as
    [(s' & E & Ea & Eq & Sy' & _)|(c' & s' & E & Hq & W)]; [cbn [a_step]; by rewrite decide_True|done|done| |]; rewrite E, bind_Ok; cbn [a_ready] in *.
  - subst q. rewrite bool_decide_true by done. by exists c, s', ctx.
  - rewrite bool_decide_false by done. destruct (stepped_cpu _ _ _ _ _ _ _ _ _ _ d _ W Hc) as (c2 & s2 & ctx' & [= -> ->] & Sy' & _).
    exists c2, s2, ctx'. split; [done|]. by destruct q.
Qed.

(** ** From the boot loader to a running MMU *)

(** What the boot information must say: RAM in disjoint sorted regions below a
    terabyte, and kernel sections that, sorted by address, round to one run of
    pages [E]; no region that starts inside [E] ends inside it. *)
Record sane_boot (ram : list MMapEntry) (ks : list KernelSection) (E : Segment) : Prop := {
  sb_ram : (0 < length ram < 32)%nat;
  sb_ram_ok : Forall ram_ok ram;
  sb_ram_low : Forall (fun r => ram_hi r ≤ 1099511627776) ram;
  sb_ram_sorted : StronglySorted ram_before ram;
  sb_ks : (0 < length ks ≤ 32)%nat;
  sb_ks_ok : Forall ks_fits ks;
  sb_one ks' : ks' ≡ₚ ks → StronglySorted ks_base_le ks' → excluded_of ks' = [E];
  sb_fits : seg_fits E;
  sb_not_inside : Forall (fun r => s_base E ≤ ram_lo r < s_end E → s_end E < ram_hi r) ram
}.

(** The pages the kernel may use: of RAM, not page zero, not the kernel's. *)
Definition free_page (ram : list MMapEntry) (E : Segment) (a : Z) : Prop :=
  a mod PAGE_SIZE = 0 ∧ PAGE_SIZE ≤ a ∧ ¬ (s_base E ≤ a < s_end E) ∧ Exists (fun r => ram_lo r ≤ a < ram_hi r) ram.

Lemma sane_boot_map dest m ram ks E :
  holds_ram dest m ram → holds_sections dest m ks → sane_boot ram ks E →
  boot_map_ok (boot_map m dest) E ∧ (∀ a, usable_page (boot_map m dest) E a ↔ free_page ram E a).
Proof.
  intros (R1 & R2 & _) (K1 & K2 & K3) [S1 S2 S3 S4 S5 S6 S7 S8 S9].
  split; [|by intros a; unfold usable_page, free_page; rewrite R1, R2].
  split; rewrite ?R1, ?R2, ?K1; try done.
  - cbn [boot_map ram_sects]. unfold elems. rewrite length_fmap, length_seq. lia.
  - unfold MAX_FREE_SEGMENTS. lia.
  - unfold MAX_EXCLUDE_SEGMENTS. lia.
  - by rewrite K3.
  - by apply S7.
Qed.

Lemma MMU_init_log fuel p3 p2 h map stack k k' :
  MMU_init fuel p3 p2 h map stack k = Ok (0, k') → v_log (k_vm k') = v_log (k_vm k).
Proof.
  unfold MMU_init. destruct (_ <? _)%nat; [done|].
  destruct (mmu_compute_excluded fuel map stack) as [ex| |]; [rewrite bind_Ok|done|done].
  destruct (mmu_compute_free_segments _ _ _ _) as [r| |]; [rewrite bind_Ok|done|done].
  destruct (MMU_alloc_frame _ _) as [f| |]; [rewrite bind_Ok|done|done]. destruct (f.1 =? NULL); [done|].
  destruct (PT_init _ _ _ _ _) as [p| |]; [rewrite bind_Ok|done|done]. by intros [= <-].
Qed.


Lemma demo_sane_boot : sane_boot [{| me_base := 0x100000; me_length := 0x1000000 |}]
  [{| ks_base := 0x100000; ks_length := 0x2000; ks_name := 0x100000 |}] (Segments.mkSeg 0x100000 0x102000 0x2000).
Proof.
  split.
  - cbn. lia.
  - constructor; [|constructor]. unfold ram_ok, PAGE_SIZE. cbn. repeat split; vm_compute; congruence.
  - constructor; [|constructor]. vm_compute. congruence.
  - repeat constructor.
  - cbn. lia.
  - constructor; [|constructor]. unfold ks_fits, PAGE_SIZE. cbn. lia.
  - intros ks' Hp%Permutation_singleton_r _. subst ks'. vm_compute. reflexivity.
  - unfold seg_fits. cbn. lia.
  - constructor; [|constructor]. cbn. vm_compute. done.
Qed.

