(* ===== verification/Report.v ===== *)
(** * Messages and listings (src/src/klog.h, proc.c, fs.c)

    The text behind [klog], and the functions that list processes and files on
    the console, all written with [printk] against the class [Console]. *)

From S2P Require Import Prelude Memory CString LinkedList Machine Irq Vga Serial Printk Sched Fs.

(** The characters of a literal. *)
Fixpoint chars (s : string) : list Z :=
  match s with EmptyString => [] | String a s => Z.of_nat (Ascii.nat_of_ascii a) :: chars s end.

Definition newline : list Z := [10].
Definition fmt_log_level : list Z := chars "log[%s]: ".
Definition fmt_name : list Z := chars "%s" ++ newline.
Definition fmt_proc : list Z := chars "  %p %s rip: %lx" ++ newline.
Definition fmt_ready : list Z := chars "Ready Queue:" ++ newline.

(** ** The code *)

(** The addresses of the literals. *)
Record literals := mkLits {
  l_dbg : Z; l_info : Z; l_notc : Z; l_warn : Z; l_err : Z; l_crit : Z; l_emrg : Z;
  l_log : Z; l_nl : Z; l_name : Z; l_proc : Z; l_ready : Z
}.

Section Code.
Context {C : Type} `{Hops : ConsoleOps C}.
Context (buf lit_0x : Z) (sfuel fuel : nat) (lits : literals).

Definition say (fmt : Z) (args : list Z) (c : C) : outcome C :=
  r ← printk buf lit_0x sfuel fuel fmt args c; Ok r.2.

(** The switch of [log_level]; by default [level_str] stays uninitialised. *)
Definition level_str (dbg_level : Z) : outcome Z :=
  if dbg_level =? KLOG_LEVEL_DEBUG then Ok (l_dbg lits)
  else if dbg_level =? KLOG_LEVEL_INFO then Ok (l_info lits)
  else if dbg_level =? KLOG_LEVEL_NOTICE then Ok (l_notc lits)
  else if dbg_level =? KLOG_LEVEL_WARN then Ok (l_warn lits)
  else if dbg_level =? KLOG_LEVEL_ERR then Ok (l_err lits)
  else if dbg_level =? KLOG_LEVEL_CRIT then Ok (l_crit lits)
  else if dbg_level =? KLOG_LEVEL_EMERG then Ok (l_emrg lits)
  else Fault.

Definition log_level (dbg_level : Z) (c : C) : outcome C :=
  s ← level_str dbg_level; say (l_log lits) [s] c.

(** The macro [klog]; Machine.v's [klog] keeps only what is logged. *)
Definition klog_print (level fmt : Z) (args : list Z) (c : C) : outcome C :=
  if KLOG_MIN_LOG_LEVEL <? level then
    c ← log_level level c;
    c ← say fmt args c;
    say (l_nl lits) [] c
  else Ok c.

(** [LL_for_each] with a body that prints; [curr] is the loop variable. *)
Fixpoint print_each (k : nat) (L : Z) (body : Z → C → outcome C) (curr : Z) (c : C) : outcome C :=
  match k with
  | O => Hang
  | S k =>
      if LL_nhead (con_mem c) L curr =? L then Ok c
      else
        c ← body curr c;
        print_each k L body (LL_ndata (con_mem c) L (nxt (con_mem c) (LL_nhead (con_mem c) L curr))) c
  end.

Definition print_all (k : nat) (L : Z) (body : Z → C → outcome C) (c : C) : outcome C :=
  print_each k L body (LL_ndata (con_mem c) L (nxt (con_mem c) L)) c.

Definition PROC_queue_dump (k : nat) (queue : Z) (c : C) : outcome C :=
  c ← print_all k queue (fun curr c =>
        say (l_proc lits) [curr; rd64 (con_mem c) (curr + off_name); rd64 (con_mem c) (curr + off_rip)] c) c;
  say (l_nl lits) [] c.

Definition PROC_ready_dump (k : nat) (ready_queue : Z) (c : C) : outcome C :=
  c ← say (l_ready lits) [] c;
  PROC_queue_dump k ready_queue c.

Definition PROC_dump_procs (k : nat) (procs : Z) (c : C) : outcome C :=
  c ← print_all k procs (fun curr c => say (l_name lits) [rd64 (con_mem c) (curr + off_name)] c) c;
  say (l_nl lits) [] c.

Definition FS_dump_files (k : nat) (files : Z) (c : C) : outcome C :=
  print_all k (f_inodes files) (fun curr c => say (l_name lits) [rd64 (con_mem c) (curr + off_inode_name)] c) c.
End Code.

(** ** What they print *)

Definition level_name (level : Z) : option (list Z) :=
  if level =? KLOG_LEVEL_DEBUG then Some (chars "dbg")
  else if level =? KLOG_LEVEL_INFO then Some (chars "info")
  else if level =? KLOG_LEVEL_NOTICE then Some (chars "notc")
  else if level =? KLOG_LEVEL_WARN then Some (chars "warn")
  else if level =? KLOG_LEVEL_ERR then Some (chars "err")
  else if level =? KLOG_LEVEL_CRIT then Some (chars "crit")
  else if level =? KLOG_LEVEL_EMERG then Some (chars "emrg")
  else None.

Definition name_line (s : list Z) : list Z := s ++ newline.
Definition proc_line (p rip : Z) (s : list Z) : list Z :=
  chars "  0x" ++ numeral 16 (hex_char 97) (u64 p) ++ chars " " ++ s ++ chars " rip: " ++
  numeral 16 (hex_char 97) (u64 rip) ++ newline.

(** The specification of a format, a piece at a time. *)
Lemma fmt_plain strs s f args o :
  37 ∉ s → fmt_spec strs f args = Some o → fmt_spec strs (s ++ f) args = Some (s ++ o).
Proof.
  intros Hs Ho. induction s as [|x s IH]; [done|]. apply not_elem_of_cons in Hs as [Hx Hs].
  cbn [app fmt_spec]. rewrite (proj2 (Z.eqb_neq x 37)) by congruence. cbn [negb]. by rewrite IH.
Qed.

Lemma fmt_s strs f a args s o :
  strs a = Some s → fmt_spec strs f args = Some o → fmt_spec strs (37 :: 115 :: f) (a :: args) = Some (s ++ o).
Proof. intros Hs Ho. change (mbind (fun s => mbind (fun o => Some (s ++ o)) (fmt_spec strs f args)) (strs a) = Some (s ++ o)). by rewrite Hs, Ho. Qed.

Lemma fmt_p strs f a args o :
  fmt_spec strs f args = Some o →
  fmt_spec strs (37 :: 112 :: f) (a :: args) = Some ([48; 120] ++ numeral 16 (hex_char 97) (u64 a) ++ o).
Proof.
  intros Ho. change (mbind (fun o => Some ([48; 120] ++ numeral 16 (hex_char 97) (u64 a) ++ o)) (fmt_spec strs f args) =
    Some ([48; 120] ++ numeral 16 (hex_char 97) (u64 a) ++ o)). by rewrite Ho.
Qed.

Lemma fmt_lx strs f a args o :
  fmt_spec strs f args = Some o →
  fmt_spec strs (37 :: 108 :: 120 :: f) (a :: args) = Some (numeral 16 (hex_char 97) (u64 a) ++ o).
Proof.
  intros Ho. change (mbind (fun o => Some (numeral 16 (hex_char 97) (u64 a) ++ o)) (fmt_spec strs f args) =
    Some (numeral 16 (hex_char 97) (u64 a) ++ o)). by rewrite Ho.
Qed.

Lemma fmt_text strs s : 37 ∉ s → fmt_spec strs s [] = Some s.
Proof. intros Hs. rewrite <- (app_nil_r s) at 1. rewrite (fmt_plain strs s [] [] []), app_nil_r; done. Qed.

Ltac no_char := apply (bool_decide_unpack _); vm_compute; exact I.

Lemma fmt_name_spec strs a s : strs a = Some s → fmt_spec strs fmt_name [a] = Some (name_line s).
Proof. intros Hs. apply (fmt_s strs newline a [] s newline Hs). apply fmt_text. no_char. Qed.

Lemma fmt_proc_spec strs p a rip s :
  strs a = Some s → fmt_spec strs fmt_proc [p; a; rip] = Some (proc_line p rip s).
Proof.
  intros Hs. apply (fmt_plain strs (chars "  ")); [no_char|]. apply (fmt_p strs). apply (fmt_plain strs (chars " ")); [no_char|].
  apply (fmt_s strs); [done|]. apply (fmt_plain strs (chars " rip: ")); [no_char|]. apply (fmt_lx strs). apply fmt_text. no_char.
Qed.

Lemma fmt_log_spec strs a s : strs a = Some s → fmt_spec strs fmt_log_level [a] = Some (chars "log[" ++ s ++ chars "]: ").
Proof.
  intros Hs. apply (fmt_plain strs (chars "log[")); [no_char|]. apply (fmt_s strs); [done|]. apply fmt_text. no_char.
Qed.

Lemma hex_numeral_13 d : 13 ∉ numeral 16 (hex_char 97) d.
Proof.
  unfold numeral. destruct (d =? 0); [by intros [=]%list_elem_of_singleton|].
  intros Hx. eapply (numeral_of_all 64 16 (hex_char 97) d (fun x => x ≠ 13)); [lia| |exact Hx|done].
  intros i Hi. apply (hex_char_ok 97 i); [by right|done].
Qed.

Section Correct.
Context {C : Type} `{Hops : ConsoleOps C} `{Hcon : !Console C}.
Context (buf lit_0x : Z) (sfuel fuel : nat) (lits : literals) (strs : Z → option (list Z)).
Hypothesis Hbuf : apart buf 65 con_buf.1 con_buf.2.

(** The format [f] lies at [a] where printing does not reach. *)
Definition literal (m : mem) (a : Z) (f : list Z) : Prop :=
  cstr m a f ∧ clear_of buf a (Z.of_nat (length f) + 1) ∧ (length f < fuel)%nat.

Record literals_ok (m : mem) : Prop := {
  lo_strings : strings_ok buf lit_0x sfuel strs m;
  lo_levels level s : level_name level = Some s → ∃ a, level_str lits level = Ok a ∧ strs a = Some s;
  lo_log : literal m (l_log lits) fmt_log_level;
  lo_nl : literal m (l_nl lits) newline;
  lo_name : literal m (l_name lits) fmt_name;
  lo_proc : literal m (l_proc lits) fmt_proc;
  lo_ready : literal m (l_ready lits) fmt_ready
}.

(** [t] is on the console, and memory is [m0] but for what printing writes. *)
Definition printed (m0 : mem) (c : C) (t : list Z) : Prop := con_rep c t ∧ framed buf m0 (con_mem c).

(** What a piece of code that prints [out] does to the console. *)
Definition prints (m0 : mem) (r : outcome C) (t out : list Z) : Prop := ∃ c', r = Ok c' ∧ printed m0 c' (t ++ out).

Lemma say_ok m0 fmt f args c t out :
  strings_ok buf lit_0x sfuel strs m0 → literal m0 fmt f → fmt_spec strs f args = Some out → printed m0 c t →
  13 ∉ out → Z.of_nat (length t + length out) < 4294967296 →
  prints m0 (say buf lit_0x sfuel fuel fmt args c) t out.
Proof using Hbuf.
  intros Hso (Hs & Hcl & Hf) Hsp [R F] H13 Hlen. unfold prints, say, printk.
  edestruct (printk_loop_ok buf lit_0x sfuel Hbuf strs fuel f fmt args c t out) as (c' & E & R' & F').
  - done.
  - by eapply strings_framed.
  - by eapply cstr_framed.
  - done.
  - done.
  - done.
  - done.
  - done.
  - rewrite E, !bind_Ok. exists c'. split; [done|]. split; [done|]. by eapply framed_trans.
Qed.

(** One after the other. *)
Lemma prints_bind m0 r k t o1 o2 :
  prints m0 r t o1 → (∀ c, printed m0 c (t ++ o1) → prints m0 (k c) (t ++ o1) o2) → prints m0 (c ← r; k c) t (o1 ++ o2).
Proof using.
  clear. intros (c1 & -> & P1) Hk. destruct (Hk c1 P1) as (c2 & E2 & P2). exists c2. rewrite bind_Ok. split; [done|].
  by rewrite app_assoc.
Qed.

Lemma framed_rd64 m0 m a n b : framed buf m0 m → clear_of buf a n → a ≤ b → b + 8 ≤ a + n → rd64 m b = rd64 m0 b.
Proof using.
  clear. intros Hf [H1 H2] Ha Hb. apply rd_le_ext. intros x Hx. cbn in Hx. unfold apart in *. apply Hf; lia.
Qed.

Lemma framed_list m0 m L off ds :
  framed buf m0 m → clear_of buf L 24 → (∀ d, d ∈ ds → clear_of buf (d + off) 16) → list_rep m0 L off ds → list_rep m L off ds.
Proof using.
  clear. intros Hf [H1 H2] Hd. unfold apart in *. apply list_rep_ext.
  - intros x Hx. apply Hf; lia.
  - intros d x Hin Hx. destruct (Hd d Hin) as [H3 H4]. unfold apart in *. apply Hf; lia.
Qed.

(** A loop over a list prints one line per element, in order. *)
Lemma print_each_ok m0 L off line body : clear_of buf L 24 → ∀ ys xs k c t,
  list_rep m0 L off (xs ++ ys) → (∀ d, d ∈ xs ++ ys → clear_of buf (d + off) 16) →
  (∀ d c t, d ∈ ys → printed m0 c t → Z.of_nat (length t + length (line d)) < 4294967296 → prints m0 (body d c) t (line d)) →
  (length ys < k)%nat → printed m0 c t → Z.of_nat (length t + length (concat (line <$> ys))) < 4294967296 →
  prints m0 (print_each k L body (LL_ndata (con_mem c) L (hd L (hdrs off ys))) c) t (concat (line <$> ys)).
Proof using.
  clear. intros HL. induction ys as [|d ys IH]; intros xs [|k] c t R Hcl Hb Hk P Hlen; cbn [length] in Hk; try lia.
  - pose proof (framed_list _ _ _ _ _ (proj2 P) HL Hcl R) as R1. cbn [hd fmap list_fmap print_each].
    rewrite (LL_cursor_end _ _ _ _ R1), Z.eqb_refl. exists c. split; [done|]. cbn. by rewrite app_nil_r.
  - assert (Hd : d ∈ xs ++ d :: ys) by (clear; set_solver).
    pose proof (framed_list _ _ _ _ _ (proj2 P) HL Hcl R) as R1.
    destruct (list_rep_valid _ _ _ _ _ R1 Hd) as [Hv Hd0].
    cbn [hd fmap list_fmap concat] in *. rewrite length_app in Hlen. cbn [print_each].
    rewrite (LL_ndata_rep _ _ _ _ _ R1 Hd0 Hv), (LL_nhead_rep _ _ _ _ _ R1 Hv).
    rewrite (proj2 (Z.eqb_neq _ _) (list_rep_ne _ _ _ _ _ R1 Hd)).
    apply prints_bind; [apply Hb; [left|done|lia]|]. intros c1 P1.
    pose proof (framed_list _ _ _ _ _ (proj2 P1) HL Hcl R) as R2.
    rewrite (LL_nhead_rep _ _ _ _ _ R2 Hv), (LL_cursor_next _ _ _ _ _ _ R2).
    apply (IH (xs ++ [d])); [by rewrite <- app_assoc|by rewrite <- app_assoc| |lia|done|rewrite length_app; lia].
    intros d' c' t' Hd'. apply Hb. by right.
Qed.

Lemma print_all_ok m0 L off line body k c t ds :
  list_rep m0 L off ds → clear_of buf L 24 → (∀ d, d ∈ ds → clear_of buf (d + off) 16) →
  (∀ d c t, d ∈ ds → printed m0 c t → Z.of_nat (length t + length (line d)) < 4294967296 → prints m0 (body d c) t (line d)) →
  (length ds < k)%nat → printed m0 c t → Z.of_nat (length t + length (concat (line <$> ds))) < 4294967296 →
  prints m0 (print_all k L body c) t (concat (line <$> ds)).
Proof using.
  clear. intros R HL Hcl Hb Hk P Hlen. unfold print_all.
  rewrite (list_rep_hd _ _ _ _ (framed_list _ _ _ _ _ (proj2 P) HL Hcl R)).
  pose proof (print_each_ok m0 L off line body HL ds [] k c t R Hcl Hb Hk P Hlen) as H. by destruct ds.
Qed.

Lemma level_unknown level : level_name level = None → level_str lits level = Fault.
Proof using. clear. unfold level_name, level_str. repeat (case_match; [done|]). done. Qed.

Lemma level_name_short level s : level_name level = Some s → (length s ≤ 4)%nat ∧ 13 ∉ s.
Proof using. clear. unfold level_name. intros H. repeat (case_match; [injection H as <-; split; [cbn; lia|no_char]|]). done. Qed.

(** C40: what [klog] prints.  At a level above the minimum, [klog] prints the
    level's name in brackets, the formatted message and a newline; at or below
    the minimum level it prints nothing; and a number that is no level makes
    it use an uninitialised pointer. *)
Theorem klog_prints (m0 : mem) (level fmt : Z) (f args : list Z) (c : C) (t out : list Z) :
  literals_ok m0 → literal m0 fmt f → fmt_spec strs f args = Some out → printed m0 c t → 13 ∉ out →
  Z.of_nat (length t + length out) + 12 < 4294967296 →
  if level <=? KLOG_MIN_LOG_LEVEL then klog_print buf lit_0x sfuel fuel lits level fmt args c = Ok c
  else match level_name level with
    | Some s => prints m0 (klog_print buf lit_0x sfuel fuel lits level fmt args c) t (chars "log[" ++ s ++ chars "]: " ++ out ++ newline)
    | None => klog_print buf lit_0x sfuel fuel lits level fmt args c = Fault
    end.
Proof using Hbuf.
  intros [Ls Ll Lo Ln _ _ _] Lf Hf P H13 Hlen. unfold klog_print.
  destruct (Z.leb_spec level KLOG_MIN_LOG_LEVEL) as [Hl|Hl]; [by rewrite (proj2 (Z.ltb_ge _ _)) by lia|].
  rewrite (proj2 (Z.ltb_lt _ _)) by lia. unfold log_level.
  destruct (level_name level) as [s|] eqn:El; [|by rewrite (level_unknown _ El)].
  destruct (Ll level s El) as (a & -> & Ha). rewrite bind_Ok. destruct (level_name_short level s El) as [Hs Hs13].
  replace (chars "log[" ++ s ++ chars "]: " ++ out ++ newline) with ((chars "log[" ++ s ++ chars "]: ") ++ out ++ newline)
    by (by rewrite <- !app_assoc).
  apply prints_bind; [|intros c1 P1; apply prints_bind; [|intros c2 P2]].
  - apply (say_ok m0 _ fmt_log_level); [done|done|by apply fmt_log_spec|done| |rewrite !length_app; cbn; lia].
    rewrite !elem_of_app. intros [H|[H|H]]; [revert H; no_char|done|revert H; no_char].
  - apply (say_ok m0 _ f); try done. rewrite !length_app. cbn. lia.
  - apply (say_ok m0 _ newline); [done|done|apply fmt_text; no_char|done|no_char|rewrite !length_app; cbn; lia].
Qed.

(** Where the elements of a list, of [size] bytes and with a name at [off],
    must be for their names to be printed. *)
Definition nameable (m0 : mem) (size off : Z) (nm : Z → list Z) (ds : list Z) : Prop :=
  ∀ d, d ∈ ds → clear_of buf d size ∧ strs (rd64 m0 (d + off)) = Some (nm d) ∧ 13 ∉ nm d.

Lemma clear_of_sub a n b k : clear_of buf a n → a ≤ b → b + k ≤ a + n → clear_of buf b k.
Proof using. clear. unfold clear_of, apart. lia. Qed.

Lemma name_lines_ok m0 L loff size off nm ds k c t :
  literals_ok m0 → list_rep m0 L loff ds → clear_of buf L 24 → nameable m0 size off nm ds →
  0 ≤ loff → loff + 16 ≤ size → 0 ≤ off → off + 8 ≤ size → (length ds < k)%nat → printed m0 c t →
  Z.of_nat (length t + length (concat (name_line ∘ nm <$> ds))) < 4294967296 →
  prints m0 (print_all k L (fun curr c => say buf lit_0x sfuel fuel (l_name lits) [rd64 (con_mem c) (curr + off)] c) c) t
    (concat (name_line ∘ nm <$> ds)).
Proof using Hbuf.
  intros Lo R HL Hn H1 H2 H3 H4 Hk P Hlen. apply (print_all_ok m0 L loff); try done.
  - intros d Hd. destruct (Hn d Hd) as [Hc _]. eapply clear_of_sub; [exact Hc|lia|lia].
  - intros d c1 t1 Hd P1 Hl. destruct (Hn d Hd) as (Hc & Hs & H13).
    rewrite (framed_rd64 _ _ _ _ (d + off) (proj2 P1) Hc) by lia.
    apply (say_ok m0 _ fmt_name); [apply Lo|apply Lo|by apply fmt_name_spec|done| |done].
    unfold compose, name_line. rewrite elem_of_app. intros [?|H]; [done|]. revert H. no_char.
Qed.

Lemma proc_line_13 p rip s : 13 ∉ s → 13 ∉ proc_line p rip s.
Proof using.
  clear. intros Hs. unfold proc_line. rewrite !elem_of_app.
  intros [H|[H|[H|[H|[H|[H|H]]]]]]; try (by apply hex_numeral_13 in H); try done; revert H; no_char.
Qed.

Lemma PROC_queue_dump_ok m0 q nm ps k c t :
  literals_ok m0 → list_rep m0 q off_queue ps → clear_of buf q 24 → nameable m0 sizeof_Process off_name nm ps →
  (length ps < k)%nat → printed m0 c t →
  let out := concat ((fun p => proc_line p (rd64 m0 (p + off_rip)) (nm p)) <$> ps) in
  Z.of_nat (length t + length out) + 1 < 4294967296 →
  prints m0 (PROC_queue_dump buf lit_0x sfuel fuel lits k q c) t (out ++ newline).
Proof using Hbuf.
  intros Lo R HL Hn Hk P out Hlen. unfold PROC_queue_dump.
  apply prints_bind; [|intros c1 P1; apply (say_ok m0 _ newline); [apply Lo|apply Lo|apply fmt_text; no_char|done|no_char|rewrite length_app; cbn; lia]].
  apply (print_all_ok m0 q off_queue); try done; [|intros d c1 t1 Hd P1 Hl|unfold out in Hlen; lia].
  - intros d Hd. destruct (Hn d Hd) as [Hc _]. eapply clear_of_sub; [exact Hc|unfold off_queue; lia|unfold off_queue, sizeof_Process; lia].
  - destruct (Hn d Hd) as (Hc & Hs & H13).
    rewrite (framed_rd64 _ _ _ _ (d + off_name) (proj2 P1) Hc), (framed_rd64 _ _ _ _ (d + off_rip) (proj2 P1) Hc)
      by (unfold off_name, off_rip, sizeof_Process; lia).
    apply (say_ok m0 _ fmt_proc); [apply Lo|apply Lo|by apply fmt_proc_spec|done|by apply proc_line_13|done].
Qed.

(** The process listings.  [PROC_ready_dump] prints a heading and then, for
    each process of the ready queue in order, its address, its name and where
    it will resume; [PROC_dump_procs] prints the names of all processes.  Both
    end, and leave memory as it was but for the display. *)
Theorem process_listings (m0 : mem) (rq procs : Z) (nm : Z → list Z) (ps all : list Z) (k : nat) (c : C) (t : list Z) :
  literals_ok m0 → list_rep m0 rq off_queue ps → list_rep m0 procs off_procs all →
  clear_of buf rq 24 → clear_of buf procs 24 → nameable m0 sizeof_Process off_name nm (ps ++ all) →
  (length ps < k)%nat → (length all < k)%nat → printed m0 c t →
  let lines := concat ((fun p => proc_line p (rd64 m0 (p + off_rip)) (nm p)) <$> ps) in
  let names := concat (name_line ∘ nm <$> all) in
  Z.of_nat (length t + length lines) + 14 < 4294967296 → Z.of_nat (length t + length names) + 1 < 4294967296 →
  prints m0 (PROC_ready_dump buf lit_0x sfuel fuel lits k rq c) t (fmt_ready ++ lines ++ newline) ∧
  prints m0 (PROC_dump_procs buf lit_0x sfuel fuel lits k procs c) t (names ++ newline).
Proof using Hbuf.
  intros Lo R1 R2 HL1 HL2 Hn Hk1 Hk2 P lines names Hl1 Hl2. split.
  - unfold PROC_ready_dump. apply prints_bind; [|intros c1 P1; apply (PROC_queue_dump_ok m0 rq nm ps); try done].
    + apply (say_ok m0 _ fmt_ready); [apply Lo|apply Lo|apply fmt_text; no_char|done|no_char|cbn; lia].
    + intros d Hd. apply Hn, elem_of_app. by left.
    + rewrite length_app. change (length fmt_ready) with 13%nat. unfold lines in Hl1. lia.
  - unfold PROC_dump_procs. apply prints_bind; [|intros c1 P1; apply (say_ok m0 _ newline); [apply Lo|apply Lo|apply fmt_text; no_char|done|no_char|rewrite length_app; cbn; lia]].
    apply (name_lines_ok m0 procs off_procs sizeof_Process off_name nm all); try done; try (unfold off_procs, off_name, sizeof_Process; lia); [|unfold names in Hl2; lia].
    intros d Hd. apply Hn, elem_of_app. by right.
Qed.

(** [FS_dump_files] prints the names of the registered files. *)
Lemma FS_dump_files_ok m0 files nm ds k c t :
  literals_ok m0 → list_rep m0 (f_inodes files) off_inode_list ds → clear_of buf (f_inodes files) 24 →
  nameable m0 sizeof_INode off_inode_name nm ds → (length ds < k)%nat → printed m0 c t →
  Z.of_nat (length t + length (concat (name_line ∘ nm <$> ds))) < 4294967296 →
  prints m0 (FS_dump_files buf lit_0x sfuel fuel lits k files c) t (concat (name_line ∘ nm <$> ds)).
Proof using Hbuf.
  intros Lo R HL Hn Hk P Hl. unfold FS_dump_files.
  apply (name_lines_ok m0 _ off_inode_list sizeof_INode off_inode_name nm ds); try done;
    unfold off_inode_list, off_inode_name, sizeof_INode; lia.
Qed.
End Correct.

(** ** Example: one process named "ata" on the ready queue at 0x100 and on the
    list of processes at 0x200 *)

Definition poke (m : mem) (a : Z) (s : list Z) : mem :=
  fst (fold_left (fun r x => (wr8 r.1 r.2 x, r.2 + 1)) (s ++ [0]) (m, a)).

Definition demo_lits : literals :=
  mkLits 0x1100 0x1110 0x1120 0x1130 0x1140 0x1150 0x1160 0x1200 0x1220 0x1240 0x1260 0x1280.

Definition demo_table : list (Z * list Z) :=
  [(0x1000, chars "0x"); (0x1100, chars "dbg"); (0x1110, chars "info"); (0x1120, chars "notc"); (0x1130, chars "warn");
   (0x1140, chars "err"); (0x1150, chars "crit"); (0x1160, chars "emrg"); (0x1300, demo_ata)].

Definition demo_formats : list (Z * list Z) :=
  [(0x1200, fmt_log_level); (0x1220, newline); (0x1240, fmt_name); (0x1260, fmt_proc); (0x1280, fmt_ready)].

Definition demo_words (a : Z) : option (list Z) := r ← list_find (fun e => e.1 = a) demo_table; Some r.2.2.

Definition demo_report_mem : mem :=
  let m := fold_left (fun m e => poke m e.1 e.2) (demo_table ++ demo_formats) ∅ in
  let m := wr64 (wr64 m (0x2000 + off_name) 0x1300) (0x2000 + off_rip) 0x401000 in
  let m := LL_enqueue (LL_init m 0x100 off_queue) 0x100 0x2000 in
  LL_enqueue (LL_init m 0x200 off_procs) 0x200 0x2000.

Definition demo_terminal : console (D := scripted) :=
  mkCon (VGA_clear (mkVga 0 0 demo_report_mem (mkIrqs [] 0 true []))) None (mkDev [] []).

#[local] Instance demo_terminal_ok : Console (console (D := scripted)) := display_console (mkDev [] []) 0 [] demo_n.

Lemma demo_terminal_rd8 x : x < X86_VGA_ADDR → rd8 (con_mem demo_terminal) x = rd8 demo_report_mem x.
Proof.
  intros Hx. cbn [con_mem display_ops k_vga demo_terminal VGA_clear v_mem].
  rewrite memset_rd8 by (vm_compute; congruence). by rewrite decide_False by lia.
Qed.

Lemma demo_terminal_cstr a s : cstr demo_report_mem a s → a + Z.of_nat (length s) < X86_VGA_ADDR → cstr (con_mem demo_terminal) a s.
Proof. intros Hs Ha. eapply cstr_ext; [|exact Hs]. intros b Hb. symmetry. apply demo_terminal_rd8. lia. Qed.

Lemma demo_clear a n : a + n ≤ 0x3000 → clear_of 0x3000 a n.
Proof. intros Ha. unfold clear_of, apart. cbn [con_buf demo_terminal_ok display_console fst snd]. unfold X86_VGA_ADDR. lia. Qed.

Lemma demo_literal a f : cstr demo_report_mem a f → a + Z.of_nat (length f) < 0x2000 → (length f < 20)%nat → literal 0x3000 20 (con_mem demo_terminal) a f.
Proof. intros Hs Ha Hf. split; [apply demo_terminal_cstr; [done|unfold X86_VGA_ADDR; lia]|]. split; [apply demo_clear; lia|done]. Qed.

Lemma demo_literals_ok : literals_ok 0x3000 0x1000 9 20 demo_lits demo_words (con_mem demo_terminal).
Proof.
  split; try (apply demo_literal; [by vm_compute|by vm_compute|cbn; lia]).
  - split; [|done]. intros a s Hs. unfold demo_words in Hs.
    destruct (list_find (fun e => e.1 = a) demo_table) as [[i e]|] eqn:E; [|done]. injection Hs as <-. cbn [snd].
    apply list_find_Some in E as (E & <- & _). assert (Hin : Forall (fun e => cstr demo_report_mem e.1 e.2 ∧
      e.1 + Z.of_nat (length e.2) < 0x2000 ∧ (length e.2 < 9)%nat) demo_table) by (repeat constructor; by vm_compute).
    rewrite Forall_lookup in Hin. destruct (Hin _ _ E) as (H1 & H2 & H3).
    split; [apply demo_terminal_cstr; [done|unfold X86_VGA_ADDR; lia]|]. split; [apply demo_clear; lia|done].
  - intros level s. unfold level_name, level_str. intros H.
    repeat (case_match; [injection H as <-; eexists; split; [done|by vm_compute]|]). done.
Qed.

Lemma demo_printed : printed 0x3000 (con_mem demo_terminal) demo_terminal [].
Proof. split; [|by intros x _ _]. split; [apply VGA_clear_rep|done|by split|done|done]. Qed.

Lemma klog_prints_witness :
  prints 0x3000 (con_mem demo_terminal) (klog_print 0x3000 0x1000 9 20 demo_lits KLOG_LEVEL_WARN 0x1240 [0x1300] demo_terminal) []
    (chars "log[warn]: ata" ++ newline ++ newline).
Proof.
  refine (klog_prints 0x3000 0x1000 9 20 demo_lits demo_words _ (con_mem demo_terminal) KLOG_LEVEL_WARN 0x1240 fmt_name [0x1300] demo_terminal []
    (name_line demo_ata) demo_literals_ok _ _ demo_printed _ _).
  - unfold apart. vm_compute. left. congruence.
  - apply demo_literals_ok.
  - by apply fmt_name_spec.
  - no_char.
  - cbn. lia.
Defined.

Lemma demo_one_list L off : (L, off) = (0x100, off_queue) ∨ (L, off) = (0x200, off_procs) → list_rep (con_mem demo_terminal) L off [0x2000].
Proof.
  intros HL. apply (list_rep_ext demo_report_mem).
  - intros x Hx. apply demo_terminal_rd8. unfold X86_VGA_ADDR. destruct HL as [[= -> ->]|[= -> ->]]; lia.
  - intros d x ->%list_elem_of_singleton Hx. apply demo_terminal_rd8. unfold X86_VGA_ADDR, off_queue, off_procs in *.
    destruct HL as [[= -> ->]|[= -> ->]]; lia.
  - destruct HL as [[= -> ->]|[= -> ->]]; (split; [by vm_compute|unfold off_queue, off_procs; lia|by repeat constructor|
      constructor; [right; vm_compute; congruence|constructor]|]); (split; [by vm_compute| |repeat constructor; by vm_compute]);
      (split; [apply (bool_decide_unpack _); vm_compute; exact I|]); intros x y; cbn [fmap list_fmap];
      rewrite !elem_of_cons, !elem_of_nil; unfold sep16, apart, off_queue, off_procs; lia.
Qed.

Lemma process_listings_witness :
  prints 0x3000 (con_mem demo_terminal) (PROC_ready_dump 0x3000 0x1000 9 20 demo_lits 2 0x100 demo_terminal) []
    (chars "Ready Queue:" ++ newline ++ chars "  0x2000 ata rip: 401000" ++ newline ++ newline) ∧
  prints 0x3000 (con_mem demo_terminal) (PROC_dump_procs 0x3000 0x1000 9 20 demo_lits 2 0x200 demo_terminal) []
    (chars "ata" ++ newline ++ newline).
Proof.
  assert (Hw : ∀ a, a + 8 ≤ X86_VGA_ADDR → rd64 (con_mem demo_terminal) a = rd64 demo_report_mem a).
  { intros a Ha. apply rd_le_ext. intros x Hx. apply demo_terminal_rd8. cbn in Hx. lia. }
  assert (Hr : rd64 (con_mem demo_terminal) (0x2000 + off_rip) = 0x401000) by (rewrite Hw; by vm_compute).
  assert (Hn : nameable 0x3000 demo_words (con_mem demo_terminal) sizeof_Process off_name (fun _ => demo_ata) ([0x2000] ++ [0x2000])).
  { intros d Hd. assert (d = 0x2000) as -> by (cbn [app] in Hd; rewrite !elem_of_cons, elem_of_nil in Hd; lia).
    split; [by apply demo_clear|]. split; [|no_char]. rewrite Hw by by vm_compute. by vm_compute. }
  pose proof (process_listings 0x3000 0x1000 9 20 demo_lits demo_words ltac:(left; vm_compute; congruence) (con_mem demo_terminal) 0x100 0x200
    (fun _ => demo_ata) [0x2000] [0x2000] 2 demo_terminal [] demo_literals_ok (demo_one_list _ _ (or_introl eq_refl))
    (demo_one_list _ _ (or_intror eq_refl)) ltac:(by apply demo_clear) ltac:(by apply demo_clear) Hn ltac:(cbn; lia) ltac:(cbn; lia) demo_printed) as H.
  cbn [fmap list_fmap concat] in H. rewrite Hr in H. apply H; by vm_compute.
Defined.
