(* ===== verification/Disk.v ===== *)
(** * Reading from the disk, end to end (src/src/drivers/disk/ata.c, proc.c)

    Several processes call [ata_read_block]; each sleeps on the disk's queue
    until the interrupt handler wakes it.  The driver's two halves, its handler
    and the scheduler together give every reader the block it asked for. *)

From S2P Require Import Prelude Memory CString LinkedList Segments Frames Machine Irq Paging Mmu Kmalloc Objects Sched Blocking Fs Pci Ata.

(** What the interrupt handler relies on of the drive beside [AtaDrive]: reading
    the status register only acknowledges the interrupt, and the error bit is
    clear while a block waits to be read. *)
Class AtaInterrupt (D : Type) `{PortIO D} (base cntl : Z) `{!AtaDrive D base cntl} := {
  drive_ack d : words (inb (base + STATUS_REG_OFF) d).2 = words d ∧ disk (inb (base + STATUS_REG_OFF) d).2 = disk d;
  drive_no_error d : words d ≠ [] → truth (Z.land (inb cntl d).1 ATA_SR_ERR) = false
}.

(** ** Operations *)

(** The running process computes, calls [ata_read_block], comes back from it,
    or yields; the drive finishes a command and interrupts; [main_proc] calls
    [PROC_run]. *)
Inductive dop :=
| DCompute (f : mem → mem)
| DRead (req lba : Z)
| DReady
| DFinish (dst : Z)
| DYield
| DRun.

(** A completed read: who read, what [ata_read_block] returned, the buffer. *)
Definition done_read : Type := Z * Z * list Z.

Section Disk.
Context {D : Type} `{Hport : PortIO D} (base cntl : Z) `{Hdrive : !AtaDrive D base cntl} `{Hint : !AtaInterrupt D base cntl}.
Context (main rq ata : Z) (U : list Z).

Definition d_step (fuel : nat) (o : dop) (c : cpu) (s : sched) (d : D) : outcome (list done_read * (cpu * sched * D)) :=
  match o with
  | DCompute f => Ok ([], (c, s_set_mem s (f (s_mem s)), d))
  | DRead req lba => r ← ata_read_begin main rq ata lba req c s d; Ok ([], r)
  | DReady => let '(s, d) := ata_isr rq ata s (drive_step d) in Ok ([], (c, s, d))
  | DFinish dst =>
      r ← ata_read_finish fuel ata dst s d;
      Ok ([(curr_proc s, r.1, block_at (s_mem r.2.1) dst)], (c, r.2.1, r.2.2))
  | DYield => r ← yield_trap main rq c s d; Ok ([], r)
  | DRun => r ← PROC_run main rq c s d; Ok ([], match r with RunDone s => (c, s, d) | RunSwitched c s d => (c, s, d) end)
  end.

Fixpoint d_run (fuel : nat) (ops : list dop) (c : cpu) (s : sched) (d : D) : outcome (list done_read) :=
  match ops with
  | [] => Ok []
  | o :: ops =>
      r ← d_step fuel o c s d;
      let '(c, s, d) := r.2 in
      rest ← d_run fuel ops c s d; Ok (r.1 ++ rest)
  end.

(** ** The specification *)

(** Who runs, is ready or sleeps; who has asked for which block, with the
    request's address; and whether the drive has answered the first request. *)
Record disk_sys := mkDS { ds_a : asched; ds_reqs : list (Z * (Z * Z)); ds_ready : bool }.

Definition a_wake_head (a : asched) : asched :=
  match a_blocked a with [] => a | b :: bs => mkA (a_cur a) (a_ready a ++ [b]) bs end.

(** The bytes of the driver: the ports, the list of requests, the requests. *)
Definition ata_bytes (q : list (Z * Z)) (x : Z) : Prop :=
  ata + off_base ≤ x < ata + off_base + 8 ∨ ata + off_requests ≤ x < ata + off_requests + 24 ∨ ∃ p, p ∈ q ∧ p.1 ≤ x < p.1 + 32.

#[local] Abbreviation bq := (ata + off_blocked).

Inductive dstep (dk : Z → list Z) : disk_sys → dop → list done_read → disk_sys → Prop :=
| dstep_compute a rs b f :
    (∀ m x, guarded rq bq U x ∨ ata_bytes rs.*2 x → rd8 (f m) x = rd8 m x) →
    dstep dk (mkDS a rs b) (DCompute f) [] (mkDS a rs b)
| dstep_read a rs b req lba a' :
    a_step main SBlock a = Some a' → a_cur a ∉ rs.*1 → req_ok ata req rs.*2 → 0 ≤ lba < 281474976710656 →
    (∀ x, req ≤ x < req + 32 → ¬ guarded rq bq U x) →
    dstep dk (mkDS a rs b) (DRead req lba) [] (mkDS a' (rs ++ [(a_cur a, (req, lba))]) b)
| dstep_ready a rs :
    rs ≠ [] → dstep dk (mkDS a rs false) DReady [] (mkDS (a_wake_head a) rs true)
| dstep_finish a rs b req lba dst :
    (a_cur a, (req, lba)) ∈ rs → apart dst 512 ata sizeof_ATADevice → Forall (fun p => apart dst 512 p.1 32) rs.*2 →
    (∀ x, dst ≤ x < dst + 512 → ¬ guarded rq bq U x) →
    dstep dk (mkDS a rs b) (DFinish dst) [(a_cur a, 0, dk lba)] (mkDS a (filter (fun r => r.1 ≠ a_cur a) rs) false)
| dstep_yield a rs b a' : a_step main SYield a = Some a' → dstep dk (mkDS a rs b) DYield [] (mkDS a' rs b)
| dstep_run a rs b a' : a_step main SRun a = Some a' → dstep dk (mkDS a rs b) DRun [] (mkDS a' rs b).

Inductive dsteps (dk : Z → list Z) : disk_sys → list dop → list done_read → disk_sys → Prop :=
| dsteps_nil S : dsteps dk S [] [] S
| dsteps_cons S o out S' ops outs S'' : dstep dk S o out S' → dsteps dk S' ops outs S'' → dsteps dk S (o :: ops) (out ++ outs) S''.

(** ** Correctness *)

Hypothesis HU : universe rq U.
Hypothesis HB : universe bq U.
Hypothesis Hqq : apart rq 24 bq 24.
Hypothesis Hmain : main ∈ U.
(** The device does not overlap the scheduler's own memory, its queue apart. *)
Hypothesis Hata : ∀ x, ata ≤ x < ata + sizeof_ATADevice → ¬ (ata + off_blocked ≤ x < ata + off_blocked + 24) → ¬ guarded rq bq U x.

(** The sleepers are the owners of the requests, in order, except that the
    first one is awake once the drive has answered. *)
Definition sleepers (a : asched) (rs : list (Z * (Z * Z))) (b : bool) : Prop :=
  if b then ∃ h t, rs = h :: t ∧ a_blocked a = t.*1 ∧ h.1 ∈ a_cur a :: a_ready a else a_blocked a = rs.*1.

Record disk_state (s : sched) (d : D) (S : disk_sys) (ctx : Z → cpu) (n : nat) : Prop := {
  dst_sys : system main rq bq U s (ds_a S) ctx n;
  dst_mem : ata_mem base cntl ata (s_mem s) (ds_reqs S).*2;
  dst_owners : NoDup (ds_reqs S).*1 ∧ main ∉ (ds_reqs S).*1;
  dst_apart x : (∃ p, p ∈ (ds_reqs S).*2 ∧ p.1 ≤ x < p.1 + 32) → ¬ guarded rq bq U x;
  dst_sleep : sleepers (ds_a S) (ds_reqs S) (ds_ready S);
  dst_drive : match (ds_reqs S).*2 with
              | [] => True
              | p :: _ => if ds_ready S then words d = disk d p.2 else command d = Some p.2
              end
}.

Lemma ata_mem_ext m m' q : (∀ x, ata_bytes q x → rd8 m' x = rd8 m x) → ata_mem base cntl ata m q → ata_mem base cntl ata m' q.
Proof using.
  clear. intros Hm [I1 I2 I3 I4 I5]. destruct (base_ext ata m m') as [B1 B2]; [intros x Hx; apply Hm; by left|].
  split; [by rewrite B1|by rewrite B2| | |done].
  - eapply list_rep_ext; [| |exact I3].
    + intros x Hx. apply Hm. right. by left.
    + intros p x (r & -> & Hr)%list_elem_of_fmap Hx. apply Hm. right. right. exists r. split; [done|lia].
  - rewrite Forall_forall in *. intros p Hp. destruct (I4 p Hp) as (J1 & J2 & J3). split; [|done]. rewrite <- J1.
    apply rd_le_ext. intros x Hx. apply Hm. right. right. exists p. split; [done|]. unfold off_req_lba in Hx. cbn in Hx. lia.
Qed.

(** What the scheduler writes the driver does not see, and conversely. *)
Lemma bytes_unguarded q x : (∀ x, (∃ p, p ∈ q ∧ p.1 ≤ x < p.1 + 32) → ¬ guarded rq bq U x) → ata_bytes q x → ¬ guarded rq bq U x.
Proof using Hata.
  clear - Hata. intros Hq [Hx|[Hx|Hx]]; [apply Hata|apply Hata|by apply Hq]; unfold off_base, off_requests, off_blocked, sizeof_ATADevice in *; lia.
Qed.

Lemma sched_keeps_ata s s' q : (∀ x, (∃ p, p ∈ q ∧ p.1 ≤ x < p.1 + 32) → ¬ guarded rq bq U x) →
  sched_frame rq bq U s s' → ata_mem base cntl ata (s_mem s) q → ata_mem base cntl ata (s_mem s') q.
Proof using Hata. clear - Hata. intros Hq [F _]. apply ata_mem_ext. intros x Hx. by apply F, (bytes_unguarded q). Qed.

Lemma links_unguarded q x : (∀ x, (∃ p, p ∈ q ∧ p.1 ≤ x < p.1 + 32) → ¬ guarded rq bq U x) → ata_links ata q x → ¬ guarded rq bq U x.
Proof using Hata.
  clear - Hata. intros Hq [Hx|Hx]; [|by apply Hq]. apply Hata; unfold off_requests, off_blocked, sizeof_ATADevice in *; lia.
Qed.

Lemma sleepers_sched o a a' rs b :
  o = SYield ∨ o = SRun → a_step main o a = Some a' → main ∉ rs.*1 → sleepers a rs b → sleepers a' rs b.
Proof using.
  clear. destruct a as [cur q bs]. intros Ho Ha Hm Hs.
  assert (K : a_blocked a' = bs ∧ ∀ x, x ≠ main → x ∈ cur :: q → x ∈ a_cur a' :: a_ready a').
  { destruct Ho as [-> | ->]; cbn [a_step] in Ha; destruct (decide (cur = main)) as [E|]; try done; injection Ha as <-; destruct q as [|p q]; try by split.
    - split; [done|]. intros x _. cbn [a_cur a_ready]. rewrite !elem_of_cons, elem_of_app, list_elem_of_singleton. tauto.
    - split; [done|]. intros x Hx. cbn [a_cur a_ready]. rewrite !elem_of_cons. intros [?|?]; [congruence|done]. }
  destruct K as [K1 K2]. unfold sleepers in *. destruct b; [|by rewrite K1].
  destruct Hs as (h & t & -> & H1 & H2). exists h, t. split; [done|]. split; [by rewrite K1|]. apply K2; [|done].
  intros <-. apply Hm. left.
Qed.

Lemma sleepers_read a a' rs b x :
  a_step main SBlock a = Some a' → a_cur a ∉ rs.*1 → sleepers a rs b → sleepers a' (rs ++ [(a_cur a, x)]) b.
Proof using.
  clear. destruct a as [cur q bs]. cbn [a_step a_cur]. destruct (decide (cur = main)) as [|Hc]; [done|]. intros [= <-] Hni Hs.
  unfold sleepers in *. cbn [a_cur a_ready a_blocked] in Hs. destruct b.
  - destruct Hs as (h & t & -> & -> & Hh). exists h, (t ++ [(cur, x)]). split; [done|]. rewrite fmap_app.
    apply elem_of_cons in Hh as [Hh|Hh]; [destruct Hni; rewrite <- Hh; left|]. by destruct q as [|p q]; [apply elem_of_nil in Hh|].
  - rewrite fmap_app, <- Hs. by destruct q.
Qed.

(** Who comes back from [ata_read_block] owns the first request, which the
    drive has answered. *)
Lemma sleepers_finish a rs b x :
  (a_cur a, x) ∈ rs → NoDup rs.*1 → a_cur a ∉ a_blocked a → sleepers a rs b →
  b = true ∧ ∃ t, rs = (a_cur a, x) :: t ∧ filter (fun r => r.1 ≠ a_cur a) rs = t ∧ a_blocked a = t.*1.
Proof using.
  clear. intros Hin Nd Hnb Hs. assert (Hown : a_cur a ∈ rs.*1) by (apply list_elem_of_fmap; by exists (a_cur a, x)).
  unfold sleepers in Hs. destruct b; [|by rewrite Hs in Hnb]. split; [done|].
  destruct Hs as (h & t & -> & H1 & _). cbn [fmap list_fmap] in *. apply NoDup_cons in Nd as [Nh Nt].
  apply elem_of_cons in Hin as [<-|Hin]; [|destruct Hnb; rewrite H1; apply list_elem_of_fmap; by exists (a_cur a, x)].
  exists t. split; [done|]. split; [|done]. rewrite filter_cons_False by (cbn; tauto).
  assert (Ht : Forall (fun r => r.1 ≠ a_cur a) t).
  { apply Forall_forall. intros r Hr Er. apply Nh, list_elem_of_fmap. by exists r. }
  clear - Ht. induction Ht as [|r t Hr _ IH]; [done|]. by rewrite filter_cons_True, IH.
Qed.

(** ** One operation *)

Definition d_ok (fuel : nat) (o : dop) (c : cpu) (s : sched) (d : D) (out : list done_read) (S' : disk_sys) (n : nat) : Prop :=
  ∃ c' s' d' ctx', d_step fuel o c s d = Ok (out, (c', s', d')) ∧ disk_state s' d' S' ctx' n ∧ disk d' = disk d ∧
    length (c_stack c') = 15%nat.

(** The scheduler's own operations. *)
Lemma sched_step_ok s s' d a a' rs b ctx ctx' n o :
  disk_state s d (mkDS a rs b) ctx n → o = SYield ∨ o = SRun → a_step main o a = Some a' →
  system main rq bq U s' a' ctx' n → sched_frame rq bq U s s' → disk_state s' d (mkDS a' rs b) ctx' n.
Proof using Hata.
  clear - Hata. intros [Sy Im Ow Ap Sl Dr] Ho Ha Sy' F. cbn [ds_a ds_reqs ds_ready] in *. split; try done; cbn [ds_a ds_reqs ds_ready].
  - by eapply sched_keeps_ata.
  - eapply sleepers_sched; [exact Ho|exact Ha|apply Ow|exact Sl].
Qed.

Lemma read_step s d a rs b ctx n req lba a' c fuel :
  disk_state s d (mkDS a rs b) ctx n → a_step main SBlock a = Some a' → a_cur a ∉ rs.*1 → req_ok ata req rs.*2 →
  0 ≤ lba < 281474976710656 → (∀ x, req ≤ x < req + 32 → ¬ guarded rq bq U x) → Z.of_nat n < 4294967295 → length (c_stack c) = 15%nat →
  d_ok fuel (DRead req lba) c s d [] (mkDS a' (rs ++ [(a_cur a, (req, lba))]) b) n.
Proof using HU HB Hqq Hmain Hata.
  intros [Sy Im [Nd Nm] Ap Sl Dr] Ha Hni Hr Hl Hg Hn Hc. cbn [ds_a ds_reqs ds_ready] in *. unfold d_ok. cbn [d_step]. unfold ata_read_begin.
  destruct (ata_submit_mem base cntl ata req lba s d rs.*2 Im Hr Hl) as (m' & E & Im' & F). rewrite E.
  set (d' := if bool_decide (rs.*2.*1 = []) then ata_issue base lba d else d).
  assert (Ap' : ∀ x, (∃ p, p ∈ rs.*2 ++ [(req, lba)] ∧ p.1 ≤ x < p.1 + 32) → ¬ guarded rq bq U x).
  { intros x (p & [Hp| ->%list_elem_of_singleton]%elem_of_app & Hx); [apply Ap; by exists p|by apply Hg]. }
  assert (Sy1 : system main rq bq U (s_set_mem s m') a ctx n).
  { apply (system_stable main rq bq U Hmain); [|done]. intros x Hx. apply F. intros Hx'. by apply (links_unguarded _ x Ap' Hx'). }
  destruct (stepped_cpu _ _ _ _ _ _ _ _ _ _ d' _ (step_block main rq bq U HU HB Hqq Hmain (s_set_mem s m') a a' ctx n c d' Sy1 Ha Hn Hc) Hc)
    as (c' & s' & ctx' & E' & Sy' & F' & Hc'). change (s_set_mem (s_on_irq IRQ_disable s) m') with (s_on_irq IRQ_disable (s_set_mem s m')).
  rewrite E', bind_Ok. exists c', s', d', ctx'. split; [done|].
  assert (Hd : disk d' = disk d ∧ match (rs ++ [(a_cur a, (req, lba))]).*2 with
      | [] => True | p :: _ => if b then words d' = disk d' p.2 else command d' = Some p.2 end).
  { unfold d'. destruct rs as [|[o p] rs]; cbn [fmap list_fmap app snd].
    - rewrite bool_decide_true by done. destruct (ata_issue_ok base cntl lba d Hl) as [C1 D1]. split; [done|].
      destruct b; [|done]. by destruct Sl as (? & ? & ? & _).
    - by rewrite bool_decide_false. }
  destruct Hd as [Hd Hd']. split; [|by split]. split; cbn [ds_a ds_reqs ds_ready]; [done| | | | |done].
  - rewrite fmap_app. eapply sched_keeps_ata; [exact Ap'|exact F'|exact Im'].
  - rewrite fmap_app. split; [apply NoDup_app; split; [done|split; [by intros x Hx ->%list_elem_of_singleton|apply NoDup_singleton]]|].
    intros [Hx|Hx%list_elem_of_singleton]%elem_of_app; [done|]. destruct a as [cur q bs]. cbn [a_step a_cur fst] in *. by rewrite decide_True in Ha.
  - intros x. rewrite fmap_app. apply Ap'.
  - by apply sleepers_read.
Qed.

Lemma system_klog s a ctx n lvl msg : system main rq bq U s a ctx n → system main rq bq U (s_klog lvl msg s) a ctx n.
Proof using. clear. intros [[[? ? ?] ? ? ?] ? ? ? ? ? ?]. by split; try done; split; try done; split. Qed.

(** The interrupt handler finds the block ready. *)
Lemma ata_isr_wakes s d lba : ata_base (s_mem s) ata = base → ata_cntl (s_mem s) ata = cntl → words d = disk d lba →
  ∃ d', ata_isr rq ata s d = (PROC_unblock_head rq bq (s_klog KLOG_LEVEL_DEBUG "ata interrupt" s), d') ∧ words d' = words d ∧ disk d' = disk d.
Proof using Hint.
  clear - Hint. intros Hb Hc Hw. assert (Hne : words d ≠ []) by (rewrite Hw; destruct (disk_block d lba) as [Hl _]; by destruct (disk d lba)).
  unfold ata_isr, ata_check_err, ata_check_data. rewrite Hb, Hc.
  destruct (drive_ack d) as [A1 A2]. set (d1 := (inb (base + STATUS_REG_OFF) d).2) in *.
  pose proof (drive_no_error d1 ltac:(by rewrite A1)) as E1. destruct (drive_status d1) as (_ & B1 & B2).
  destruct (inb cntl d1) as [v d2]. cbn [fst snd] in *. rewrite E1.
  destruct (drive_status d2) as (E2 & C1 & C2). destruct (inb cntl d2) as [w d3]. cbn [fst snd] in *.
  rewrite E2, bool_decide_false by (by rewrite B1, A1). cbn [negb]. exists d3. split; [done|]. split; congruence.
Qed.

Lemma ready_step s d a rs ctx n c fuel :
  disk_state s d (mkDS a rs false) ctx n → rs ≠ [] → Z.of_nat n < 4294967295 → length (c_stack c) = 15%nat →
  d_ok fuel DReady c s d [] (mkDS (a_wake_head a) rs true) n.
Proof using HU HB Hqq Hmain Hata Hint.
  intros [Sy Im Ow Ap Sl Dr] Hne Hn Hc. cbn [ds_a ds_reqs ds_ready] in *. destruct rs as [|[o p] rs]; [done|]. cbn [sleepers fmap list_fmap fst snd] in *.
  destruct a as [cur q bs]. cbn [a_blocked] in Sl. subst bs. destruct (drive_ready d p.2 Dr) as [W1 D1]. rewrite <- D1 in W1.
  destruct (ata_isr_wakes s (drive_step d) p.2 (ai_base _ _ _ _ _ Im) (ai_cntl _ _ _ _ _ Im) W1) as (d' & E & W2 & D2).
  destruct (step_wake_head main rq bq U HU HB Hqq Hmain _ cur q o rs.*1 ctx n (system_klog s _ ctx n KLOG_LEVEL_DEBUG "ata interrupt" Sy) Hn) as [Sy' F].
  set (s' := PROC_unblock_head rq bq (s_klog KLOG_LEVEL_DEBUG "ata interrupt" s)) in *. exists c, s', d', ctx. cbn [d_step]. rewrite E.
  split; [done|]. split; [|by split; [congruence|]]. split; cbn [ds_a ds_reqs ds_ready a_wake_head a_blocked a_cur a_ready fmap list_fmap snd]; try done.
  - eapply sched_keeps_ata; [exact Ap|exact F|exact Im].
  - exists (o, p), rs. split; [done|]. split; [done|]. cbn [a_cur a_ready fst]. right. apply elem_of_app. right. left.
  - congruence.
Qed.

Lemma finish_step s d a rs b ctx n req lba dst c fuel :
  disk_state s d (mkDS a rs b) ctx n → (a_cur a, (req, lba)) ∈ rs → apart dst 512 ata sizeof_ATADevice →
  Forall (fun p => apart dst 512 p.1 32) rs.*2 → (∀ x, dst ≤ x < dst + 512 → ¬ guarded rq bq U x) → (0 < fuel)%nat →
  length (c_stack c) = 15%nat →
  d_ok fuel (DFinish dst) c s d [(a_cur a, 0, disk d lba)] (mkDS a (filter (fun r => r.1 ≠ a_cur a) rs) false) n.
Proof using Hmain Hata.
  intros [Sy Im [Nd Nm] Ap Sl Dr] Hin Ha Hq Hg Hf Hc. cbn [ds_a ds_reqs ds_ready] in *.
  pose proof (proj2 (sy_in _ _ _ _ _ _ _ _ Sy)) as Hni. apply not_elem_of_app in Hni as [_ Hnb].
  destruct (sleepers_finish a rs b (req, lba) Hin Nd Hnb Sl) as (-> & t & -> & Et & Hb). rewrite Et.
  cbn [fmap list_fmap fst snd] in *.
  destruct (ata_read_finish_mem base cntl ata fuel dst s d (req, lba) t.*2 Hf Im Dr Ha Hq) as (m' & d' & E & V & [Im' Ic] & D' & F).
  exists c, (s_set_mem s m'), d', ctx. cbn [d_step]. rewrite E, bind_Ok. cbn [fst snd s_set_mem s_mem].
  rewrite V, (proj1 (sy_curr _ _ _ _ _ _ _ _ Sy)). split; [done|]. split; [|by split].
  apply NoDup_cons in Nd as [_ Nd]. apply not_elem_of_cons in Nm as [_ Nm].
  split; cbn [ds_a ds_reqs ds_ready]; try done.
  - apply (system_stable main rq bq U Hmain); [|done]. intros x Hx. apply F; intros Hx'; [|by apply (Hg x)].
    by apply (links_unguarded _ x Ap Hx').
  - intros x (p & Hp & Hx). apply Ap. exists p. split; [by right|done].
Qed.

Lemma dstep_ok fuel s d S o out S' ctx n c :
  disk_state s d S ctx n → dstep (disk d) S o out S' → (0 < fuel)%nat → Z.of_nat n < 4294967295 → length (c_stack c) = 15%nat →
  d_ok fuel o c s d out S' n.
Proof using HU HB Hqq Hmain Hata Hint.
  intros St Hs Hf Hn Hc. destruct Hs as [a rs b f Hm|a rs b req lba a' H1 H2 H3 H4 H5|a rs Hne|a rs b req lba dst H1 H2 H3 H4|a rs b a' Ha|a rs b a' Ha].
  - exists c, (s_set_mem s (f (s_mem s))), d, ctx. split; [done|]. split; [|done]. destruct St as [Sy Im Ow Ap Sl Dr]. split; try done; cbn [ds_a ds_reqs] in *.
    + apply (system_stable main rq bq U Hmain); [|done]. intros x Hx. apply Hm. by left.
    + eapply ata_mem_ext; [|exact Im]. intros x Hx. apply Hm. by right.
  - by eapply read_step.
  - by eapply ready_step.
  - by eapply finish_step.
  - destruct (stepped_cpu _ _ _ _ _ _ _ _ _ _ d _ (step_yield main rq bq U HU HB Hqq Hmain s a a' ctx n c d (dst_sys _ _ _ _ _ St) Ha Hn Hc) Hc)
      as (c' & s' & ctx' & E & Sy' & F & Hc'). exists c', s', d, ctx'. cbn [d_step]. rewrite E, bind_Ok. split; [done|]. split; [|by split].
    eapply sched_step_ok; [exact St|by left|exact Ha|exact Sy'|exact F].
  - destruct (step_run main rq bq U HU HB Hqq Hmain s a a' ctx n c d (dst_sys _ _ _ _ _ St) Ha Hn Hc) as [(s' & E & -> & _ & Sy' & F)|(c1 & s1 & E & _ & W)].
    + exists c, s', d, ctx. cbn [d_step]. rewrite E, bind_Ok. split; [done|]. split; [|done].
      eapply sched_step_ok; [exact St|by right|exact Ha|exact Sy'|exact F].
    + destruct (stepped_cpu _ _ _ _ _ _ _ _ _ _ d _ W Hc) as (c' & s' & ctx' & [= -> ->] & Sy' & F & Hc'). exists c', s', d, ctx'. cbn [d_step].
      rewrite E, bind_Ok. split; [done|]. split; [|by split]. eapply sched_step_ok; [exact St|by right|exact Ha|exact Sy'|exact F].
Qed.

(** C14: reading from the disk.  In any run in which processes compute, yield and
    call [ata_read_block], the drive finishes commands and interrupts, and
    [main_proc] runs [PROC_run] when nobody is ready, every step of the code
    succeeds, and every call of [ata_read_block] that comes back returns 0 with,
    in its buffer, the block that this very caller asked for, however the
    requests and the scheduling are interleaved: the sleepers are woken in the
    order of the requests, one for each command sent to the drive. *)
Theorem disk_reads (fuel n : nat) (S S' : disk_sys) (ops : list dop) (out : list done_read) (s : sched) (d : D) (ctx : Z → cpu) (c : cpu) :
  dsteps (disk d) S ops out S' → disk_state s d S ctx n → (0 < fuel)%nat → Z.of_nat n < 4294967295 → length (c_stack c) = 15%nat →
  d_run fuel ops c s d = Ok out.
Proof using HU HB Hqq Hmain Hata Hint.
  intros Hs. remember (disk d) as dk eqn:Ek. revert s d ctx c Ek. induction Hs as [S|S o o1 S1 ops outs S2 H1 _ IH]; intros s d ctx c -> St Hf Hn Hc; [done|].
  destruct (dstep_ok fuel s d S o o1 S1 ctx n c St H1 Hf Hn Hc) as (c' & s' & d' & ctx' & E & St' & Hd & Hc').
  cbn [d_run]. rewrite E, bind_Ok. cbn [fst snd]. by rewrite (IH s' d' ctx' c').
Qed.
End Disk.

(** ** Example: two processes read at the same time *)

#[export] Instance demo_drive_interrupt : AtaInterrupt demo_drive 0x1F0 0x3F6.
Proof. split; [done|]. by intros [lo mid hi c [|w ws]]. Qed.

(** The device is at 0xa8, so that its queue of sleepers is at 0x100. *)
Definition demo_disk_mem : mem :=
  wr32 (wr32 (LL_init (s_mem demo_woken) (0xa8 + off_requests) 0) (0xa8 + off_base) 0x1F0) (0xa8 + off_cntl_base) 0x3F6.
Definition demo_readers : sched := s_set_mem demo_woken demo_disk_mem.

Lemma demo_disk_unguarded x : 0xa8 ≤ x < 0xa8 + sizeof_ATADevice → ¬ (0xa8 + off_blocked ≤ x < 0xa8 + off_blocked + 24) →
  ¬ guarded 0x200 (0xa8 + off_blocked) demo_procs x.
Proof.
  unfold guarded, demo_procs, sizeof_Process, sizeof_ATADevice, off_blocked. intros H1 H2 [?|[?|(p & Hp & ?)]]; [lia|lia|].
  rewrite !elem_of_cons, elem_of_nil in Hp. lia.
Qed.

Lemma demo_high_unguarded x : 0x5000 ≤ x → ¬ guarded 0x200 (0xa8 + off_blocked) demo_procs x.
Proof.
  unfold guarded, demo_procs, sizeof_Process, off_blocked. intros H1 [?|[?|(p & Hp & ?)]]; [lia|lia|]. rewrite !elem_of_cons, elem_of_nil in Hp. lia.
Qed.

Lemma demo_disk_state d : disk_state 0x1F0 0x3F6 0x3000 0x200 0xa8 demo_procs demo_readers d (mkDS (mkA 0x1000 [0x2000] []) [] false) (fun _ => demo_cpu) 0.
Proof.
  pose proof demo_woken_system as Sy. unfold demo_readers, demo_disk_mem. set (s := demo_woken) in *. clearbody s.
  destruct (LL_init_rep (s_mem s) (0xa8 + off_requests) 0) as [R F]; [unfold valid_hdr, off_requests; lia|lia|].
  split; cbn [ds_a ds_reqs ds_ready fmap list_fmap].
  - apply (system_stable 0x3000 0x200 0x100 demo_procs ltac:(right; right; left)); [|exact Sy].
    intros x Hx. destruct (decide (0xa8 ≤ x < 0xa8 + sizeof_ATADevice)) as [Hi|Ho].
    + destruct (decide (0xa8 + off_blocked ≤ x < 0xa8 + off_blocked + 24)) as [Hb|Hb]; [|by destruct (demo_disk_unguarded x Hi Hb)].
      unfold wr32, off_base, off_cntl_base, off_blocked, off_requests in *. rewrite !rd8_wr_le_out by (cbn; lia). apply F. lia.
    + unfold wr32, off_base, off_cntl_base, off_blocked, off_requests, sizeof_ATADevice in *. rewrite !rd8_wr_le_out by (cbn; lia). apply F. lia.
  - split; [| | |constructor|by intros i j p r ?].
    + cbn [s_set_mem s_mem]. unfold ata_base, rd32, wr32. rewrite rd_le_wr_le_apart by (unfold apart, off_base, off_cntl_base; cbn; lia). by rewrite rd_le_wr_le.
    + cbn [s_set_mem s_mem]. unfold ata_cntl, rd32, wr32. by rewrite rd_le_wr_le.
    + eapply list_rep_ext; [| |exact R]; [|intros d' x Hd; by apply elem_of_nil in Hd].
      intros x Hx. cbn [s_set_mem s_mem]. unfold wr32, off_base, off_cntl_base, off_requests in *. by rewrite !rd8_wr_le_out by (cbn; lia).
  - split; [constructor|by apply not_elem_of_nil].
  - intros x (p & Hp%elem_of_nil & _). done.
  - done.
  - done.
Qed.

(** The idle process runs while both sleep; the first reader yields to the
    second one when it has its block. *)
Definition demo_dops : list dop :=
  [DRead 0x5000 7; DRead 0x5100 300; DReady; DRun; DFinish 0x8000; DReady; DYield; DFinish 0x9000].

Lemma demo_dsteps : ∃ S', dsteps 0x3000 0x200 0xa8 demo_procs demo_disk (mkDS (mkA 0x1000 [0x2000] []) [] false) demo_dops
  [(0x1000, 0, demo_disk 7); (0x2000, 0, demo_disk 300)] S'.
Proof.
  assert (Hreq : ∀ r x, 0x5000 ≤ r → r ≤ x < r + 32 → ¬ guarded 0x200 (0xa8 + off_blocked) demo_procs x).
  { intros r x Hr Hx. apply demo_high_unguarded. lia. }
  assert (Hdst : ∀ r x, 0x5000 ≤ r → r ≤ x < r + 512 → ¬ guarded 0x200 (0xa8 + off_blocked) demo_procs x).
  { intros r x Hr Hx. apply demo_high_unguarded. lia. }
  assert (Hok : ∀ req q, 0x5000 ≤ req → req ≤ 0x6000 → Forall (fun p => apart req 32 p.1 32) q → req_ok 0xa8 req q).
  { intros req q H1 H2 H3. unfold req_ok, apart, sizeof_ATADevice. split; [lia|]. split; [lia|]. split; [lia|exact H3]. }
  assert (Hfar : ∀ a n q, forallb (fun p => (a + n <=? p.1) || (p.1 + 32 <=? a)) q = true → Forall (fun p : Z * Z => apart a n p.1 32) q).
  { intros a n q. induction q as [|p q IH]; cbn [forallb]; [constructor|]. intros [Hp Hq]%andb_prop. constructor; [|by apply IH].
    unfold apart. bool_cases; lia. }
  set (r1 := (0x1000, (0x5000, 7))). set (r2 := (0x2000, (0x5100, 300))).
  assert (Hstep : ∀ o out S' S ops outs S'', dstep 0x3000 0x200 0xa8 demo_procs demo_disk S o out S' →
    dsteps 0x3000 0x200 0xa8 demo_procs demo_disk S' ops outs S'' → dsteps 0x3000 0x200 0xa8 demo_procs demo_disk S (o :: ops) (out ++ outs) S'')
    by (intros; by eapply dsteps_cons).
  exists (mkDS (mkA 0x2000 [0x1000] []) [] false).
  apply (Hstep _ [] (mkDS (mkA 0x2000 [] [0x1000]) [r1] false)).
  { apply (dstep_read _ _ _ _ _ (mkA 0x1000 [0x2000] []) [] false); [done|by apply not_elem_of_nil|apply Hok; [lia|lia|by apply Hfar]|lia|intros x; apply Hreq; lia]. }
  apply (Hstep _ [] (mkDS (mkA 0x3000 [] [0x1000; 0x2000]) [r1; r2] false)).
  { apply (dstep_read _ _ _ _ _ (mkA 0x2000 [] [0x1000]) [r1] false); [done|by intros Hx%list_elem_of_singleton| |lia|intros x; apply Hreq; lia].
    apply Hok; [lia|lia|]. apply Hfar. by vm_compute. }
  apply (Hstep _ [] (mkDS (mkA 0x3000 [0x1000] [0x2000]) [r1; r2] true)).
  { by apply (dstep_ready _ _ _ _ _ (mkA 0x3000 [] [0x1000; 0x2000])). }
  apply (Hstep _ [] (mkDS (mkA 0x1000 [] [0x2000]) [r1; r2] true)); [by apply dstep_run|].
  apply (Hstep _ [_] (mkDS (mkA 0x1000 [] [0x2000]) [r2] false)).
  { apply (dstep_finish _ _ _ _ demo_disk (mkA 0x1000 [] [0x2000]) [r1; r2] true 0x5000 7); [left|unfold apart, sizeof_ATADevice; lia|
      apply Hfar; by vm_compute|intros x; apply Hdst; lia]. }
  apply (Hstep _ [] (mkDS (mkA 0x1000 [0x2000] []) [r2] true)).
  { by apply (dstep_ready _ _ _ _ _ (mkA 0x1000 [] [0x2000])). }
  apply (Hstep _ [] (mkDS (mkA 0x2000 [0x1000] []) [r2] true)); [by apply dstep_yield|].
  apply (Hstep _ [_] (mkDS (mkA 0x2000 [0x1000] []) [] false)); [|constructor].
  apply (dstep_finish _ _ _ _ demo_disk (mkA 0x2000 [0x1000] []) [r2] true 0x5100 300); [left|unfold apart, sizeof_ATADevice; lia|
    apply Hfar; by vm_compute|intros x; apply Hdst; lia].
Qed.

Lemma disk_reads_witness :
  d_run 0x1F0 0x3F6 0x3000 0x200 0xa8 1 demo_dops demo_cpu demo_readers (mkDrive (0, 0) (0, 0) (0, 0) None []) =
    Ok [(0x1000, 0, replicate 256 7); (0x2000, 0, replicate 256 300)].
Proof.
  destruct demo_dsteps as [S' H].
  exact (disk_reads 0x1F0 0x3F6 0x3000 0x200 0xa8 demo_procs (demo_procs_universe 0x200 (or_intror eq_refl)) (demo_procs_universe 0x100 (or_introl eq_refl))
    ltac:(unfold apart, off_blocked; lia) ltac:(right; right; left) demo_disk_unguarded 1 0 _ S' demo_dops _ demo_readers
    (mkDrive (0, 0) (0, 0) (0, 0) None []) (fun _ => demo_cpu) demo_cpu H (demo_disk_state _) ltac:(lia) ltac:(lia) eq_refl).
Defined.
