(* ===== verification/Echo.v ===== *)
(** * The keyboard echo (src/src/procs/keyboard_io.c)

    The process that opens the keyboard and prints what it reads, composed of
    the driver's interrupt handler, the ring buffer, the file layer's dispatch,
    the scheduler and the console.  The theorem follows a key press from the
    scan code to the screen. *)

From S2P Require Import Prelude Memory CString LinkedList Segments Frames Machine Irq Paging Mmu Kmalloc Objects Sched Blocking Vga Serial Printk Keyboard Fs Pci Ata Report.

(** ** The code *)

Section Code.
Context {DK DC : Type} `{HK : PortIO DK} `{HC : PortIO DC}.

(** The scheduler with its memory, the keyboard driver, the state of the text
    display and of the serial port, and the hardware behind the ports of the
    keyboard controller and of the serial line. *)
Record machine := mkM {
  m_s : sched;
  m_ps2 : PS2Device;
  m_x : Z;
  m_y : Z;
  m_ser : option x86SerialDevice;
  m_kd : DK;
  m_cd : DC
}.

Definition m_set (w : machine) (s : sched) (k : PS2Device) (d : DK) : machine :=
  mkM s k (m_x w) (m_y w) (m_ser w) d (m_cd w).

Definition m_fs (w : machine) : fss kstate := s_fs (m_s w).
Definition m_set_fs (w : machine) (f : fss kstate) : machine := m_set w (s_from_fs (m_s w) f) (m_ps2 w) (m_kd w).

(** The console shares memory and interrupt state with the rest. *)
Definition m_console (w : machine) : console :=
  mkCon (mkVga (m_x w) (m_y w) (s_mem (m_s w)) (k_irq (s_k (m_s w)))) (m_ser w) (m_cd w).
Definition m_set_console (w : machine) (c : console) : machine :=
  mkM (s_on_irq (fun _ => v_irqs (k_vga c)) (s_set_mem (m_s w) (v_mem (k_vga c)))) (m_ps2 w)
    (disp_x (k_vga c)) (disp_y (k_vga c)) (k_ser c) (m_kd w) (k_dev c).

Context (main_proc rq bq files pools buf lit_0x lit_c str_ps2 ps2_open_addr ps2_read_addr ps2_isr_addr : Z) (sfuel fuel lfuel : nat).

(** Lines 11-15: the file, or NULL where the process ends. *)
Definition keyboard_io_open (w : machine) : outcome (Z * machine) :=
  r ← FS_open files pools m_fs m_set_fs (fun f inode file w =>
        if f =? ps2_open_addr then
          x ← ps2_open fuel pools ps2_isr_addr file (m_ps2 w) (m_s w) (m_kd w);
          let '(k, s, d) := x.2 in Ok (x.1, m_set w s k d)
        else Fault) lfuel sfuel str_ps2 w;
  if r.1 =? NULL then Ok (NULL, m_set_fs r.2 (fs_klog KLOG_LEVEL_WARN "failed to initialize keyboard driver" (m_fs r.2)))
  else Ok r.

(** The process goes on, or it was switched away in the middle of its read,
    which it begins again when it runs next. *)
Inductive activity := Running (w : machine) | Away (c : cpu) (w : machine).

(** Lines 18-19, one turn of the loop; [ch] is the address of the local [buff]. *)
Definition keyboard_io_step (file ch : Z) (c : cpu) (w : machine) : outcome activity :=
  r ← FS_read m_fs (fun f file dest len w =>
        if f =? ps2_read_addr then ps2_read main_proc rq bq file dest len (m_ps2 w) c (m_s w) (m_kd w) else Fault) file ch 1 w;
  match r with
  | ReadBlocked c s d => Ok (Away c (m_set w s (m_ps2 w) d))
  | ReadDone _ s =>
      let w := m_set w s (m_ps2 w) (m_kd w) in
      con ← say buf lit_0x sfuel fuel lit_c [i8 (rd8 (s_mem s) ch)] (m_console w);
      Ok (Running (m_set_console w con))
  end.

(** Turns of the loop, and interrupts between them, until the process is
    switched away. *)
Inductive kop := Typed (e : kevent) | Turn.

Fixpoint echo_run (file ch : Z) (ops : list kop) (c : cpu) (w : machine) : outcome activity :=
  match ops with
  | [] => Ok (Running w)
  | Typed _ :: ops =>
      r ← ps2_isr fuel rq bq (m_ps2 w) (m_s w) (m_kd w);
      let '(k, s, d) := r in echo_run file ch ops c (m_set w s k d)
  | Turn :: ops =>
      r ← keyboard_io_step file ch c w;
      match r with Running w => echo_run file ch ops c w | Away c w => Ok (Away c w) end
  end.
End Code.
Arguments machine : clear implicits.
Arguments activity : clear implicits.

(** ** The specification *)

(** The keys typed in a sequence of operations. *)
Fixpoint keys (ops : list kop) : list kevent :=
  match ops with [] => [] | Typed e :: ops => e :: keys ops | Turn :: ops => keys ops end.

(** What is printed, what is typed and not yet printed, and whether the process
    has nothing left to print and sleeps. *)
Fixpoint echo_spec (shift : Z) (ops : list kop) (pend : list Z) : list Z * list Z * bool :=
  match ops with
  | [] => ([], pend, false)
  | Typed e :: ops => echo_spec (shift_after shift e) ops (fold_left pend_add (typed_by shift e) pend)
  | Turn :: ops =>
      match pend with
      | [] => ([], [], true)
      | x :: pend => let '(out, rest, b) := echo_spec shift ops pend in (x :: out, rest, b)
      end
  end.

Lemma scan_lookup_all (P : Z → Prop) l shift code :
  P 63 → Forall (fun e => P e.2.1 ∧ P e.2.2) l → P (scan_lookup l shift code).
Proof.
  intros H0. induction 1 as [|[c [lo up]] l Hc _ IH]; cbn [scan_lookup]; [done|].
  destruct (code =? c); [|done]. destruct Hc. by destruct (truth shift).
Qed.

(** A character that can be echoed. *)
Definition printable (c : Z) : Prop := 0 ≤ c < 256 ∧ c ≠ 13.

Lemma typed_by_printable shift e : Forall printable (typed_by shift e).
Proof.
  destruct e as [x|x]; cbn [typed_by]; [|constructor]. destruct (is_shift x); constructor; [|constructor]. unfold printable.
  split; [pose proof (translate_range shift x); lia|]. unfold translate_scan_code.
  apply (scan_lookup_all (fun c => c ≠ 13)); [done|]. apply (bool_decide_unpack _). vm_compute. exact I.
Qed.

Lemma pend_add_printable l : ∀ pend, Forall printable l → Forall printable pend → Forall printable (fold_left pend_add l pend).
Proof.
  induction l as [|c l IH]; intros pend Hl Hp; cbn [fold_left]; [done|]. apply Forall_cons in Hl as [Hc Hl]. apply IH; [done|].
  unfold pend_add. destruct (_ =? _)%nat; [constructor|]. apply Forall_app. split; [done|]. by constructor.
Qed.

Lemma fmt_c_spec strs a : fmt_spec strs (chars "%c") [a] = Some [u8 a].
Proof. reflexivity. Qed.

Lemma u8_i8 x : 0 ≤ x < 256 → u8 (i8 x) = x.
Proof. intros Hx. unfold i8, signed. change (2 ^ 8) with 256. change (2 ^ (8 - 1)) with 128. rewrite Z.mod_small by lia. unfold u8. destruct (x <? 128) eqn:E; bool_cases; word_lia. Qed.

(** ** Printing in the machine *)

Section Says.
Context {DK DC : Type} `{HC : PortIO DC}.
Context (main_proc rq bq : Z) (U : list Z).
Hypothesis Hmain : main_proc ∈ U.
Context (d0 : DC) (n : nat) (hs : list (Z * Z)).
Hypothesis Hn : Z.of_nat n < 4294967295.
#[local] Instance says_console : Console (console (D := DC)) := display_console d0 n hs Hn.
Context (buf lit_0x : Z) (sfuel fuel : nat) (strs : Z → option (list Z)).
Hypothesis Hbuf : apart buf 65 X86_VGA_ADDR 4000.

(** The console does not see what others do to their own memory. *)
Lemma shown_ext x y m i ser d t m' i' :
  shown d0 n hs (mkCon (mkVga x y m i) ser d) t → (∀ z, X86_VGA_ADDR ≤ z < X86_VGA_ADDR + 4000 → rd8 m' z = rd8 m z) →
  irq_at n i' → handlers i' = hs → shown d0 n hs (mkCon (mkVga x y m' i') ser d) t.
Proof using.
  clear. intros R Hm Hi Hh. destruct (console_set_ok d0 n hs _ t m' R Hm) as [R1 R2 R3 R4 R5].
  split; try done. by destruct R1; split.
Qed.

Lemma system_irq s a ctx f :
  system main_proc rq bq U s a ctx n → irq_at n (f (k_irq (s_k s))) → handlers (f (k_irq (s_k s))) = handlers (k_irq (s_k s)) →
  system main_proc rq bq U (s_on_irq f s) a ctx n.
Proof using.
  clear. intros [B C1 Sl Hin Hmn Hh Hctx] Hi Hf. split; try done; [by apply (blocked_irq rq bq U f s _ _ n)|].
  destruct Hh as (h & ? & ?). exists h. cbn [s_on_irq s_set_k s_k k_irq]. by rewrite Hf.
Qed.

(** What printing writes in memory. *)
Definition console_byte (x : Z) : Prop := X86_VGA_ADDR ≤ x < X86_VGA_ADDR + 4000 ∨ buf ≤ x < buf + 65.

(** Where a literal must lie. *)
Lemma literal_at m a f : cstr m a f → (∀ x, a ≤ x < a + Z.of_nat (length f) + 1 → ¬ console_byte x) → (length f < fuel)%nat → literal buf fuel m a f.
Proof using.
  clear Hbuf Hmain. intros Hc Ha Hf. split; [done|]. split; [|done].
  split; unfold apart; cbn [con_buf says_console display_console fst snd].
  - destruct (decide (a + (Z.of_nat (length f) + 1) ≤ X86_VGA_ADDR ∨ X86_VGA_ADDR + 4000 ≤ a)); [done|]. exfalso.
    apply (Ha (Z.max a X86_VGA_ADDR)); [lia|]. left. lia.
  - destruct (decide (a + (Z.of_nat (length f) + 1) ≤ buf ∨ buf + 65 ≤ a)); [done|]. exfalso. apply (Ha (Z.max a buf)); [lia|]. right. lia.
Qed.

(** A process prints; the scheduler and the other objects are as before. *)
Lemma machine_says (w : machine DK DC) a ctx t fmt f args out :
  (∀ x, console_byte x → ¬ guarded rq bq U x) →
  system main_proc rq bq U (m_s w) a ctx n → handlers (k_irq (s_k (m_s w))) = hs → shown d0 n hs (m_console w) t →
  strings_ok buf lit_0x sfuel strs (s_mem (m_s w)) → literal buf fuel (s_mem (m_s w)) fmt f → fmt_spec strs f args = Some out →
  13 ∉ out → Z.of_nat (length t + length out) < 4294967296 →
  ∃ con, say buf lit_0x sfuel fuel fmt args (m_console w) = Ok con ∧
    let w' := m_set_console w con in
    system main_proc rq bq U (m_s w') a ctx n ∧ handlers (k_irq (s_k (m_s w'))) = hs ∧ shown d0 n hs (m_console w') (t ++ out) ∧
    (∀ x, ¬ console_byte x → rd8 (s_mem (m_s w')) x = rd8 (s_mem (m_s w)) x).
Proof using Hmain Hn Hbuf.
  intros Hg Sy Hh Sh Hs Hl Hf H13 Hlen.
  destruct (say_ok (Hcon := says_console) buf lit_0x sfuel fuel strs Hbuf (s_mem (m_s w)) fmt f args (m_console w) t out Hs Hl Hf) as (con & E & Sh' & F);
    [by split; [|intros ? _ _]|done|done|].
  exists con. split; [done|]. cbn zeta.
  assert (Hm : ∀ x, ¬ console_byte x → rd8 (v_mem (k_vga con)) x = rd8 (s_mem (m_s w)) x).
  { intros x Hx. apply F; cbn [con_buf says_console display_console fst snd]; intros Hx'; apply Hx; [by left|by right]. }
  assert (Sy1 : system main_proc rq bq U (s_set_mem (m_s w) (v_mem (k_vga con))) a ctx n).
  { apply (system_stable main_proc rq bq U Hmain); [|done]. intros x Hx. apply Hm. intros Hx'. by apply (Hg x). }
  split; [|split; [exact (sh_handlers _ _ _ _ _ Sh')|split; [by destruct con as [[]]|exact Hm]]].
  apply (system_irq _ a ctx (fun _ => v_irqs (k_vga con)) Sy1); [exact (sh_irq _ _ _ _ _ Sh')|].
  rewrite (sh_handlers _ _ _ _ _ Sh'). symmetry. exact Hh.
Qed.
End Says.

(** ** Correctness *)

Section Correct.
Context {DK DC : Type} `{HK : PortIO DK} `{HC : PortIO DC} `{Hkb : !Ps2Controller DK}.
Context (main_proc rq bq : Z) (U : list Z).
Hypothesis HU : universe rq U.
Hypothesis HB : universe bq U.
Hypothesis Hqq : apart rq 24 bq 24.
Hypothesis Hmain : main_proc ∈ U.

(** The console's history, and the depth and handlers of interrupts. *)
Context (d0 : DC) (n : nat) (hs : list (Z * Z)).
Hypothesis Hn : Z.of_nat n < 4294967295.
#[local] Instance echo_console : Console (console (D := DC)) := display_console d0 n hs Hn.

Context (buf lit_0x lit_c ps2_read_addr : Z) (sfuel fuel : nat) (file fops user ch : Z) (strs : Z → option (list Z)).
Hypothesis Hbuf : apart buf 65 X86_VGA_ADDR 4000.
Hypothesis Hch : apart ch 1 X86_VGA_ADDR 4000.

(** What the echo writes on the way, and the objects it reads: the file, its
    operations, the reader's position and the literals. *)
Definition scratch (x : Z) : Prop := X86_VGA_ADDR ≤ x < X86_VGA_ADDR + 4000 ∨ buf ≤ x < buf + 65 ∨ x = ch.
Definition position (x : Z) : Prop := user + 8 ≤ x < user + 16.
Definition objects (x : Z) : Prop := file ≤ x < file + 24 ∨ fops ≤ x < fops + 24 ∨ lit_c ≤ x < lit_c + 3.
Hypothesis Hscratch : ∀ x, scratch x → ¬ guarded rq bq U x ∧ ¬ position x.
Hypothesis Hposition : ∀ x, position x → ¬ guarded rq bq U x.
Hypothesis Hobjects : ∀ x, objects x → ¬ guarded rq bq U x ∧ ¬ scratch x ∧ ¬ position x.

(** The string literal for pointers lies elsewhere too. *)
Hypothesis Hstrs : ∀ a s x, strs a = Some s → a ≤ x < a + Z.of_nat (length s) + 1 → ¬ guarded rq bq U x ∧ ¬ scratch x ∧ ¬ position x.

Record echo_mem (m : mem) : Prop := {
  em_fops : rd64 m (file + off_ofile_fops) = fops;
  em_read : rd64 m (fops + off_fops_read) = ps2_read_addr;
  em_user : rd64 m (file + off_private_data) = user;
  em_fmt : cstr m lit_c (chars "%c");
  em_strs : strings_ok buf lit_0x sfuel strs m
}.

Lemma echo_mem_ext m m' :
  (∀ x, rd8 m' x ≠ rd8 m x → guarded rq bq U x ∨ scratch x ∨ position x) → echo_mem m → echo_mem m'.
Proof using Hobjects Hstrs.
  clear - Hobjects Hstrs. intros Hm [E1 E2 E3 E4 [E5 E6]].
  assert (K : ∀ x, objects x → rd8 m' x = rd8 m x).
  { intros x Hx. destruct (decide (rd8 m' x = rd8 m x)) as [|Hne]; [done|]. destruct (Hobjects x Hx). destruct (Hm x Hne); tauto. }
  split.
  - rewrite <- E1. apply rd_le_ext. intros x Hx. apply K. left. unfold off_ofile_fops in *. cbn in Hx. lia.
  - rewrite <- E2. apply rd_le_ext. intros x Hx. apply K. right. left. unfold off_fops_read in *. cbn in Hx. lia.
  - rewrite <- E3. apply rd_le_ext. intros x Hx. apply K. left. unfold off_private_data in *. cbn in Hx. lia.
  - eapply cstr_ext; [|exact E4]. intros x Hx. symmetry. apply K. right. right. cbn in Hx. lia.
  - split; [|done]. intros a s Hs. destruct (E5 a s Hs) as (Hc & Hcl & Hl). split; [|done]. eapply cstr_ext; [|exact Hc].
    intros x Hx. symmetry. destruct (decide (rd8 m' x = rd8 m x)) as [|Hne]; [done|].
    destruct (Hstrs a s x Hs ltac:(lia)) as (H1 & H2 & H3). destruct (Hm x Hne); tauto.
Qed.

(** The state between two turns: [pend] is typed and not printed, [t] printed. *)
Record echo_state (w : machine DK DC) (a : asched) (ctx : Z → cpu) (pend t : list Z) (codes : list Z) : Prop := {
  es_sys : system main_proc rq bq U (m_s w) a ctx n;
  es_hs : handlers (k_irq (s_k (m_s w))) = hs;
  es_ring : ring (m_ps2 w) (user_pos (s_mem (m_s w)) user) pend;
  es_pend : Forall printable pend;
  es_codes : kb_codes (m_kd w) = codes;
  es_mem : echo_mem (s_mem (m_s w));
  es_shown : shown d0 n hs (m_console w) t
}.

Lemma user_pos_ext m m' : (∀ x, position x → rd8 m' x = rd8 m x) → user_pos m' user = user_pos m user.
Proof using. clear. intros Hm. apply rd_le_ext. intros x Hx. apply Hm. unfold position. cbn in Hx. lia. Qed.

Lemma two_queues_guarded m m' x : only_two_queues rq bq U m m' → rd8 m' x ≠ rd8 m x → guarded rq bq U x.
Proof using.
  clear. intros Hm Hne. destruct (decide (rq ≤ x < rq + 24)); [by left|]. destruct (decide (bq ≤ x < bq + 24)); [right; by left|].
  right. right. destruct (decide (Exists (fun p => p ≤ x < p + sizeof_Process) U)) as [He|Hno].
  - apply Exists_exists in He as (p & Hp & Hx). by exists p.
  - destruct Hne. apply Hm; [lia|lia|]. intros p Hp Hx. apply Hno, Exists_exists. exists p. split; [done|]. unfold sizeof_Process. lia.
Qed.

(** The interrupt handler between two turns. *)
Lemma typed_step w a ctx pend t e rest :
  echo_state w a ctx pend t (encode e ++ rest) → kevent_ok e → (length (a_blocked a) < fuel)%nat →
  ∃ k s d a', ps2_isr fuel rq bq (m_ps2 w) (m_s w) (m_kd w) = Ok (k, s, d) ∧
    echo_state (m_set w s k d) a' ctx (fold_left pend_add (typed_by (shift_pressed (m_ps2 w)) e) pend) t rest ∧
    shift_pressed k = shift_after (shift_pressed (m_ps2 w)) e ∧ a_cur a' = a_cur a ∧ (length (a_blocked a') ≤ length (a_blocked a))%nat.
Proof using HU HB Hqq Hmain Hn Hscratch Hposition Hobjects Hstrs.
  intros [Sy Hh R Hp Hc Em Sh] He Hf. destruct fuel as [|fu] eqn:Ef; [lia|]. unfold ps2_isr.
  destruct (ps2_read_char_ok fu (m_ps2 w) (m_kd w) e rest He Hc) as (d & E & Cd). rewrite E, bind_Ok. clear E.
  set (k1 := ps2_set_shift (m_ps2 w) _). assert (R1 : ring k1 (user_pos (s_mem (m_s w)) user) pend) by (destruct R; by split).
  pose proof (pend_add_printable _ pend (typed_by_printable (shift_pressed (m_ps2 w)) e) Hp) as Hp'.
  assert (Hno : typed_by (shift_pressed (m_ps2 w)) e = [] ∨ ∃ x, typed_by (shift_pressed (m_ps2 w)) e = [translate_scan_code (shift_pressed (m_ps2 w)) x]).
  { destruct e as [x|x]; cbn [typed_by]; [|by left]. destruct (is_shift x); [by left|right; by exists x]. }
  destruct Hno as [Et|[x Et]]; rewrite Et in *; cbn [hd fold_left] in *.
  { exists k1, (m_s w), d, a. split; [done|]. split; [|done]. by split. }
  pose proof (translate_range (shift_pressed (m_ps2 w)) x) as Hr. rewrite (proj2 (Z.eqb_neq _ 0)) by lia.
  destruct (producer_add_ring k1 _ pend (translate_scan_code (shift_pressed (m_ps2 w)) x) R1) as (k2 & E2 & R2 & Sh2 & _). rewrite E2, bind_Ok.
  destruct (step_wake main_proc rq bq U HU HB Hqq Hmain (m_s w) a (mkA (a_cur a) (a_ready a ++ a_blocked a) []) ctx n (S fu) Sy) as (s' & E3 & Sy');
    [by destruct a|done|done|].
  destruct (PROC_unblock_all_ok rq bq U HU HB Hqq (m_s w) _ _ n (S fu) (sy_queues _ _ _ _ _ _ _ _ Sy) Hn Hf) as (s'' & E4 & _ & _ & _ & F).
  assert (s'' = s') as -> by congruence. pose proof (unblock_all_handlers rq bq (S fu) _ _ n
    (rd_irq _ _ _ _ _ (bl_ready _ _ _ _ _ _ _ (sy_queues _ _ _ _ _ _ _ _ Sy))) Hn E4) as Hh'. rewrite E3, bind_Ok.
  assert (Hm : ∀ z, rd8 (s_mem s') z ≠ rd8 (s_mem (m_s w)) z → guarded rq bq U z) by (intros z; by apply two_queues_guarded).
  assert (Hm' : ∀ z, ¬ guarded rq bq U z → rd8 (s_mem s') z = rd8 (s_mem (m_s w)) z).
  { intros z Hz. destruct (decide (rd8 (s_mem s') z = rd8 (s_mem (m_s w)) z)) as [|Hne]; [done|]. by destruct (Hz (Hm z Hne)). }
  exists k2, s', d, (mkA (a_cur a) (a_ready a ++ a_blocked a) []). split; [done|]. split; [|split; [done|split; [done|cbn; lia]]].
  split; cbn [m_set m_s m_ps2 m_kd]; [done|by rewrite Hh'| |done|done| |].
  - rewrite (user_pos_ext (s_mem (m_s w))); [done|]. intros z Hz. by apply Hm', Hposition.
  - eapply echo_mem_ext; [|exact Em]. intros z Hz. left. by apply Hm.
  - destruct (rd_irq _ _ _ _ _ (bl_ready _ _ _ _ _ _ _ (sy_queues _ _ _ _ _ _ _ _ Sy'))) as [I1 I2].
    eapply shown_ext; [exact Sh| |done|exact (eq_trans Hh' Hh)]. intros z Hz. apply Hm'. apply Hscratch. by left.
Qed.

(** A turn with something to print. *)
Lemma turn_prints w a ctx x pend t codes c :
  echo_state w a ctx (x :: pend) t codes → (2 < fuel)%nat → Z.of_nat (length t) + 1 < 4294967296 →
  ∃ w', keyboard_io_step main_proc rq bq buf lit_0x lit_c ps2_read_addr sfuel fuel file ch c w = Ok (Running w') ∧
    echo_state w' a ctx pend (t ++ [x]) codes ∧ m_ps2 w' = m_ps2 w.
Proof using Hmain Hn Hbuf Hch Hscratch Hposition Hobjects Hstrs.
  intros [Sy Hh R Hp Hc Em Sh] Hf Hlen. apply Forall_cons in Hp as [[Hx Hx13] Hp].
  pose proof Em as [M1 M2 M3 M4 M5]. unfold keyboard_io_step, FS_read, m_fs, s_fs. cbn [fs_mem]. rewrite M1, M2, Z.eqb_refl.
  unfold ps2_read. rewrite M3. change (s_mem (s_on_irq IRQ_disable (m_s w))) with (s_mem (m_s w)).
  rewrite (has_bytes_ring _ _ _ _ R), bool_decide_false by done. cbn [negb].
  assert (Hcp : ¬ position ch) by (apply Hscratch; right; by right).
  destruct (ps2_copy_ok (m_ps2 w) user 1 ch (s_mem (m_s w)) (x :: pend) R) as (m' & E & H1 & R' & F).
  { unfold apart, position in *. lia. } { constructor; [done|]. eapply Forall_impl; [exact Hp|]. by intros y []. }
  change (Z.to_nat 1) with 1%nat. rewrite E, !bind_Ok. cbn [fst snd drop] in *. clear E.
  assert (Hr : rd8 m' ch = x) by (rewrite <- (Z.add_0_r ch); by apply (H1 0%nat)).
  set (s1 := s_on_irq IRQ_enable (s_set_mem (s_on_irq IRQ_disable (m_s w)) m')).
  assert (Hm1 : ∀ z, rd8 m' z ≠ rd8 (s_mem (m_s w)) z → scratch z ∨ position z).
  { intros z Hz. destruct (decide (z = ch)) as [->|]; [left; right; by right|]. destruct (decide (user + 8 ≤ z < user + 16)); [by right|].
    destruct Hz. apply F; lia. }
  destruct (rd_irq _ _ _ _ _ (bl_ready _ _ _ _ _ _ _ (sy_queues _ _ _ _ _ _ _ _ Sy))) as [I1 I2].
  destruct (IRQ_disable_at n _ (conj I1 I2) Hn) as (J1 & J2 & _). destruct (IRQ_enable_at (S n) _ J1) as (J3 & J4 & _); [lia|].
  assert (Sy1 : system main_proc rq bq U s1 a ctx n).
  { assert (Sy0 : system main_proc rq bq U (s_set_mem (m_s w) m') a ctx n).
    { apply (system_stable main_proc rq bq U Hmain); [|done]. intros z Hz. destruct (decide (rd8 m' z = rd8 (s_mem (m_s w)) z)) as [|Hne]; [done|].
      destruct (Hm1 z Hne) as [Hz'|Hz']; [by destruct (Hscratch z Hz')|by destruct (Hposition z Hz')]. }
    apply (system_irq main_proc rq bq U n (s_set_mem (m_s w) m') a ctx (fun i => IRQ_enable (IRQ_disable i)) Sy0); [done|]. cbn. by rewrite J4. }
  assert (Hh1 : handlers (k_irq (s_k s1)) = hs) by (cbn; rewrite J4, J2; exact Hh).
  assert (Em1 : echo_mem m') by (eapply echo_mem_ext; [|exact Em]; intros z Hz; right; by apply Hm1).
  set (w1 := m_set w s1 (m_ps2 w) (m_kd w)).
  assert (Sh1 : shown d0 n hs (m_console w1) t).
  { unfold w1, m_console. cbn [m_set m_x m_y m_s m_ser m_cd]. eapply shown_ext; [exact Sh| |done|exact Hh1]. intros z Hz.
    cbn [s1 s_on_irq s_set_k s_set_mem s_mem]. apply F; [intros Hz'|].
    - unfold apart in Hch. lia.
    - intros Hz'. assert (Hs : scratch z) by (by left). by destruct (Hscratch z Hs). }
  assert (Hcb : ∀ z, console_byte buf z → scratch z) by (intros z [Hz|Hz]; [by left|right; by left]).
  assert (Hlit : literal buf fuel m' lit_c (chars "%c")).
  { apply (literal_at d0 n hs Hn); [apply Em1| |cbn; lia]. intros z Hz Hz'%Hcb. destruct (Hobjects z) as (_ & Hs & _); [right; right; cbn in Hz; lia|done]. }
  destruct (machine_says main_proc rq bq U Hmain d0 n hs Hn buf lit_0x sfuel fuel strs Hbuf w1 a ctx t lit_c (chars "%c") [i8 x] [x]) as (con & E' & Sy2 & Hh2 & Sh2 & F2);
    [intros z Hz; by apply Hscratch, Hcb|exact Sy1|exact Hh1|exact Sh1|exact (em_strs _ Em1)|exact Hlit|by rewrite fmt_c_spec, u8_i8| |cbn; lia|].
  { intros H13%list_elem_of_singleton. congruence. }
  change (s_mem s1) with m'. rewrite Hr, E', bind_Ok. eexists. split; [done|]. split; [|done].
  assert (Hm2 : ∀ z, ¬ scratch z → rd8 (s_mem (m_s (m_set_console w1 con))) z = rd8 m' z) by (intros z Hz; apply F2; by intros Hz'%Hcb).
  split; [exact Sy2|exact Hh2| |done|done| |exact Sh2].
  - rewrite (user_pos_ext m'); [done|]. intros z Hz. apply Hm2. intros Hz'. by destruct (Hscratch z Hz').
  - eapply echo_mem_ext; [|exact Em1]. intros z Hz. right. left.
    destruct (decide (X86_VGA_ADDR ≤ z < X86_VGA_ADDR + 4000)) as [|H1']; [by left|]. destruct (decide (buf ≤ z < buf + 65)) as [|H2']; [right; by left|].
    destruct Hz. apply F2. by intros [?|?].
Qed.

(** A turn with nothing to print: the process sleeps. *)
Lemma turn_blocks w a a' ctx t codes c :
  echo_state w a ctx [] t codes → a_step main_proc SBlock a = Some a' → length (c_stack c) = 15%nat →
  ∃ c' w', keyboard_io_step main_proc rq bq buf lit_0x lit_c ps2_read_addr sfuel fuel file ch c w = Ok (Away c' w') ∧
    shown d0 n hs (m_console w') t ∧ echo_mem (s_mem (m_s w')) ∧ kb_codes (m_kd w') = codes ∧
    ring (m_ps2 w') (user_pos (s_mem (m_s w')) user) [] ∧
    system main_proc rq bq U (m_s w') a' (fun x => if decide (x = a_cur a) then c else ctx x) n.
Proof using HU HB Hqq Hmain Hn Hscratch Hposition Hobjects Hstrs.
  intros [Sy Hh R Hp Hc Em Sh] Ha Hl. pose proof Em as [M1 M2 M3 M4 M5].
  unfold keyboard_io_step, FS_read, m_fs, s_fs. cbn [fs_mem]. rewrite M1, M2, Z.eqb_refl.
  unfold ps2_read. rewrite M3. change (s_mem (s_on_irq IRQ_disable (m_s w))) with (s_mem (m_s w)).
  rewrite (has_bytes_ring _ _ _ _ R), bool_decide_true by done. cbn [negb].
  destruct (step_block main_proc rq bq U HU HB Hqq Hmain (m_s w) a a' ctx n c (m_kd w) Sy Ha Hn Hl) as (c' & s' & E & Sy' & [F Hd] & _).
  rewrite E, !bind_Ok. eexists c', _. split; [done|]. cbn [m_set m_s m_ps2 m_kd]. split_and!; try done.
  - destruct (rd_irq _ _ _ _ _ (bl_ready _ _ _ _ _ _ _ (sy_queues _ _ _ _ _ _ _ _ Sy'))) as [I1 I2].
    eapply shown_ext; [exact Sh| |done|exact (eq_trans Hd Hh)]. intros z Hz. apply F. apply Hscratch. by left.
  - eapply echo_mem_ext; [|exact Em]. intros z Hz. left. destruct (decide (rq ≤ z < rq + 24)); [by left|]. destruct (decide (bq ≤ z < bq + 24)); [right; by left|].
    destruct (decide (Exists (fun p => p ≤ z < p + sizeof_Process) U)) as [He|Hno].
    + apply Exists_exists in He as (p & Hpu & Hz'). right. right. by exists p.
    + destruct Hz. apply F. intros [?|[?|(p & Hpu & Hz')]]; [lia|lia|]. apply Hno, Exists_exists. by exists p.
  - rewrite (user_pos_ext (s_mem (m_s w))); [done|]. intros z Hz. by apply F, Hposition.
Qed.

Lemma block_sleeps s a ctx : system main_proc rq bq U s a ctx n → a_cur a ≠ main_proc →
  ∃ a', a_step main_proc SBlock a = Some a' ∧ a_cur a ∈ a_blocked a' ∧ a_cur a' ≠ a_cur a.
Proof using.
  clear. intros [_ _ _ [_ Hni] _ _ _] Hc. destruct a as [cur q bs]. cbn [a_cur a_ready a_blocked a_step] in *. rewrite decide_False by done.
  eexists. split; [done|]. destruct q as [|p q]; cbn [a_cur a_blocked].
  - split; [apply elem_of_app; right; left|congruence].
  - split; [apply elem_of_app; right; left|]. intros ->. apply Hni. left.
Qed.

End Correct.

(** ** Example: shift and the key of the letter a *)

Definition demo_echo_text : mem :=
  let m := wr64 (s_mem demo_asleep) (0x5000 + off_ofile_fops) 0x5100 in
  let m := wr64 m (0x5000 + off_private_data) 0x6000 in
  let m := wr64 m (0x5100 + off_fops_read) 0x99 in
  poke (poke m 0x5200 (chars "%c")) 0x5210 (chars "0x").

Definition demo_echo_irqs : irqs := k_irq (s_k demo_asleep).
Definition demo_echo_mem : mem := v_mem (VGA_clear (mkVga 0 0 demo_echo_text demo_echo_irqs)).

(** The process 0x1000 has the keyboard open as the file at 0x5000. *)
Definition demo_machine : machine (list Z) scripted :=
  mkM (s_set_mem demo_asleep demo_echo_mem) (mkPs2 0 (replicate 128 0) 0 1) 0 0 (Some gdev) [0x12; 0x1c] (mkDev [0x20] []).

Definition demo_0x (a : Z) : option (list Z) := if a =? 0x5210 then Some (chars "0x") else None.

Lemma demo_echo_rd8 x : x < X86_VGA_ADDR → rd8 demo_echo_mem x = rd8 demo_echo_text x.
Proof.
  intros Hx. cbn [demo_echo_mem VGA_clear v_mem]. rewrite memset_rd8 by (vm_compute; congruence). by rewrite decide_False by lia.
Qed.

Lemma demo_echo_low x : x < 0x5000 → rd8 demo_echo_mem x = rd8 (s_mem demo_asleep) x.
Proof.
  intros Hx. rewrite demo_echo_rd8 by (unfold X86_VGA_ADDR; lia). unfold demo_echo_text, poke. cbn [fold_left fst snd app chars].
  rewrite !rd8_wr8_ne by lia. unfold wr64, off_ofile_fops, off_private_data, off_fops_read. by rewrite !rd8_wr_le_out by (cbn; lia).
Qed.

Lemma demo_guarded x : guarded 0x200 0x100 demo_procs x → x < 0x5000.
Proof.
  unfold guarded, demo_procs, sizeof_Process. intros [?|[?|(p & Hp & ?)]]; [lia|lia|]. rewrite !elem_of_cons, elem_of_nil in Hp. lia.
Qed.

Lemma demo_echo_word a v : a + 8 ≤ X86_VGA_ADDR → rd64 demo_echo_text a = v → rd64 demo_echo_mem a = v.
Proof. intros Ha <-. apply rd_le_ext. intros x Hx. apply demo_echo_rd8. cbn in Hx. lia. Qed.

Lemma demo_echo_cstr a s : a + Z.of_nat (length s) < X86_VGA_ADDR → cstr demo_echo_text a s → cstr demo_echo_mem a s.
Proof. intros Ha. apply cstr_ext. intros x Hx. symmetry. apply demo_echo_rd8. lia. Qed.

Lemma demo_echo_state :
  echo_state 0x3000 0x200 0x100 demo_procs (mkDev [0x20] []) 0 (replicate 256 (0x77, 0)) demo_n 0x7000 0x5210 0x5200 0x99 3 0x5000 0x5100 0x6000 demo_0x
    demo_machine (mkA 0x1000 [] [0x2000]) (fun _ => demo_cpu) [] [] [0x12; 0x1c].
Proof.
  split.
  - apply (system_stable 0x3000 0x200 0x100 demo_procs ltac:(right; right; left)); [|exact demo_system].
    intros x Hx. by apply demo_echo_low, demo_guarded.
  - reflexivity.
  - assert (E : user_pos demo_echo_mem 0x6000 = 0) by (apply demo_echo_word; by vm_compute).
    split; [done| |done| |done]; cbn [demo_machine m_s s_set_mem s_mem m_ps2 ps2_pos].
    + rewrite E. lia.
    + by rewrite E.
  - constructor.
  - reflexivity.
  - split; cbn [demo_machine m_s s_set_mem s_mem].
    + apply demo_echo_word; by vm_compute.
    + apply demo_echo_word; by vm_compute.
    + apply demo_echo_word; by vm_compute.
    + apply demo_echo_cstr; by vm_compute.
    + split; [|done]. intros a s. unfold demo_0x. destruct (Z.eqb_spec a 0x5210) as [->|]; [|done]. intros [= <-].
      split; [apply demo_echo_cstr; by vm_compute|]. split; [|cbn; lia].
      split; unfold apart; cbn [con_buf echo_console display_console fst snd]; vm_compute; left; congruence.
  - split; [apply (VGA_clear_rep (mkVga 0 0 demo_echo_text demo_echo_irqs))|done|by split|done|].
    intros dev [= <-]. split; [apply gdev_rep|done].
Qed.

