(* ===== verification/Stress.v ===== *)
(** * The stress test (src/src/procs/stress_test.c)

    Processes that count down, print and yield.  Printing, the scheduler and the
    context switch together make their lines alternate. *)

From stdpp Require Import gmap.
From S2P Require Import Prelude Memory CString LinkedList Segments Frames Machine Irq Paging Mmu Kmalloc Objects Sched Blocking Vga Serial Printk Keyboard Fs Pci Ata Fat Report Echo.

(** ** The code *)

Section Code.
Context {DK DC : Type} `{HK : PortIO DK} `{HC : PortIO DC}.
Context (main_proc rq buf lit_0x lit_test : Z) (sfuel fuel : nat).

(** Line 9: the loop variable starts as the [int] that [arg] points to. *)
Definition test_func_begin (arg : Z) (m : mem) : Z := rdi m arg.

(** One turn of the loop, None where it ends and the process returns.  The
    yield comes back when the process has the processor again; the loop
    variable is its own. *)
Definition test_func_step (i : Z) (c : cpu) (w : machine DK DC) : outcome (option (Z * cpu * machine DK DC)) :=
  if i =? 0 then Ok None
  else
    con ← say buf lit_0x sfuel fuel lit_test [i] (m_console w);
    let w := m_set_console w con in
    r ← yield_trap main_proc rq c (m_s w) (m_kd w);
    let '(c, s, d) := r in
    i ← as_int (i - 1);
    Ok (Some (i, c, m_set w s (m_ps2 w) d)).

(** The processor goes from process to process, each of which takes a turn;
    [loc] holds the loop variables. *)
Fixpoint test_run (k : nat) (c : cpu) (w : machine DK DC) (loc : gmap Z Z) : outcome (cpu * machine DK DC * gmap Z Z) :=
  match k with
  | O => Ok (c, w, loc)
  | S k =>
      match loc !! curr_proc (m_s w) with
      | None => Fault
      | Some i =>
          r ← test_func_step i c w;
          match r with
          | None => Ok (c, w, loc)
          | Some (i, c, w') => test_run k c w' (<[curr_proc (m_s w) := i]> loc)
          end
      end
  end.
End Code.

(** [stress_test_proc], lines 17-24, up to its endless loop of yields; the four
    locals are at [vals], the names of the processes at [names]. *)
Definition stress_test_proc (procs rq pools exit test_func : Z) (names vals : Z * Z * Z * Z) (s : sched) : outcome sched :=
  let '(n1, n2, n3, n4) := names in
  let '(v1, v2, v3, v4) := vals in
  let s := s_set_mem s (wr32 (s_mem s) v1 20) in
  let s := s_set_mem s (wr32 (s_mem s) v2 30) in
  let s := s_set_mem s (wr32 (s_mem s) v3 40) in
  let s := s_set_mem s (wr32 (s_mem s) v4 50) in
  r ← PROC_create_process rq procs pools exit n1 test_func v1 s;
  r ← PROC_create_process rq procs pools exit n2 test_func v2 r.2;
  r ← PROC_create_process rq procs pools exit n3 test_func v3 r.2;
  r ← PROC_create_process rq procs pools exit n4 test_func v4 r.2;
  Ok r.2.

(** ** What is printed *)

Definition fmt_test : list Z := chars "test: %d" ++ newline.
Definition test_line (i : Z) : list Z := chars "test: " ++ numeral 10 dec_char i ++ newline.

(** [r] rounds of the processes [ps] whose variables are [cnt]. *)
Definition rounds (cnt : Z → Z) (ps : list Z) (r : nat) : list Z :=
  concat ((fun j => concat ((fun p => test_line (cnt p - j)) <$> ps)) <$> seqZ 0 (Z.of_nat r)).

Lemma fmt_test_spec strs i : 0 ≤ i < 2147483648 → fmt_spec strs fmt_test [i] = Some (test_line i).
Proof.
  intros Hi. unfold fmt_test, test_line. change (chars "test: %d" ++ newline) with (chars "test: " ++ (37 :: 100 :: newline)).
  apply fmt_plain; [no_char|]. change (fmt_spec strs (37 :: 100 :: newline) [i]) with
    (n ← signed_numeral 32 (signed 32 i); o ← fmt_spec strs newline []; Some (n ++ o)).
  unfold signed, signed_numeral. change (2 ^ 32) with 4294967296. change (2 ^ (32 - 1)) with 2147483648.
  rewrite Z.mod_small, (proj2 (Z.ltb_lt i 2147483648)) by lia. rewrite (proj2 (Z.ltb_ge i 0)) by lia. cbn [mbind option_bind].
  by rewrite fmt_text by no_char.
Qed.

Lemma test_line_ok i : 13 ∉ test_line i ∧ (length (test_line i) ≤ 71)%nat.
Proof.
  unfold test_line. rewrite !elem_of_app, !length_app. split.
  - intros [H|[H|H]]; [revert H; no_char| |revert H; no_char]. unfold numeral in H. destruct (i =? 0); [by apply list_elem_of_singleton in H|].
    eapply (numeral_of_all 64 10 dec_char i (fun x => x ≠ 13)); [lia| |exact H|done]. intros j Hj. cbn beta. unfold dec_char. lia.
  - unfold numeral. pose proof (numeral_of_length 64 10 dec_char i). change (length (chars "test: ")) with 6%nat. change (length newline) with 1%nat.
    destruct (i =? 0); cbn [length]; lia.
Qed.

(** ** Correctness *)

Section Correct.
Context {DK DC : Type} `{HK : PortIO DK} `{HC : PortIO DC}.
Context (main_proc rq bq : Z) (U : list Z).
Hypothesis HU : universe rq U.
Hypothesis HB : universe bq U.
Hypothesis Hqq : apart rq 24 bq 24.
Hypothesis Hmain : main_proc ∈ U.
Context (d0 : DC) (n : nat) (hs : list (Z * Z)).
Hypothesis Hn : Z.of_nat n < 4294967295.
#[local] Instance stress_console : Console (console (D := DC)) := display_console d0 n hs Hn.
Context (buf lit_0x lit_test : Z) (sfuel fuel : nat) (strs : Z → option (list Z)).
Hypothesis Hbuf : apart buf 65 X86_VGA_ADDR 4000.
Hypothesis Hconsole : ∀ x, console_byte buf x → ¬ guarded rq bq U x.
(** The literals lie elsewhere. *)
Hypothesis Hlit : ∀ x, lit_test ≤ x < lit_test + 10 → ¬ guarded rq bq U x ∧ ¬ console_byte buf x.
Hypothesis Hstrs : ∀ a s x, strs a = Some s → a ≤ x < a + Z.of_nat (length s) + 1 → ¬ guarded rq bq U x ∧ ¬ console_byte buf x.
Hypothesis Hfuel : (9 < fuel)%nat.

(** [t] is on the console, and the processor and the queues are those of [a]. *)
Record test_state (w : machine DK DC) (a : asched) (ctx : Z → cpu) (t : list Z) : Prop := {
  ts_sys : system main_proc rq bq U (m_s w) a ctx n;
  ts_hs : handlers (k_irq (s_k (m_s w))) = hs;
  ts_shown : shown d0 n hs (m_console w) t;
  ts_fmt : cstr (s_mem (m_s w)) lit_test fmt_test;
  ts_strs : strings_ok buf lit_0x sfuel strs (s_mem (m_s w))
}.

Lemma texts_ext m m' :
  (∀ x, ¬ guarded rq bq U x → ¬ console_byte buf x → rd8 m' x = rd8 m x) →
  cstr m lit_test fmt_test → strings_ok buf lit_0x sfuel strs m →
  cstr m' lit_test fmt_test ∧ strings_ok buf lit_0x sfuel strs m'.
Proof using Hlit Hstrs.
  clear - Hlit Hstrs. intros Hm Hc [E5 E6]. split.
  - eapply cstr_ext; [|exact Hc]. intros x Hx. symmetry. destruct (Hlit x) as [H1 H2]; [cbn in Hx; lia|]. by apply Hm.
  - split; [|done]. intros a s Hs. destruct (E5 a s Hs) as (Hc' & Hcl & Hl). split; [|done]. eapply cstr_ext; [|exact Hc'].
    intros x Hx. symmetry. destruct (Hstrs a s x Hs ltac:(lia)) as [H1 H2]. by apply Hm.
Qed.

(** One turn: a line is printed and the next process runs. *)
Lemma test_func_step_ok w a a' ctx t i c :
  test_state w a ctx t → a_step main_proc SYield a = Some a' → 0 < i < 2147483648 → length (c_stack c) = 15%nat →
  Z.of_nat (length t) + 71 < 4294967296 →
  ∃ c' w' ctx', test_func_step main_proc rq buf lit_0x lit_test sfuel fuel i c w = Ok (Some (i - 1, c', w')) ∧
    test_state w' a' ctx' (t ++ test_line i) ∧ length (c_stack c') = 15%nat.
Proof using HU HB Hqq Hmain Hn Hbuf Hconsole Hlit Hstrs Hfuel.
  intros [Sy Hh Sh Hf Hs] Ha Hi Hc Hlen. unfold test_func_step. rewrite (proj2 (Z.eqb_neq i 0)) by lia.
  destruct (test_line_ok i) as [L1 L2].
  destruct (machine_says main_proc rq bq U Hmain d0 n hs Hn buf lit_0x sfuel fuel strs Hbuf w a ctx t lit_test fmt_test [i] (test_line i))
    as (con & E & Sy1 & Hh1 & Sh1 & F1); try done; [|by apply fmt_test_spec; lia|lia|].
  { apply (literal_at d0 n hs Hn); [done| |done]. intros x Hx. apply Hlit. cbn in Hx. lia. }
  rewrite E, bind_Ok. set (w1 := m_set_console w con) in *.
  destruct (stepped_cpu main_proc rq bq U _ _ _ _ _ _ (m_kd w1) _
    (step_yield main_proc rq bq U HU HB Hqq Hmain (m_s w1) a a' ctx n c (m_kd w1) Sy1 Ha Hn Hc) Hc) as (c' & s' & ctx' & E' & Sy' & [F' Hd'] & Hc').
  rewrite E', bind_Ok, as_int_ok, bind_Ok by lia. eexists c', _, ctx'. split; [done|]. split; [|done].
  destruct (texts_ext (s_mem (m_s w)) (s_mem s')) as [T1 T2]; [|done|done|].
  { intros x X1 X2. by rewrite F', F1. }
  split; cbn [m_set m_s]; [done|by rewrite Hd'| |done|done].
  destruct (rd_irq _ _ _ _ _ (bl_ready _ _ _ _ _ _ _ (sy_queues _ _ _ _ _ _ _ _ Sy'))) as [I1 I2].
  unfold m_console. cbn [m_set m_x m_y m_s m_ser m_cd]. eapply shown_ext; [exact Sh1| |done|by rewrite Hd'].
  intros z Hz. apply F', Hconsole. by left.
Qed.

(** ** Turn by turn *)

Fixpoint lines (k : nat) (ps : list Z) (loc : gmap Z Z) : option (list Z * list Z * gmap Z Z) :=
  match k, ps with
  | O, _ => Some ([], ps, loc)
  | S k, p :: ps =>
      match loc !! p with
      | Some i =>
          if decide (0 < i < 2147483648) then
            match lines k (ps ++ [p]) (<[p := i - 1]> loc) with
            | Some (out, ps, loc) => Some (test_line i ++ out, ps, loc)
            | None => None
            end
          else None
      | None => None
      end
  | _, _ => None
  end.

Lemma test_run_lines k : ∀ w p q bs ctx t c loc out ps' loc',
  test_state w (mkA p q bs) ctx t → p ≠ main_proc → length (c_stack c) = 15%nat →
  lines k (p :: q) loc = Some (out, ps', loc') → Z.of_nat (length t) + 71 * Z.of_nat k < 4294967296 →
  ∃ c' w' p' q' ctx', test_run main_proc rq buf lit_0x lit_test sfuel fuel k c w loc = Ok (c', w', loc') ∧
    ps' = p' :: q' ∧ test_state w' (mkA p' q' bs) ctx' (t ++ out).
Proof using HU HB Hqq Hmain Hn Hbuf Hconsole Hlit Hstrs Hfuel.
  induction k as [|k IH]; intros w p q bs ctx t c loc out ps' loc' St Hp Hc Hl Hlen; cbn [lines test_run] in *.
  { injection Hl as <- <- <-. exists c, w, p, q, ctx. by rewrite app_nil_r. }
  rewrite (proj1 (sy_curr _ _ _ _ _ _ _ _ (ts_sys _ _ _ _ St))). cbn [a_cur].
  destruct (loc !! p) as [i|]; [|done]. destruct (decide (0 < i < 2147483648)) as [Hi|]; [|done].
  destruct (lines k (q ++ [p]) (<[p := i - 1]> loc)) as [[[o ps1] loc1]|] eqn:El; [|done]. injection Hl as <- -> ->.
  destruct (test_func_step_ok w (mkA p q bs) (match q with [] => mkA p q bs | p' :: q' => mkA p' (q' ++ [p]) bs end) ctx t i c St)
    as (c1 & w1 & ctx1 & E & St1 & Hc1); [cbn [a_step]; by rewrite decide_False by done|done|done|lia|].
  rewrite E, bind_Ok. destruct (test_line_ok i) as [_ L2].
  pose proof (sy_main _ _ _ _ _ _ _ _ (ts_sys _ _ _ _ St)) as Hm. unfold a_ok in Hm. cbn [a_ready a_blocked] in Hm.
  assert (Hgo : ∀ p1 q1, test_state w1 (mkA p1 q1 bs) ctx1 (t ++ test_line i) → p1 ≠ main_proc → q ++ [p] = p1 :: q1 →
    ∃ c' w' p' q' ctx', test_run main_proc rq buf lit_0x lit_test sfuel fuel k c1 w1 (<[p := i - 1]> loc) = Ok (c', w', loc') ∧
      ps' = p' :: q' ∧ test_state w' (mkA p' q' bs) ctx' (t ++ test_line i ++ o)).
  { intros p1 q1 St' Hp1 Eq. rewrite Eq in El. rewrite (app_assoc t). eapply IH; [exact St'|done|done|exact El|rewrite length_app; lia]. }
  destruct q as [|p' q]; apply (Hgo _ _ St1); [done|done|intros ->; apply Hm; left|done].
Qed.

(** ** Round by round *)

Definition counted (cnt : Z → Z) (ps : list Z) (loc : gmap Z Z) : Prop := ∀ p, p ∈ ps → loc !! p = Some (cnt p).

Lemma lines_round l1 : ∀ cnt l2 k loc,
  NoDup (l1 ++ l2) → counted cnt (l1 ++ l2) loc → (∀ p, p ∈ l1 → 0 < cnt p < 2147483648) →
  ∃ loc', counted (fun p => if decide (p ∈ l1) then cnt p - 1 else cnt p) (l2 ++ l1) loc' ∧
    lines (length l1 + k) (l1 ++ l2) loc =
      match lines k (l2 ++ l1) loc' with Some (o, ps, loc) => Some (concat ((fun p => test_line (cnt p)) <$> l1) ++ o, ps, loc) | None => None end.
Proof using.
  clear. induction l1 as [|p l1 IH]; intros cnt l2 k loc Nd Hc Hr.
  - exists loc. rewrite app_nil_r. cbn [app length Nat.add fmap list_fmap concat].
    split; [intros x Hx; rewrite decide_False; [by apply Hc|by apply not_elem_of_nil]|]. by destruct (lines k l2 loc) as [[[o ps] loc1]|].
  - cbn [app] in Nd, Hc. apply NoDup_cons in Nd as [Hp Nd]. cbn [app length Nat.add lines].
    rewrite (Hc p ltac:(left)), decide_True by (apply Hr; left). rewrite <- app_assoc.
    set (cnt' := fun x => if decide (x = p) then cnt p - 1 else cnt x).
    assert (Hne : ∀ x, x ∈ l1 → x ≠ p) by (intros x Hx ->; apply Hp, elem_of_app; by left).
    assert (Hc' : ∀ x, x ∈ l1 → cnt' x = cnt x) by (intros x Hx; unfold cnt'; by rewrite decide_False by auto).
    destruct (IH cnt' (l2 ++ [p]) k (<[p := cnt p - 1]> loc)) as (loc' & C' & E').
    + rewrite app_assoc. apply NoDup_app. split; [done|]. split; [by intros x Hx ->%list_elem_of_singleton|apply NoDup_singleton].
    + intros x Hx. unfold cnt'. destruct (decide (x = p)) as [->|Hxp]; [by rewrite lookup_insert_eq|].
      rewrite lookup_insert_ne by done. apply Hc. rewrite !elem_of_app, list_elem_of_singleton in Hx. rewrite elem_of_cons, elem_of_app. tauto.
    + intros x Hx. rewrite Hc' by done. apply Hr. by right.
    + exists loc'. rewrite E', <- app_assoc. cbn [app]. split.
      * intros x Hx. rewrite (C' x) by (by rewrite <- app_assoc). f_equal. unfold cnt'.
        destruct (decide (x ∈ l1)) as [Hx1|Hx1]; [rewrite (decide_True (P := x ∈ p :: l1)) by (by right); by rewrite decide_False by auto|].
        destruct (decide (x = p)) as [->|Hxp]; [by rewrite decide_True by left|]. rewrite decide_False; [done|]. by intros [?|?]%elem_of_cons.
      * assert (Em : (fun q => test_line (cnt' q)) <$> l1 = (fun q => test_line (cnt q)) <$> l1).
        { apply list_fmap_ext. intros j x Hx. rewrite Hc'; [done|]. by apply list_elem_of_lookup_2 in Hx. }
        rewrite Em. destruct (lines k (l2 ++ p :: l1) loc') as [[[o ps] loc1]|]; [|done]. cbn [fmap list_fmap concat]. by rewrite <- app_assoc.
Qed.

Lemma rounds_S cnt ps r : rounds cnt ps (S r) = concat ((fun p => test_line (cnt p)) <$> ps) ++ rounds (fun p => cnt p - 1) ps r.
Proof using.
  clear. unfold rounds. rewrite Nat2Z.inj_succ, seqZ_cons by lia. cbn [fmap list_fmap concat]. f_equal.
  - f_equal. apply list_fmap_ext. intros j x _. by rewrite Z.sub_0_r.
  - f_equal. rewrite Z.pred_succ. change (Z.succ 0) with (0 + 1). rewrite <- (fmap_add_seqZ 1 0), <- list_fmap_compose.
    apply list_fmap_ext. intros j x _. unfold compose. f_equal. apply list_fmap_ext. intros j' y _. f_equal. lia.
Qed.

Lemma lines_rounds r : ∀ cnt ps loc, NoDup ps → counted cnt ps loc → (∀ p, p ∈ ps → Z.of_nat r ≤ cnt p < 2147483648) →
  ∃ loc', lines (r * length ps) ps loc = Some (rounds cnt ps r, ps, loc') ∧ counted (fun p => cnt p - Z.of_nat r) ps loc'.
Proof using.
  clear. induction r as [|r IH]; intros cnt ps loc Nd Hc Hr; cbn [Nat.mul].
  - exists loc. split; [by destruct ps|]. intros p Hp. rewrite Z.sub_0_r. by apply Hc.
  - destruct (lines_round ps cnt [] (r * length ps) loc) as (loc1 & C1 & E1).
    + by rewrite app_nil_r.
    + by rewrite app_nil_r.
    + intros p Hp. specialize (Hr p Hp). lia.
    + rewrite app_nil_r in E1. cbn [app] in E1, C1. rewrite E1.
      destruct (IH (fun p => cnt p - 1) ps loc1 Nd) as (loc' & E2 & C2).
      * intros p Hp. by rewrite (C1 p Hp), decide_True.
      * intros p Hp. specialize (Hr p Hp). lia.
      * exists loc'. rewrite E2, rounds_S. split; [done|]. intros p Hp. rewrite (C2 p Hp). f_equal. lia.
Qed.

(** C20: the lines of the test processes alternate.  Let the running process and
    those on the ready queue be in [test_func], each with its own counter of at
    least [r].  Then after [r] turns of each of them the code has terminated and
    the console shows, round by round and in the order of the queue, the line of
    each process with its counter, counted down by one in each round; processor
    and queues are as before, and the counters are lower by [r]. *)
Theorem test_processes_alternate (r : nat) (w : machine DK DC) (p : Z) (q bs : list Z) (ctx : Z → cpu) (t : list Z) (c : cpu)
    (loc : gmap Z Z) (cnt : Z → Z) :
  test_state w (mkA p q bs) ctx t → p ≠ main_proc → length (c_stack c) = 15%nat → counted cnt (p :: q) loc →
  (∀ x, x ∈ p :: q → Z.of_nat r ≤ cnt x < 2147483648) → Z.of_nat (length t) + 71 * Z.of_nat (r * S (length q)) < 4294967296 →
  ∃ c' w' ctx' loc', test_run main_proc rq buf lit_0x lit_test sfuel fuel (r * S (length q)) c w loc = Ok (c', w', loc') ∧
    test_state w' (mkA p q bs) ctx' (t ++ rounds cnt (p :: q) r) ∧ counted (fun x => cnt x - Z.of_nat r) (p :: q) loc'.
Proof using HU HB Hqq Hmain Hn Hbuf Hconsole Hlit Hstrs Hfuel.
  intros St Hp Hc Hl Hr Hlen. pose proof (ts_sys _ _ _ _ St) as Sy.
  assert (Nd : NoDup (p :: q)).
  { pose proof (bl_nodup _ _ _ _ _ _ _ (sy_queues _ _ _ _ _ _ _ _ Sy)) as Nd. cbn [a_ready a_blocked] in Nd. apply NoDup_app in Nd as [Nd _].
    apply NoDup_cons. split; [|done]. pose proof (proj2 (sy_in _ _ _ _ _ _ _ _ Sy)) as Hni. cbn [a_cur a_ready a_blocked] in Hni.
    rewrite elem_of_app in Hni. tauto. }
  destruct (lines_rounds r cnt (p :: q) loc Nd Hl Hr) as (loc' & El & C'). cbn [length] in El.
  destruct (test_run_lines (r * S (length q)) w p q bs ctx t c loc _ _ loc' St Hp Hc El Hlen) as (c' & w' & p' & q' & ctx' & E & [= <- <-] & St').
  by exists c', w', ctx', loc'.
Qed.
End Correct.

(** ** Example: two processes count down from 2 and 12 *)

Definition demo_stress_text : mem := poke (poke (s_mem demo_woken) 0x5200 fmt_test) 0x5210 (chars "0x").
Definition demo_stress_irqs : irqs := k_irq (s_k demo_woken).
Definition demo_stress_mem : mem := v_mem (VGA_clear (mkVga 0 0 demo_stress_text demo_stress_irqs)).
Definition demo_stress : machine (list Z) scripted :=
  mkM (s_set_mem demo_woken demo_stress_mem) (mkPs2 0 (replicate 128 0) 0 1) 0 0 (Some gdev) [] (mkDev [0x20] []).

Lemma demo_stress_rd8 x : x < X86_VGA_ADDR → rd8 demo_stress_mem x = rd8 demo_stress_text x.
Proof.
  intros Hx. cbn [demo_stress_mem VGA_clear v_mem]. rewrite memset_rd8 by (vm_compute; congruence). by rewrite decide_False by lia.
Qed.

Lemma demo_stress_low x : x < 0x5000 → rd8 demo_stress_mem x = rd8 (s_mem demo_woken) x.
Proof.
  intros Hx. rewrite demo_stress_rd8 by (unfold X86_VGA_ADDR; lia). unfold demo_stress_text, poke. cbn [fold_left fst snd app chars fmt_test newline].
  by rewrite !rd8_wr8_ne by lia.
Qed.

Lemma demo_stress_cstr a s : a + Z.of_nat (length s) < X86_VGA_ADDR → cstr demo_stress_text a s → cstr demo_stress_mem a s.
Proof. intros Ha. apply cstr_ext. intros x Hx. symmetry. apply demo_stress_rd8. lia. Qed.

Lemma demo_stress_state :
  test_state 0x3000 0x200 0x100 demo_procs (mkDev [0x20] []) 0 (replicate 256 (0x77, 0)) demo_n 0x7000 0x5210 0x5200 3 demo_0x
    demo_stress (mkA 0x1000 [0x2000] []) (fun _ => demo_cpu) [].
Proof.
  split.
  - apply (system_stable 0x3000 0x200 0x100 demo_procs ltac:(right; right; left)); [|exact demo_woken_system].
    intros x Hx. by apply demo_stress_low, demo_guarded.
  - by vm_compute.
  - split; [apply (VGA_clear_rep (mkVga 0 0 demo_stress_text demo_stress_irqs))|done|by split; vm_compute|by vm_compute|].
    intros dev [= <-]. split; [apply gdev_rep|done].
  - apply demo_stress_cstr; by vm_compute.
  - split; [|done]. intros a s. unfold demo_0x. destruct (Z.eqb_spec a 0x5210) as [->|]; [|done]. intros [= <-].
    split; [apply demo_stress_cstr; by vm_compute|]. split; [|cbn; lia].
    split; unfold apart; cbn [con_buf stress_console display_console fst snd]; vm_compute; left; congruence.
Qed.

Lemma test_processes_alternate_witness :
  ∃ c' w' loc', test_run 0x3000 0x200 0x7000 0x5210 0x5200 3 10 4 demo_cpu demo_stress {[0x1000 := 2; 0x2000 := 12]} = Ok (c', w', loc') ∧
    shown (mkDev [0x20] []) 0 (replicate 256 (0x77, 0)) (m_console w')
      (chars "test: 2" ++ newline ++ chars "test: 12" ++ newline ++ chars "test: 1" ++ newline ++ chars "test: 11" ++ newline).
Proof.
  assert (Hs : ∀ x, console_byte 0x7000 x → 0x7000 ≤ x) by (unfold console_byte, X86_VGA_ADDR; lia).
  pose proof (test_processes_alternate (DK := list Z) (DC := scripted) 0x3000 0x200 0x100 demo_procs (demo_procs_universe 0x200 (or_intror eq_refl))
    (demo_procs_universe 0x100 (or_introl eq_refl)) ltac:(unfold apart; lia) ltac:(right; right; left) (mkDev [0x20] []) 0 (replicate 256 (0x77, 0)) demo_n
    0x7000 0x5210 0x5200 3 10 demo_0x ltac:(left; vm_compute; congruence)) as H.
  specialize (H ltac:(intros x Hx Hg%demo_guarded; apply Hs in Hx; lia)).
  specialize (H ltac:(intros x Hx; split; [intros Hg%demo_guarded|intros Hg%Hs]; lia)).
  specialize (H ltac:(intros a s x Ha Hx; unfold demo_0x in Ha; destruct (Z.eqb_spec a 0x5210) as [->|]; [|done]; injection Ha as <-; cbn in Hx;
    split; [intros Hg%demo_guarded|intros Hg%Hs]; lia) ltac:(lia)).
  specialize (H 2%nat demo_stress 0x1000 [0x2000] [] (fun _ => demo_cpu) [] demo_cpu {[0x1000 := 2; 0x2000 := 12]}
    (fun p => if p =? 0x1000 then 2 else 12) demo_stress_state ltac:(done) eq_refl).
  specialize (H ltac:(intros x Hx; rewrite !elem_of_cons, elem_of_nil in Hx; destruct Hx as [->|[->|[]]]; reflexivity)).
  specialize (H ltac:(intros x Hx; rewrite !elem_of_cons, elem_of_nil in Hx; destruct Hx as [->|[->|[]]]; cbn; lia) ltac:(cbn; lia)).
  destruct H as (c' & w' & ctx' & loc' & E & St & _). exists c', w', loc'. split; [exact E|]. exact (ts_shown _ _ _ _ _ _ _ _ _ _ _ _ _ _ _ _ _ St).
Defined.
