(* ===== verification/Dump.v ===== *)
(** * Dumping a block (src/src/procs/fs.c, [dump_block])

    The debugging aid of the file-system process: a block of a device, read into
    a fresh buffer and printed in hexadecimal. *)

From S2P Require Import Prelude Memory CString LinkedList Segments Frames Machine Irq Paging Mmu Kmalloc Objects Sched Blocking Vga Serial Printk Keyboard Fs Pci Ata Report Echo.

(** ** The code *)

Section Loop.
Context {C : Type} `{Hops : ConsoleOps C}.
Context (buf lit_0x lit_x lit_nl : Z) (sfuel fuel : nat).

(** Lines 22-26 from index [i] on, with [k] bytes left; [buff] is an array of
    unsigned bytes. *)
Fixpoint dump_loop (k : nat) (i buff : Z) (c : C) : outcome C :=
  match k with
  | O => Ok c
  | S k =>
      c ← say buf lit_0x sfuel fuel lit_x [rd8 (con_mem c) (buff + i)] c;
      c ← (if truth i && negb (truth (Z.rem i 32)) then say buf lit_0x sfuel fuel lit_nl [] c else Ok c);
      dump_loop k (i + 1) buff c
  end.
End Loop.

Section Code.
Context {DK DC : Type} `{HK : PortIO DK} `{HC : PortIO DC}.
Context (pools buf lit_0x lit_x lit_nl : Z) (sfuel fuel : nat).

(** [read_block] calls the function at a pointer; the counter is an [int], so
    the size of a block is below 2^31. *)
Definition dump_block (read_block : Z → Z → Z → Z → machine DK DC → outcome (Z * machine DK DC)) (blk block : Z) (w : machine DK DC) :
    outcome (machine DK DC) :=
  r ← fs_kmalloc pools (rd64 (s_mem (m_s w)) (blk + off_blk_size)) (m_fs w);
  let buff := r.1 in
  let w := m_set_fs w r.2 in
  if buff =? NULL then Ok (m_set_fs w (fs_klog KLOG_LEVEL_WARN "could not allocate memory" (m_fs w)))
  else
    let w := m_set_fs w (fs_klog KLOG_LEVEL_WARN "doing second read" (m_fs w)) in
    r ← read_block (rd64 (s_mem (m_s w)) blk) blk block buff w;
    let w := m_set_fs r.2 (fs_klog KLOG_LEVEL_WARN "done doing second read" (m_fs r.2)) in
    con ← dump_loop buf lit_0x lit_x lit_nl sfuel fuel (Z.to_nat (rd64 (s_mem (m_s w)) (blk + off_blk_size))) 0 buff (m_console w);
    Ok (m_set_console w con).
End Code.

(** ** What it prints *)

Definition fmt_x : list Z := chars "%x ".

(** The bytes [l], the first of which has index [i]: the line is broken after
    every index that is a multiple of 32, except 0, so that the first line has
    33 bytes. *)
Fixpoint hex_dump (i : Z) (l : list Z) : list Z :=
  match l with
  | [] => []
  | b :: l =>
      (numeral 16 (hex_char 97) b ++ [32]) ++ (if negb (i =? 0) && (i mod 32 =? 0) then newline else []) ++ hex_dump (i + 1) l
  end.

Lemma fmt_x_spec strs b : 0 ≤ b < 256 → fmt_spec strs fmt_x [b] = Some (numeral 16 (hex_char 97) b ++ [32]).
Proof.
  intros Hb. change (Some (numeral 16 (hex_char 97) (b mod 4294967296) ++ [32]) = Some (numeral 16 (hex_char 97) b ++ [32])).
  by rewrite Z.mod_small by lia.
Qed.

Lemma hex_piece b : 13 ∉ numeral 16 (hex_char 97) b ++ [32] ∧ (length (numeral 16 (hex_char 97) b ++ [32%Z]) ≤ 65)%nat.
Proof.
  split.
  - intros [H|H%list_elem_of_singleton]%elem_of_app; [by apply hex_numeral_13 in H|done].
  - rewrite length_app. unfold numeral. pose proof (numeral_of_length 64 16 (hex_char 97) b). destruct (b =? 0); cbn [length]; lia.
Qed.

Section Correct.
Context {C : Type} `{Hops : ConsoleOps C} `{Hcon : !Console C}.
Context (buf lit_0x lit_x lit_nl : Z) (sfuel fuel : nat) (strs : Z → option (list Z)).
Hypothesis Hbuf : apart buf 65 con_buf.1 con_buf.2.

(** The dump of a block.  The loop of [dump_block] prints every byte of the
    buffer in hexadecimal, in order, with the line breaks of [hex_dump], and
    leaves memory outside the console unchanged. *)
Theorem dump_loop_prints (m0 : mem) (buff : Z) (l : list Z) : ∀ (i : Z) (c : C) (t : list Z),
  strings_ok buf lit_0x sfuel strs m0 → literal buf fuel m0 lit_x fmt_x → literal buf fuel m0 lit_nl newline →
  0 ≤ i → clear_of buf (buff + i) (Z.of_nat (length l)) → (∀ j b, l !! j = Some b → rd8 m0 (buff + i + Z.of_nat j) = b) →
  printed buf m0 c t → Z.of_nat (length t) + 66 * Z.of_nat (length l) < 4294967296 →
  prints buf m0 (dump_loop buf lit_0x lit_x lit_nl sfuel fuel (length l) i buff c) t (hex_dump i l).
Proof using Hbuf.
  induction l as [|b l IH]; intros i c t Hs Hx Hnl Hi Hcl Hl Hp Hlen; cbn [length dump_loop hex_dump].
  { exists c. rewrite app_nil_r. by split. }
  assert (Hb : rd8 (con_mem c) (buff + i) = b).
  { rewrite <- (Hl 0%nat b eq_refl). rewrite Z.add_0_r. destruct Hp as [_ F]. destruct Hcl as [A1 A2]. unfold apart in *. cbn [length] in *. apply F; lia. }
  pose proof (rd8_range (con_mem c) (buff + i)) as Hr. rewrite Hb in Hr |- *.
  destruct (hex_piece b) as [H13 H65]. cbn [length] in Hlen.
  apply prints_bind; [apply (say_ok buf lit_0x sfuel fuel strs Hbuf m0 lit_x fmt_x); [done|done|by apply fmt_x_spec|done|done|lia]|].
  intros c1 P1. assert (E32 : truth i && negb (truth (Z.rem i 32)) = negb (i =? 0) && (i mod 32 =? 0)).
  { unfold truth. by rewrite negb_involutive, Z.rem_mod_nonneg by lia. }
  rewrite E32. clear E32. apply prints_bind.
  - destruct (negb (i =? 0) && (i mod 32 =? 0)).
    + apply (say_ok buf lit_0x sfuel fuel strs Hbuf m0 lit_nl newline); [done|done|apply fmt_text; no_char|done|no_char|rewrite length_app; cbn; lia].
    + exists c1. rewrite app_nil_r. by split.
  - intros c2 P2. apply IH; try done; [lia| | |].
    + destruct Hcl as [A1 A2]. split; unfold apart in *; cbn [length] in *; lia.
    + intros j b' Hj. rewrite <- (Hl (S j) b' Hj). f_equal. lia.
    + set (piece := numeral 16 (hex_char 97) b ++ [32]) in *. clearbody piece. rewrite !length_app.
      destruct (negb (i =? 0) && (i mod 32 =? 0)); cbn; lia.
Qed.
End Correct.
