(* ===== verification/Probe.v ===== *)
(** * Probing an ATA controller (src/src/drivers/disk/ata.c, pci.c)

    [ata_probe] runs against whatever device answers the ports.  It allocates
    the driver's object, takes the ports from configuration space, asks the drive
    to identify itself and registers a block device, or gives the object back.
    The theorem says in which state each of these ends leaves the kernel. *)

From S2P Require Import Prelude Memory CString LinkedList Segments Frames Machine Irq Paging Mmu Kmalloc Objects Sched Fs HwInit Pci Ata Fat Mount Disk.

Lemma bind_Ok_inv {A B} (f : A → outcome B) (x : outcome A) (b : B) : mbind f x = Ok b → ∃ a, x = Ok a ∧ f a = Ok b.
Proof. destruct x as [a| |]; [|done..]. intros E. by exists a. Qed.

(** ** Allocation does not touch the interrupt handlers *)

Lemma MMU_alloc_page_handlers k a k' : MMU_alloc_page k = Ok (a, k') → handlers (k_irq k') = handlers (k_irq k).
Proof.
  unfold MMU_alloc_page. case_match.
  - intros [= <- <-]. apply IRQ_disable_handlers.
  - intros (r & _ & E)%bind_Ok_inv. injection E as <- <-. cbn [k_irq]. by rewrite IRQ_enable_handlers, IRQ_disable_handlers.
Qed.

Lemma alloc_pages_loop_handlers n : ∀ k b k', alloc_pages_loop n k = Ok (b, k') → handlers (k_irq k') = handlers (k_irq k).
Proof.
  induction n as [|n IH]; intros k b k'; cbn [alloc_pages_loop]; [by intros [= <- <-]|].
  intros ([a k1] & E1 & E)%bind_Ok_inv. apply MMU_alloc_page_handlers in E1. cbn [fst snd] in E. case_match.
  - injection E as <- <-. done.
  - rewrite <- E1. by apply (IH _ b).
Qed.

Lemma MMU_alloc_pages_handlers n k a k' : MMU_alloc_pages n k = Ok (a, k') → handlers (k_irq k') = handlers (k_irq k).
Proof.
  unfold MMU_alloc_pages. case_match; [by intros [= <- <-]|]. intros ([a1 k1] & E1 & E)%bind_Ok_inv.
  apply MMU_alloc_page_handlers in E1. cbn [k_irq] in E1. rewrite IRQ_disable_handlers in E1. cbn [fst snd] in E. case_match.
  - by injection E as <- <-.
  - apply bind_Ok_inv in E as ([b k2] & E2 & E). apply alloc_pages_loop_handlers in E2. cbn [fst snd] in E.
    case_match; injection E as <- <-; cbn [k_irq]; rewrite ?IRQ_enable_handlers; congruence.
Qed.

(** A request calls the page source at most once. *)
Lemma kmalloc_pages {PS : Type} `{PageSource PS} (P : PS → Prop) pools size m s p m' s' :
  (∀ n a t t', ps_alloc n t = Ok (a, t') → P t → P t') →
  kmalloc pools size m s = Ok (p, (m', s')) → P s → P s'.
Proof.
  intros HP E Hs. unfold kmalloc in E. case_match; [by injection E as <- <- <-|]. case_match.
  - apply bind_Ok_inv in E as ([q [m1 s1]] & E1 & E). assert (Hs1 : P s1).
    { unfold kmalloc_alloc in E1. apply bind_Ok_inv in E1 as ([x [m2 s2]] & E2 & E1). assert (Hs2 : P s2).
      { destruct (free_head m _ =? NULL) in E2; [|by injection E2 as <- <- <-]. unfold kmalloc_increase_pool in E2. destruct (negb _) in E2; [by injection E2 as <- <- <-|].
        apply bind_Ok_inv in E2 as ([a t] & E3 & E2). apply HP in E3; [|done]. cbn [fst snd] in E2.
        destruct (a =? NULL) in E2; by injection E2 as <- <- <-. }
      cbn [fst snd] in E1. repeat case_match; by simplify_eq. }
    cbn [fst snd] in E. case_match; by injection E as <- <- <-.
  - apply bind_Ok_inv in E as ([a t] & E1 & E). apply HP in E1; [|done]. cbn [fst snd] in E. case_match; by injection E as <- <- <-.
Qed.

(** ** Polling and reading, whatever the device *)

Section Poll.
Context {D : Type} `{Hport : PortIO D}.

(** The device after [n] reads of a port. *)
Fixpoint polled (n : nat) (port : Z) (d : D) : D :=
  match n with O => d | S n => polled n port (inb port d).2 end.

(** [n] successive reads of the port all show the bits [mask] set ([v] true)
    or all show them clear. *)
Definition stuck (n : nat) (port mask : Z) (v : bool) (d : D) : Prop :=
  ∀ i, (i < n)%nat → truth (Z.land (inb port (polled i port d)).1 mask) = v.

Lemma stuck_S n port mask v d :
  truth (Z.land (inb port d).1 mask) = v → stuck n port mask v (inb port d).2 → stuck (S n) port mask v d.
Proof using. intros H0 Hn [|i] Hi; cbn [polled]; [done|]. apply Hn. lia. Qed.

(** The loops end as soon as the drive answers, and only then. *)
Lemma ata_wait_not_busy_ends cntl : ∀ fuel d,
  (∃ d', ata_wait_not_busy fuel cntl d = Ok d') ∨ (ata_wait_not_busy fuel cntl d = Hang ∧ stuck fuel cntl ATA_SR_BSY true d).
Proof using.
  induction fuel as [|fuel IH]; intros d; cbn [ata_wait_not_busy]; [right; split; [done|intros i Hi; lia]|].
  destruct (inb cntl d) as [v d'] eqn:E. destruct (truth (Z.land v ATA_SR_BSY)) eqn:Ev; [|left; by exists d'].
  destruct (IH d') as [?|[H1 H2]]; [by left|right]. split; [done|]. apply stuck_S; by rewrite E.
Qed.

Lemma ata_wait_data_ready_ends cntl : ∀ fuel d,
  (∃ d', ata_wait_data_ready fuel cntl d = Ok d') ∨ (ata_wait_data_ready fuel cntl d = Hang ∧ stuck fuel cntl ATA_SR_DRQ false d).
Proof using.
  induction fuel as [|fuel IH]; intros d; cbn [ata_wait_data_ready]; [right; split; [done|intros i Hi; lia]|].
  destruct (inb cntl d) as [v d'] eqn:E. destruct (truth (Z.land v ATA_SR_DRQ)) eqn:Ev; [left; by exists d'|].
  destruct (IH d') as [?|[H1 H2]]; [by left|right]. split; [done|]. apply stuck_S; by rewrite E.
Qed.

Lemma ata_read_words_only_in ata buff : ∀ k i m d, 0 ≤ i →
  only_in buff (2 * (i + Z.of_nat k)) m (ata_read_words k i ata buff m d).1.
Proof using.
  induction k as [|k IH]; intros i m d Hi; cbn [ata_read_words]; [by intros b Hb|].
  destruct (inw _ d) as [w d']. intros b Hb. rewrite IH by lia. apply rd8_wr_le_out. cbn. lia.
Qed.

(** Whatever the drive sends stays within the buffer. *)
Lemma ata_read_ends fuel ata buff m d :
  (∃ m' d', ata_read fuel ata buff m d = Ok (m', d') ∧ only_in buff 512 m m') ∨
  (ata_read fuel ata buff m d = Hang ∧ stuck fuel (ata_cntl m ata) ATA_SR_DRQ false d).
Proof using.
  unfold ata_read. destruct (ata_wait_data_ready_ends (ata_cntl m ata) fuel d) as [[d' ->]|[-> Hs]]; [left|by right].
  rewrite bind_Ok. pose proof (ata_read_words_only_in ata buff (Z.to_nat (ATA_BLOCK_SIZE / 2)) 0 m d' ltac:(lia)) as O.
  destruct (ata_read_words _ 0 ata buff m d') as [m' d2]. exists m', d2. split; [done|]. exact O.
Qed.

Lemma IRQ_clear_mask_ends irq s d : 0x20 ≤ irq < 0x30 → ∃ d', IRQ_clear_mask irq s d = Ok (s, d').
Proof using.
  intros Hi. unfold IRQ_clear_mask. rewrite mask_guard, pic_port_line by (done || (unfold PIC_MASTER_REMAP_BASE; lia)).
  destruct (inb _ d) as [v d']. rewrite int_bit_line, bind_Ok by done. by eexists.
Qed.
End Poll.

(** ** The configuration header *)

Section Header.
Context {PS : Type} `{Hps : PageSource PS} {D : Type} `{Hport : PortIO D} `{Hhost : !PciHost D}.
Context (dev hdr bus slot func : Z).
Hypothesis bus_range : 0 ≤ bus < 256.
Hypothesis slot_range : 0 ≤ slot < 32.
Hypothesis func_range : 0 ≤ func < 8.
Hypothesis hdr_apart : apart hdr 40 dev 48.

Definition dev_at (m : mem) : Prop :=
  rd8 m (dev + off_pci_bus) = bus ∧ rd8 m (dev + off_pci_slot) = slot ∧ rd8 m (dev + off_pci_func) = func.

Lemma dev_at_ext m m' : only_in hdr 40 m m' → dev_at m → dev_at m'.
Proof using hdr_apart.
  intros Hm. unfold dev_at, off_pci_bus, off_pci_slot, off_pci_func. by rewrite !Hm by (unfold apart in *; lia).
Qed.

Lemma read_bars_ok : ∀ k off m d, dev_at m → 0 ≤ off → off + Z.of_nat k ≤ 10 →
  let r := read_bars k off hdr dev m d in
  (∀ i, off ≤ i < off + Z.of_nat k → rd32 r.1 (hdr + 4 * i) = cfg d bus slot func i) ∧
  only_in (hdr + 4 * off) (4 * Z.of_nat k) m r.1.
Proof using bus_range slot_range func_range hdr_apart.
  induction k as [|k IH]; intros off m d Hm Ho Hk; cbv zeta.
  { split; [intros i Hi; lia|by intros b _]. }
  cbn [read_bars]. destruct (Hm) as (-> & -> & ->). rewrite (Z.mul_comm off 4), u8_small by lia.
  destruct (pci_read_config_ok bus slot func off d) as [E1 E2]; [done..|lia|].
  pose proof (pci_read_config_u32 bus slot func (4 * off) d) as Hv.
  destruct (pci_read_config bus slot func (4 * off) d) as [v d1]. cbn [fst snd] in *. subst v.
  set (m1 := wr32 m (hdr + 4 * off) _).
  assert (O1 : only_in (hdr + 4 * off) 4 m m1) by (apply (wr_le_only_in 4)).
  destruct (IH (off + 1) m1 d1) as [I2 I3]; [|lia|lia|].
  { eapply dev_at_ext; [|exact Hm]. intros b Hb. apply O1. lia. }
  split.
  - intros i Hi. destruct (decide (i = off)) as [->|].
    + unfold rd32. rewrite (rd_le_only_in 4 _ _ _ _ _ I3) by (unfold apart; cbn; lia).
      unfold m1, wr32. rewrite rd_le_wr_le. by apply Z.mod_small.
    + rewrite I2 by lia. by rewrite E2.
  - intros b Hb'. rewrite I3 by lia. apply O1. lia.
Qed.

(** The six base addresses of a header of type 0 are read into [hdr]; a header
    of another type is left alone. *)
Lemma PCI_read_config_header_0_ok (s : fss PS) (d : D) : dev_at (fs_mem s) →
  let r := PCI_read_config_header_0 dev hdr s d in
  fs_ps r.2.1 = fs_ps s ∧ only_in hdr 40 (fs_mem s) (fs_mem r.2.1) ∧
  (hdr_type (fs_mem s) (dev + off_pci_hdr) = 0 → ∀ i, 4 ≤ i < 10 → rd32 (fs_mem r.2.1) (hdr + 4 * i) = cfg d bus slot func i).
Proof using bus_range slot_range func_range hdr_apart.
  intros Hm. cbv zeta. unfold PCI_read_config_header_0. destruct (hdr_type _ _ =? 0) eqn:Et; cbn [negb].
  2: { apply Z.eqb_neq in Et. by split_and!. }
  set (m1 := (memcpy _ _ _ _).1). assert (O1 : only_in hdr 40 (fs_mem s) m1).
  { intros b Hb. unfold m1, memcpy. cbn [fst]. rewrite memcpy_loop_rd8, decide_False; [done| |]; unfold apart, off_pci_hdr, sizeof_PCIConfigHeader in *; lia. }
  destruct (read_bars_ok 6 4 m1 d) as [R1 R2]; [by eapply dev_at_ext|lia|lia|].
  destruct (read_bars 6 4 hdr dev m1 d) as [m2 d2]. cbn [fst snd fs_set_mem fs_ps fs_mem] in *.
  split; [done|]. split; [|by intros _]. intros b Hb. rewrite R2 by lia. by apply O1.
Qed.
End Header.

(** ** The probe *)

(** The states in which a probe can end. *)
Section Probe.
Context (files pools fn isr name hdr iden : Z).

(** The two local variables of [ata_probe]. *)
Definition locals : list (Z * Z) := [(hdr, 40); (iden, 512)].

(** The names of the registered devices are not in them. *)
Definition names_clear (m : mem) (ds : list Z) (bs : list bdesc) : Prop :=
  ∀ i d b w, ds !! i = Some d → bs !! i = Some b → w ∈ locals →
    apart (rd64 m (d + off_bdev_name)) (Z.of_nat (length (b_name b)) + 1) w.1 w.2.

(** Where the locals and the literal "ata" are. *)
Record probe_layout : Prop := {
  pl_fn : 0 ≤ fn < 18446744073709551616;
  pl_locals w : w ∈ locals → static pools w.1 w.2 ∧ apart w.1 w.2 (f_blocks files) 24 ∧ apart name 4 w.1 w.2;
  pl_sep : apart hdr 40 iden 512;
  pl_name : static pools name 4 ∧ apart name 4 (f_blocks files) 24
}.

(** The disk [ata] is registered: it is the last block device, with the size
    that the drive reported in word 100 of the block at [iden], at the ports that
    the header at [hdr] names, without requests or sleepers, and its interrupt
    reaches [ata_isr]; the drive said in word 83 that it has 48-bit addresses. *)
Record attached (m : mem) (k : kstate) (H : heap) (L : list (Z * Z)) (ds : list Z) (bs : list bdesc) (hs : list (Z * Z)) (ata : Z) : Prop := {
  at_blocks : blocks_inv files pools m k H L (ds ++ [ata]) (bs ++ [disk_desc fn]);
  at_new : ata ∉ ds;
  at_own : owned H ata sizeof_ATADevice;
  at_idle : ata_mem (bar_or (rd32 m (hdr + 16)) ATA_LEGACY_PRIMARY_BASE) (bar_or (rd32 m (hdr + 20)) ATA_LEGACY_PRIMARY_CNTL) ata m [];
  at_queue : list_rep m (ata + off_blocked) off_queue [];
  at_len : rd64 m (ata + off_total_len) = u64 (ATA_BLOCK_SIZE * rd64 m (iden + 200));
  at_lba48 : Z.testbit (rd16 m (iden + 166)) 10 = true;
  at_handler : handlers (k_irq k) = <[Z.to_nat ATA_PRIMARY_IRQ := (isr, ata)]> hs
}.

Hypothesis layout_ok : probe_layout.

(** *** While the probe runs *)

Record probing (m : mem) (k : kstate) (H : heap) (L : list (Z * Z)) (ds : list Z) (bs : list bdesc) (ata : Z) : Prop := {
  pb_blocks : blocks_inv files pools m k H L ds bs;
  pb_own : owned H ata sizeof_ATADevice;
  pb_fresh : fresh m ds ata;
  pb_names : names_clear m ds bs;
  pb_lit : cstr m name str_ata
}.

Lemma names_dev m k H L ds bs d b w : blocks_inv files pools m k H L ds bs → names_clear m ds bs → w ∈ locals →
  d ∈ ds → dev_is files pools m H d b → apart (rd64 m (d + off_bdev_name)) (Z.of_nat (length (b_name b)) + 1) w.1 w.2.
Proof using.
  intros B Hn Hw [i Hi]%list_elem_of_lookup Db.
  destruct (Forall2_lookup_l _ _ _ _ _ (bl_devs _ _ _ _ _ _ _ _ B) Hi) as (b' & Hb' & Db').
  destruct (di_name _ _ _ _ _ _ Db) as [C1 _], (di_name _ _ _ _ _ _ Db') as [C2 _].
  rewrite (cstr_inj _ _ _ _ C1 C2). by apply (Hn i).
Qed.

Lemma names_clear_ext m m' ds bs : (∀ d, d ∈ ds → rd64 m' (d + off_bdev_name) = rd64 m (d + off_bdev_name)) →
  names_clear m ds bs → names_clear m' ds bs.
Proof using. intros E Hn i d b w Hd Hb Hw. rewrite E by (by eapply list_elem_of_lookup_2). by apply (Hn i d b w). Qed.

Lemma lit_ext m m' : (∀ x, name ≤ x < name + 4 → rd8 m' x = rd8 m x) → cstr m name str_ata → cstr m' name str_ata.
Proof using. intros E Hc. eapply cstr_ext; [|exact Hc]. intros x Hx. symmetry. apply E. cbn in Hx. lia. Qed.

(** Stores to the device's object and to the locals keep this. *)
Lemma probing_own m m' k H L ds bs ata : probing m k H L ds bs ata → only_in ata sizeof_ATADevice m m' → probing m' k H L ds bs ata.
Proof using layout_ok.
  intros [B Ow Fr Nm Li] Hm. destruct (blocks_store files pools _ _ _ _ _ _ ata sizeof_ATADevice m' B Ow Fr Hm) as [B' E].
  split; [done|done| |by eapply names_clear_ext|].
  - intros d Hd. rewrite E by done. by apply Fr.
  - eapply lit_ext; [|exact Li]. intros x Hx. apply Hm.
    pose proof (owned_static _ _ _ _ _ _ _ _ _ (bl_heap _ _ _ _ _ _ _ _ B) Ow (proj1 (pl_name layout_ok))). unfold apart in *. lia.
Qed.

Lemma probing_local m m' k H L ds bs ata w : w ∈ locals → probing m k H L ds bs ata → only_in w.1 w.2 m m' → probing m' k H L ds bs ata.
Proof using layout_ok.
  intros Hw [B Ow Fr Nm Li] Hm. destruct (pl_locals layout_ok w Hw) as (Sw & Aw & Lw). pose proof (bl_heap _ _ _ _ _ _ _ _ B) as R.
  destruct (blocks_ext files pools m k H L ds bs m' k H L B) as [B' E].
  - eapply heap_rep_write; [exact R|right; exact Sw|exact Hm].
  - intros d q n _ _ Hq. split; [done|]. intros x Hx. apply Hm.
    pose proof (owned_static _ _ _ _ _ _ _ _ _ R Hq Sw). unfold apart in *. lia.
  - intros x Hx. apply Hm. unfold apart in *. lia.
  - intros d b x p n Hd Db _ Hx. apply Hm. pose proof (names_dev _ _ _ _ _ _ _ _ _ B Nm Hw Hd Db). unfold apart, p, n in *. lia.
  - split; [done|done| |by eapply names_clear_ext|].
    + intros d Hd. rewrite E by done. by apply Fr.
    + eapply lit_ext; [|exact Li]. intros x Hx. apply Hm. unfold apart in *. lia.
Qed.

(** The object keeps its ports, request list and queue. *)
Definition idle (m : mem) (ata base cntl : Z) : Prop :=
  ata_mem base cntl ata m [] ∧ list_rep m (ata + off_blocked) off_queue [].

Lemma idle_ext m m' ata base cntl :
  (∀ x, ata + off_base ≤ x < ata + off_base + 8 ∨ ata + off_blocked ≤ x < ata + sizeof_ATADevice → rd8 m' x = rd8 m x) →
  idle m ata base cntl → idle m' ata base cntl.
Proof using.
  unfold off_base, off_blocked, sizeof_ATADevice. intros E [I1 I2]. split.
  - eapply ata_mem_ext; [|exact I1]. unfold ata_bytes, off_base, off_requests.
    intros x [Hx|[Hx|(p & Hp%elem_of_nil & _)]]; [apply E|apply E|done]; lia.
  - eapply list_rep_ext; [| |exact I2]; [|by intros d x Hd%elem_of_nil]. intros x Hx. apply E. unfold off_blocked in Hx. lia.
Qed.

(** *** The phases *)

(** The new object gets its empty list and queue. *)
Lemma probe_setup m ata : 0 < ata → ata + sizeof_ATADevice < 281474976710656 →
  let m' := LL_init (LL_init m (ata + off_requests) 0) (ata + off_blocked) off_queue in
  only_in ata sizeof_ATADevice m m' ∧ list_rep m' (ata + off_requests) 0 [] ∧ list_rep m' (ata + off_blocked) off_queue [].
Proof using.
  intros H1 H2 m'. unfold sizeof_ATADevice, off_requests, off_blocked in *.
  destruct (LL_init_rep m (ata + 112) 0) as [R1 K1]; [unfold valid_hdr; lia|lia|].
  destruct (LL_init_rep (LL_init m (ata + 112) 0) (ata + 88) off_queue) as [R2 K2]; [unfold valid_hdr; lia|unfold off_queue; lia|]. fold m' in R2, K2.
  split; [intros x Hx; rewrite K2, K1 by lia; done|]. split; [|done].
  eapply list_rep_ext; [| |exact R1]; [|by intros d x Hd%elem_of_nil]. intros x Hx. apply K2. lia.
Qed.

(** The ports are recorded. *)
Lemma probe_ports m ata base cntl : 0 ≤ base < 4294967296 → 0 ≤ cntl < 4294967296 →
  list_rep m (ata + off_requests) 0 [] → list_rep m (ata + off_blocked) off_queue [] →
  let m' := wr32 (wr32 m (ata + off_base) base) (ata + off_cntl_base) cntl in
  only_in ata sizeof_ATADevice m m' ∧ idle m' ata base cntl.
Proof using.
  intros Hb Hc R1 R2 m'. unfold sizeof_ATADevice, off_requests, off_blocked, off_base, off_cntl_base in *.
  assert (K : ∀ x, ¬ (ata + 72 ≤ x < ata + 80) → rd8 m' x = rd8 m x) by (intros x Hx; unfold m', wr32; rewrite !rd8_wr_le_out by (cbn; lia); done).
  split; [intros x Hx; apply K; lia|]. split; [split; [| | |constructor|by intros i j p r Hp]|].
  - unfold ata_base, off_base, m', rd32, wr32. rewrite rd_le_wr_le_apart, rd_le_wr_le by (unfold apart; cbn; lia). by apply Z.mod_small.
  - unfold ata_cntl, off_cntl_base, m', rd32, wr32. rewrite rd_le_wr_le. by apply Z.mod_small.
  - eapply list_rep_ext; [| |exact R1]; [|by intros d x Hd%elem_of_nil]. intros x Hx. apply K. unfold off_requests in Hx. lia.
  - eapply list_rep_ext; [| |exact R2]; [|by intros d x Hd%elem_of_nil]. intros x Hx. apply K. unfold off_blocked in Hx. lia.
Qed.

(** The stores of lines 242-251. *)
Definition attach_stores (m : mem) (ata total : Z) : mem :=
  let m := wr64 (wr64 m (ata + off_total_len) total) (ata + off_blk_size) ATA_BLOCK_SIZE in
  let m := wr64 (wr64 (wr32 m (ata + off_bdev_type) 0) ata fn) (ata + off_bdev_name) name in
  let m := wr8 m (ata + off_irq) ATA_PRIMARY_IRQ in
  wr8 (wr32 m (ata + off_master) (rd32 m (hdr + 32))) (ata + off_slave) 0.

Lemma attach_stores_ok m ata total :
  let m' := attach_stores m ata total in
  only_in ata sizeof_ATADevice m m' ∧
  (∀ x, ata + off_base ≤ x < ata + off_base + 8 ∨ ata + off_blocked ≤ x < ata + sizeof_ATADevice → rd8 m' x = rd8 m x) ∧
  rd64 m' (ata + off_total_len) = u64 total ∧ rd64 m' (ata + off_blk_size) = 512 ∧ rd64 m' ata = u64 fn ∧
  rd64 m' (ata + off_bdev_name) = u64 name ∧ rd8 m' (ata + off_irq) = ATA_PRIMARY_IRQ.
Proof using.
  unfold attach_stores, off_total_len, off_blk_size, off_bdev_type, off_bdev_name, off_irq, off_master, off_slave, off_base, off_blocked, sizeof_ATADevice.
  cbv zeta. set (v := rd32 _ (hdr + 32)). clearbody v.
  split_and!; [intros x Hx|intros x Hx|..].
  1-2: unfold wr32, wr64; rewrite ?rd8_wr8_ne, ?rd8_wr_le_out by (cbn; lia); rewrite ?rd8_wr8_ne, ?rd8_wr_le_out by (cbn; lia); done.
  1-4: unfold rd64, wr32, wr64; rewrite rd_le_wr8_far, rd_le_wr_le_apart, rd_le_wr8_far by (unfold apart; cbn; lia);
    repeat first [rewrite rd_le_wr_le|rewrite rd_le_wr_le_apart by (unfold apart; cbn; lia)]; done.
  unfold wr32, wr64. rewrite rd8_wr8_ne, rd8_wr_le_out, rd8_wr8_eq by (cbn; lia). done.
Qed.

Definition locals_kept (m m' : mem) : Prop := ∀ w x, w ∈ locals → w.1 ≤ x < w.1 + w.2 → rd8 m' x = rd8 m x.

Lemma locals_own m m' k H L ds bs ata : probing m k H L ds bs ata → only_in ata sizeof_ATADevice m m' → locals_kept m m'.
Proof using layout_ok.
  intros P Hm w x Hw Hx. apply Hm. destruct (pl_locals layout_ok w Hw) as (Sw & _).
  pose proof (owned_static _ _ _ _ _ _ _ _ _ (bl_heap _ _ _ _ _ _ _ _ (pb_blocks _ _ _ _ _ _ _ P)) (pb_own _ _ _ _ _ _ _ P) Sw).
  unfold apart in *. lia.
Qed.

Lemma locals_rd m m' n o a len : locals_kept m m' → (a, len) ∈ locals → 0 ≤ o → o + Z.of_nat n ≤ len → rd_le n m' (a + o) = rd_le n m (a + o).
Proof using. intros Hk Hw H1 H2. apply rd_le_ext. intros x Hx. apply (Hk (a, len)); [done|]. cbn [fst snd]. lia. Qed.

Lemma hdr_local : (hdr, 40) ∈ locals.
Proof using. left. Qed.
Lemma iden_local : (iden, 512) ∈ locals.
Proof using. right. left. Qed.

(** The object is a disk and is registered. *)
Lemma attach_registers m k H L ds bs ata total :
  probing m k H L ds bs ata →
  let m1 := attach_stores m ata total in
  let m' := LL_enqueue m1 (f_blocks files) ata in
  blocks_inv files pools m' k H L (ds ++ [ata]) (bs ++ [disk_desc fn]) ∧ locals_kept m m' ∧
  rd64 m' (ata + off_total_len) = u64 total ∧ ∀ base cntl, idle m ata base cntl → idle m' ata base cntl.
Proof using layout_ok.
  intros P m1 m'. destruct (attach_stores_ok m ata total) as (O1 & O2 & F1 & F2 & F3 & F4 & _). fold m1 in O1, O2, F1, F2, F3, F4.
  pose proof (probing_own _ _ _ _ _ _ _ _ P O1) as P1. pose proof P1 as [B1 Ow1 Fr1 _ Li1].
  pose proof (bl_heap _ _ _ _ _ _ _ _ B1) as R1. destruct (pl_name layout_ok) as [Sn An].
  assert (Hn : rd64 m1 (ata + off_bdev_name) = name).
  { rewrite F4. apply u64_small. destruct Sn as (S1 & S2 & _). destruct (owned_range _ _ _ _ _ _ _ R1 Ow1). lia. }
  destruct (blocks_add files pools m1 k H L ds bs ata (disk_desc fn) B1) as (B' & Ks & Ko).
  - split; cbn; [by eapply owned_le; [exact Ow1|unfold b_len, sizeof_ATADevice; cbn; lia]| |done| |done].
    + rewrite Hn. split; [done|]. right. by split.
    + rewrite F3. apply u64_small, (pl_fn layout_ok).
  - done.
  - rewrite Hn. intros [Hd|Hd%list_elem_of_singleton]%elem_of_app.
    + destruct (blocks_dev _ _ _ _ _ _ _ _ _ B1 Hd) as (b & Db).
      pose proof (owned_range _ _ _ _ _ _ _ R1 (di_own _ _ _ _ _ _ Db)). destruct Sn as (_ & S2 & _). lia.
    + pose proof (owned_range _ _ _ _ _ _ _ R1 Ow1). destruct Sn as (_ & S2 & _). lia.
  - fold m' in B', Ks, Ko. split; [done|].
    assert (Kl : locals_kept m m').
    { intros w x Hw Hx. destruct (pl_locals layout_ok w Hw) as (Sw & Aw & _). rewrite (Ks w.1 w.2) by done.
      by apply (locals_own _ _ _ _ _ _ _ _ P O1 w x Hw). }
    split; [done|]. split.
    + rewrite <- F1. apply rd_le_ext. intros x Hx. apply (Ko ata sizeof_ATADevice x Ow1); unfold off_total_len, off_bdev_list, sizeof_ATADevice in *; cbn in Hx; lia.
    + intros base cntl. apply idle_ext. intros x Hx.
      rewrite (Ko ata sizeof_ATADevice x Ow1) by (unfold off_base, off_blocked, off_bdev_list, sizeof_ATADevice in *; lia). by apply O2.
Qed.

Context {D : Type} `{Hport : PortIO D}.

Lemma attach_ok H L ds bs ata (s : sched) (d : D) :
  let m := s_mem s in
  probing m (s_k s) H L ds bs ata →
  idle m ata (bar_or (rd32 m (hdr + 16)) ATA_LEGACY_PRIMARY_BASE) (bar_or (rd32 m (hdr + 20)) ATA_LEGACY_PRIMARY_CNTL) →
  Z.testbit (rd16 m (iden + 166)) 10 = true → length (handlers (k_irq (s_k s))) = 256%nat →
  ∃ s' d', ata_attach files fn isr name ata hdr iden s d = Ok (0, (s', d')) ∧ locals_kept m (s_mem s') ∧
    attached (s_mem s') (s_k s') H L ds bs (handlers (k_irq (s_k s))) ata.
Proof using layout_ok.
  intros m P Hi Hb Hh. unfold ata_attach. fold m. set (total := u64 (ATA_BLOCK_SIZE * rd64 m (iden + 200))).
  change (wr8 (wr32 _ (ata + off_master) _) (ata + off_slave) 0) with (attach_stores m ata total).
  destruct (attach_stores_ok m ata total) as (_ & _ & _ & _ & _ & _ & ->).
  change (IRQ_set_handler ATA_PRIMARY_IRQ isr ata (k_irq (s_k s))) with
    (hs ← upd (handlers (k_irq (s_k s))) 46 (isr, ata); Ok (mkIrqs hs (irq_semaphore (k_irq (s_k s))) (iflag (k_irq (s_k s))) (irq_log (k_irq (s_k s))))).
  rewrite upd_Ok, !bind_Ok by lia. set (i1 := mkIrqs _ _ _ _).
  destruct (IRQ_clear_mask_ends ATA_PRIMARY_IRQ i1 d) as [d1 ->]; [unfold ATA_PRIMARY_IRQ; lia|]. rewrite bind_Ok. cbn [fst snd].
  eexists _, _. split; [done|]. destruct (attach_registers m (s_k s) H L ds bs ata total P) as (B & Kl & Ht & Ki).
  unfold s_from_fs, BLK_register, s_fs, s_on_irq, s_set_k, s_set_mem, fs_set_mem. cbn [s_mem s_k fs_mem fs_ps k_irq].
  set (m' := LL_enqueue _ _ ata) in *. split; [done|]. specialize (Ki _ _ Hi) as [J1 J2].
  pose proof (fun n o a len => locals_rd m m' n o a len Kl) as Kr.
  split; cbn [k_irq handlers]; [|by intros Hd; destruct (pb_fresh _ _ _ _ _ _ _ P ata Hd)|exact (pb_own _ _ _ _ _ _ _ P)| |exact J2| | |done].
  - destruct B as [Bh Bl Bd Bs Bt]. split; [by eapply heap_rep_kvm; [|exact Bh]|done..].
  - unfold rd32. rewrite !(Kr 4%nat _ hdr 40 hdr_local) by (cbn; lia). exact J1.
  - rewrite Ht. unfold total, rd64. rewrite (Kr 8%nat 200 iden 512 iden_local) by (cbn; lia). apply u64_idem.
  - unfold rd16. by rewrite (Kr 2%nat 166 iden 512 iden_local) by (cbn; lia).
Qed.

(** *** The ends of a probe *)

(** What a probe that ran from a kernel with heap [H0], block devices [ds] and
    handlers [hs] can lead to: it never leaves defined behaviour; it waits for
    ever only for a drive whose status register, at [port], never changes; it
    fails and has given back what it allocated; or a disk is attached. *)
Definition probe_end (H0 : heap) (ds : list Z) (bs : list bdesc) (hs : list (Z * Z)) (words : Z → Z) (typed : Prop) (fuel : nat)
    (o : outcome (Z * (sched * D))) : Prop :=
  match o with
  | Fault => False
  | Hang => ∃ port d', (typed → port = bar_or (words 5) ATA_LEGACY_PRIMARY_CNTL) ∧
      (stuck fuel port ATA_SR_BSY true d' ∨ stuck fuel port ATA_SR_DRQ false d')
  | Ok (r, (s', _)) => ∃ H' L', (∀ q k, owned H0 q k → owned H' q k) ∧
      ((r = -1 ∧ blocks_inv files pools (s_mem s') (s_k s') H' L' ds bs ∧ handlers (k_irq (s_k s')) = hs ∧
        ∀ b i, live H' b i ↔ live H0 b i) ∨
       (r = 0 ∧ (∃ ata, attached (s_mem s') (s_k s') H' L' ds bs hs ata) ∧
        (typed → ∀ i, 4 ≤ i < 10 → rd32 (s_mem s') (hdr + 4 * i) = words i)))
  end.

(** The object allocated in [H0] is given back. *)
Lemma fail_ok H0 m1 m2 H L ds bs ata msg (s : sched) (d : D) words typed fuel j :
  probing (s_mem s) (s_k s) H L ds bs ata → new_object pools H0 H m1 m2 ata sizeof_ATADevice → took H0 H (ata - HDR) j →
  probe_end H0 ds bs (handlers (k_irq (s_k s))) words typed fuel (ata_fail msg ata s d).
Proof using.
  intros P (_ & N & _) (T1 & T2 & T3). unfold ata_fail, fs_kfree. cbn [s_klog s_fs fs_mem fs_ps s_mem s_k].
  destruct (blocks_kfree files pools _ _ _ _ _ _ _ _ (pb_blocks _ _ _ _ _ _ _ P) T1 (pb_fresh _ _ _ _ _ _ _ P)) as (m' & H' & -> & B & Ko & Kl).
  rewrite !bind_Ok. cbn [probe_end fst snd s_from_fs fs_mem fs_ps s_mem s_k]. exists H', L. split; [|left; split; [done|split; [done|split; [done|]]]].
  - intros q k Hq. destruct (N q k Hq) as (Ho & Hne & _). apply Ko; [done|congruence].
  - intros b i. rewrite Kl, T3. split; [intros [[?|[-> _]] ?]; done|]. intros Hb. split; [by left|]. intros ->.
    apply T2. pose proof (proj2 (T3 (ata - HDR) i) (or_introl Hb)) as [Hb' _]. destruct T1 as [T1 _].
    by rewrite (block_same _ _ _ _ _ _ _ _ (bl_heap _ _ _ _ _ _ _ _ (pb_blocks _ _ _ _ _ _ _ P)) T1 Hb').
Qed.

Lemma lba48_bit x : truth (Z.land x (Z.shiftl 1 10)) = Z.testbit x 10.
Proof using.
  change (Z.shiftl 1 10) with (2 ^ 10). rewrite <- (Z.setbit_spec' 0 10) at 1. clear.
  destruct (Z.testbit x 10) eqn:E.
  - assert (Hb : Z.testbit (Z.land x (Z.setbit 0 10)) 10 = true) by (rewrite Z.land_spec, E; done).
    unfold truth. apply negb_true_iff, Z.eqb_neq. intros H0. by rewrite H0 in Hb.
  - assert (Hz : Z.land x (Z.setbit 0 10) = 0); [|by rewrite Hz].
    apply Z.bits_inj'. intros n Hn. rewrite Z.land_spec, Z.bits_0, Z.setbit_eqb, Z.bits_0, orb_false_r by lia.
    destruct (Z.eqb_spec 10 n) as [<-|]; [by rewrite E|apply andb_false_r].
Qed.

Lemma identify_ok H0 m1 m2 H L ds bs ata (s : sched) (d : D) (words : Z → Z) (typed : Prop) fuel j :
  let m := s_mem s in
  probing m (s_k s) H L ds bs ata → new_object pools H0 H m1 m2 ata sizeof_ATADevice → took H0 H (ata - HDR) j →
  idle m ata (bar_or (rd32 m (hdr + 16)) ATA_LEGACY_PRIMARY_BASE) (bar_or (rd32 m (hdr + 20)) ATA_LEGACY_PRIMARY_CNTL) →
  length (handlers (k_irq (s_k s))) = 256%nat → (typed → ∀ i, 4 ≤ i < 10 → rd32 m (hdr + 4 * i) = words i) →
  probe_end H0 ds bs (handlers (k_irq (s_k s))) words typed fuel (ata_identify files fn isr name fuel ata hdr iden s d).
Proof using layout_ok.
  intros m P N T Hi Hh Hw. unfold ata_identify. fold m. pose proof Hi as [[_ Hc _ _ _] _].
  assert (Hport' : typed → ata_cntl m ata = bar_or (words 5) ATA_LEGACY_PRIMARY_CNTL) by (intros Ht; rewrite Hc, <- (Hw Ht 5) by lia; done).
  set (d1 := outb _ ATA_CMD_IDENTIFY _). destruct (inb _ d1) as [st d2]. destruct (negb (truth st)); [by eapply fail_ok|].
  destruct (ata_wait_not_busy_ends (ata_cntl m ata) fuel d2) as [[d3 ->]|[-> Hs]]; [rewrite bind_Ok|exists (ata_cntl m ata), d2; by split; [|left]].
  destruct (ata_check_err _ d3) as [e d4]. destruct e; [by eapply fail_ok|].
  destruct (ata_read_ends fuel ata iden m d4) as [(m6 & d6 & -> & O6)|[-> Hs]]; [rewrite bind_Ok|exists (ata_cntl m ata), d4; by split; [|right]].
  pose proof (probing_local _ m6 _ _ _ _ _ _ (iden, 512) iden_local P O6) as P6. rewrite lba48_bit.
  destruct (Z.testbit (rd16 m6 (iden + 166)) 10) eqn:Eb; cbn [negb].
  2: { apply (fail_ok H0 m1 m2 H L ds bs ata _ (s_set_mem s m6) d6 words typed fuel j); done. }
  assert (Er : ∀ o, 0 ≤ o ≤ 36 → rd32 m6 (hdr + o) = rd32 m (hdr + o)).
  { intros o Ho. apply (rd_le_only_in 4 _ _ _ _ _ O6). pose proof (pl_sep layout_ok). unfold apart in *. cbn. lia. }
  destruct (attach_ok H L ds bs ata (s_set_mem s m6) d6) as (s' & d' & E & Kl & A); cbn [s_set_mem s_mem s_k]; [done| |done|done|].
  { rewrite !Er by lia. eapply idle_ext; [|exact Hi]. intros x Hx. apply O6. destruct (pl_locals layout_ok _ iden_local) as (Sw & _).
    pose proof (owned_static _ _ _ _ _ _ _ _ _ (bl_heap _ _ _ _ _ _ _ _ (pb_blocks _ _ _ _ _ _ _ P)) (pb_own _ _ _ _ _ _ _ P) Sw) as A.
    unfold apart, off_base, off_blocked, sizeof_ATADevice in *. cbn [fst snd] in *. lia. }
  rewrite E. cbn [probe_end]. exists H, L. split; [intros q k Hq; by apply N|]. right. split; [done|]. split; [by exists ata|].
  intros Ht i Hir. unfold rd32 in *. rewrite (locals_rd _ _ 4 (4 * i) hdr 40 Kl hdr_local) by (cbn; lia).
  cbn [s_set_mem s_mem]. rewrite Er by lia. by apply Hw.
Qed.

(** *** From the allocation on *)

Lemma bar_or_range x y : 0 ≤ y < 4294967296 → 0 ≤ x < 4294967296 → 0 ≤ bar_or x y < 4294967296.
Proof using. unfold bar_or. by case_match. Qed.

(** The PCI device's object keeps its contents while the disk's is set up. *)
Lemma dev_kept H0 H m m1 m2 k L ds bs ata dev :
  probing m1 k H L ds bs ata → new_object pools H0 H m m1 ata sizeof_ATADevice → only_in ata sizeof_ATADevice m1 m2 →
  owned H0 dev sizeof_PCIDevice → ∀ x, dev ≤ x < dev + sizeof_PCIDevice → rd8 m2 x = rd8 m x.
Proof using.
  intros P (_ & N & _) O Hd x Hx. destruct (N _ _ Hd) as (Hd1 & Hne & Hk). rewrite O; [by apply Hk|].
  pose proof (owned_apart _ _ _ _ _ _ _ _ _ (bl_heap _ _ _ _ _ _ _ _ (pb_blocks _ _ _ _ _ _ _ P)) (pb_own _ _ _ _ _ _ _ P) Hd1 Hne).
  unfold apart in *. lia.
Qed.

Lemma probing_new m m1 k k1 H0 H L0 L ds bs ata :
  blocks_inv files pools m k H0 L0 ds bs → names_clear m ds bs → cstr m name str_ata →
  heap_rep pools m1 k1 H L → new_object pools H0 H m m1 ata sizeof_ATADevice → probing m1 k1 H L ds bs ata.
Proof using layout_ok.
  intros B Nm Li R N. destruct (blocks_new files pools _ _ _ _ _ _ _ _ _ _ _ _ B R N) as (B1 & Fr & E). destruct N as (Ow & _ & Ks).
  split; [done|done|done|by eapply names_clear_ext|]. eapply lit_ext; [|exact Li].
  intros x Hx. apply (Ks name 4); [apply layout_ok|done].
Qed.

(** The rest of [ata_probe] once the header has been read. *)
Lemma ports_identify H0 m1 m2 H L ds bs ata (s : sched) (d : D) (words : Z → Z) (typed : Prop) fuel j :
  let m := s_mem s in
  probing m (s_k s) H L ds bs ata → new_object pools H0 H m1 m2 ata sizeof_ATADevice → took H0 H (ata - HDR) j →
  list_rep m (ata + off_requests) 0 [] → list_rep m (ata + off_blocked) off_queue [] →
  length (handlers (k_irq (s_k s))) = 256%nat → (typed → ∀ i, 4 ≤ i < 10 → rd32 m (hdr + 4 * i) = words i) →
  let m' := wr32 m (ata + off_base) (bar_or (rd32 m (hdr + 16)) ATA_LEGACY_PRIMARY_BASE) in
  let m' := wr32 m' (ata + off_cntl_base) (bar_or (rd32 m' (hdr + 20)) ATA_LEGACY_PRIMARY_CNTL) in
  probe_end H0 ds bs (handlers (k_irq (s_k s))) words typed fuel (ata_identify files fn isr name fuel ata hdr iden (s_set_mem s m') d).
Proof using layout_ok.
  intros m P N T Q1 Q2 Hh Hw m4.
  assert (O4 : only_in ata sizeof_ATADevice m m4) by (apply (only_in_wr_le 4); unfold off_base, sizeof_ATADevice; [by intros x Hx|cbn; lia..]).
  assert (E4 : rd32 m4 (hdr + 20) = rd32 m (hdr + 20)).
  { apply (locals_rd m m4 4 20 hdr 40); [by eapply locals_own|exact hdr_local|cbn; lia..]. }
  cbv zeta. rewrite E4. destruct (probe_ports m ata (bar_or (rd32 m (hdr + 16)) ATA_LEGACY_PRIMARY_BASE)
    (bar_or (rd32 m (hdr + 20)) ATA_LEGACY_PRIMARY_CNTL)) as [O5 I5]; [by apply bar_or_range, (rd_le_range 4)..|done|done|].
  fold m4 in O5, I5. set (m5 := wr32 m4 _ _) in *. pose proof (locals_own _ _ _ _ _ _ _ _ P O5) as K5.
  assert (E5 : ∀ o, 0 ≤ o ≤ 36 → rd32 m5 (hdr + o) = rd32 m (hdr + o)) by (intros o Ho; apply (locals_rd m m5 4 o hdr 40 K5 hdr_local); cbn; lia).
  apply (identify_ok H0 m1 m2 H L ds bs ata (s_set_mem s m5) d words typed fuel j); cbn [s_set_mem s_mem s_k].
  - by eapply probing_own.
  - done.
  - done.
  - by rewrite !E5 by lia.
  - done.
  - intros Ht i Hi. rewrite E5 by lia. by apply Hw.
Qed.

Context `{Hhost : !PciHost D}.

(** C15: probing an ATA controller, whatever answers at its ports.  [ata_probe]
    stays within defined behaviour.  It waits for ever only for a drive whose
    status, at the control port that configuration space names, never changes.
    It returns -1 when there is no memory, no drive, a drive of another kind or
    one without 48-bit addresses; then the block devices and the interrupt
    handlers are as before and the heap's allocated blocks are exactly those it
    had.  Otherwise it returns 0 and one more block device is registered, last:
    a disk of 512-byte blocks named "ata" with the capacity that the drive
    reported, at the ports of configuration space or the legacy ones, with an
    empty request list and nobody waiting, and with [ata_isr] as its handler. *)
Theorem ata_probe_outcomes (dev bus slot func : Z) (fuel : nat) (s : sched) (d : D) (H : heap) (L : list (Z * Z)) (ds : list Z) (bs : list bdesc) :
  0 ≤ slot < 32 → 0 ≤ func < 8 → dev_at dev bus slot func (s_mem s) → owned H dev sizeof_PCIDevice →
  blocks_inv files pools (s_mem s) (s_k s) H L ds bs → names_clear (s_mem s) ds bs → cstr (s_mem s) name str_ata →
  length (handlers (k_irq (s_k s))) = 256%nat →
  probe_end H ds bs (handlers (k_irq (s_k s))) (cfg d bus slot func) (hdr_type (s_mem s) (dev + off_pci_hdr) = 0) fuel
    (ata_probe files pools fn isr name fuel dev hdr iden s d).
Proof using layout_ok.
  intros Hsl Hfu Hdev Hod B Nm Li Hh. unfold ata_probe, fs_kmalloc. cbn [s_fs fs_mem fs_ps fs_log].
  assert (Hbus : 0 ≤ bus < 256) by (destruct Hdev as (<- & _); apply rd8_range).
  destruct (kmalloc_small_block pools (s_mem s) (s_k s) H L sizeof_ATADevice (bl_heap _ _ _ _ _ _ _ _ B)) as
    (ata & m1 & k1 & H1 & L1 & E1 & R1 & C); [unfold sizeof_ATADevice; lia|].
  pose proof (kmalloc_pages (fun k => handlers (k_irq k) = handlers (k_irq (s_k s))) _ _ _ _ _ _ _
    (fun n a t t' E Ht => eq_trans (MMU_alloc_pages_handlers n t a t' E) Ht) E1 eq_refl) as Hk.
  rewrite E1, !bind_Ok. cbn [fst snd s_from_fs fs_mem fs_ps fs_log].
  destruct C as [(-> & -> & -> & _)|(Hn & N & j & T)].
  { cbn [Z.eqb NULL]. exists H, L1. split; [done|]. left. split; [done|]. split; [by destruct B; split|]. split; [exact Hk|done]. }
  rewrite (proj2 (Z.eqb_neq ata NULL)) by done. rewrite <- Hk in *. unfold PROC_queue_init. cbn [s_set_mem s_mem s_k curr_proc next_proc sleep_curr s_log].
  pose proof (probing_new _ _ _ _ _ _ _ _ _ _ _ B Nm Li R1 N) as P1.
  destruct (owned_range _ _ _ _ _ _ _ R1 (pb_own _ _ _ _ _ _ _ P1)) as (G1 & _ & _ & _ & G2 & _).
  destruct (probe_setup m1 ata G1 G2) as (O3 & Q1 & Q2). set (m3 := LL_init (LL_init _ _ _) _ _) in *.
  pose proof (probing_own _ _ _ _ _ _ _ _ P1 O3) as P3. pose proof (dev_kept _ _ _ _ _ _ _ _ _ _ _ P1 N O3 Hod) as Kd.
  unfold sizeof_PCIDevice in Kd. destruct (pl_locals layout_ok _ hdr_local) as (Sw & _). cbn [fst snd] in Sw.
  assert (Hap : apart hdr 40 dev 48) by (pose proof (owned_static _ _ _ _ _ _ _ _ _ (bl_heap _ _ _ _ _ _ _ _ B) Hod Sw); unfold apart, sizeof_PCIDevice in *; lia).
  set (s3 := mkS m3 k1 (curr_proc s) (next_proc s) (sleep_curr s) (s_log s)).
  match goal with |- context [PCI_read_config_header_0 dev hdr ?f d] => change f with (s_fs s3) end.
  destruct (PCI_read_config_header_0_ok dev hdr bus slot func Hbus Hsl Hfu Hap (s_fs s3) d) as (F1 & F2 & F3).
  { unfold dev_at, off_pci_bus, off_pci_slot, off_pci_func in *. cbn [s_fs s3 s_mem fs_mem]. by rewrite !Kd by lia. }
  destruct (PCI_read_config_header_0 dev hdr (s_fs s3) d) as [r [f d4]]. cbn [fst snd s_fs s3 s_mem fs_mem s_k fs_ps] in *.
  replace (hdr_type m3 (dev + off_pci_hdr)) with (hdr_type (s_mem s) (dev + off_pci_hdr)) in F3
    by (symmetry; apply Kd; unfold off_pci_hdr; lia).
  destruct f as [m4 k4 l4]. cbn [s_from_fs s_mem s_k fs_mem fs_ps fs_log curr_proc next_proc sleep_curr] in *. subst k4.
  pose proof (probing_local _ _ _ _ _ _ _ _ _ hdr_local P3 F2) as P4.
  assert (K4 : ∀ x, ata ≤ x < ata + sizeof_ATADevice → rd8 m4 x = rd8 m3 x).
  { intros x Hx. apply F2. pose proof (owned_static _ _ _ _ _ _ _ _ _ R1 (pb_own _ _ _ _ _ _ _ P1) Sw). unfold apart in *. lia. }
  unfold off_requests, off_blocked, sizeof_ATADevice in *.
  apply (ports_identify H (s_mem s) m1 H1 L1 ds bs ata (mkS m4 k1 (curr_proc s) (next_proc s) (sleep_curr s) l4) d4 _ _ fuel j);
    cbn [s_mem s_k]; [done..| | |done|done]; (eapply list_rep_ext; [| |eassumption]; [|by intros e x He%elem_of_nil]);
    intros x Hx; apply K4; unfold off_requests, off_blocked in *; lia.
Qed.
End Probe.

(** ** Example: a host bridge and a drive of 2048 sectors at the legacy ports *)

(** The latched address and the number of words read from the data port. *)
Record demo_ide := mkIde { ide_latched : Z; ide_pos : Z }.

Definition demo_iden (i : Z) : Z := if i =? 83 then 0x400 else if i =? 100 then 2048 else 0.

#[export] Instance demo_ide_ports : PortIO demo_ide := {|
  port_in _ p d :=
    if p =? 0x1F0 then (demo_iden (ide_pos d), mkIde (ide_latched d) (ide_pos d + 1))
    else if p =? PCI_CONFIG_DATA then (0, d) else (0x58, d);
  port_out _ p v d := if p =? PCI_CONFIG_ADDR then mkIde v (ide_pos d) else d
|}.

#[export] Instance demo_ide_pci : PciHost demo_ide.
Proof. refine {| cfg _ _ _ _ _ := 0; latch := ide_latched |}; [by intros a d|]. intros d _. by split. Defined.

(** The PCI device's object is the one on the heap; no block devices yet. *)
Definition demo_probe_mem : mem :=
  let m := LL_init demo_object_mem (f_blocks 0x300000) off_bdev_list in
  wr32 m 0x310000 0x617461.

Definition demo_probe : sched :=
  mkS demo_probe_mem (mkK (k_vm demo_source) (mkIrqs (replicate 256 (NULL, NULL)) 0 true [])) NULL NULL 0 [].

Lemma demo_probe_layout : probe_layout 0x300000 demo_pools 0x7000 0x310000 0x320000 0x321000.
Proof.
  split; [lia| |vm_compute; left; congruence|split; [apply demo_static; vm_compute; congruence|vm_compute; right; congruence]].
  intros w [->|[->|[]%elem_of_nil]%elem_of_cons]%elem_of_cons;
    (split; [apply demo_static; vm_compute; congruence|split; [vm_compute; right; congruence|vm_compute; left; congruence]]).
Qed.

Lemma demo_probe_blocks : blocks_inv 0x300000 demo_pools demo_probe_mem (s_k demo_probe) demo_object_heap demo_runs [] [].
Proof.
  assert (S1 : static demo_pools (f_blocks 0x300000) 24) by (apply demo_static; vm_compute; congruence).
  destruct (LL_init_rep demo_object_mem (f_blocks 0x300000) off_bdev_list) as [R O]; [unfold valid_hdr, f_blocks; lia|unfold off_bdev_list; lia|].
  split; [| |constructor|by intros d e Hd%elem_of_nil|done].
  - apply (heap_rep_kvm _ _ demo_source); [done|]. eapply heap_rep_write; [|right; apply (demo_static 0x310000 4); vm_compute; congruence|apply (wr_le_only_in 4)].
    eapply heap_rep_write; [exact demo_object_rep|right; exact S1|exact O].
  - eapply list_rep_ext; [| |exact R]; [|by intros d x Hd%elem_of_nil].
    intros x Hx. apply rd8_wr_le_out. unfold f_blocks in Hx. cbn. lia.
Qed.

Definition demo_probed : outcome (Z * (sched * demo_ide)) :=
  ata_probe 0x300000 demo_pools 0x7000 0x7100 0x310000 2 demo_object 0x320000 0x321000 demo_probe (mkIde 0 0).

Definition demo_result (o : outcome (Z * (sched * demo_ide))) : option Z := match o with Ok (r, _) => Some r | _ => None end.

(** The drive is found: the probe returns 0. *)
Example demo_probe_found : demo_result demo_probed = Some 0.
Proof. vm_compute. reflexivity. Qed.

Lemma ata_probe_outcomes_witness :
  probe_end 0x300000 demo_pools 0x7000 0x7100 0x320000 0x321000 demo_object_heap [] [] (handlers (k_irq (s_k demo_probe)))
    (cfg (mkIde 0 0) 0 0 0) (hdr_type (s_mem demo_probe) (demo_object + off_pci_hdr) = 0) 2 demo_probed.
Proof.
  unfold demo_probed.
  apply (ata_probe_outcomes 0x300000 demo_pools 0x7000 0x7100 0x310000 0x320000 0x321000 demo_probe_layout demo_object 0 0 0 2 demo_probe (mkIde 0 0)
    demo_object_heap demo_runs [] []).
  - lia.
  - lia.
  - vm_compute. done.
  - apply demo_object_owned. unfold sizeof_PCIDevice. lia.
  - exact demo_probe_blocks.
  - by intros i d b w Hd.
  - apply (bool_decide_unpack _). vm_compute. exact I.
  - reflexivity.
Defined.
