(* ===== verification/Open.v ===== *)
(** * Opening the keyboard (src/src/fs.c, drivers/keyboard/ps2.c, procs/keyboard_io.c)

    [keyboard_io] opens the file "ps2" before it echoes: [FS_open] finds the
    inode, allocates the file and calls [ps2_open], which allocates the reader's
    position and, for the first reader, initialises the controller.  The theorems
    say what each outcome leaves, against any controller, and what closing does. *)

From S2P Require Import Prelude Memory CString LinkedList Segments Frames Machine Irq Paging Mmu Kmalloc Objects Sched Vga Serial Printk Keyboard Fs Pci Ata Report Echo Probe.

(** ** A page that is found leaves the nesting of interrupts as it was *)

Lemma MMU_alloc_page_depth n k a k' : MMU_alloc_page k = Ok (a, k') → a ≠ NULL →
  irq_at n (k_irq k) → Z.of_nat n < 4294967295 → irq_at n (k_irq k').
Proof.
  unfold MMU_alloc_page. case_match; [by intros [= <- _]|]. intros (r & _ & E)%bind_Ok_inv _ Hi Hn. injection E as <- <-.
  destruct (IRQ_disable_at n _ Hi Hn) as [H1 _]. apply (IRQ_enable_at (S n)); [done|lia].
Qed.

Lemma alloc_pages_loop_depth d n : ∀ k k', alloc_pages_loop n k = Ok (true, k') →
  irq_at d (k_irq k) → Z.of_nat d < 4294967295 → irq_at d (k_irq k').
Proof.
  induction n as [|n IH]; intros k k'; cbn [alloc_pages_loop]; [by intros [= <-]|].
  intros ([a k1] & E1 & E)%bind_Ok_inv Hi Hd. cbn [fst snd] in E. destruct (Z.eqb_spec a NULL) as [|Ha]; [done|].
  by apply (IH k1 k' E), Hd; apply (MMU_alloc_page_depth d k a k1).
Qed.

Lemma MMU_alloc_pages_depth d n k a k' : MMU_alloc_pages n k = Ok (a, k') → a ≠ NULL →
  irq_at d (k_irq k) → Z.of_nat d < 4294967294 → irq_at d (k_irq k').
Proof.
  unfold MMU_alloc_pages. case_match; [by intros [= <- _]|]. intros ([a1 k1] & E1 & E)%bind_Ok_inv Ha Hi Hd. cbn [fst snd] in E.
  destruct (Z.eqb_spec a1 NULL) as [|Ha1]; [congruence|].
  destruct (IRQ_disable_at d _ Hi ltac:(lia)) as [H1 _]. apply MMU_alloc_page_depth with (n := S d) in E1; [|done|done|lia].
  apply bind_Ok_inv in E as ([b k2] & E2 & E). cbn [fst snd] in E. destruct b; cbn [negb] in E; [|congruence].
  injection E as <- <-. apply alloc_pages_loop_depth with (d := S d) in E2; [|done|lia]. apply (IRQ_enable_at (S d)); [done|lia].
Qed.

(** A request that is served calls the page source at most once, and then
    successfully. *)
Lemma kmalloc_pages_some {PS : Type} `{PageSource PS} (P : PS → Prop) pools size m s p m' s' :
  (∀ n a t t', ps_alloc n t = Ok (a, t') → a ≠ NULL → P t → P t') →
  kmalloc pools size m s = Ok (p, (m', s')) → p ≠ NULL → P s → P s'.
Proof.
  intros HP E Hp Hs. unfold kmalloc in E. case_match; [by injection E as <- <- <-|]. case_match.
  - apply bind_Ok_inv in E as ([q [m1 s1]] & E1 & E). cbn [fst snd] in E. destruct (Z.eqb_spec q NULL) as [|Hq]; [congruence|].
    injection E as _ _ <-. unfold kmalloc_alloc in E1. apply bind_Ok_inv in E1 as ([x [m2 s2]] & E2 & E1). cbn [fst snd] in E1.
    destruct (x <? 0) eqn:Hx; [congruence|]. assert (Hs2 : P s2).
    { destruct (free_head m _ =? NULL) in E2; [|by injection E2 as <- <- <-]. unfold kmalloc_increase_pool in E2.
      destruct (negb _) in E2; [by injection E2 as <- <- <-|]. apply bind_Ok_inv in E2 as ([a t] & E3 & E2). cbn [fst snd] in E2.
      destruct (Z.eqb_spec a NULL) as [|Ha] in E2; injection E2 as <- _ <-; [done|by apply (HP _ _ _ _ E3)]. }
    case_match; by simplify_eq.
  - apply bind_Ok_inv in E as ([a t] & E1 & E). cbn [fst snd] in E.
    destruct (Z.eqb_spec a NULL) as [|Ha]; [congruence|]. injection E as _ _ <-. by apply (HP _ _ _ _ E1).
Qed.

(** ** The controller *)

Section Controller.
Context {D : Type} `{Hport : PortIO D} (fuel : nat).

(** The controller's status never lets the driver write, or never lets it read. *)
Definition ctl_stuck : Prop :=
  ∃ d : D, stuck fuel PS2_STATUS_PORT PS2_STATUS_INPUT true d ∨ stuck fuel PS2_STATUS_PORT PS2_STATUS_OUTPUT false d.

(** A computation that stays defined, ends in [Q], and runs for ever only
    against a stuck controller. *)
Definition ends {A : Type} (Q : A → Prop) (o : outcome A) : Prop :=
  match o with Ok a => Q a | Fault => False | Hang => ctl_stuck end.

Lemma ends_bind {A B : Type} (Q : A → Prop) (R : B → Prop) (x : outcome A) (f : A → outcome B) :
  ends Q x → (∀ a, Q a → ends R (f a)) → ends R (x ≫= f).
Proof using. destruct x; cbn; [|done..]. intros Hx Hf. by apply Hf. Qed.

Lemma wait_ends (wait : nat → D → outcome D) mask v :
  (∀ d, wait O d = Hang) →
  (∀ n d, wait (S n) d = let '(x, d) := inb PS2_STATUS_PORT d in if Bool.eqb (truth (Z.land x mask)) v then wait n d else Ok d) →
  ∀ n d, (∃ d', wait n d = Ok d') ∨ (wait n d = Hang ∧ stuck n PS2_STATUS_PORT mask v d).
Proof using.
  intros W0 WS. induction n as [|n IH]; intros d; [right; split; [apply W0|intros i Hi; lia]|].
  rewrite WS. destruct (inb PS2_STATUS_PORT d) as [x d'] eqn:E. destruct (Bool.eqb _ v) eqn:Ev; [|left; by exists d'].
  destruct (IH d') as [?|[H1 H2]]; [by left|right]. split; [done|]. apply stuck_S; rewrite E; cbn; [by apply Bool.eqb_prop|done].
Qed.

Lemma writable_ends d : ends (fun _ => True) (ps2_wait_writable fuel d).
Proof using.
  destruct (wait_ends ps2_wait_writable PS2_STATUS_INPUT true) with (n := fuel) (d := d) as [[d' ->]|[-> Hs]]; [done| |done|by exists d; left].
  intros n e. cbn [ps2_wait_writable]. destruct (inb PS2_STATUS_PORT e) as [x e']. by destruct (truth _).
Qed.

Lemma readable_ends d : ends (fun _ => True) (ps2_wait_readable fuel d).
Proof using.
  destruct (wait_ends ps2_wait_readable PS2_STATUS_OUTPUT false) with (n := fuel) (d := d) as [[d' ->]|[-> Hs]]; [done| |done|by exists d; right].
  intros n e. cbn [ps2_wait_readable]. destruct (inb PS2_STATUS_PORT e) as [x e']. by destruct (truth _).
Qed.

(** One exchange with the controller after the other. *)
Ltac polls := repeat first
  [ done
  | apply (ends_bind (fun _ => True)); [apply writable_ends || apply readable_ends|intros ? _]
  | progress cbn [ends] ].

Lemma ps2_read_cmd_ends cmd d : ends (fun _ => True) (ps2_read_cmd fuel cmd d).
Proof using. unfold ps2_read_cmd. polls. Qed.
Lemma ps2_write_cmd_ends cmd v d : ends (fun _ => True) (ps2_write_cmd fuel cmd v d).
Proof using. unfold ps2_write_cmd. polls. Qed.
Lemma ps2_write_data_ends v d : ends (fun _ => True) (ps2_write_data_p1 fuel v d).
Proof using. unfold ps2_write_data_p1. polls. Qed.
Lemma ps2_read_data_ends d : ends (fun _ => True) (ps2_read_data_p1 fuel d).
Proof using. unfold ps2_read_data_p1. polls. Qed.

Ltac next L := apply (ends_bind (fun _ => True)); [apply L|]; first [intros [? ?] _|intros ? _].

(** [s'] is [s] with [isr] as the handler of the keyboard's interrupt. *)
Definition handled (isr : Z) (s s' : sched) : Prop :=
  s_mem s' = s_mem s ∧ k_vm (s_k s') = k_vm (s_k s) ∧
  handlers (k_irq (s_k s')) = <[Z.to_nat PS2_IRQ := (isr, NULL)]> (handlers (k_irq (s_k s))) ∧
  irq_semaphore (k_irq (s_k s')) = irq_semaphore (k_irq (s_k s)) ∧ iflag (k_irq (s_k s')) = iflag (k_irq (s_k s)).

Lemma ps2_init_ends isr s d : length (handlers (k_irq (s_k s))) = 256%nat →
  ends (fun r => handled isr s r.2.1) (ps2_init fuel isr s d).
Proof using.
  intros Hh. unfold ps2_init. cbv zeta. destruct (inb PS2_DATA_PORT _) as [x d1].
  next ps2_read_cmd_ends. next ps2_write_cmd_ends. next ps2_read_cmd_ends. next ps2_write_cmd_ends. next ps2_read_cmd_ends.
  next ps2_write_data_ends. next ps2_read_data_ends. next ps2_read_data_ends.
  match goal with |- context [IRQ_set_handler PS2_IRQ isr NULL (k_irq (s_k ?u))] => set (s1 := u) end.
  assert (Hs : s_mem s1 = s_mem s ∧ s_k s1 = s_k s) by (unfold s1; by repeat case_match). clearbody s1. destruct Hs as [Hm Hk].
  unfold IRQ_set_handler. change ((256 <? PS2_IRQ) || (PS2_IRQ <? 0)) with false. cbv iota.
  rewrite Hk, upd_Ok, !bind_Ok by (rewrite Hh; apply Nat.ltb_lt; reflexivity). set (i1 := mkIrqs _ _ _ _). unfold s_lift_irq.
  match goal with |- context [IRQ_clear_mask PS2_IRQ i1 ?e] => destruct (IRQ_clear_mask_ends PS2_IRQ i1 e) as [dz ->] end; [unfold PS2_IRQ; lia|].
  rewrite !bind_Ok. cbn [ends fst snd]. unfold handled, s_on_irq, s_set_k. cbn [s_mem s_k k_vm k_irq]. by rewrite Hk.
Qed.
End Controller.

(** ** What others own *)

(** The objects of [H] are still owned, and they and static memory hold what
    they held. *)
Definition kept (pools : Z) (H H' : heap) (m m' : mem) : Prop :=
  (∀ q k, owned H q k → owned H' q k ∧ ∀ x, q ≤ x < q + k → rd8 m' x = rd8 m x) ∧
  (∀ a k x, static pools a k → a ≤ x < a + k → rd8 m' x = rd8 m x).

Lemma kept_refl pools H m : kept pools H H m m.
Proof. by split. Qed.

Lemma kept_new pools H0 H H' m0 m m' p n : kept pools H0 H m0 m → new_object pools H H' m m' p n → kept pools H0 H' m0 m'.
Proof.
  intros [K1 K2] (_ & N1 & N2). split.
  - intros q k Hq. destruct (K1 q k Hq) as [Ho Hk]. destruct (N1 q k Ho) as (Ho' & _ & Hk'). split; [done|].
    intros x Hx. rewrite Hk' by done. by apply Hk.
  - intros a k x Ha Hx. rewrite (N2 a k x Ha Hx). by apply (K2 a k).
Qed.

(** Stores to an object that nobody else owns. *)
Lemma kept_store pools H0 H m0 m m' s L p n : kept pools H0 H m0 m → heap_rep pools m s H L → owned H p n →
  (∀ q k, owned H0 q k → q ≠ p) → only_in p n m m' → kept pools H0 H m0 m'.
Proof.
  intros [K1 K2] R Hp Hne Hm. split.
  - intros q k Hq. destruct (K1 q k Hq) as [Ho Hk]. split; [done|]. intros x Hx. rewrite Hm; [by apply Hk|].
    pose proof (owned_apart _ _ _ _ _ _ _ _ _ R Ho Hp (Hne q k Hq)). unfold apart in *. lia.
  - intros a k x Ha Hx. rewrite Hm; [by apply (K2 a k)|]. pose proof (owned_static _ _ _ _ _ _ _ _ _ R Hp Ha). unfold apart in *. lia.
Qed.

Lemma kept_owned pools H0 H m0 m p n k o : kept pools H0 H m0 m → owned H0 p n → 0 ≤ o → o + Z.of_nat k ≤ n → rd_le k m (p + o) = rd_le k m0 (p + o).
Proof. intros [K _] Hp Ho Hk. apply rd_le_ext. intros x Hx. apply (K p n Hp). lia. Qed.

Lemma kept_static pools H0 H m0 m p n k o : kept pools H0 H m0 m → static pools p n → 0 ≤ o → o + Z.of_nat k ≤ n → rd_le k m (p + o) = rd_le k m0 (p + o).
Proof. intros [_ K] Hp Ho Hk. apply rd_le_ext. intros x Hx. apply (K p n); [done|lia]. Qed.

(** ** [ps2_open] *)

Section Ps2Open.
Context {D : Type} `{Hport : PortIO D} (pools isr : Z) (fuel : nat).

(** The reader [user] of the open [file] begins at the writer's position. *)
Record reader (m : mem) (H : heap) (pos file user : Z) : Prop := {
  re_user : owned H user sizeof_PS2User;
  re_sep : user ≠ file;
  re_data : rd64 m (file + off_private_data) = user;
  re_pos : user_pos m user = pos
}.

Definition first_reader (k : PS2Device) (hs : list (Z * Z)) : list (Z * Z) :=
  if num_open k =? 0 then <[Z.to_nat PS2_IRQ := (isr, NULL)]> hs else hs.

(** Out of memory, nothing changes; else the reader is set up, the handler is
    installed for the first one, and the nesting of interrupts is as before. *)
Definition ps2_opened (H : heap) (file : Z) (k : PS2Device) (s : sched) (n : nat) (r : Z * (PS2Device * sched * D)) : Prop :=
  let '(v, (k', s', _)) := r in
  ∃ H' L', heap_rep pools (s_mem s') (s_k s') H' L' ∧
  ((v = -1 ∧ H' = H ∧ k' = k ∧ s_mem s' = s_mem s ∧ handlers (k_irq (s_k s')) = handlers (k_irq (s_k s)) ∧
    ∃ np, ps_alloc np (s_k s) = Ok (NULL, s_k s')) ∨
   (v = 0 ∧ k' = ps2_set_open k (num_open k + 1) ∧ (∃ user, reader (s_mem s') H' (ps2_pos k) file user ∧ ∀ q z, owned H q z → user ≠ q) ∧
    handlers (k_irq (s_k s')) = first_reader k (handlers (k_irq (s_k s))) ∧ irq_at n (k_irq (s_k s')) ∧
    (∀ q z, owned H q z → owned H' q z ∧ ∀ x, q ≤ x < q + z → ¬ (file + off_private_data ≤ x < file + off_private_data + 8) → rd8 (s_mem s') x = rd8 (s_mem s) x) ∧
    (∀ a z x, static pools a z → a ≤ x < a + z → rd8 (s_mem s') x = rd8 (s_mem s) x))).

Lemma init_first s d n k : length (handlers (k_irq (s_k s))) = 256%nat → irq_at n (k_irq (s_k s)) →
  ends fuel (fun r : sched * D => s_mem r.1 = s_mem s ∧ k_vm (s_k r.1) = k_vm (s_k s) ∧
      handlers (k_irq (s_k r.1)) = first_reader k (handlers (k_irq (s_k s))) ∧ irq_at n (k_irq (s_k r.1)))
    (if num_open k =? 0 then x ← ps2_init fuel isr s d; Ok x.2 else Ok (s, d)).
Proof using.
  intros Hh [I1 I2]. unfold first_reader. destruct (num_open k =? 0); [|by split_and!].
  eapply ends_bind; [by apply ps2_init_ends|]. intros [v [s1 d1]] (M & V & Hs & E1 & E2). cbn [ends fst snd] in *.
  split_and!; [done|done|done|]. unfold irq_at. by rewrite E1, E2.
Qed.

(** The two stores of [ps2_open] to its objects. *)
Lemma reader_stores m0 m1 H H1 k1 L1 file user pos :
  heap_rep pools m1 k1 H1 L1 → new_object pools H H1 m0 m1 user sizeof_PS2User → owned H file sizeof_INode → 0 ≤ pos < 128 →
  let m := wr64 (wr64 m1 (file + off_private_data) user) (user + 8) pos in
  heap_rep pools m k1 H1 L1 ∧ reader m H1 pos file user ∧
  (∀ q z, owned H q z → owned H1 q z ∧ ∀ x, q ≤ x < q + z → ¬ (file + off_private_data ≤ x < file + off_private_data + 8) → rd8 m x = rd8 m0 x) ∧
  (∀ a z x, static pools a z → a ≤ x < a + z → rd8 m x = rd8 m0 x).
Proof using.
  intros R (Ou & N1 & N2) Hf Hp m. destruct (N1 _ _ Hf) as (Hf1 & Hne & _). unfold sizeof_INode, sizeof_PS2User, off_private_data in *.
  pose proof (owned_apart _ _ _ _ _ _ _ _ _ R Ou Hf1 Hne) as A. pose proof (owned_range _ _ _ _ _ _ _ R Ou) as Hu.
  set (m2 := wr64 m1 (file + 16) user) in *.
  assert (O2 : only_in file 56 m1 m2) by (intros x Hx; apply rd8_wr_le_out; cbn; lia).
  assert (O : only_in user 16 m2 m) by (intros x Hx; apply rd8_wr_le_out; cbn; lia).
  split_and!.
  - eapply heap_rep_write; [|left; exact Ou|exact O]. eapply heap_rep_write; [exact R|left; exact Hf1|exact O2].
  - split; [done|done| |].
    + unfold off_private_data, m. rewrite rd64_wr64_apart by (unfold apart in *; lia). unfold m2. rewrite rd64_wr64_eq. apply u64_small. lia.
    + unfold user_pos, m. rewrite rd64_wr64_eq. apply u64_small. lia.
  - intros q z Hq. destruct (N1 q z Hq) as (Hq1 & Hqu & Hk). split; [done|]. intros x Hx Hx'.
    pose proof (owned_apart _ _ _ _ _ _ _ _ _ R Ou Hq1 Hqu). rewrite O by (unfold apart in *; lia).
    unfold m2, wr64. rewrite rd8_wr_le_out by (cbn; lia). by apply Hk.
  - intros a z x Ha Hx. pose proof (owned_static _ _ _ _ _ _ _ _ _ R Ou Ha). pose proof (owned_static _ _ _ _ _ _ _ _ _ R Hf1 Ha).
    unfold apart in *. rewrite O, O2 by lia. by apply (N2 a z).
Qed.

Lemma ps2_open_ends H L file k s d n :
  heap_rep pools (s_mem s) (s_k s) H L → owned H file sizeof_INode → length (handlers (k_irq (s_k s))) = 256%nat →
  irq_at n (k_irq (s_k s)) → Z.of_nat n < 4294967294 → 0 ≤ ps2_pos k < 128 →
  ends (D := D) fuel (ps2_opened H file k s n) (ps2_open fuel pools isr file k s d).
Proof using.
  intros R Hf Hh Hi Hn Hp. unfold ps2_open.
  destruct (kmalloc_small_block pools (s_mem s) (s_k s) H L sizeof_PS2User R) as (user & m1 & k1 & H1 & L1 & E1 & R1 & C); [unfold sizeof_PS2User; lia|].
  pose proof (kmalloc_pages (fun k => handlers (k_irq k) = handlers (k_irq (s_k s))) _ _ _ _ _ _ _
    (fun n a t t' E Ht => eq_trans (MMU_alloc_pages_handlers n t a t' E) Ht) E1 eq_refl) as Hk1.
  rewrite E1, bind_Ok. cbn [fst snd]. destruct C as [(-> & -> & -> & Hno)|(Hu & N & _)].
  { cbn [Z.eqb NULL ends ps2_opened]. exists H, L1. split; [done|]. left. by split_and!. }
  rewrite (proj2 (Z.eqb_neq user NULL)) by done.
  pose proof (kmalloc_pages_some (fun k => irq_at n (k_irq k)) _ _ _ _ _ _ _
    (fun j a t t' E Ha Ht => MMU_alloc_pages_depth n j t a t' E Ha Ht Hn) E1 Hu Hi) as Hi1.
  destruct (IRQ_disable_at n _ Hi1 ltac:(lia)) as (Hi2 & Hh2 & _).
  eapply ends_bind; [apply (init_first _ _ (S n) k); cbn [s_on_irq s_set_k s_set_mem s_k s_mem k_irq]; [by rewrite Hh2, Hk1|exact Hi2]|].
  intros [s2 d2]. cbn [fst snd s_on_irq s_set_k s_set_mem s_k s_mem k_irq k_vm ends ps2_opened].
  intros (M & V & Hh3 & Hi3). rewrite Hh2, Hk1 in Hh3. rewrite M. cbn [s_mem].
  destruct (reader_stores _ _ _ _ _ _ _ _ _ R1 N Hf Hp) as (R2 & Re & Ko & Ks). cbv zeta in *.
  destruct (IRQ_enable_at (S n) _ Hi3 ltac:(lia)) as (Hi4 & Hh4 & _).
  exists H1, L1. split; [by eapply heap_rep_kvm; [|exact R2]|]. right.
  split; [done|]. split; [done|]. split; [|split; [by rewrite Hh4|by split_and!]].
  exists user. split; [done|]. intros q z Hq. destruct N as (_ & N1 & _). by destruct (N1 q z Hq) as (_ & ? & _).
Qed.
End Ps2Open.

(** ** [keyboard_io_open] *)

Definition chars_ps2 : list Z := chars "ps2".

Section KeyboardOpen.
Context {DK DC : Type} `{HK : PortIO DK}.
Context (files pools str open_addr isr fops : Z) (sfuel fuel lfuel : nat).

(** The inodes [inos], named by [nm]; those named "ps2" are the keyboard's. *)
Record ps2_registered (m : mem) (H : heap) (inos : list Z) (nm : Z → list Z) : Prop := {
  rg_list : list_rep m (f_inodes files) off_inode_list inos;
  rg_names i : i ∈ inos → cstr m (rd64 m (i + off_inode_name)) (nm i);
  rg_lit : cstr m str chars_ps2;
  rg_inode i : i ∈ inos → nm i = chars_ps2 → owned H i sizeof_INode ∧ rd64 m i = fops;
  rg_fops : static pools fops 24 ∧ rd64 m fops = open_addr
}.

(** The page source had no memory. *)
Definition no_memory (k : kstate) : Prop := ∃ np k0, ps_alloc np k0 = Ok (NULL, k).

(** [file] is a new object that leads to the keyboard's operations. *)
Record new_file (H H' : heap) (m : mem) (inos : list Z) (nm : Z → list Z) (file : Z) : Prop := {
  nf_own : owned H' file sizeof_INode;
  nf_new q k : owned H q k → q ≠ file;
  nf_inode : rd64 m file ∈ inos ∧ nm (rd64 m file) = chars_ps2;
  nf_fops : rd64 m (file + off_ofile_fops) = fops
}.

(** How opening ends: nothing is opened, because there is no such inode or no
    memory; the file is there but has no reader, because there was no memory for
    it; or the file has a reader who has nothing to read yet, and the keyboard's
    handler is installed. *)
Definition open_end (H : heap) (inos : list Z) (nm : Z → list Z) (n : nat) (w : machine DK DC) (r : Z * machine DK DC) : Prop :=
  let '(file, w') := r in
  let '(m, m', k, k') := (s_mem (m_s w), s_mem (m_s w'), m_ps2 w, m_ps2 w') in
  let '(i, i') := (k_irq (s_k (m_s w)), k_irq (s_k (m_s w'))) in
  ∃ H' L', heap_rep pools m' (s_k (m_s w')) H' L' ∧ kept pools H H' m m' ∧
  ((file = NULL ∧ k' = k ∧ m' = m ∧ handlers i' = handlers i ∧ (chars_ps2 ∉ (nm <$> inos) ∨ no_memory (s_k (m_s w')))) ∨
   (file ≠ NULL ∧ new_file H H' m' inos nm file ∧
    ((k' = k ∧ handlers i' = handlers i ∧ no_memory (s_k (m_s w'))) ∨
     (k' = ps2_set_open k (num_open k + 1) ∧ handlers i' = first_reader isr k (handlers i) ∧ irq_at n i' ∧
      ∃ user, reader m' H' (ps2_pos k) file user ∧ ring k' (user_pos m' user) [])))).

Lemma first_named_found nm s ds : first_named nm s ds ≠ NULL → first_named nm s ds ∈ ds ∧ nm (first_named nm s ds) = s.
Proof using.
  clear. unfold first_named. destruct (filter _ ds) as [|d l] eqn:E; [done|]. intros _. cbn.
  assert (Hd : d ∈ filter (fun d => nm d = s) ds) by (rewrite E; left). by apply list_elem_of_filter in Hd as [? ?].
Qed.

Lemma first_named_some nm s ds : (∀ d, d ∈ ds → nm d = s → d ≠ NULL) → s ∈ (nm <$> ds) → first_named nm s ds ≠ NULL.
Proof using.
  clear. intros Hz (d & -> & Hd)%list_elem_of_fmap. unfold first_named. destruct (filter _ ds) as [|e l] eqn:E.
  - assert (He : d ∈ filter (fun e => nm e = nm d) ds) by (by apply list_elem_of_filter). rewrite E in He. by apply elem_of_nil in He.
  - assert (He : e ∈ filter (fun e => nm e = nm d) ds) by (rewrite E; left). apply list_elem_of_filter in He as [Hn He]. cbn. by apply Hz.
Qed.

(** The file is filled in. *)
Lemma file_stores m m1 k1 H H1 L1 inos nm file ino :
  ps2_registered m H inos nm → heap_rep pools m1 k1 H1 L1 → new_object pools H H1 m m1 file sizeof_INode →
  ino ∈ inos → nm ino = chars_ps2 → 0 ≤ fops →
  let m2 := wr64 m1 file ino in
  let m' := wr64 m2 (file + off_ofile_fops) (rd64 m2 ino) in
  heap_rep pools m' k1 H1 L1 ∧ kept pools H H1 m m' ∧ new_file H H1 m' inos nm file ∧ rd64 m' (rd64 m' ino) = open_addr.
Proof using.
  intros Rg R1 N Hin Hnm Hf m2 m'. destruct (rg_inode _ _ _ _ Rg ino Hin Hnm) as [Ho Ei]. destruct (rg_fops _ _ _ _ Rg) as [Sf Ef].
  pose proof N as (Of & N1 & N2). destruct (N1 _ _ Ho) as (Ho1 & Hne & _). pose proof (kept_new _ _ _ _ _ _ _ _ _ (kept_refl pools H m) N) as K1.
  pose proof (owned_apart _ _ _ _ _ _ _ _ _ R1 Of Ho1 Hne) as A. pose proof (owned_range _ _ _ _ _ _ _ R1 Ho1) as Hr.
  unfold off_ofile_fops, sizeof_INode in *.
  assert (O2 : only_in file 56 m1 m2) by (intros x Hx; apply rd8_wr_le_out; cbn; lia).
  assert (O' : only_in file 56 m1 m') by (intros x Hx; unfold m', wr64; rewrite rd8_wr_le_out by (cbn; lia); apply O2; lia).
  assert (Hnew : ∀ q k, owned H q k → q ≠ file) by (intros q k Hq; destruct (N1 q k Hq) as (_ & ? & _); congruence).
  pose proof (kept_store _ _ _ _ _ _ _ _ _ _ K1 R1 Of Hnew O2) as K2. pose proof (kept_store _ _ _ _ _ _ _ _ _ _ K1 R1 Of Hnew O') as K'.
  assert (E2 : rd64 m2 ino = fops).
  { rewrite <- Ei. rewrite <- (Z.add_0_r ino). apply (kept_owned pools H H1 m m2 ino 56 8 0 K2 Ho); cbn; lia. }
  assert (E' : rd64 m' ino = fops).
  { rewrite <- Ei. rewrite <- (Z.add_0_r ino). apply (kept_owned pools H H1 m m' ino 56 8 0 K' Ho); cbn; lia. }
  split; [eapply heap_rep_write; [exact R1|left; exact Of|exact O']|]. split; [done|].
  assert (Ef1 : rd64 m' file = ino) by (unfold m'; rewrite rd64_wr64_apart by (unfold apart; lia); unfold m2; rewrite rd64_wr64_eq; apply u64_small; lia).
  split; [split; [done|done|by rewrite Ef1|]|].
  - unfold off_ofile_fops, m'. rewrite rd64_wr64_eq, E2. apply u64_small. destruct Sf as (_ & S2 & _).
    pose proof (owned_range _ _ _ _ _ _ _ R1 Of). lia.
  - rewrite E', <- Ef. rewrite <- (Z.add_0_r fops). apply (kept_static pools H H1 m m' fops 24 8 0 K' Sf); cbn; lia.
Qed.

Lemma opened_file H H1 m m2 m' H' inos nm file :
  kept pools H H1 m m2 → new_file H H1 m2 inos nm file →
  (∀ q z, owned H1 q z → owned H' q z ∧ ∀ x, q ≤ x < q + z → ¬ (file + off_private_data ≤ x < file + off_private_data + 8) → rd8 m' x = rd8 m2 x) →
  (∀ a z x, static pools a z → a ≤ x < a + z → rd8 m' x = rd8 m2 x) →
  (∀ s L, heap_rep pools m2 s H1 L → kept pools H H' m m') ∧ new_file H H' m' inos nm file.
Proof using.
  intros [K1 K2] [F1 F2 F3 F4] Ko Ks. split.
  - intros s L R. split.
    + intros q k Hq. destruct (K1 q k Hq) as [Hq1 Hk]. destruct (Ko q k Hq1) as [Hq' Hk']. split; [done|].
      intros x Hx. rewrite Hk' by (try done; pose proof (owned_apart _ _ _ _ _ _ _ _ _ R Hq1 F1 (F2 q k Hq)); unfold apart, sizeof_INode, off_private_data in *; lia).
      by apply Hk.
    + intros a k x Ha Hx. rewrite (Ks a k x Ha Hx). by apply (K2 a k).
  - destruct (Ko _ _ F1) as [F1' Hk]. unfold sizeof_INode, off_private_data, off_ofile_fops in *.
    assert (E0 : rd64 m' file = rd64 m2 file) by (apply (rd_le_ext 8); intros x Hx; cbn in Hx; apply Hk; lia).
    assert (E8 : rd64 m' (file + 8) = rd64 m2 (file + 8)) by (apply (rd_le_ext 8); intros x Hx; cbn in Hx; apply Hk; lia).
    split; [done|done|by rewrite E0|unfold off_ofile_fops; by rewrite E8].
Qed.

Lemma inode_nonnull m k H L inos nm : heap_rep pools m k H L → ps2_registered m H inos nm → ∀ d, d ∈ inos → nm d = chars_ps2 → d ≠ NULL.
Proof using.
  intros R Rg d Hd Hn. destruct (rg_inode _ _ _ _ Rg d Hd Hn) as [Ho _]. pose proof (owned_range _ _ _ _ _ _ _ R Ho). unfold NULL. lia.
Qed.

(** From the file on: [ps2_open] on the new file gives one of the two last ends. *)
Lemma opened_end H H1 L1 m2 inos nm n file (s2 : sched) v k' s' (d : DK) (w w' : machine DK DC) :
  s_mem s2 = m2 → handlers (k_irq (s_k s2)) = handlers (k_irq (s_k (m_s w))) → file ≠ NULL →
  heap_rep pools m2 (s_k s2) H1 L1 → kept pools H H1 (s_mem (m_s w)) m2 → new_file H H1 m2 inos nm file →
  0 ≤ ps2_pos (m_ps2 w) < 128 → length (ps2_data (m_ps2 w)) = 128%nat →
  ps2_opened pools isr H1 file (m_ps2 w) s2 n (v, (k', s', d)) →
  s_mem (m_s w') = s_mem s' → s_k (m_s w') = s_k s' → m_ps2 w' = k' → open_end H inos nm n w (file, w').
Proof using.
  intros E2 Hh Hf R2 K2 F2 Hp Hd (H' & L' & R' & C) Em Ek Ep. unfold open_end. rewrite Em, Ek, Ep. exists H', L'. split; [done|].
  destruct C as [(_ & -> & -> & Ms & Hh' & np & Hno)|(_ & -> & (user & Re & Hu) & Hh' & Hi & Ko & Ks)].
  - rewrite Ms, E2. split; [done|]. right. split; [done|]. split; [done|]. left. split; [done|]. split; [congruence|]. by exists np, (s_k s2).
  - rewrite E2 in Ko, Ks. destruct (opened_file H H1 _ m2 (s_mem s') H' inos nm file K2 F2 Ko Ks) as [K F].
    split; [by apply (K (s_k s2) L1)|]. right. split; [done|]. split; [done|]. right.
    split; [done|]. split; [by rewrite Hh', Hh|]. split; [done|]. exists user. split; [done|].
    rewrite (re_pos _ _ _ _ _ Re). split; cbn [ps2_set_open ps2_data ps2_pos length]; [done|done|lia| |done].
    rewrite Z.add_0_r. symmetry. by apply Z.mod_small.
Qed.

End KeyboardOpen.

(** ** Closing *)

Section Close.
Context {D : Type} `{Hport : PortIO D} (pools : Z).

Lemma IRQ_set_mask_ends irq i (d : D) : 0x20 ≤ irq < 0x30 → ∃ d', IRQ_set_mask irq i d = Ok (i, d').
Proof using.
  intros Hi. unfold IRQ_set_mask. rewrite mask_guard, pic_port_line by (done || (unfold PIC_MASTER_REMAP_BASE; lia)).
  destruct (inb _ d) as [v d']. rewrite int_bit_line, bind_Ok by done. by eexists.
Qed.

Lemma cleanup_last s k (d : D) :
  ∃ s' d', (if num_open k =? 0 then ps2_cleanup s d else Ok (s, d)) = Ok (s', d') ∧ s_mem s' = s_mem s ∧ s_k s' = s_k s.
Proof using.
  destruct (num_open k =? 0); [|by exists s, d]. unfold ps2_cleanup, s_lift_irq.
  destruct (IRQ_set_mask_ends PS2_IRQ (k_irq (s_k s)) d) as [d' ->]; [unfold PS2_IRQ; lia|]. rewrite bind_Ok.
  eexists _, _. split; [done|]. split; [done|]. cbn. by destruct (s_k s).
Qed.

(** Closing an open keyboard file gives the file's object back, and nothing
    else: the reader that [ps2_open] allocated stays allocated although nothing
    refers to it any more.  The count of readers, and with the last one the mask of
    the interrupt line, follow; handlers and nesting are as before. *)
Theorem ps2_close_leaks H L file user k s (d : D) n j pos :
  heap_rep pools (s_mem s) (s_k s) H L → live H (file - HDR) j → reader (s_mem s) H pos file user →
  irq_at n (k_irq (s_k s)) → Z.of_nat n < 4294967295 →
  ∃ s' d' H', ps2_close file k s d = Ok (0, (ps2_set_open k (num_open k - 1), s', d')) ∧
    heap_rep pools (s_mem s') (s_k s') H' L ∧ (∀ b i, live H' b i ↔ live H b i ∧ b ≠ file - HDR) ∧
    (∀ z, ¬ owned H' file z) ∧ owned H' user sizeof_PS2User ∧
    handlers (k_irq (s_k s')) = handlers (k_irq (s_k s)) ∧ irq_at n (k_irq (s_k s')).
Proof using.
  intros R Hl [Ou Hne _ _] Hi Hn. unfold ps2_close.
  destruct (kfree_object pools _ _ _ _ _ _ R Hl) as (m1 & H' & E & R1 & Ko & _ & Hno & Hlive). rewrite E, bind_Ok. cbn [fst snd].
  destruct (IRQ_disable_at n _ Hi Hn) as (Hi2 & Hh2 & _). set (s1 := s_on_irq IRQ_disable _).
  destruct (cleanup_last s1 (ps2_set_open k (num_open k - 1)) d) as (s2 & d2 & -> & M & K). rewrite bind_Ok. cbn [fst snd].
  destruct (IRQ_enable_at (S n) _ Hi2 ltac:(lia)) as (Hi4 & Hh4 & _).
  eexists _, d2, H'. split; [done|]. cbn [s_on_irq s_set_k s_mem s_k k_irq]. rewrite M, K. cbn [s1 s_on_irq s_set_k s_set_mem s_mem s_k k_irq k_vm].
  split; [by eapply heap_rep_kvm; [|exact R1]|]. split; [done|]. split; [done|]. split; [by apply Ko|]. split; [congruence|done].
Qed.
End Close.

(** ** Example: a controller that always answers *)

#[export] Instance demo_ctl_ports : PortIO unit := {| port_in _ _ d := (1, d); port_out _ _ _ d := d |}.

Definition demo_open_mem0 : mem :=
  let m := LL_init demo_object_mem (f_inodes 0x300000) off_inode_list in
  let m := wr64 m (demo_object + 0) 0x330000 in
  let m := wr64 m (demo_object + off_inode_name) 0x340000 in
  let m := wr32 m 0x340000 0x327370 in
  wr64 m 0x330000 0x7200.
Definition demo_open_mem : mem := LL_enqueue demo_open_mem0 (f_inodes 0x300000) demo_object.

Definition demo_open : machine unit unit :=
  mkM (mkS demo_open_mem (mkK (k_vm demo_source) (mkIrqs (replicate 256 (NULL, NULL)) 0 true [])) NULL NULL 0 [])
    (mkPs2 0 (replicate 128 0) 0 0) 0 0 None tt tt.

Lemma demo_open_heap0 : heap_rep demo_pools demo_open_mem0 demo_source demo_object_heap [(MMAP_KERNEL_HEAP_START, 4)] ∧
  list_rep demo_open_mem0 (f_inodes 0x300000) off_inode_list [].
Proof.
  destruct (LL_init_rep demo_object_mem (f_inodes 0x300000) off_inode_list) as [R O]; [unfold valid_hdr, f_inodes; lia|unfold off_inode_list; lia|].
  pose proof (demo_object_owned 56 ltac:(lia)) as Ow. split.
  - unfold demo_open_mem0, wr64, wr32. eapply heap_rep_write; [|right; apply (demo_static 0x330000 8); vm_compute; congruence|apply (wr_le_only_in 8)].
    eapply heap_rep_write; [|right; apply (demo_static 0x340000 4); vm_compute; congruence|apply (wr_le_only_in 4)].
    eapply heap_rep_write; [|left; exact Ow|intros x Hx; apply rd8_wr_le_out; unfold off_inode_name; cbn; lia].
    eapply heap_rep_write; [|left; exact Ow|intros x Hx; apply rd8_wr_le_out; cbn; lia].
    eapply heap_rep_write; [exact demo_object_rep|right; apply (demo_static (f_inodes 0x300000) 24); vm_compute; congruence|exact O].
  - eapply list_rep_ext; [| |exact R]; [|by intros d x Hd%elem_of_nil]. intros x Hx.
    unfold demo_open_mem0, wr64, wr32, f_inodes, demo_object, MMAP_KERNEL_HEAP_START, P4_PTE_ADDRESSES, HDR, off_inode_name in *.
    by rewrite !rd8_wr_le_out by (cbn; lia).
Qed.

Lemma demo_open_ready : heap_rep demo_pools demo_open_mem (s_k (m_s demo_open)) demo_object_heap [(MMAP_KERNEL_HEAP_START, 4)] ∧
  ps2_registered 0x300000 demo_pools 0x340000 0x7200 0x330000 demo_open_mem demo_object_heap [demo_object] (fun _ => chars_ps2).
Proof.
  destruct demo_open_heap0 as [R0 L0]. pose proof (demo_object_owned 56 ltac:(lia)) as Ow.
  destruct (enqueue_object demo_pools demo_open_mem0 demo_source demo_object_heap _ (f_inodes 0x300000) off_inode_list 56 [] demo_object R0 L0)
    as (L1 & R1 & _).
  { by intros d ->%list_elem_of_singleton. }
  { apply not_elem_of_nil. }
  { unfold off_inode_list. lia. }
  { apply demo_static; vm_compute; congruence. }
  fold demo_open_mem in L1, R1. split; [by apply (heap_rep_kvm _ _ demo_source)|]. split; [exact L1| | | |].
  - intros i ->%list_elem_of_singleton. apply (bool_decide_unpack _). vm_compute. exact I.
  - apply (bool_decide_unpack _). vm_compute. exact I.
  - intros i ->%list_elem_of_singleton _. split; [exact Ow|]. vm_compute. reflexivity.
  - split; [apply demo_static; vm_compute; congruence|]. vm_compute. reflexivity.
Qed.

Definition demo_opened : outcome (Z * machine unit unit) := keyboard_io_open 0x300000 demo_pools 0x340000 0x7200 0x7300 4 2 2 demo_open.
Definition demo_readers (o : outcome (Z * machine unit unit)) : option Z := match o with Ok (_, w) => Some (num_open (m_ps2 w)) | _ => None end.

(** The file is opened: there is a reader. *)
Example demo_open_reader : demo_readers demo_opened = Some 1.
Proof. vm_compute. reflexivity. Qed.

