(* ===== verification/Platform.v ===== *)
(** * Bringing up the hardware (src/src/arch/x86_64/interrupts.c, hw_init.c, drivers/serial/x86.c)

    [HW_init] loads the descriptor tables, reprograms the two 8259 interrupt
    controllers by a fixed sequence of initialisation words, clears the handler
    table, turns interrupts on, and configures the serial port.  Controllers and
    port are state machines here, because the meaning of a byte written to one of
    their ports depends on what was written before. *)

From Stdlib Require Import ZifyBool.
From S2P Require Import Prelude Memory Machine Irq Serial HwInit.

(** ** An 8259 *)

(** Operational, or waiting for the second, third or fourth word. *)
Inductive pic_phase := PicReady | PicIcw2 | PicIcw3 | PicIcw4.

Record pic_chip := mkPic { pc_phase : pic_phase; pc_imr : Z; pc_base : Z; pc_cascade : Z; pc_mode : Z }.

(** A command byte with bit 4 set is the first initialisation word. *)
Definition pic_command (v : Z) (c : pic_chip) : pic_chip :=
  if Z.testbit v 4 then mkPic PicIcw2 0 (pc_base c) (pc_cascade c) (pc_mode c) else c.

Definition pic_data (v : Z) (c : pic_chip) : pic_chip :=
  match pc_phase c with
  | PicReady => mkPic PicReady v (pc_base c) (pc_cascade c) (pc_mode c)
  | PicIcw2 => mkPic PicIcw3 (pc_imr c) v (pc_cascade c) (pc_mode c)
  | PicIcw3 => mkPic PicIcw4 (pc_imr c) (pc_base c) v (pc_mode c)
  | PicIcw4 => mkPic PicReady (pc_imr c) (pc_base c) (pc_cascade c) v
  end.

Definition pic_cmd_port (b : bool) : Z := if b then PIC_SLAVE_COMMAND else PIC_MASTER_COMMAND.
Definition pic_data_port (b : bool) : Z := if b then PIC_SLAVE_DATA else PIC_MASTER_DATA.

(** What the code relies on of the pair ([false] is the master). *)
Class PicPair (D : Type) `{PortIO D} := {
  chip : bool → D → pic_chip;
  chip_range (b : bool) (d : D) : 0 ≤ pc_imr (chip b d) < 256;
  chip_cmd (b b' : bool) (v : Z) (d : D) : chip b (outb (pic_cmd_port b') v d) = if Bool.eqb b b' then pic_command (u8 v) (chip b d) else chip b d;
  chip_data (b b' : bool) (v : Z) (d : D) : chip b (outb (pic_data_port b') v d) = if Bool.eqb b b' then pic_data (u8 v) (chip b d) else chip b d;
  chip_read (b : bool) (d : D) : pc_phase (chip b d) = PicReady → inb (pic_data_port b) d = (pc_imr (chip b d), d)
}.

(** ** Masking *)

Section Pair.
Context {D : Type} `{Hport : PortIO D} `{Hpair : !PicPair D}.

Definition ready (d : D) : Prop := ∀ b, pc_phase (chip b d) = PicReady.

(** The mask bit of a line, eight on each controller. *)
Definition line_masked (d : D) (line : Z) : bool := Z.testbit (pc_imr (chip (8 <=? line) d)) (line mod 8).

(** Everything but the masks. *)
Definition setup (d : D) (b : bool) : pic_phase * Z * Z * Z :=
  (pc_phase (chip b d), pc_base (chip b d), pc_cascade (chip b d), pc_mode (chip b d)).

(** Writing a mask that differs in one line's bit. *)
Lemma mask_write_line d line v f : ready d → 0 ≤ line < 16 →
  (∀ j, 0 ≤ j < 8 → Z.testbit v j = if j =? line mod 8 then f else Z.testbit (pc_imr (chip (8 <=? line) d)) j) →
  let d' := outb (pic_data_port (8 <=? line)) v d in
  (∀ b, setup d' b = setup d b) ∧ ∀ j, 0 ≤ j < 16 → line_masked d' j = if j =? line then f else line_masked d j.
Proof using.
  intros Hr Hl Hv d'. set (b := 8 <=? line) in *.
  assert (Hc : ∀ b', chip b' d' = if Bool.eqb b' b
      then mkPic PicReady (u8 v) (pc_base (chip b' d)) (pc_cascade (chip b' d)) (pc_mode (chip b' d)) else chip b' d).
  { intros b'. unfold d'. rewrite chip_data. unfold pic_data. by rewrite Hr. }
  split.
  - intros b'. unfold setup. rewrite Hc. destruct (Bool.eqb b' b); [|done]. cbn. by rewrite Hr.
  - intros j Hj. unfold line_masked. rewrite Hc. set (bj := 8 <=? j). destruct (Bool.eqb bj b) eqn:Eb.
    + apply Bool.eqb_prop in Eb. cbn [pc_imr]. rewrite testbit_u8, Hv, Eb by word_lia.
      replace (j mod 8 =? line mod 8) with (j =? line); [done|]. apply Bool.eq_iff_eq_true. rewrite !Z.eqb_eq.
      subst bj b. destruct (8 <=? j) eqn:E1, (8 <=? line) eqn:E2; bool_cases; try done; word_lia.
    + destruct (Z.eqb_spec j line) as [->|]; [|done]. subst bj b. by rewrite Bool.eqb_reflx in Eb.
Qed.

Lemma int_bit_low line : 0 ≤ line < 16 → int_bit (line mod 8) = Ok (Z.shiftl 1 (line mod 8)).
Proof using. intros Hl. unfold int_bit. by rewrite (proj2 (Z.ltb_lt (line mod 8) 32)) by word_lia. Qed.

Lemma set_mask_line s d line : ready d → 0 ≤ line < 16 →
  ∃ d', IRQ_set_mask (line + PIC_MASTER_REMAP_BASE) s d = Ok (s, d') ∧ (∀ b, setup d' b = setup d b) ∧
    ∀ j, 0 ≤ j < 16 → line_masked d' j = (j =? line) || line_masked d j.
Proof using.
  intros Hr Hl. unfold IRQ_set_mask. rewrite mask_guard by (unfold PIC_MASTER_REMAP_BASE; lia).
  rewrite Z.add_simpl_r, pic_port_line by done. fold (pic_data_port (8 <=? line)). rewrite chip_read by done.
  rewrite int_bit_low, bind_Ok by done. eexists. split; [done|]. apply (mask_write_line d line _ true Hr Hl).
  intros j Hj. rewrite Z.lor_spec, testbit_int_bit by word_lia. destruct (j =? _); [apply orb_true_r|apply orb_false_r].
Qed.

Lemma clear_mask_line s d line : ready d → 0 ≤ line < 16 →
  ∃ v, IRQ_clear_mask (line + PIC_MASTER_REMAP_BASE) s d = Ok (s, outb (pic_data_port (8 <=? line)) v d) ∧
    let d' := outb (pic_data_port (8 <=? line)) v d in
    (∀ b, setup d' b = setup d b) ∧ ∀ j, 0 ≤ j < 16 → line_masked d' j = if j =? line then false else line_masked d j.
Proof using.
  intros Hr Hl. unfold IRQ_clear_mask. rewrite mask_guard by (unfold PIC_MASTER_REMAP_BASE; lia).
  rewrite Z.add_simpl_r, pic_port_line by done. fold (pic_data_port (8 <=? line)). rewrite chip_read by done.
  rewrite int_bit_low, bind_Ok by done. eexists. split; [done|]. apply (mask_write_line d line _ false Hr Hl).
  intros j Hj. rewrite Z.ldiff_spec, testbit_int_bit by word_lia. destruct (j =? _); [apply andb_false_r|apply andb_true_r].
Qed.

(** The loop masks the lines it passes, line 2 apart. *)
Lemma pic_mask_all_ok s : ∀ k i d, ready d → 0 ≤ i → i + Z.of_nat k ≤ 16 →
  ∃ d', pic_mask_all k i s d = Ok (s, d') ∧ (∀ b, setup d' b = setup d b) ∧
    ∀ j, 0 ≤ j < 16 → line_masked d' j = ((i <=? j) && (j <? i + Z.of_nat k) && negb (j =? 2)) || line_masked d j.
Proof using.
  induction k as [|k IH]; intros i d Hr Hi Hk; cbn [pic_mask_all].
  { exists d. split; [done|]. split; [done|]. intros j Hj. by replace ((i <=? j) && (j <? i + Z.of_nat 0)) with false by lia. }
  destruct (Z.eqb_spec i 2) as [->|Hne].
  - rewrite bind_Ok. destruct (IH 3 d Hr) as (d' & E & S & M); [lia|lia|]. exists d'. split; [done|]. split; [done|].
    intros j Hj. rewrite M by done. f_equal. lia.
  - rewrite u8_small by (unfold PIC_MASTER_REMAP_BASE; lia).
    destruct (set_mask_line s d i Hr) as (d1 & -> & S1 & M1); [lia|]. rewrite bind_Ok.
    assert (Hr1 : ready d1) by (intros b; specialize (S1 b); specialize (Hr b); unfold setup in S1; congruence).
    destruct (IH (i + 1) d1 Hr1) as (d' & E & S & M); [lia|lia|]. exists d'. split; [done|].
    split; [intros b; by rewrite S|]. intros j Hj. rewrite M, M1, orb_assoc by done. f_equal. lia.
Qed.

(** ** Initialisation *)

(** [PIC_init] from operational controllers takes both through the whole
    initialisation sequence and leaves them operational, the master with vectors
    from 0x20 and a slave on line 2, the slave with vectors from 0x28 and the
    identity 2, both in 8086 mode; every line is masked except the cascade, line 2,
    which keeps the mask it had. *)
Lemma PIC_init_remaps (s : irqs) (d : D) : ready d →
  ∃ d', PIC_init s d = Ok (s, d') ∧ setup d' false = (PicReady, 0x20, 4, 1) ∧ setup d' true = (PicReady, 0x28, 2, 1) ∧
    ∀ line, 0 ≤ line < 16 → line_masked d' line = if line =? 2 then line_masked d 2 else true.
Proof using.
  intros Hr. unfold PIC_init.
  rewrite (chip_read false d (Hr false) : inb PIC_MASTER_DATA d = _), (chip_read true d (Hr true) : inb PIC_SLAVE_DATA d = _).
  set (a1 := pc_imr (chip false d)). set (a2 := pc_imr (chip true d)).
  match goal with |- context [pic_mask_all 16 0 s ?e] => set (d1 := e) end.
  assert (C1 : chip false d1 = mkPic PicReady a1 0x20 4 1 ∧ chip true d1 = mkPic PicReady a2 0x28 2 1).
  { pose proof (u8_small a1 (chip_range false d)) as E1. pose proof (u8_small a2 (chip_range true d)) as E2. unfold d1.
    change PIC_MASTER_DATA with (pic_data_port false). change PIC_SLAVE_DATA with (pic_data_port true).
    change PIC_MASTER_COMMAND with (pic_cmd_port false). change PIC_SLAVE_COMMAND with (pic_cmd_port true).
    rewrite !chip_data, !chip_cmd. cbn [Bool.eqb]. rewrite E1, E2. split; vm_compute; reflexivity. }
  destruct C1 as [C1 C2]. assert (Hr1 : ready d1) by (intros []; [by rewrite C2|by rewrite C1]).
  destruct (pic_mask_all_ok s 16 0 d1 Hr1) as (d' & -> & S & M); [lia|lia|]. exists d'. split; [done|].
  split; [rewrite S; unfold setup; by rewrite C1|]. split; [rewrite S; unfold setup; by rewrite C2|].
  intros line Hl. rewrite M by done. unfold line_masked. destruct (Z.eqb_spec line 2) as [->|Hne].
  - change (8 <=? 2) with false. by rewrite C1.
  - replace ((0 <=? line) && (line <? 0 + Z.of_nat 16)) with true by lia. done.
Qed.

(** The interrupt system comes up.  [IRQ_x86_64_init], from operational
    controllers, takes both through the whole initialisation sequence: they end
    operational, with vectors from 0x20 and 0x28, the slave on line 2 of the
    master, in 8086 mode, with every line masked but the cascade, which keeps its
    mask.  The handler table holds the system call handler and nothing else, and
    interrupts are enabled with nesting depth zero. *)
Lemma IRQ_init_ready (idt_init : D → D) (syscall_handler : Z) (s : irqs) (d : D) :
  (∀ b e, chip b (idt_init e) = chip b e) → ready d →
  ∃ s' d', IRQ_x86_64_init idt_init syscall_handler s d = Ok (s', d') ∧
    setup d' false = (PicReady, 0x20, 4, 1) ∧ setup d' true = (PicReady, 0x28, 2, 1) ∧
    (∀ line, 0 ≤ line < 16 → line_masked d' line = if line =? 2 then line_masked d 2 else true) ∧
    handlers s' = <[Z.to_nat SYSCALL_TRAP_NUMBER := (syscall_handler, NULL)]> (replicate 256 (NULL, NULL)) ∧ irq_at 0 s'.
Proof using.
  intros Hidt Hr. unfold IRQ_x86_64_init. set (s0 := mkIrqs (replicate 256 _) _ _ _).
  destruct (PIC_init_remaps s0 d Hr) as (d1 & -> & S1 & S2 & M). rewrite bind_Ok. cbn [fst snd].
  unfold IRQ_set_handler. change ((256 <? SYSCALL_TRAP_NUMBER) || (SYSCALL_TRAP_NUMBER <? 0)) with false. cbv iota.
  rewrite upd_Ok, !bind_Ok by (cbn [handlers set_sem s0]; rewrite length_replicate; apply Nat.ltb_lt; reflexivity).
  eexists _, _. split; [done|]. unfold setup, line_masked in *. rewrite !Hidt.
  split; [done|]. split; [done|]. split; [intros line Hl; rewrite Hidt; by apply M|]. by split.
Qed.
End Pair.

(** ** The serial port *)

(** The registers of a 16550: interrupt enable, line control, divisor, FIFO and
    modem control.  Bit 7 of line control makes the first two ports the divisor. *)
Record uart := mkUart { ut_ier : Z; ut_lcr : Z; ut_divisor : Z * Z; ut_fcr : Z; ut_mcr : Z }.

Definition uart_write (off v : Z) (u : uart) : uart :=
  let dlab := Z.testbit (ut_lcr u) 7 in
  if off =? 0 then if dlab then mkUart (ut_ier u) (ut_lcr u) (v, (ut_divisor u).2) (ut_fcr u) (ut_mcr u) else u
  else if off =? 1 then
    if dlab then mkUart (ut_ier u) (ut_lcr u) ((ut_divisor u).1, v) (ut_fcr u) (ut_mcr u)
    else mkUart v (ut_lcr u) (ut_divisor u) (ut_fcr u) (ut_mcr u)
  else if off =? 2 then mkUart (ut_ier u) (ut_lcr u) (ut_divisor u) v (ut_mcr u)
  else if off =? 3 then mkUart (ut_ier u) v (ut_divisor u) (ut_fcr u) (ut_mcr u)
  else if off =? 4 then mkUart (ut_ier u) (ut_lcr u) (ut_divisor u) (ut_fcr u) v
  else u.

(** A port at COM1 beside the controllers, neither of which sees the other's
    ports. *)
Class ComPort (D : Type) `{PicPair D} := {
  uart_of : D → uart;
  uart_out (off v : Z) (d : D) : 0 ≤ off < 8 → uart_of (outb (COM1_PORT + off) v d) = uart_write off (u8 v) (uart_of d);
  uart_pic (b : bool) (v : Z) (d : D) : uart_of (outb (pic_data_port b) v d) = uart_of d;
  chip_uart (b : bool) (off v : Z) (d : D) : 0 ≤ off < 8 → chip b (outb (COM1_PORT + off) v d) = chip b d
}.

Section Platform.
Context {D : Type} `{Hport : PortIO D} `{Hpair : !PicPair D} `{Hcom : !ComPort D}.

(** 38400 baud (divisor 3), eight bits, no parity, one stop bit; the FIFO is on
    and the transmitter interrupts. *)
Definition uart_ready : uart := mkUart 0x02 0x03 (3, 0) 0xC7 0x0B.

(** The seven register writes before the handler is installed. *)
Lemma uart_setup d (u := uart_of d) :
  let d' := outb (COM1_PORT + 4) 0x0B (outb (COM1_PORT + 2) 0xC7 (outb (COM1_PORT + 3) 0x03 (outb (COM1_PORT + 1) 0x00
    (outb (COM1_PORT + 0) 0x03 (outb (COM1_PORT + 3) 0x80 (outb (COM1_PORT + 1) 0x00 d)))))) in
  ut_lcr (uart_of d') = 3 ∧ ut_divisor (uart_of d') = (3, 0) ∧ ut_fcr (uart_of d') = 0xC7 ∧ ut_mcr (uart_of d') = 0x0B ∧ ∀ b, chip b d' = chip b d.
Proof using.
  cbv zeta. rewrite !uart_out by lia. fold u. destruct (uart_write 1 (u8 0) u) as [ier lcr dv fcr mcr]. do 4 (split; [reflexivity|]).
  intros b. by rewrite !chip_uart by lia.
Qed.

Lemma serial_ready isr gdev s d : ready d → length (handlers s) = 256%nat →
  ∃ s' d', init_x86_serial isr gdev s d = Ok (s', d') ∧ uart_of d' = uart_ready ∧ (∀ b, setup d' b = setup d b) ∧
    (∀ line, 0 ≤ line < 16 → line_masked d' line = if line =? 4 then false else line_masked d line) ∧
    handlers s' = <[Z.to_nat COM1_COM3_IRQ := (isr, gdev)]> (handlers s) ∧
    irq_semaphore s' = irq_semaphore s ∧ iflag s' = iflag s.
Proof using.
  intros Hr Hh. unfold init_x86_serial. destruct (uart_setup d) as (U1 & U2 & U3 & U4 & Hc).
  rewrite Z.add_0_r in U1, U2, U3, U4, Hc. unfold IE_REG_OFFSET, LINE_CNTL_REG_OFFSET, FIFO_CNTL_REG_OFFSET, MODEM_CNTL_REG_OFFSET.
  set (d1 := outb (COM1_PORT + 4) 0x0B _) in *.
  unfold IRQ_set_handler. change ((256 <? COM1_COM3_IRQ) || (COM1_COM3_IRQ <? 0)) with false. cbv iota.
  rewrite upd_Ok, !bind_Ok by (rewrite Hh; apply Nat.ltb_lt; reflexivity). set (s1 := mkIrqs _ _ _ _).
  assert (Hr1 : ready d1) by (intros b; rewrite Hc; apply Hr).
  destruct (clear_mask_line s1 d1 4 Hr1) as (v & E & S & M); [lia|].
  change (IRQ_clear_mask COM1_COM3_IRQ) with (IRQ_clear_mask (D := D) (4 + PIC_MASTER_REMAP_BASE)). rewrite E, bind_Ok. cbn [fst snd].
  eexists _, _. split; [done|]. unfold setup, line_masked in *. cbv zeta in *.
  split; [|split; [|split; [|done]]].
  - rewrite uart_out, uart_pic by lia. destruct (uart_of d1) as [ier lcr dv fcr mcr]. cbn in *. by subst.
  - intros b. rewrite !chip_uart by lia. rewrite S. by rewrite Hc.
  - intros line Hl. rewrite !chip_uart by lia. rewrite M by done. by rewrite Hc.
Qed.

(** C22: [HW_init] brings the hardware up.  The descriptor register covers a table
    with a null entry, a 64-bit code segment of ring 0 and the TSS, which the task
    register selects and which has the four interrupt stacks.  Both interrupt
    controllers have gone through the whole initialisation sequence and are
    operational, with vectors from 0x20 and 0x28, the slave on line 2, in 8086 mode;
    every line is masked but that of the serial port and the cascade, which keeps its
    mask.  The handler table holds the handlers of system calls and of the serial
    port and nothing else; interrupts are enabled.  The serial port runs at 38400
    baud, 8N1, and interrupts when it can transmit.  No other memory changes. *)
Theorem HW_init_ready (GDT tss GDTR s1 s2 s3 s4 : Z) (idt_init : D → D) (syscall_handler serial_isr gdev : Z) (m : mem) (t : dtables) (s : irqs) (d : D) :
  0 ≤ GDT < 18446744073709551616 → 0 ≤ tss < 18446744073709551616 → tables_apart GDT tss GDTR →
  (∀ b e, chip b (idt_init e) = chip b e) → ready d →
  ∃ m' t' s' d', HW_init GDT tss GDTR (s1, s2, s3, s4) idt_init syscall_handler serial_isr gdev m t s d = Ok (gdev, (m', t', s', d')) ∧
    (t' = mkDt 47 GDT 32 ∧ (∀ b, GDT ≤ b < GDT + 16 → rd8 m' b = 0) ∧ decode_user m' (GDT + 16) = mkSeg 0 0 8 1 0 1 0 1 0 0 ∧
     decode_sys m' (GDT + task_register t') = tss_desc tss sizeof_TSS GDT_SYS_TYPE_TSS ∧
     (∀ i x, [s1; s2; s3; s4] !! i = Some x → rd64 m' (tss_ist tss (Z.of_nat i)) = u64 x) ∧
     (∀ b, ¬ (GDT ≤ b < GDT + 48) → ¬ (tss ≤ b < tss + sizeof_TSS) → ¬ (GDTR ≤ b < GDTR + 10) → rd8 m' b = rd8 m b)) ∧
    setup d' false = (PicReady, 0x20, 4, 1) ∧ setup d' true = (PicReady, 0x28, 2, 1) ∧
    (∀ line, 0 ≤ line < 16 → line_masked d' line = if line =? 4 then false else if line =? 2 then line_masked d 2 else true) ∧
    handlers s' = <[Z.to_nat COM1_COM3_IRQ := (serial_isr, gdev)]>
      (<[Z.to_nat SYSCALL_TRAP_NUMBER := (syscall_handler, NULL)]> (replicate 256 (NULL, NULL))) ∧
    irq_at 0 s' ∧ uart_of d' = uart_ready.
Proof using.
  intros HG Ht Ha Hidt Hr. unfold HW_init. pose proof (init_gdt_tables GDT tss GDTR s1 s2 s3 s4 m t HG Ht Ha) as G.
  destruct (init_gdt GDT tss GDTR (s1, s2, s3, s4) m t) as [m' t']. destruct G as (G1 & G2 & G3 & G4 & G5 & _ & G7).
  destruct (IRQ_init_ready idt_init syscall_handler s d Hidt Hr) as (i1 & d1 & -> & S1 & S2 & M1 & H1 & I1). rewrite bind_Ok. cbn [fst snd].
  assert (Hr1 : ready d1) by (intros []; [injection S2|injection S1]; done).
  destruct (serial_ready serial_isr gdev i1 d1 Hr1) as (i2 & d2 & -> & U & S & M & H2 & I2 & I3).
  { rewrite H1, length_insert. by rewrite length_replicate. }
  rewrite bind_Ok. cbn [fst snd]. exists m', t', i2, d2. split; [done|]. split; [by split_and!|].
  rewrite !S. split; [done|]. split; [done|]. split; [intros line Hl; rewrite M, M1 by done; done|]. split; [by rewrite H2, H1|].
  split; [|done]. unfold irq_at in *. by rewrite I2, I3.
Qed.
End Platform.

(** ** Example: a machine as its firmware leaves it *)

Record demo_platform := mkPlat { pf_master : pic_chip; pf_slave : pic_chip; pf_uart : uart }.

#[export] Instance demo_platform_ports : PortIO demo_platform := {|
  port_in _ p d := (pc_imr (if p =? PIC_SLAVE_DATA then pf_slave d else pf_master d), d);
  port_out _ p v d :=
    let '(mkPlat a b u) := d in
    if p =? PIC_MASTER_COMMAND then mkPlat (pic_command v a) b u else if p =? PIC_SLAVE_COMMAND then mkPlat a (pic_command v b) u
    else if p =? PIC_MASTER_DATA then mkPlat (pic_data v a) b u else if p =? PIC_SLAVE_DATA then mkPlat a (pic_data v b) u
    else mkPlat a b (uart_write (p - COM1_PORT) v u)
|}.

Definition u8_chip (c : pic_chip) : pic_chip := mkPic (pc_phase c) (u8 (pc_imr c)) (pc_base c) (pc_cascade c) (pc_mode c).

Lemma demo_platform_cmd b v a s u :
  outb (pic_cmd_port b) v (mkPlat a s u) = if b then mkPlat a (pic_command (u8 v) s) u else mkPlat (pic_command (u8 v) a) s u.
Proof. by destruct b. Qed.

Lemma demo_platform_data b v a s u :
  outb (pic_data_port b) v (mkPlat a s u) = if b then mkPlat a (pic_data (u8 v) s) u else mkPlat (pic_data (u8 v) a) s u.
Proof. by destruct b. Qed.

Lemma demo_platform_com off v a s u : 0 ≤ off < 8 → outb (COM1_PORT + off) v (mkPlat a s u) = mkPlat a s (uart_write off (u8 v) u).
Proof.
  intros Ho. unfold outb, COM1_PORT. cbn -[u8 u16]. replace (u16 (0x3F8 + off)) with (0x3F8 + off) by (unfold u16; symmetry; apply Z.mod_small; lia).
  unfold PIC_MASTER_COMMAND, PIC_SLAVE_COMMAND, PIC_MASTER_DATA, PIC_SLAVE_DATA, COM1_PORT.
  rewrite !(proj2 (Z.eqb_neq (0x3F8 + off) _)) by lia. by rewrite Z.add_simpl_l.
Qed.

Lemma u8_chip_command v c : u8_chip (pic_command v c) = pic_command v (u8_chip c).
Proof. unfold pic_command. by destruct (Z.testbit v 4). Qed.

Lemma u8_chip_data v c : u8_chip (pic_data (u8 v) c) = pic_data (u8 v) (u8_chip c).
Proof. unfold pic_data, u8_chip. destruct c as [[] imr base cas mode]; cbn -[u8]; by rewrite ?u8_idem. Qed.

#[export] Instance demo_platform_pics : PicPair demo_platform.
Proof.
  refine {| chip b d := u8_chip (if b : bool then pf_slave d else pf_master d) |}.
  - intros b d. apply u8_range.
  - intros b b' v [a s u]. rewrite demo_platform_cmd. destruct b, b'; cbn [pf_master pf_slave Bool.eqb]; by rewrite ?u8_chip_command.
  - intros b b' v [a s u]. rewrite demo_platform_data. destruct b, b'; cbn [pf_master pf_slave Bool.eqb]; by rewrite ?u8_chip_data.
  - by intros [] [a s u] _.
Defined.

#[export] Instance demo_platform_uart : ComPort demo_platform.
Proof.
  refine {| uart_of := pf_uart |}.
  - intros off v [a s u] Ho. by rewrite demo_platform_com.
  - intros b v [a s u]. rewrite demo_platform_data. by destruct b.
  - intros b off v [a s u] Ho. by rewrite demo_platform_com.
Defined.

Definition demo_firmware : demo_platform :=
  mkPlat (mkPic PicReady 0xB8 8 4 1) (mkPic PicReady 0x8E 0x70 2 1) (mkUart 0 0x83 (1, 0) 0 0).

Lemma HW_init_ready_witness :
  ∃ m' t' s' d', HW_init 0x1000 0x2000 0x3000 (0x10000, 0x20000, 0x30000, 0x40000) (fun d => d) 0x5000 0x5100 0x6000 ∅ (mkDt 0 0 0)
      (mkIrqs [] 0 false []) demo_firmware = Ok (0x6000, (m', t', s', d')) ∧
    setup d' true = (PicReady, 0x28, 2, 1) ∧ line_masked d' 2 = false ∧ line_masked d' 4 = false ∧ line_masked d' 14 = true ∧ uart_of d' = uart_ready.
Proof.
  destruct (HW_init_ready 0x1000 0x2000 0x3000 0x10000 0x20000 0x30000 0x40000 (fun d => d) 0x5000 0x5100 0x6000 ∅ (mkDt 0 0 0)
    (mkIrqs [] 0 false []) demo_firmware) as (m' & t' & s' & d' & E & _ & _ & S & M & _ & _ & U).
  - lia.
  - lia.
  - unfold tables_apart, apart, sizeof_TSS. lia.
  - done.
  - by intros [].
  - exists m', t', s', d'. split; [done|]. split; [done|]. split; [rewrite M by lia; reflexivity|]. by split_and!; rewrite ?M by lia.
Defined.
